(* ===== verification/_CoqProject ===== *)
-Q . S2P
Prelude.v
Coro.v
Credits.v
Tasks.v
TaskLogic.v
SessionLogic.v
Resources.v
Protocol.v
Wire.v
Descriptor.v
Config.v
ServerState.v
Trace.v
Instances.v
ResultManager.v
GabrielServer.v
Dispatch.v
DispatchSpec.v
Metrics.v
InputSpec.v
ServerRunner.v
ResultSpec.v
RegistrySpec.v
GrpcServer.v
SessionSpec.v
WebsocketServer.v
ZeroMQServer.v
TokenInv.v
TokenSafety.v
Fairness.v
ServerCredits.v
Scenario.v
TransportSpec.v
Races.v
EngineRunner.v
EngineSession.v
LocalServer.v
LocalSpec.v
ServerLaunch.v
Construct.v
Models.v
ClientState.v
GabrielClient.v
GrpcClient.v
WebsocketClient.v
MeasurementClient.v
ZeroMQClient.v
ClientSession.v
ClientSafety.v
ClientCredits.v
ClientSessionSpec.v
ClientSpec.v
ClientMetrics.v
ClientScenario.v
Flow.v
System.v
SystemScenario.v
Services.v
Handshake.v
LinkSpec.v
PushSource.v
WaitRunning.v
Yuv.v
Examples.v
Messages.v
Scripts.v
