(* ===== verification/Prelude.v ===== *)
(** * Gabriel: a verification development

    Gabriel is a platform for cognitive assistance.  Clients send input frames
    to a server; the server hands them to cognitive engines and sends the
    results back.  Flow control is by tokens: a client starts with a number of
    tokens per input producer, spends one for each input it sends, and gets it
    back with the result.  This development models the Python implementation of
    the server, of the engine runner and of the clients, and proves what makes
    them correct.

    ** The program and its model

    The sources are [asyncio] programs, so the model is a model of coroutines
    over a shared mutable state.  [Coro] defines coroutines as a free monad
    (state, Python exceptions, external calls), two semantics for them, and a
    program logic:

    - [run] executes one coroutine from beginning to end against an environment
      that answers its external calls.  The functional specifications are
      stated with it: the outcome, the final state and the history of external
      calls, on every branch.
    - [step] is the event loop: any suspended coroutine may be resumed with any
      answer of its awaited call and runs up to its next await; new coroutines
      start at any time.  Invariants are proved of every state [reachable] by
      [step].  [play] executes a concrete schedule.
    - [safe] is a rely/guarantee logic for [step], in which the invariants are
      proved one coroutine at a time.

    [Credits] extends that logic to quantities that messages carry from one
    process to another: a coroutine holds a credit, gains one with a message it
    receives and pays with the message it sends, and the credits of all the
    coroutines of a process account for what it holds.

    [Tasks] adds what [asyncio] offers to run several coroutines and end them
    ([create_task], [cancel], [gather], [wait]): a supervisor and its tasks form
    a system whose states are [sys_reachable], with cancellations from outside
    at any await.  [TaskLogic] extends the logic to supervisors ([tsafe]),
    [SessionLogic] has its lemmas for the ways in which the sources end a
    session, and [Resources] follows what a coroutine has acquired and not yet
    released along all of its paths.

    The files, and the sources they model (paths under [src/]):

    - [Prelude]: exceptions, Python dictionaries (association lists that keep
      the order of insertion), deque rotation, counting; the scope, the hint
      database and the tactics.
    - [Protocol]: the messages of [protocol/proto/gabriel_protocol/v1/gabriel.proto].
      The class [Codec] is what the sources rely on of serialisation: a
      serialised message parses back to itself.  The class [PyEnv] has what
      Python leaves open (the iteration order of sets, the text of a
      representation in an error message).
    - [Wire]: the wire format of protocol buffers, as combinators for the fields
      of a message; [Descriptor]: the declarations of [gabriel.proto] and of the
      YUV example as data, what protoc makes of them, and the descriptors in
      [gabriel_pb2.py] and [yuv_pb2.py]; [Messages]: every message of the
      protocol in that format, the instance of [Codec] that the concrete runs
      use.
    - [ServerState], [Trace], [Instances]: the state of the server ([World],
      from [_Server.__init__] and [GabrielServer.__init__]) with its objects as
      stores indexed by identity, since workers, clients and producers are
      shared and mutated; its external calls; equations for sequential
      execution; concrete instances of the parameters for running the model.
    - [ResultManager] ([server/src/gabriel_server/result_manager.py]),
      [GabrielServer] ([server/src/gabriel_server/gabriel_server.py]): result
      sinks; client tokens, responses and the broadcast of engine ids, over the
      class [Transport] that stands for the abstract method
      [_send_via_transport].
    - [Dispatch] and [ServerRunner]
      ([server/src/gabriel_server/network_engine/server_runner.py]):
      [_EngineWorker] and [_ProducerInfo]; [_Server].
    - [GrpcServer], [WebsocketServer], [ZeroMQServer]: the three client
      transports ([grpc_server.py], [websocket_server.py], [zeromq_server.py]),
      each with its instance of [Transport] and of the law [TransportOk] that
      the clients of the class rely on.
    - [Services]: the stubs and servicers of
      [protocol/python/src/gabriel_protocol/v1/gabriel_pb2_grpc.py], over the
      class [GrpcLib] of what they use of the gRPC library; [Metrics]: the
      metrics that the server declares and their values; [Construct]: the
      constructors of the servers; [Models]: the table of [models.py].
    - [EngineRunner]: [network_engine/engine_runner.py]; [EngineSession]: the
      session and the life of the engine runner ([engine_loop], [run_async]);
      [LocalServer]: the engine process of [local_engine.py], and its server,
      which feeds that engine through a pipe.
    - [Config] ([server/main.py],
      [protocol/python/src/gabriel_protocol/tls_utils.py]) and [ServerLaunch]:
      the rest of [main], [ServerRunner], and how [_Server], [LocalEngine] and
      [_LocalServer] start and shut down.
    - [ClientState], [GabrielClient], [GrpcClient], [WebsocketClient],
      [ZeroMQClient]: the clients of [python-client/src/gabriel_client/], with
      the token pools, the input producers, registration, heartbeats and
      reconnection; [ClientSession]: their constructors, [launch_async] and
      [_run_session].
    - [ClientMetrics]: the metrics that [gabriel_client.py] declares and their
      values; [Scripts]: [scripts/check_python_compiles.py].
    - [WaitRunning]: the wait for a producer to run, a coroutine and the thread
      it awaits ([InputProducer._wait_for_running]).
    - [MeasurementClient] ([measurement_client.py]), [PushSource]
      ([push_source.py]), [Examples] ([opencv_adapter.py] and the programs under
      [examples/]), [Yuv] (the pictures of [examples/one_way_yuv/]).

    How code becomes definitions: a method is a definition of the same name
    without the leading underscore (with a prefix of the transport where several
    classes have it); an [await] on the outside world is an external call
    marked as suspending; [try]/[except]/[finally] are [try_except] and
    [try_finally]; an attribute of an object is a field of a record in a store.
    Logging is left out; updates of metrics are external calls.  Integer fields
    of messages keep their width where the code can exceed it ([in_int64] for
    frame ids, [in_int32] for the number of tokens).

    ** What is proved

    - [System] (C1, C2): the tasks of a session of a client, over any of the
      three transports, and all the coroutines of a server of the same transport,
      interleaved at every await, with any engines, any other clients, and
      messages that are delayed, reordered and lost.  The tokens in the pool of a
      producer, with those on their way and those of the inputs that the server
      holds, are never more than the number granted; so an input on its way finds
      a token at the server, and a token on its way back fits into the pool.
      [ServerCredits] and [ClientCredits] prove it of each side, in the logic of
      [Credits].
      [Flow] has what an input and a result do to the tokens of a session at the
      server, against the interface [EngineCallback] of the engine callback, which
      both servers implement.
    - [TokenInv], [TokenSafety] (C3 to C5): in every reachable state of the
      event loop, with any transport, any clients and any engines, the server
      never counts more tokens for a client than it granted, counting the inputs
      it holds; queues stay within their capacity; the registries of engines and
      clients are consistent.
    - [DispatchSpec] (C6): [send_next_input] refines a declarative rotation over
      the producers.  [Fairness] (C7): a producer that has something to send is
      served after at most as many turns as there are producers ahead of it,
      whatever the server does between the turns.
    - [InputSpec] (C8 to C10): the outcome of an input in each case: no engine,
      idle engines, busy engines with room in the queue or without.
    - [ResultSpec], [RegistrySpec] (C11 to C14, C37): sinks, results, disconnections,
      registration and removal of engines; a token is returned at most once.
    - [Messages] (C34): no message is taken for a heartbeat or a hello.  Further
      there and in [Descriptor]: the codecs are lossless, and the bytes in
      [gabriel_pb2.py] are the descriptor of [gabriel.proto].
    - [SessionSpec] (C15, C16, C36): the cost of an input, the broadcast of engine
      ids, and the lifetime of a session, against the interface [EngineCb] of
      the engine callback.
    - [TransportSpec] (C17): the three transports implement one specification of
      the treatment of a client's message.
    - [LocalSpec] (C18, C19): the local server, over either of its transports, meets
      the same interfaces, so its
      tokens are accounted for in every reachable state; every queued input is
      answered in turn with the engine's result for it.
    - [ClientSafety], [ClientSpec], [LinkSpec] (C20 to C23): token pools stay
      within their bounds in every reachable state of a client; frames are
      numbered consecutively on every transport; an input costs one token and a
      response returns at most one; before the registration is acknowledged a
      producer does nothing but wait.  Further theorems there: pools are never negative,
      heartbeats are not repeated, precedence of channel options.
    - [LocalServer] (C24), [EngineRunner] (C25, C35), [EngineSession] (C29): both
      runners report the same results; the retries count the failures since the last session that
      ended normally, and the runner gives up after them; inputs are answered
      once and in order; how a session ends.
    - [ClientSessionSpec] (C26 to C28): no task of a client outlives its
      session, the clean-up of a session ends, and which errors reach the caller
      of [launch_async].
    - [ServerLaunch] (C30, C31): the server shuts down in order, and what it
      releases of the ports, servers, sockets and endpoints it acquired, on every
      path; where something stays behind, the theorem says what and when.
    - [Handshake] (C32, C33): the streams a client opens find its session, and the
      grant of the server reaches the client; further there and in [Services]: the
      keepalive options of either side are permitted by the other, and the stubs
      of the services reach the methods of their servicers.
    - [MeasurementClient] (C38): what is printed is what happened.
    - [Yuv] (C39), [Examples]: the pictures of the examples arrive as they were
      meant, and which servers and clients of the examples fit together.
    - [Config], [PushSource], [WaitRunning], [Metrics], [ClientMetrics],
      [Construct], [Models], [Scripts]: credentials, endpoints, pushed frames; when
      the wait for a producer ends; every input is counted once, at either end,
      and the gauge of the tokens follows the pool; every transport constructs
      the same server; which values fit into the table; what the check of the
      Python files reports.
    - [Races], [ClientScenario], [ServerLaunch]: runs, each by a concrete
      schedule, in which an engine works on an input that does not target it, a
      token is lost, an engine is lost, a token pool exceeds its maximum, an
      error of a WebSocket client is hidden, a response is measured before its
      frame was logged, an engine process is left behind, and result sinks are
      not closed.

    [Scenario], [ClientScenario] and [SystemScenario] run the model on concrete
    clients and engines and instantiate the theorems there.

    ** Bounds and fuel

    Loops that end only when the outside world stops them ([while self._running]
    and the like) take a fuel that bounds their iterations; [for] loops over
    collections and streams are structural.  A loop that runs out of fuel stops
    with [NotReady], which is not a Python exception and no handler of the
    sources catches, so running out is never mistaken for a return.  The
    invariants hold for every fuel, hence for runs of any length; the theorems
    about what a loop achieves (C19, C25, C35) are stated for every
    fuel that is enough for it.  A wait (a lock, a semaphore, an event, a queue)
    is an external call after which the awaited condition is tested again;
    [NotReady] marks a resumption at which it does not hold.

    ** Not modelled

    The libraries the sources call (gRPC, websockets, ZeroMQ, OpenCV, NumPy,
    Prometheus, [argparse], the database library) are external calls or
    parameters.  So is the protobuf runtime: [Wire] models its documented wire
    format, and the other files assume only [Codec] of it.
    [_TokenPool.is_locked], which nothing calls, asks for the waiters of a
    semaphore, which the model does not keep.  The Go client and the tests are
    in other languages or run the program; of the examples, the drawing on the
    screen and the parsing of options are left out.  Times are integers and
    measured rates are rational numbers, where Python has floats.

    Cancellation of a task by its supervisor is modelled at every await of the
    clients, of the engine runner and of the server's launch; the coroutines
    that serve one client or one engine (also the handler and the consumers that
    the ZeroMQ server starts) are coroutines of [Coro], cancelled only where the
    sources react to it.  The [produce] method of the application, which the gRPC
    and WebSocket handlers await, is assumed to give way to a cancellation; the
    task in which a ZeroMQ handler runs it, and whose end that handler does not
    await, is a flag and an external call, not a task of the client's supervisor.

    [System] follows one session: a gRPC client opens a new one whenever it
    reconnects, a WebSocket client does not reconnect, and a ZeroMQ client is
    followed as long as it hears from the server.  A ZeroMQ client that
    reconnects keeps its pools and resets them, so tokens are not conserved
    across a reconnection (see [ClientScenario]). *)

From stdpp Require Export base tactics option list gmap strings.
From Stdlib Require Export ZArith Lia.

Declare Scope gabriel_scope.
Delimit Scope gabriel_scope with gabriel.
Open Scope gabriel_scope.
Open Scope Z_scope.

Create HintDb gabriel discriminated.

(** ** Python exceptions *)

(** The exception classes the sources raise, catch, or receive from the
    libraries they call.  The last two are not Python exceptions:
    [DanglingReference] marks the use of an object identity that was never
    allocated, and [NotReady] a wait that was resumed although what it waits
    for has not happened. *)
Inductive exn : Type :=
| KeyError
| IndexError
| ValueError (msg : string)
| AttributeError
| TypeError
| RuntimeError (msg : string)
| NotImplementedError (msg : string)
| PyException (msg : string)
| AssertionError
| ZeroDivisionError
| TimeoutError
| DecodeError
| ZMQError
| ConnectionClosed
| AioRpcError
| UsageError
| InvalidStateError
| StopIteration
| StopAsyncIteration
| EOFError
| DisconnectedError
| EngineHandlerError (msg : string)
| CancelledError
| KeyboardInterrupt
| DanglingReference
| NotReady.

#[export] Instance exn_eq_dec : EqDecision exn.
Proof. solve_decision. Defined.

(** [except Exception] catches every class except those deriving directly
    from [BaseException]. *)
Definition is_Exception (x : exn) : bool :=
  match x with
  | CancelledError | KeyboardInterrupt | DanglingReference | NotReady => false
  | _ => true
  end.

(** Truth value of an [Optional[bool]] attribute. *)
Definition truthy (b : option bool) : bool := default false b.

(** Truth value of an [Optional[str]] argument: [None] and [""] are false. *)
Definition truthy_str (s : option string) : bool :=
  match s with None | Some EmptyString => false | Some _ => true end.

(** ** Python dictionaries

    Iteration follows insertion order; assigning to a present key keeps the
    position of the key. *)

Section dict_ops.
Context {K V : Type} `{EqDecision K}.

(** [d.get(k)] *)
Fixpoint dict_get (k : K) (d : list (K * V)) : option V :=
  match d with
  | [] => None
  | (k', v) :: d' => if decide (k = k') then Some v else dict_get k d'
  end.

(** [d[k] = v] *)
Fixpoint dict_set (k : K) (v : V) (d : list (K * V)) : list (K * V) :=
  match d with
  | [] => [(k, v)]
  | (k', v') :: d' =>
      if decide (k = k') then (k', v) :: d' else (k', v') :: dict_set k v d'
  end.

(** [del d[k]], for a present key *)
Fixpoint dict_del (k : K) (d : list (K * V)) : list (K * V) :=
  match d with
  | [] => []
  | (k', v') :: d' =>
      if decide (k = k') then dict_del k d' else (k', v') :: dict_del k d'
  end.

Definition dict_keys (d : list (K * V)) : list K := map fst d.
Definition dict_values (d : list (K * V)) : list V := map snd d.
End dict_ops.

Abbreviation dict K V := (list (K * V)).

Notation "d .[ k ]" := (dict_get k d)
  (at level 1, k at level 200, left associativity, format "d .[ k ]") : gabriel_scope.
Notation "d .[ k <- v ]" := (dict_set k v d)
  (at level 1, k at level 200, v at level 200, left associativity,
   format "d .[ k  <-  v ]") : gabriel_scope.

Section dict_lemmas.
Context {K V : Type} `{EqDecision K}.
Implicit Types (d : list (K * V)) (k : K) (v : V).

Lemma dict_get_set_eq d k v : (d.[k <- v]).[k] = Some v.
Proof.
  induction d as [|[k' v'] d IH]; simpl; repeat (case_decide; simpl); congruence.
Qed.

Lemma dict_get_set_ne d k k' v : k <> k' -> (d.[k <- v]).[k'] = d.[k'].
Proof.
  intros Hne. induction d as [|[k0 v0] d IH]; simpl; repeat (case_decide; simpl); congruence.
Qed.

Lemma dict_get_set d k k' v :
  (d.[k <- v]).[k'] = if decide (k = k') then Some v else d.[k'].
Proof.
  case_decide as Hk; [subst; apply dict_get_set_eq | by apply dict_get_set_ne].
Qed.

Lemma dict_set_set d k v v' : (d.[k <- v]).[k <- v'] = d.[k <- v'].
Proof.
  induction d as [|[k0 v0] d IH]; simpl; repeat (case_decide; simpl); congruence.
Qed.

Lemma dict_set_same d k v : d.[k] = Some v -> d.[k <- v] = d.
Proof.
  induction d as [|[k0 v0] d IH]; simpl; [done|].
  case_decide; intros E; [by simplify_eq | by rewrite IH].
Qed.

Lemma dict_get_del_eq d k : (dict_del k d).[k] = None.
Proof.
  induction d as [|[k' v'] d IH]; simpl; repeat (case_decide; simpl); congruence.
Qed.

Lemma dict_get_del_ne d k k' : k <> k' -> (dict_del k d).[k'] = d.[k'].
Proof.
  intros Hne. induction d as [|[k0 v0] d IH]; simpl; repeat (case_decide; simpl); congruence.
Qed.

Lemma dict_get_del d k k' :
  (dict_del k d).[k'] = if decide (k = k') then None else d.[k'].
Proof.
  case_decide as Hk; [subst; apply dict_get_del_eq | by apply dict_get_del_ne].
Qed.

Lemma dict_get_del_Some d k k' v : (dict_del k d).[k'] = Some v -> d.[k'] = Some v.
Proof. rewrite dict_get_del. case_decide; congruence. Qed.

Lemma dict_del_set d k v : dict_del k (d.[k <- v]) = dict_del k d.
Proof.
  induction d as [|[k0 v0] d IH]; simpl; repeat (case_decide; simpl); congruence.
Qed.

Lemma dict_del_absent d k : d.[k] = None -> dict_del k d = d.
Proof.
  induction d as [|[k0 v0] d IH]; simpl; [done|]. case_decide; intros; [done | by rewrite IH].
Qed.

Lemma dict_get_Some_elem d k v : d.[k] = Some v -> (k, v) ∈ d.
Proof.
  induction d as [|[k' v'] d IH]; simpl; [done|].
  case_decide; intros; simplify_eq; set_solver.
Qed.

Lemma dict_get_keys d k : is_Some (d.[k]) <-> k ∈ dict_keys d.
Proof.
  unfold dict_keys. induction d as [|[k' v'] d IH]; simpl.
  - split; [by intros [? ?] | by intros ?%not_elem_of_nil].
  - case_decide; subst.
    + split; [left | eauto].
    + rewrite IH. rewrite elem_of_cons. naive_solver.
Qed.

Lemma dict_get_None d k : d.[k] = None <-> k ∉ dict_keys d.
Proof. rewrite <- dict_get_keys, <- eq_None_not_Some. done. Qed.

Lemma dict_keys_set_present d k v : is_Some (d.[k]) -> dict_keys (d.[k <- v]) = dict_keys d.
Proof.
  unfold dict_keys. intros [v0 Hv]. revert Hv.
  induction d as [|[k' v'] d IH]; simpl; [done|].
  case_decide; simpl; intros; [done | by rewrite IH].
Qed.

Lemma dict_set_absent d k v : d.[k] = None -> d.[k <- v] = d ++ [(k, v)].
Proof.
  induction d as [|[k' v'] d IH]; simpl; [done|].
  case_decide; simpl; intros; [done | by rewrite IH].
Qed.

Lemma dict_keys_set_absent d k v : d.[k] = None -> dict_keys (d.[k <- v]) = dict_keys d ++ [k].
Proof. intros Hk. unfold dict_keys. by rewrite dict_set_absent, map_app. Qed.

Lemma dict_keys_set_elem d k k' v : k' ∈ dict_keys (d.[k <- v]) <-> k' = k \/ k' ∈ dict_keys d.
Proof.
  rewrite <- !dict_get_keys, dict_get_set. case_decide; subst.
  - split; eauto.
  - naive_solver.
Qed.

Lemma dict_set_NoDup d k v : NoDup (dict_keys d) -> NoDup (dict_keys (d.[k <- v])).
Proof.
  intros Hd. destruct (d.[k]) eqn:Hk.
  - rewrite dict_keys_set_present; eauto.
  - rewrite dict_keys_set_absent by done. apply NoDup_app. split_and!; [done| |apply NoDup_singleton].
    intros x Hx ->%list_elem_of_singleton. by apply dict_get_None in Hk.
Qed.

Lemma dict_keys_del d k : dict_keys (dict_del k d) = filter (.≠ k) (dict_keys d).
Proof.
  unfold dict_keys. induction d as [|[k' v'] d IH]; simpl; [done|].
  rewrite filter_cons. repeat case_decide; subst; simpl; try congruence.
Qed.

Lemma dict_del_NoDup d k : NoDup (dict_keys d) -> NoDup (dict_keys (dict_del k d)).
Proof. rewrite dict_keys_del. apply NoDup_filter. Qed.

Lemma dict_elem_get d k v : NoDup (dict_keys d) -> (k, v) ∈ d -> d.[k] = Some v.
Proof.
  unfold dict_keys. induction d as [|[k' v'] d IH]; simpl; [intros _ ?%not_elem_of_nil; done|].
  rewrite NoDup_cons, elem_of_cons. intros [Hni Hnd] [Heq|Hin]; case_decide; simplify_eq; try done.
  - destruct Hni. apply list_elem_of_fmap. exists (k', v). eauto.
  - eauto.
Qed.
End dict_lemmas.

(** ** Deques *)

(** [deque.rotate(-1)] *)
Definition rotate_left {A} (l : list A) : list A :=
  match l with [] => [] | x :: l' => l' ++ [x] end.

Section rotate.
Context {A : Type}.
Implicit Types l : list A.

Lemma rotate_left_length l : length (rotate_left l) = length l.
Proof. destruct l; simpl; [done|]. rewrite length_app. simpl. lia. Qed.

Lemma rotate_left_perm l : rotate_left l ≡ₚ l.
Proof. destruct l as [|x l]; [done|]. simpl. by rewrite (comm (++)). Qed.

Lemma rotate_left_elem l x : x ∈ rotate_left l <-> x ∈ l.
Proof. by rewrite rotate_left_perm. Qed.

Lemma rotate_left_NoDup l : NoDup l -> NoDup (rotate_left l).
Proof. by rewrite rotate_left_perm. Qed.

Lemma rotate_left_inj l1 l2 : rotate_left l1 = rotate_left l2 -> l1 = l2.
Proof.
  destruct l1 as [|x1 l1], l2 as [|x2 l2]; simpl; intros E; [done| | |].
  - by destruct l2.
  - by destruct l1.
  - apply app_inj_tail in E as [-> ->]. done.
Qed.

Lemma iter_rotate_app l1 l2 : Nat.iter (length l1) rotate_left (l1 ++ l2) = l2 ++ l1.
Proof.
  revert l2. induction l1 as [|x l1 IH]; intros l2; [by rewrite app_nil_r|].
  cbn [length]. rewrite Nat.iter_succ_r. cbn [rotate_left app].
  rewrite <- (assoc_L (++)), IH, <- (assoc_L (++)). done.
Qed.

Lemma iter_rotate_full l : Nat.iter (length l) rotate_left l = l.
Proof. rewrite <- (app_nil_r l) at 2. rewrite iter_rotate_app. done. Qed.
End rotate.

(** The first element of a list without the decidable property [P]. *)
Lemma first_without {A} (P : A -> Prop) `{!forall x, Decision (P x)} (l : list A) :
  Forall P l \/ exists pre x post, l = pre ++ x :: post /\ Forall P pre /\ ~ P x.
Proof.
  induction l as [|y l IH]; [by left|].
  destruct (decide (P y)) as [Hy|Hy].
  - destruct IH as [IH|(pre & x & post & -> & Hpre & Hx)]; [by left; constructor|].
    right. exists (y :: pre), x, post. split_and!; [done|by constructor|done].
  - right. exists [], y, l. split_and!; [done|constructor|done].
Qed.

Lemma omap_none {A B} (f : A -> option B) (l : list A) :
  (forall x, x ∈ l -> f x = None) -> omap f l = [].
Proof.
  induction l as [|x l IH]; [done|]. intros Hf. cbn. rewrite Hf by left.
  apply IH. intros y Hy. apply Hf. by right.
Qed.

(** ** Counting *)

Definition countb {A} (f : A -> bool) (l : list A) : Z := Z.of_nat (length (List.filter f l)).

Section countb.
Context {A : Type}.
Implicit Types (f : A -> bool) (l : list A).

Lemma countb_app f l1 l2 : countb f (l1 ++ l2) = countb f l1 + countb f l2.
Proof. unfold countb. rewrite List.filter_app, length_app. lia. Qed.

Lemma countb_cons f x l : countb f (x :: l) = (if f x then 1 else 0) + countb f l.
Proof. unfold countb. simpl. destruct (f x); simpl; lia. Qed.

Lemma countb_nonneg f l : 0 <= countb f l.
Proof. unfold countb. lia. Qed.
End countb.

(** ** Sets *)

(** [x in s] as a boolean. *)
Definition set_mem `{Countable A} (x : A) (s : gset A) : bool := bool_decide (x ∈ s).

(** ** Tactics *)

(** Split every conjunction and existential among the hypotheses. *)
Ltac des :=
  repeat match goal with
  | H : _ /\ _ |- _ => destruct H
  | H : exists _, _ |- _ => destruct H
  | H : Some _ = Some _ |- _ => injection H as H
  | H : Some _ = None |- _ => discriminate H
  | H : None = Some _ |- _ => discriminate H
  end.

(** Case split on the scrutinee of a [match] of the goal, keeping the
    equation. *)
Ltac case_match_goal :=
  match goal with
  | |- context [match ?x with _ => _ end] => let H := fresh "Hm" in destruct x eqn:H
  end.

Lemma alter_lookup_insert {A} (l : list A) i g x : l !! i = Some x -> alter g i l = <[i := g x]> l.
Proof.
  intros Hx. apply list_eq. intros j. destruct (decide (i = j)) as [<-|Hj].
  - rewrite list_lookup_alter_eq, Hx, list_lookup_insert_eq; [done|]. by eapply lookup_lt_Some.
  - by rewrite list_lookup_alter_ne, list_lookup_insert_ne.
Qed.
