(* ===== verification/Coro.v ===== *)
(** * Coroutines

    The sources are [asyncio] programs: a handler is a coroutine that runs
    without preemption until it awaits an operation of the outside world (a
    stream write, a stream read, a lock, a timer), where the event loop may
    run other coroutines.  [prog] is the type of such coroutines: a free monad
    over a shared mutable state, Python exceptions and external calls.

    - [run] executes one coroutine to completion, without interleaving;
    - [step] is the event loop: any coroutine of a pool may be resumed up to
      its next suspension, and the environment may start new ones;
    - [safe] is a rely/guarantee logic for [step]: an invariant and a
      preorder of monotone facts hold at every suspension point
      ([step_safe], [reachable_inv]). *)

From S2P Require Import Prelude.

(** An effect signature: the external calls, the type of their answers, and
    whether the call is awaited (and may suspend the coroutine). *)
Record sig : Type := Sig {
  ev : Type;
  resp : ev -> Type;
  suspends : ev -> bool;
}.

Inductive prog (St : Type) (E : sig) (A : Type) : Type :=
| Ret (a : A)
| Throw (x : exn)
| Get (k : St -> prog St E A)
| Put (s : St) (k : prog St E A)
| Vis (e : ev E) (k : resp E e -> prog St E A).

Arguments Ret {St E A} _.
Arguments Throw {St E A} _.
Arguments Get {St E A} _.
Arguments Put {St E A} _ _.
Arguments Vis {St E A} _ _.

Section combinators.
Context {St : Type} {E : sig}.

Fixpoint prog_bind {A B} (f : A -> prog St E B) (p : prog St E A) : prog St E B :=
  match p with
  | Ret a => f a
  | Throw x => Throw x
  | Get k => Get (fun s => prog_bind f (k s))
  | Put s k => Put s (prog_bind f k)
  | Vis e k => Vis e (fun r => prog_bind f (k r))
  end.

#[export] Instance prog_mret : MRet (prog St E) := fun A a => Ret a.
#[export] Instance prog_mbind : MBind (prog St E) := fun A B f p => prog_bind f p.

(** Read and write access to the shared state. *)
Definition gets {A} (f : St -> A) : prog St E A := Get (fun s => Ret (f s)).
Definition modify (f : St -> St) : prog St E unit := Get (fun s => Put (f s) (Ret tt)).

(** An external call. *)
Definition call (e : ev E) : prog St E (resp E e) := Vis e Ret.

(** The answer of an external call that may raise. *)
Definition raise {A} (r : A + exn) : prog St E A :=
  match r with inl a => Ret a | inr x => Throw x end.

(** [x = d[k]]: the value, or the given exception. *)
Definition of_option {A} (x : exn) (o : option A) : prog St E A :=
  match o with Some a => Ret a | None => Throw x end.

(** [try: p  except: h], where [h] re-raises what it does not catch. *)
Fixpoint try_except {A} (p : prog St E A) (h : exn -> prog St E A) : prog St E A :=
  match p with
  | Ret a => Ret a
  | Throw x => h x
  | Get k => Get (fun s => try_except (k s) h)
  | Put s k => Put s (try_except k h)
  | Vis e k => Vis e (fun r => try_except (k r) h)
  end.

(** [try: p  finally: q] *)
Fixpoint try_finally {A} (p : prog St E A) (q : prog St E unit) : prog St E A :=
  match p with
  | Ret a => q ≫= fun _ => Ret a
  | Throw x => q ≫= fun _ => Throw x
  | Get k => Get (fun s => try_finally (k s) q)
  | Put s k => Put s (try_finally k q)
  | Vis e k => Vis e (fun r => try_finally (k r) q)
  end.

(** [for x in l: body(x)] *)
Fixpoint for_each {X} (l : list X) (body : X -> prog St E unit) : prog St E unit :=
  match l with
  | [] => Ret tt
  | x :: l' => body x ≫= fun _ => for_each l' body
  end.

(** Await the next element of an asynchronous iterator: [false] when it is
    exhausted. *)
Definition anext (next : prog St E unit) : prog St E bool :=
  try_except (next ≫= fun _ => Ret true)
    (fun x => match x with StopAsyncIteration => Ret false | _ => Throw x end).

(** [async for m in stream: body(m)]: the stream delivers [ms], unless it
    ends or fails before; [next] is the await of the next element, given what
    it is. *)
Fixpoint async_for {X} (next : option X -> prog St E unit) (ms : list X)
    (body : X -> prog St E unit) : prog St E unit :=
  anext (next (head ms)) ≫= fun (more : bool) =>
  if more then
    match ms with
    | [] => Ret tt
    | m :: ms' => body m ≫= fun _ => async_for next ms' body
    end
  else Ret tt.
End combinators.

(** ** Execution without interleaving *)

Section run.
Context {St : Type} {E : sig}.

(** The calls made so far with their answers. *)
Definition history := list { e : ev E & resp E e }.

Context (env : history -> forall e : ev E, resp E e).

Fixpoint run {A} (p : prog St E A) (s : St) (h : history) : (A + exn) * St * history :=
  match p with
  | Ret a => (inl a, s, h)
  | Throw x => (inr x, s, h)
  | Get k => run (k s) s h
  | Put s' k => run k s' h
  | Vis e k => let r := env h e in run (k r) s (h ++ [existT e r])
  end.

Lemma run_bind {A B} (p : prog St E A) (f : A -> prog St E B) s h :
  run (p ≫= f) s h =
  match run p s h with
  | (inl a, s', h') => run (f a) s' h'
  | (inr x, s', h') => (inr x, s', h')
  end.
Proof.
  unfold mbind, prog_mbind. revert s h.
  induction p; intros; simpl; auto.
Qed.

Lemma run_assoc {A B C} (p : prog St E A) (f : A -> prog St E B) (g : B -> prog St E C) s h :
  run ((p ≫= f) ≫= g) s h = run (p ≫= fun a => f a ≫= g) s h.
Proof.
  rewrite !run_bind. destruct (run p s h) as [[[a|x] s'] h']; [|done]. by rewrite run_bind.
Qed.

Lemma run_try_except {A} (p : prog St E A) hd s h :
  run (try_except p hd) s h =
  match run p s h with
  | (inl a, s', h') => (inl a, s', h')
  | (inr x, s', h') => run (hd x) s' h'
  end.
Proof. revert s h. induction p; intros; simpl; auto. Qed.

Lemma run_try_finally {A} (p : prog St E A) q s h :
  run (try_finally p q) s h =
  match run p s h with
  | (r, s', h') =>
      match run q s' h' with
      | (inl _, s'', h'') => (r, s'', h'')
      | (inr x, s'', h'') => (inr x, s'', h'')
      end
  end.
Proof.
  revert s h. induction p; intros; simpl; auto.
  all: rewrite run_bind; by destruct (run q s h) as [[[|] ?] ?].
Qed.
End run.

Arguments history E : clear implicits.

(** ** Programs that make no call of some kind *)

Section avoids.
Context {St : Type} {E : sig} (bad : ev E -> bool).

Fixpoint avoids {A} (p : prog St E A) : Prop :=
  match p with
  | Ret _ | Throw _ => True
  | Get k => forall s, avoids (k s)
  | Put _ k => avoids k
  | Vis e k => bad e = false /\ forall r, avoids (k r)
  end.

Lemma avoids_bind {A B} (p : prog St E A) (f : A -> prog St E B) :
  avoids p -> (forall a, avoids (f a)) -> avoids (p ≫= f).
Proof.
  unfold mbind, prog_mbind. intros Hp Hf. induction p as [| |k IH|s k IH|e k IH]; simpl in *; auto.
  destruct Hp. auto.
Qed.

Lemma avoids_try_except {A} (p : prog St E A) h :
  avoids p -> (forall x, avoids (h x)) -> avoids (try_except p h).
Proof.
  intros Hp Hf. induction p as [| |k IH|s k IH|e k IH]; simpl in *; auto. destruct Hp. auto.
Qed.

Lemma avoids_call e : bad e = false -> avoids (call e).
Proof. simpl. auto. Qed.

Lemma avoids_raise {A} (r : A + exn) : avoids (raise r).
Proof. by destruct r. Qed.

Lemma avoids_of_option {A} x (o : option A) : avoids (of_option x o).
Proof. by destruct o. Qed.

(** The calls of a run are among those the program does not avoid. *)
Lemma run_avoids {A} env (p : prog St E A) s h o s' h' :
  avoids p -> run env p s h = (o, s', h') ->
  exists hs, h' = h ++ hs /\ Forall (fun x => bad (projT1 x) = false) hs.
Proof.
  revert s h. induction p as [| |k IH|s1 k IH|e k IH]; simpl; intros s h Hp Hr.
  - exists []. rewrite app_nil_r. split; [congruence|constructor].
  - exists []. rewrite app_nil_r. split; [congruence|constructor].
  - eauto.
  - eauto.
  - destruct Hp as [He Hp]. destruct (IH _ _ _ (Hp _) Hr) as (hs & -> & Hh).
    exists (existT e (env h e) :: hs). split; [by rewrite <- (assoc_L (++))|]. by constructor.
Qed.
End avoids.

(** Structural proof of [avoids]. *)
Ltac avoid :=
  repeat first
    [ done
    | apply avoids_raise | apply avoids_of_option
    | match goal with
      | |- avoids _ (mbind _ _) => apply avoids_bind; [|intros]
      | |- avoids _ (try_except _ _) => apply avoids_try_except; [|intros]
      | |- avoids _ (match ?x with _ => _ end) => destruct x
      end ].

(** ** The event loop *)

Section loop.
Context {St : Type} {E : sig}.

(** The coroutines the environment may start. *)
Context (spawnable : prog St E unit -> Prop).

Record pool : Type := Pool {
  p_state : St;
  p_tasks : list (prog St E unit);
}.

(** A coroutine that stands at an awaited call. *)
Definition suspended {A} (p : prog St E A) : bool :=
  match p with Vis e _ => suspends E e | _ => false end.

(** Run up to the next suspension, or to the end. *)
Inductive segment : St -> prog St E unit -> St -> prog St E unit -> Prop :=
| seg_ret s : segment s (Ret tt) s (Ret tt)
| seg_throw s x : segment s (Throw x) s (Throw x)
| seg_susp s e k : suspends E e = true -> segment s (Vis e k) s (Vis e k)
| seg_get s k s' p' : segment s (k s) s' p' -> segment s (Get k) s' p'
| seg_put s s1 k s' p' : segment s1 k s' p' -> segment s (Put s1 k) s' p'
| seg_vis s e k r s' p' :
    suspends E e = false -> segment s (k r) s' p' -> segment s (Vis e k) s' p'.

(** What the first operation of a segment is. *)
Lemma segment_inv s p s' p' :
  segment s p s' p' ->
  match p with
  | Ret _ | Throw _ => s' = s /\ p' = p
  | Get k => segment s (k s) s' p'
  | Put s1 k => segment s1 k s' p'
  | Vis e k => if suspends E e then s' = s /\ p' = p else exists r, segment s (k r) s' p'
  end.
Proof. destruct 1 as [| |s e k He| | |s e k r s' p' He]; try done; rewrite He; eauto. Qed.

(** The awaited call of a suspended coroutine is answered; a fresh
    coroutine starts. *)
Inductive resume : prog St E unit -> prog St E unit -> Prop :=
| resume_start p : suspended p = false -> resume p p
| resume_answer e k r : suspends E e = true -> resume (Vis e k) (k r).

(** What a coroutine goes on with. *)
Lemma resume_inv p q :
  resume p q ->
  match p with
  | Vis e k => if suspends E e then exists r, q = k r else q = p
  | _ => q = p
  end.
Proof. destruct 1 as [[| | | |e k] Hp|e k r He]; simpl in *; rewrite ?Hp, ?He; eauto. Qed.

Inductive step : pool -> pool -> Prop :=
| step_task s ts i p q s' p' :
    ts !! i = Some p -> resume p q -> segment s q s' p' ->
    step (Pool s ts) (Pool s' (<[i := p']> ts))
| step_spawn s ts p :
    spawnable p -> step (Pool s ts) (Pool s (ts ++ [p])).

Inductive reachable (s0 : St) : pool -> Prop :=
| reach_init : reachable s0 (Pool s0 [])
| reach_step c c' : reachable s0 c -> step c c' -> reachable s0 c'.
End loop.

Arguments pool St E : clear implicits.

(** *** Executable schedules

    A schedule starts coroutines and resumes them; the environment answers the
    calls.  What it reaches is [reachable]. *)

Section schedule.
Context {St : Type} {E : sig}.
Context (env : history E -> forall e : ev E, resp E e).

Inductive action : Type :=
| Spawn (p : prog St E unit)
| Tick (i : nat).

Fixpoint run_segment (p : prog St E unit) (s : St) (h : history E)
    : prog St E unit * St * history E :=
  match p with
  | Ret a => (Ret a, s, h)
  | Throw x => (Throw x, s, h)
  | Get k => run_segment (k s) s h
  | Put s' k => run_segment k s' h
  | Vis e k =>
      if suspends E e then (Vis e k, s, h)
      else let r := env h e in run_segment (k r) s (h ++ [existT e r])
  end.

Definition answer (p : prog St E unit) (h : history E) : prog St E unit * history E :=
  match p with
  | Vis e k =>
      if suspends E e then let r := env h e in (k r, h ++ [existT e r]) else (p, h)
  | _ => (p, h)
  end.

Definition act (a : action) (c : pool St E * history E) : pool St E * history E :=
  let '(Pool s ts, h) := c in
  match a with
  | Spawn p => (Pool s (ts ++ [p]), h)
  | Tick i =>
      match ts !! i with
      | None => (Pool s ts, h)
      | Some p =>
          let '(q, h1) := answer p h in
          let '(p', s', h2) := run_segment q s h1 in
          (Pool s' (<[i := p']> ts), h2)
      end
  end.

Definition play (s0 : St) (l : list action) : pool St E * history E :=
  fold_left (fun c a => act a c) l (Pool s0 [], []).

Lemma run_segment_segment p s h p' s' h' :
  run_segment p s h = (p', s', h') -> segment s p s' p'.
Proof.
  revert s h. induction p as [[]|x|k IH|s1 k IH|e k IH]; simpl; intros s h Hr.
  - simplify_eq. constructor.
  - simplify_eq. constructor.
  - constructor. eauto.
  - constructor. eauto.
  - destruct (suspends E e) eqn:He; [simplify_eq; by constructor|].
    eapply seg_vis; eauto.
Qed.

Lemma answer_resume p h q h' : answer p h = (q, h') -> resume p q.
Proof.
  destruct p as [| | | |e k]; simpl; try (intros; simplify_eq; by constructor).
  destruct (suspends E e) eqn:He; intros; simplify_eq; by constructor.
Qed.

Lemma play_reachable (spawnable : prog St E unit -> Prop) s0 l :
  Forall (fun a => match a with Spawn p => spawnable p | Tick _ => True end) l ->
  reachable spawnable s0 (play s0 l).1.
Proof.
  intros Hl. unfold play.
  assert (forall c, reachable spawnable s0 c.1 ->
            reachable spawnable s0 (fold_left (fun c a => act a c) l c).1) as Haux;
    [|apply Haux; constructor].
  induction Hl as [|a l Ha Hl IH]; simpl; intros c Hc; [done|]. apply IH.
  destruct c as [[s ts] h]. simpl in *. destruct a as [p|i]; simpl.
  - eapply reach_step; [exact Hc|]. by constructor.
  - destruct (ts !! i) as [p|] eqn:Hi; [|done].
    destruct (answer p h) as [q h1] eqn:Hq.
    destruct (run_segment q s h1) as [[p' s'] h2] eqn:Hr. simpl.
    eapply reach_step; [exact Hc|].
    econstructor; eauto using answer_resume, run_segment_segment.
Qed.
End schedule.

(** ** A rely/guarantee logic for the event loop *)

Section safe.
Context {St : Type} {E : sig}.

(** The invariant, and the preorder relating the state at a point to the
    state at any later point. *)
Context (I : St -> Prop) (G : St -> St -> Prop).
Context `{!PreOrder G}.

(** [safe p Q s0 s]: [p], running in state [s] within a segment that
    started in [s0], restores [I] and [G] at every suspension whatever the
    other coroutines do meanwhile, and ends with [Q]. *)
Fixpoint safe {A} (p : prog St E A) (Q : A + exn -> St -> St -> Prop) (s0 s : St) : Prop :=
  match p with
  | Ret a => Q (inl a) s0 s
  | Throw x => Q (inr x) s0 s
  | Get k => safe (k s) Q s0 s
  | Put s' k => safe k Q s0 s'
  | Vis e k =>
      if suspends E e then
        I s /\ G s0 s /\ forall r s', I s' -> G s s' -> safe (k r) Q s' s'
      else forall r, safe (k r) Q s0 s
  end.

(** The postcondition of a whole coroutine. *)
Definition settled {A} (_ : A + exn) (s0 s : St) : Prop := I s /\ G s0 s.

Lemma safe_mono {A} (p : prog St E A) (Q Q' : A + exn -> St -> St -> Prop) s0 s :
  (forall o s0 s, Q o s0 s -> Q' o s0 s) -> safe p Q s0 s -> safe p Q' s0 s.
Proof.
  intros HQ. revert s0 s. induction p as [| |k IH|s' k IH|e k IH]; simpl; intros s0 s; auto.
  destruct (suspends E e); [|by eauto].
  intros (HI & HG & Hk). split_and!; auto.
Qed.

Lemma safe_bind {A B} (p : prog St E A) (f : A -> prog St E B) Q s0 s :
  safe p (fun o s0 s => match o with
                        | inl a => safe (f a) Q s0 s
                        | inr x => Q (inr x) s0 s
                        end) s0 s ->
  safe (p ≫= f) Q s0 s.
Proof.
  unfold mbind, prog_mbind. revert s0 s.
  induction p as [| |k IH|s' k IH|e k IH]; simpl; intros s0 s; auto.
  destruct (suspends E e); [|by eauto].
  intros (HI & HG & Hk). split_and!; auto.
Qed.

Lemma safe_try_except {A} (p : prog St E A) h Q s0 s :
  safe p (fun o s0 s => match o with
                        | inl a => Q (inl a) s0 s
                        | inr x => safe (h x) Q s0 s
                        end) s0 s ->
  safe (try_except p h) Q s0 s.
Proof.
  revert s0 s. induction p as [| |k IH|s' k IH|e k IH]; simpl; intros s0 s; auto.
  destruct (suspends E e); [|by eauto].
  intros (HI & HG & Hk). split_and!; auto.
Qed.

Lemma safe_try_finally {A} (p : prog St E A) q Q s0 s :
  safe p (fun o s0 s =>
            safe q (fun o' s0 s => match o' with
                                   | inl _ => Q o s0 s
                                   | inr x => Q (inr x) s0 s
                                   end) s0 s) s0 s ->
  safe (try_finally p q) Q s0 s.
Proof.
  revert s0 s. induction p as [| |k IH|s' k IH|e k IH]; simpl; intros s0 s Hs; auto.
  1,2: apply safe_bind; revert Hs; apply safe_mono; by intros [[]|].
  destruct (suspends E e); [|by eauto].
  destruct Hs as (HI & HG & Hk). split_and!; auto.
Qed.

(** A loop keeps a loop invariant [L] that holds between iterations. *)
Lemma safe_for_each {X} (l : list X) (body : X -> prog St E unit)
    (L : St -> St -> Prop) (Q : unit + exn -> St -> St -> Prop) s0 s :
  (forall x s0 s, x ∈ l -> L s0 s ->
     safe (body x) (fun o s0 s => match o with inl _ => L s0 s | inr y => Q (inr y) s0 s end) s0 s) ->
  (forall s0 s, L s0 s -> Q (inl tt) s0 s) ->
  L s0 s -> safe (for_each l body) Q s0 s.
Proof.
  revert s0 s. induction l as [|x l IH]; simpl; intros s0 s Hb HQ HL; [auto|].
  apply safe_bind. eapply safe_mono; [|apply Hb; [left|done]].
  intros [[]|y] s1 s2 H2; [|done]. apply IH; auto.
  intros; apply Hb; [by right | done].
Qed.

Lemma safe_async_for {X} (next : option X -> prog St E unit) (ms : list X) (body : X -> prog St E unit)
    (Q : unit + exn -> St -> St -> Prop) (L : St -> St -> Prop) s0 s :
  (forall m s0 s, L s0 s -> safe (next m) (fun _ s0 s => L s0 s) s0 s) ->
  (forall x s0 s, L s0 s ->
     safe (body x) (fun o s0 s => match o with inl _ => L s0 s | inr y => Q (inr y) s0 s end) s0 s) ->
  (forall o s0 s, L s0 s -> Q o s0 s) ->
  L s0 s -> safe (async_for next ms body) Q s0 s.
Proof.
  intros Hn Hb HQ. revert s0 s.
  assert (forall m s0 s, L s0 s -> safe (anext (next m)) (fun _ s0 s => L s0 s) s0 s) as Ha.
  { intros m s0 s HL. apply safe_try_except, safe_bind. eapply safe_mono; [|by apply Hn].
    intros [[]|x] s1 s2 H2; [done|]. by destruct x. }
  induction ms as [|m ms IH]; simpl; intros s0 s HL;
    (apply safe_bind; eapply safe_mono; [|by apply Ha]);
    intros [[]|x] s1 s2 H2; simpl; auto.
  apply safe_bind. eapply safe_mono; [|by apply Hb].
  intros [[]|y] s3 s4 H4; [|done]. by apply IH.
Qed.

(** A coroutine that restores the invariant and the order at its end also
    keeps any fact [P] stable under the order. *)
Lemma safe_keep {A} (p : prog St E A) (P : St -> Prop) s0 s :
  (forall s s', P s -> G s s' -> P s') ->
  safe p settled s s -> G s0 s -> P s ->
  safe p (fun _ s0 s => I s /\ G s0 s /\ P s) s0 s.
Proof.
  intros HP Hp HG HPs.
  assert (forall s1 s2, safe p settled s1 s2 -> G s0 s1 -> P s1 ->
            safe p (fun _ s0 s => I s /\ G s0 s /\ P s) s0 s2) as Haux; [|by eauto].
  clear s Hp HG HPs. revert s0.
  induction p as [| |k IH|s' k IH|e k IH]; simpl; intros s0 s1 s2 Hp HG HPs; eauto.
  - destruct Hp as [HI HG']. split_and!; [done|by etransitivity|eauto].
  - destruct Hp as [HI HG']. split_and!; [done|by etransitivity|eauto].
  - destruct (suspends E e); [|by eauto]. destruct Hp as (HI & HG' & Hk).
    split_and!; [done|by etransitivity|]. intros r s' HI' HG''.
    eapply IH; [by apply Hk|reflexivity|eauto].
Qed.

(** *** Programs that keep the invariant *)

Definition at_rest (s0 s : St) : Prop := I s /\ G s0 s.

Definition keeps {A} (p : prog St E A) : Prop :=
  forall s0 s, at_rest s0 s -> safe p (fun _ s0 s => at_rest s0 s) s0 s.

Lemma keeps_ret {A} (a : A) : keeps (Ret a).
Proof. intros s0 s H. done. Qed.

Lemma keeps_throw {A} x : keeps (Throw x : prog St E A).
Proof. intros s0 s H. done. Qed.

Lemma keeps_bind {A B} (p : prog St E A) (f : A -> prog St E B) :
  keeps p -> (forall a, keeps (f a)) -> keeps (p ≫= f).
Proof.
  intros Hp Hf s0 s H. apply safe_bind. eapply safe_mono; [|by apply Hp].
  intros [a|x] s1 s2 H2; [by apply Hf | done].
Qed.

Lemma keeps_try_except {A} (p : prog St E A) h :
  keeps p -> (forall x, keeps (h x)) -> keeps (try_except p h).
Proof.
  intros Hp Hf s0 s H. apply safe_try_except. eapply safe_mono; [|by apply Hp].
  intros [a|x] s1 s2 H2; [done | by apply Hf].
Qed.

Lemma keeps_try_finally {A} (p : prog St E A) q : keeps p -> keeps q -> keeps (try_finally p q).
Proof.
  intros Hp Hq s0 s H. apply safe_try_finally. eapply safe_mono; [|by apply Hp].
  intros o s1 s2 H2. eapply safe_mono; [|by apply Hq]. by intros [].
Qed.

Lemma keeps_for_each {X} (l : list X) body : (forall x, keeps (body x)) -> keeps (for_each l body).
Proof. intros Hb. induction l as [|x l IH]; [apply keeps_ret|]. by apply keeps_bind. Qed.

Lemma keeps_async_for {X} next (ms : list X) body :
  (forall m, keeps (next m)) -> (forall x, keeps (body x)) -> keeps (async_for next ms body).
Proof.
  intros Hn Hb s0 s H. eapply safe_async_for with (L := at_rest); eauto.
  intros x s1 s2 H2. eapply safe_mono; [|by apply Hb]. by intros [].
Qed.

Lemma keeps_gets {A} (f : St -> A) : keeps (gets f).
Proof. intros s0 s H. done. Qed.

Lemma keeps_of_option {A} x (o : option A) : keeps (of_option x o).
Proof. by destruct o; intros s0 s H. Qed.

Lemma keeps_raise {A} (r : A + exn) : keeps (raise r).
Proof. by destruct r; intros s0 s H. Qed.

Lemma keeps_call e : keeps (call e).
Proof.
  intros s0 s [HI HG]. simpl. destruct (suspends E e); [|by intros].
  split_and!; [done|done|]. intros r s' HI' HG'. split; [done|reflexivity].
Qed.

Lemma keeps_modify g :
  (forall s, I s -> I (g s)) -> (forall s0 s, G s0 s -> G s0 (g s)) -> keeps (modify g).
Proof. intros H1 H2 s0 s [HI HG]. split; auto. Qed.

Lemma keeps_anext next : keeps next -> keeps (anext next).
Proof.
  intros Hn. apply keeps_try_except.
  - apply keeps_bind; [done|]. intros; apply keeps_ret.
  - intros x. destruct x; apply keeps_ret || apply keeps_throw.
Qed.

(** *** Programs that do not write the state *)

Fixpoint readonly {A} (p : prog St E A) : Prop :=
  match p with
  | Ret _ | Throw _ => True
  | Get k => forall s, readonly (k s)
  | Put _ _ => False
  | Vis _ k => forall r, readonly (k r)
  end.

Lemma readonly_bind {A B} (p : prog St E A) (f : A -> prog St E B) :
  readonly p -> (forall a, readonly (f a)) -> readonly (p ≫= f).
Proof.
  unfold mbind, prog_mbind. intros Hp Hf.
  induction p as [| |k IH|s' k IH|e k IH]; simpl in *; auto.
Qed.

Lemma readonly_try_except {A} (p : prog St E A) h :
  readonly p -> (forall x, readonly (h x)) -> readonly (try_except p h).
Proof.
  intros Hp Hf. induction p as [| |k IH|s' k IH|e k IH]; simpl in *; auto.
Qed.

Lemma readonly_for_each {X} (l : list X) body :
  (forall x, readonly (body x)) -> readonly (for_each l body).
Proof.
  intros Hb. induction l as [|x l IH]; simpl; [done|]. by apply readonly_bind.
Qed.

(** A read-only coroutine keeps the invariant, and any fact [P] that is
    stable under [G]. *)
Lemma safe_readonly {A} (p : prog St E A) (P : St -> Prop) (Q : A + exn -> St -> St -> Prop) s0 s :
  readonly p ->
  (forall s s', P s -> G s s' -> P s') ->
  (forall o s0 s, I s -> G s0 s -> P s -> Q o s0 s) ->
  I s -> G s0 s -> P s -> safe p Q s0 s.
Proof.
  intros Hp HP HQ. revert s0 s. induction p as [| |k IH|s' k IH|e k IH]; simpl in *; auto.
  - contradiction.
  - intros s0 s HI HG HPs. destruct (suspends E e); [|by auto].
    split_and!; auto. intros r s' HI' HG'. apply IH; eauto. reflexivity.
Qed.

(** *** Programs that do not change a view of the state *)

Section preserves.
Context {V : Type} (view : St -> V).

(** [p], started in [s], leaves [view] unchanged between suspensions. *)
Fixpoint preserves {A} (p : prog St E A) (s : St) : Prop :=
  match p with
  | Ret _ | Throw _ => True
  | Get k => preserves (k s) s
  | Put s' k => view s' = view s /\ preserves k s'
  | Vis e k =>
      if suspends E e then forall r s', preserves (k r) s'
      else forall r, preserves (k r) s
  end.

Lemma preserves_bind {A B} (p : prog St E A) (f : A -> prog St E B) s :
  preserves p s -> (forall a s', preserves (f a) s') -> preserves (p ≫= f) s.
Proof.
  unfold mbind, prog_mbind. revert s.
  induction p as [| |k IH|s' k IH|e k IH]; simpl; intros s Hp Hf; auto.
  - destruct Hp; auto.
  - destruct (suspends E e); auto.
Qed.

Lemma preserves_try_except {A} (p : prog St E A) h s :
  preserves p s -> (forall x s', preserves (h x) s') -> preserves (try_except p h) s.
Proof.
  revert s. induction p as [| |k IH|s' k IH|e k IH]; simpl; intros s Hp Hf; auto.
  - destruct Hp; auto.
  - destruct (suspends E e); auto.
Qed.

Lemma preserves_for_each {X} (l : list X) body s :
  (forall x s, preserves (body x) s) -> preserves (for_each l body) s.
Proof.
  intros Hb. revert s. induction l as [|x l IH]; simpl; intros s; [done|].
  by apply preserves_bind.
Qed.

Lemma preserves_try_finally {A} (p : prog St E A) q s :
  preserves p s -> (forall s', preserves q s') -> preserves (try_finally p q) s.
Proof.
  intros Hp Hq. revert s Hp.
  induction p as [| |k IH|s' k IH|e k IH]; simpl; intros s Hp; auto.
  1,2: by apply preserves_bind.
  - destruct Hp; auto.
  - destruct (suspends E e); auto.
Qed.

Lemma preserves_anext next s : (forall s, preserves next s) -> preserves (anext next) s.
Proof.
  intros Hn. apply preserves_try_except; [by apply preserves_bind|].
  intros x s'. by destruct x.
Qed.

Lemma preserves_async_for {X} next (ms : list X) body s :
  (forall m s, preserves (next m) s) -> (forall x s, preserves (body x) s) ->
  preserves (async_for next ms body) s.
Proof.
  intros Hn Hb. revert s.
  induction ms as [|m ms IH]; intros s; cbn -[mbind anext];
    (apply preserves_bind; [by apply preserves_anext|]); intros [|] s'; try done.
  apply preserves_bind; [apply Hb|]. by intros.
Qed.

Lemma readonly_preserves {A} (p : prog St E A) s : readonly p -> preserves p s.
Proof.
  revert s. induction p as [| |k IH|s' k IH|e k IH]; simpl; intros s Hp; auto.
  - done.
  - destruct (suspends E e); auto.
Qed.

Lemma preserves_gets {A} (f : St -> A) s : preserves (gets f) s.
Proof. done. Qed.

Lemma preserves_of_option {A} x (o : option A) s : preserves (of_option x o) s.
Proof. by destruct o. Qed.

Lemma preserves_raise {A} (r : A + exn) s : preserves (raise r) s.
Proof. by destruct r. Qed.

Lemma preserves_call e s : preserves (call e) s.
Proof. simpl. by destruct (suspends E e). Qed.

Lemma preserves_modify g s : (forall s, view (g s) = view s) -> preserves (modify g) s.
Proof. simpl. auto. Qed.

(** When the invariant and the preorder depend on the view only, such a
    program keeps them, and any fact [P] stable under the preorder. *)
Lemma safe_preserves {A} (p : prog St E A) (P : St -> Prop)
    (Q : A + exn -> St -> St -> Prop) s0 s :
  (forall s s', view s' = view s -> I s -> I s') ->
  (forall s0 s s', view s' = view s -> G s0 s -> G s0 s') ->
  (forall s s', P s -> G s s' -> P s') ->
  (forall o s0 s, I s -> G s0 s -> P s -> Q o s0 s) ->
  preserves p s -> I s -> G s0 s -> P s -> safe p Q s0 s.
Proof.
  intros HIv HGv HP HQ. revert s0 s.
  induction p as [| |k IH|s' k IH|e k IH]; simpl; intros s0 s Hp HI HG HPs; auto.
  - destruct Hp as [Hv Hp]. apply IH; eauto.
    eapply HP; [exact HPs|]. eapply HGv; [exact Hv|reflexivity].
  - destruct (suspends E e); [|by auto].
    split_and!; auto. intros r s' HI' HG'. apply IH; eauto. reflexivity.
Qed.

Lemma keeps_preserves {A} (p : prog St E A) :
  (forall s s', view s' = view s -> I s -> I s') ->
  (forall s0 s s', view s' = view s -> G s0 s -> G s0 s') ->
  (forall s, preserves p s) -> keeps p.
Proof.
  intros HIv HGv Hp s0 s [HI HG].
  apply safe_preserves with (P := fun _ => True); try done.
Qed.
End preserves.

(** A view of the view. *)
Lemma preserves_compose {V W A} (view : St -> V) (f : V -> W) (p : prog St E A) s :
  preserves view p s -> preserves (fun s => f (view s)) p s.
Proof.
  revert s. induction p as [| |k IH|s' k IH|e k IH]; simpl; intros s Hp; auto.
  - destruct Hp as [-> Hp]. auto.
  - destruct (suspends E e); auto.
Qed.

(** Such a program leaves the view unchanged when run on its own. *)
Lemma run_preserves {V A} (view : St -> V) env (p : prog St E A) s h o s' h' :
  (forall s, preserves view p s) -> run env p s h = (o, s', h') -> view s' = view s.
Proof.
  intros Hp. specialize (Hp s). revert s h Hp.
  induction p as [| |k IH|s1 k IH|e k IH]; simpl; intros s h Hp Hr.
  - congruence.
  - congruence.
  - eauto.
  - destruct Hp as [<- Hp]. eauto.
  - destruct (suspends E e); eauto.
Qed.

Lemma run_readonly {A} env (p : prog St E A) s h o s' h' :
  readonly p -> run env p s h = (o, s', h') -> s' = s.
Proof.
  intros Hp. apply (run_preserves id). intros s1. by apply readonly_preserves.
Qed.

(** *** Soundness *)

Lemma safe_segment s0 s p s' p' :
  segment s p s' p' -> safe p settled s0 s ->
  I s' /\ G s0 s' /\
  (p' = Ret tt \/ (exists x, p' = Throw x) \/
   (exists e k, p' = Vis e k /\ suspends E e = true /\
      forall r s'', I s'' -> G s' s'' -> safe (k r) settled s'' s'')).
Proof.
  intros Hseg. revert s0.
  induction Hseg as [s|s x|s e k Hs|s k s' p' _ IH|s s1 k s' p' _ IH|s e k r s' p' Hs _ IH];
    simpl; intros s0 Hsafe; auto.
  - destruct Hsafe as [HI HG]. naive_solver.
  - destruct Hsafe as [HI HG]. naive_solver.
  - rewrite Hs in Hsafe. destruct Hsafe as (HI & HG & Hk). by eauto 10.
  - rewrite Hs in Hsafe. eauto.
Qed.

(** A pool is fine when the invariant holds and every coroutine can go on
    from the present state or any later one. *)
Definition pool_ok (c : pool St E) : Prop :=
  I (p_state c) /\
  Forall (fun p => forall s, I s -> G (p_state c) s ->
            match p with
            | Vis e k => if suspends E e
                         then forall r, safe (k r) settled s s
                         else safe p settled s s
            | _ => safe p settled s s
            end) (p_tasks c).

Context (spawnable : prog St E unit -> Prop).
Hypothesis spawn_safe : forall p s, spawnable p -> I s -> safe p settled s s.

Lemma step_safe c c' :
  step spawnable c c' -> pool_ok c -> pool_ok c' /\ G (p_state c) (p_state c').
Proof.
  intros Hstep [HI Hts]. destruct Hstep as [s ts i p q s' p' Hi Hres Hseg|s ts p Hsp]; simpl in *.
  - assert (safe q settled s s) as Hq.
    { rewrite Forall_lookup in Hts. specialize (Hts i p Hi s HI ltac:(reflexivity)).
      destruct Hres as [p Hp|e k r He]; [|by rewrite He in Hts].
      destruct p; simpl in Hp; try done. rewrite Hp in Hts. done. }
    destruct (safe_segment _ _ _ _ _ Hseg Hq) as (HI' & HG' & Hp').
    split; [|done]. split; [done|]. simpl. apply Forall_insert.
    + eapply Forall_impl; [exact Hts|]. simpl. intros p0 H0 s1 HI1 HG1.
      apply H0; [done|]. by etransitivity.
    + intros s1 HI1 HG1. destruct Hp' as [->|[[x ->]|(e & k & -> & He & Hk)]].
      * split; [done|reflexivity].
      * split; [done|reflexivity].
      * rewrite He. intros r. by apply Hk.
  - split; [|reflexivity]. split; [done|]. simpl. apply Forall_app. split; [done|].
    constructor; [|constructor]. intros s1 HI1 HG1.
    pose proof (spawn_safe p s1 Hsp HI1) as Hs.
    destruct p as [| | | |e k]; try done. simpl in Hs.
    destruct (suspends E e) eqn:He; [|by simpl; rewrite He].
    intros r. destruct Hs as (_ & _ & Hk). apply Hk; [done|reflexivity].
Qed.

(** Every reachable state of the event loop satisfies the invariant, and is
    later than the initial state. *)
Theorem reachable_inv s0 c :
  I s0 -> reachable spawnable s0 c -> I (p_state c) /\ G s0 (p_state c).
Proof.
  intros HI0 Hr. enough (pool_ok c /\ G s0 (p_state c)) as [[? _] ?] by done.
  induction Hr as [|c c' _ [IH1 IH2] Hs].
  - split; [|reflexivity]. split; [done|constructor].
  - destruct (step_safe _ _ Hs IH1) as [H1 H2]. split; [done|]. by etransitivity.
Qed.
End safe.

(** Structural proof that a program leaves a view unchanged. *)
Ltac pres :=
  repeat first
    [ done
    | apply preserves_gets | apply preserves_of_option | apply preserves_raise
    | apply preserves_call | apply preserves_modify; done
    | match goal with
      | |- preserves _ (for_each _ _) _ => apply preserves_for_each; intros
      | |- preserves _ (mbind _ _) _ => apply preserves_bind; [|intros]
      | |- preserves _ (try_except _ _) _ => apply preserves_try_except; [|intros]
      | |- preserves _ (try_finally _ _) _ => apply preserves_try_finally; [|intros]
      | |- preserves _ (anext _) _ => apply preserves_anext; intros
      | |- preserves _ (async_for _ _ _) _ => apply preserves_async_for; intros
      end
    | match goal with |- preserves _ (match ?x with _ => _ end) _ => destruct x end
    | match goal with |- preserves _ (if ?x then _ else _) _ => destruct x end ].

#[export] Hint Resolve keeps_ret keeps_throw keeps_gets keeps_of_option keeps_raise : gabriel.

(** A call, whose type of answers may be given in reduced form. *)
Ltac keeps_a_call :=
  match goal with
  | |- keeps (E := ?E) ?I ?G (call ?e) => exact (keeps_call (E := E) I G e)
  end.

#[export] Hint Extern 1 (keeps _ _ (call _)) => keeps_a_call : gabriel.

(** Structural proof that a program keeps an invariant. *)
Ltac keeps_tac :=
  repeat first
    [ solve [auto with gabriel]
    | match goal with
      | |- keeps _ _ (mbind _ _) => apply keeps_bind; [|intros ?]
      | |- keeps _ _ (try_except _ _) => apply keeps_try_except; [|intros ?]
      | |- keeps _ _ (try_finally _ _) => apply keeps_try_finally
      | |- keeps _ _ (anext _) => apply keeps_anext
      | |- keeps _ _ (for_each _ _) => apply keeps_for_each; intros ?
      | |- keeps _ _ (async_for _ _ _) => apply keeps_async_for; [intros ?|intros ?]
      | |- keeps _ _ (match ?x with _ => _ end) => destruct x
      | |- keeps _ _ (let _ := _ in _) => cbn zeta
      end ].
