(* ===== verification/Credits.v ===== *)
(** * A logic of credits

    A quantity [X] of the shared state that messages carry from one process to
    another, such as the tokens of a producer.  A coroutine holds a credit: it
    gains one when it raises [X] or receives a message that carries a unit, and
    pays one when it lowers [X] or sends such a message.  [pays] extends the
    rely/guarantee logic [safe] of [Coro] by the credit of the coroutine, which
    must never be negative at an await; so the sum of the credits of all
    coroutines of a process accounts for the difference between [X] and what
    the process has received and sent ([funded_step]). *)

From S2P Require Import Prelude Coro.

(** What is counted: the quantity, the price of issuing a call, the units that
    the answer of a call brings, the answers that may come, what must hold of
    the calls that are issued, and what is assumed of every state. *)
Record tariff (St : Type) (E : sig) : Type := Tariff {
  amount : St -> Z;
  cost : ev E -> Z;
  gain : forall e : ev E, resp E e -> Z;
  allowed : forall e : ev E, resp E e -> Prop;
  guard : ev E -> St -> Prop;
  known : St -> Prop;
}.

Arguments Tariff {St E} _ _ _ _ _ _.
Arguments amount {St E} _ _.
Arguments cost {St E} _ _.
Arguments gain {St E} _ _ _.
Arguments allowed {St E} _ _ _.
Arguments guard {St E} _ _ _.
Arguments known {St E} _ _.

Section credits.
Context {St : Type} {E : sig} (tf : tariff St E).
Context (I : St -> Prop) (G : St -> St -> Prop) `{!PreOrder G}.

(** [pays p Q c s0 s]: [p], with the credit [c], running in state [s] within a
    segment that started in [s0], restores [I] and [G] and can pay for its call
    at every suspension, and ends with [Q]. *)
Fixpoint pays {A} (p : prog St E A) (Q : A + exn -> Z -> St -> St -> Prop) (c : Z) (s0 s : St) : Prop :=
  match p with
  | Ret a => Q (inl a) c s0 s
  | Throw x => Q (inr x) c s0 s
  | Get k => pays (k s) Q c s0 s
  | Put s' k => pays k Q (c + (amount tf s' - amount tf s)) s0 s'
  | Vis e k =>
      if suspends E e then
        known tf s ->
        I s /\ G s0 s /\ 0 <= c - cost tf e /\ guard tf e s /\
        forall r s', allowed tf e r -> I s' -> known tf s' -> G s s' ->
                     pays (k r) Q (c - cost tf e + gain tf e r) s' s'
      else forall r, pays (k r) Q c s0 s
  end.

(** The postcondition of a whole coroutine. *)
Definition squared {A} (_ : A + exn) (c : Z) (s0 s : St) : Prop :=
  known tf s -> I s /\ G s0 s /\ 0 <= c.

Lemma pays_mono {A} (p : prog St E A) (Q Q' : A + exn -> Z -> St -> St -> Prop) c s0 s :
  (forall o c s0 s, Q o c s0 s -> Q' o c s0 s) -> pays p Q c s0 s -> pays p Q' c s0 s.
Proof.
  intros HQ. revert c s0 s. induction p as [| |k IH|s' k IH|e k IH]; simpl; intros c s0 s; auto.
  destruct (suspends E e); [|by eauto].
  intros Hs Hk. destruct (Hs Hk) as (HI & HG & Hc & Hg & Hr). split_and!; auto.
Qed.

Lemma pays_bind {A B} (p : prog St E A) (f : A -> prog St E B) Q c s0 s :
  pays p (fun o c s0 s => match o with
                          | inl a => pays (f a) Q c s0 s
                          | inr x => Q (inr x) c s0 s
                          end) c s0 s ->
  pays (p ≫= f) Q c s0 s.
Proof.
  unfold mbind, prog_mbind. revert c s0 s.
  induction p as [| |k IH|s' k IH|e k IH]; simpl; intros c s0 s; auto.
  destruct (suspends E e); [|by eauto].
  intros Hs Hk. destruct (Hs Hk) as (HI & HG & Hc & Hg & Hr). split_and!; auto.
Qed.

Lemma pays_try_except {A} (p : prog St E A) h Q c s0 s :
  pays p (fun o c s0 s => match o with
                          | inl a => Q (inl a) c s0 s
                          | inr x => pays (h x) Q c s0 s
                          end) c s0 s ->
  pays (try_except p h) Q c s0 s.
Proof.
  revert c s0 s. induction p as [| |k IH|s' k IH|e k IH]; simpl; intros c s0 s; auto.
  destruct (suspends E e); [|by eauto].
  intros Hs Hk. destruct (Hs Hk) as (HI & HG & Hc & Hg & Hr). split_and!; auto.
Qed.

Lemma pays_try_finally {A} (p : prog St E A) q Q c s0 s :
  pays p (fun o c s0 s =>
            pays q (fun o' c s0 s => match o' with
                                     | inl _ => Q o c s0 s
                                     | inr x => Q (inr x) c s0 s
                                     end) c s0 s) c s0 s ->
  pays (try_finally p q) Q c s0 s.
Proof.
  revert c s0 s. induction p as [| |k IH|s' k IH|e k IH]; simpl; intros c s0 s Hs; auto.
  1,2: apply pays_bind; revert Hs; apply pays_mono; by intros [[]|].
  destruct (suspends E e); [|by eauto].
  intros Hk. destruct (Hs Hk) as (HI & HG & Hc & Hg & Hr). split_and!; auto.
Qed.

Lemma pays_gets {A B} (f : St -> A) (k : A -> prog St E B) Q c s0 s :
  pays (k (f s)) Q c s0 s -> pays (gets f ≫= k) Q c s0 s.
Proof. done. Qed.

Lemma pays_ret {A B} (a : A) (k : A -> prog St E B) Q c s0 s :
  pays (k a) Q c s0 s -> pays (Ret a ≫= k) Q c s0 s.
Proof. done. Qed.

Lemma pays_modify {B} g (k : unit -> prog St E B) Q c s0 s :
  pays (k tt) Q (c + (amount tf (g s) - amount tf s)) s0 (g s) -> pays (modify g ≫= k) Q c s0 s.
Proof. done. Qed.

(** ** Programs that end with at least the credit they were given *)

Definition rest (s0 s : St) : Prop := I s /\ G s0 s.

Definition frugal {A} (p : prog St E A) : Prop :=
  forall c s0 s, 0 <= c -> rest s0 s -> pays p (fun _ c' s0 s => c <= c' /\ rest s0 s) c s0 s.

(** The postcondition of a frugal program, for the credit [c]. *)
Definition saved {A} (c : Z) (_ : A + exn) (c' : Z) (s0 s : St) : Prop := c <= c' /\ rest s0 s.

Lemma frugal_from {A} (p : prog St E A) b c s0 s :
  frugal p -> 0 <= b -> b <= c -> rest s0 s -> pays p (saved b) c s0 s.
Proof.
  intros Hp Hb Hc Hr. eapply pays_mono; [|apply Hp; [lia|done]].
  intros o c' s1 s2 [H1 H2]. split; [lia|done].
Qed.

(** Such a program also keeps any fact [P] stable under the order. *)
Lemma pays_keep {A} (p : prog St E A) (P : St -> Prop) b c s0 s :
  (forall s s', P s -> G s s' -> P s') ->
  pays p (saved b) c s s -> G s0 s -> P s ->
  pays p (fun o c' s0 s => saved b o c' s0 s /\ P s) c s0 s.
Proof.
  intros HP Hp HG HPs.
  assert (forall s1 s2, pays p (saved b) c s1 s2 -> G s0 s1 -> P s1 ->
            pays p (fun o c' s0 s => saved b o c' s0 s /\ P s) c s0 s2) as Haux; [|by eauto].
  clear s Hp HG HPs. revert c s0.
  induction p as [| |k IH|s' k IH|e k IH]; simpl; intros c s0 s1 s2 Hp HG HPs; eauto.
  - destruct Hp as (Hb & HI & HG'). split; [|eauto]. split; [done|]. split; [done|by etransitivity].
  - destruct Hp as (Hb & HI & HG'). split; [|eauto]. split; [done|]. split; [done|by etransitivity].
  - destruct (suspends E e); [|by eauto]. intros Hk. destruct (Hp Hk) as (HI & HG' & Hc & Hg & Hr).
    split_and!; [done|by etransitivity|done|done|]. intros r s' Ha HI' Hk' HG''.
    eapply IH; [by apply Hr|reflexivity|eauto].
Qed.

Lemma frugal_ret {A} (a : A) : frugal (Ret a).
Proof. intros c s0 s Hc Hr. by split. Qed.

Lemma frugal_throw {A} x : frugal (Throw x : prog St E A).
Proof. intros c s0 s Hc Hr. by split. Qed.

Lemma frugal_bind {A B} (p : prog St E A) (f : A -> prog St E B) :
  frugal p -> (forall a, frugal (f a)) -> frugal (p ≫= f).
Proof.
  intros Hp Hf c s0 s Hc Hr. apply pays_bind. eapply pays_mono; [|by apply Hp].
  intros [a|x] c1 s1 s2 [H1 H2]; [by apply frugal_from | done].
Qed.

Lemma frugal_try_except {A} (p : prog St E A) h :
  frugal p -> (forall x, frugal (h x)) -> frugal (try_except p h).
Proof.
  intros Hp Hf c s0 s Hc Hr. apply pays_try_except. eapply pays_mono; [|by apply Hp].
  intros [a|x] c1 s1 s2 [H1 H2]; [done | by apply frugal_from].
Qed.

Lemma frugal_try_finally {A} (p : prog St E A) q : frugal p -> frugal q -> frugal (try_finally p q).
Proof.
  intros Hp Hq c s0 s Hc Hr. apply pays_try_finally. eapply pays_mono; [|by apply Hp].
  intros o c1 s1 s2 [H1 H2]. eapply pays_mono; [|by apply (frugal_from q c)]. by intros [].
Qed.

Lemma frugal_for_each {X} (l : list X) body : (forall x, frugal (body x)) -> frugal (for_each l body).
Proof. intros Hb. induction l as [|x l IH]; [apply frugal_ret|]. by apply frugal_bind. Qed.

Lemma frugal_anext next : frugal next -> frugal (anext next).
Proof.
  intros Hn. apply frugal_try_except; [apply frugal_bind; [done|intros; apply frugal_ret]|].
  intros x. destruct x; apply frugal_ret || apply frugal_throw.
Qed.

Lemma frugal_async_for {X} next (ms : list X) body :
  (forall m, frugal (next m)) -> (forall x, frugal (body x)) -> frugal (async_for next ms body).
Proof.
  intros Hn Hb. induction ms as [|m ms IH]; cbn -[mbind anext];
    (apply frugal_bind; [by apply frugal_anext|]); intros [|]; try apply frugal_ret.
  by apply frugal_bind.
Qed.

Lemma frugal_gets {A} (f : St -> A) : frugal (gets f).
Proof. intros c s0 s Hc Hr. by split. Qed.

Lemma frugal_of_option {A} x (o : option A) : frugal (of_option x o).
Proof. destruct o; [apply frugal_ret|apply frugal_throw]. Qed.

Lemma frugal_raise {A} (r : A + exn) : frugal (raise r).
Proof. destruct r; [apply frugal_ret|apply frugal_throw]. Qed.

(** A call that costs nothing. *)
Lemma frugal_call e :
  cost tf e = 0 -> (forall s, I s -> guard tf e s) -> (forall r, 0 <= gain tf e r) -> frugal (call e).
Proof.
  intros Hc Hg Hn c s0 s Hpos [HI HG]. simpl. rewrite Hc, Z.sub_0_r. destruct (suspends E e).
  - intros _. split_and!; [done|done|done|by apply Hg|]. intros r s' _ HI' _ HG'. specialize (Hn r).
    split; [lia|]. by split.
  - intros r. split; [done|by split].
Qed.

Lemma pays_squared {A} (p : prog St E A) s0 s :
  frugal p -> rest s0 s -> pays p squared 0 s0 s.
Proof.
  intros Hp Hr. eapply pays_mono; [|by apply Hp]. intros o c s1 s2 [H1 [H2 H3]] _. by split_and!.
Qed.

(** ** Programs that leave the quantity and the messages alone

    Those that keep a weaker invariant [I0], do not change a view of the state
    that determines the quantity and the rest of the invariant, and make no call
    that counts. *)

Section neutral.
Context {V : Type} (view : St -> V) (I0 : St -> Prop) (counts : ev E -> bool).
Hypothesis amount_view : forall s s', view s' = view s -> amount tf s' = amount tf s.
Hypothesis inv_weaken : forall s, I s -> I0 s.
Hypothesis inv_view : forall s s', view s' = view s -> I s -> I0 s' -> I s'.
Hypothesis free : forall e, counts e = false ->
  cost tf e = 0 /\ (forall s, guard tf e s) /\ forall r, 0 <= gain tf e r.

Lemma pays_safe {A} (p : prog St E A) Q b c s0 s s1 :
  safe I0 G p Q s0 s -> preserves view p s -> avoids counts p ->
  0 <= b -> b <= c -> I s1 -> view s = view s1 ->
  pays p (fun o c' s0 s => b <= c' /\ Q o s0 s /\ exists s1, I s1 /\ view s = view s1) c s0 s.
Proof.
  intros Hs Hp Ha Hb. revert c s0 s s1 Hs Hp Ha.
  induction p as [| |k IH|s' k IH|e k IH]; simpl; intros c s0 s s1 Hs Hp Ha Hc HI Hv; eauto.
  - destruct Hp as [Hv' Hp]. rewrite (amount_view _ _ Hv'), Z.sub_diag, Z.add_0_r.
    eapply IH; eauto. congruence.
  - destruct Ha as [He Ha]. destruct (free e He) as (H0 & Hg & Hn).
    destruct (suspends E e); [|by eauto]. destruct Hs as (HI0 & HG & Hk).
    intros _. rewrite H0, Z.sub_0_r. split_and!; [by eapply inv_view|done|lia|done|].
    intros r s' _ HI' _ HG'. specialize (Hn r).
    apply (IH r) with (s1 := s'); [by apply Hk; auto|auto|auto|lia|done|done].
Qed.

Lemma frugal_keeps {A} (p : prog St E A) :
  keeps I0 G p -> (forall s, preserves view p s) -> avoids counts p -> frugal p.
Proof.
  intros Hk Hp Ha c s0 s Hc [HI HG].
  eapply pays_mono; [|eapply (pays_safe p _ c c); [apply (Hk s0 s); split; auto|apply Hp|done|done|done|exact HI|done]].
  intros o c' s1 s2 (H1 & [H2 H3] & s3 & H4 & H5). split; [done|]. split; [by eapply inv_view|done].
Qed.
End neutral.

(** ** Pools *)

(** What a coroutine pays for the call it stands at, and what holds of it. *)
Definition issued (p : prog St E unit) : Z :=
  match p with Vis e _ => if suspends E e then cost tf e else 0 | _ => 0 end.

Definition issued_ok (p : prog St E unit) (s : St) : Prop :=
  match p with Vis e _ => suspends E e = true -> guard tf e s | _ => True end.

(** A coroutine can go on from [s] with the credit [z]. *)
Definition ready (p : prog St E unit) (z : Z) (s : St) : Prop :=
  match p with
  | Vis e k =>
      if suspends E e then forall r, allowed tf e r -> pays (k r) squared (z + gain tf e r) s s
      else pays p squared z s s
  | _ => pays p squared z s s
  end.

(** Every coroutine of the pool holds a credit with which it can go on. *)
Definition funded (c : pool St E) (zs : list Z) : Prop :=
  I (p_state c) /\
  Forall2 (fun p z => 0 <= z /\ forall s, I s -> known tf s -> G (p_state c) s -> ready p z s)
    (p_tasks c) zs.

(** The awaited call of a coroutine is answered, or a fresh coroutine
    starts. *)
Inductive resumed : prog St E unit -> option { e : ev E & resp E e } -> prog St E unit -> Prop :=
| resumed_start p : suspended p = false -> resumed p None p
| resumed_answer e k r : suspends E e = true -> resumed (Vis e k) (Some (existT e r)) (k r).

Definition gained (a : option { e : ev E & resp E e }) : Z :=
  match a with Some (existT e r) => gain tf e r | None => 0 end.

Definition permitted (a : option { e : ev E & resp E e }) : Prop :=
  match a with Some (existT e r) => allowed tf e r | None => True end.

Definition total (zs : list Z) : Z := foldr Z.add 0 zs.

Lemma total_app zs zs' : total (zs ++ zs') = total zs + total zs'.
Proof. induction zs as [|z zs IH]; simpl; lia. Qed.

Lemma total_insert zs i z z' : zs !! i = Some z -> total (<[i := z']> zs) = total zs + (z' - z).
Proof.
  revert i. induction zs as [|y zs IH]; intros [|i] Hi; simplify_eq/=; [lia|]. rewrite (IH _ Hi). lia.
Qed.

Lemma total_nonneg zs : Forall (Z.le 0) zs -> 0 <= total zs.
Proof. induction 1; simpl; lia. Qed.

(** A coroutine with the credit [z] that has run up to its first await, or has
    not started yet. *)
Lemma ready_spawn p z :
  0 <= z -> (forall s, I s -> known tf s -> pays p squared z s s) ->
  forall s0, I s0 -> known tf s0 ->
  0 <= z - issued p /\ issued_ok p s0 /\
  forall s, I s -> known tf s -> G s0 s -> ready p (z - issued p) s.
Proof.
  intros Hz Hp s0 HI0 Hk0. destruct p as [a|x|k|s' k|e k]; simpl; rewrite ?Z.sub_0_r.
  1,2,3,4: split_and!; [done|done|]; intros s HI Hk _; apply (Hp s HI Hk).
  destruct (suspends E e) eqn:He; rewrite ?Z.sub_0_r.
  - pose proof (Hp s0 HI0 Hk0) as H0. simpl in H0. rewrite He in H0.
    destruct (H0 Hk0) as (_ & _ & Hc & Hg & Hr). split_and!; auto.
  - split_and!; [done|done|]. intros s HI Hk _. specialize (Hp s HI Hk). simpl in Hp. by rewrite He in *.
Qed.

Lemma pays_segment s0 s p s' p' c :
  segment s p s' p' -> pays p squared c s0 s -> known tf s' ->
  let c' := c + (amount tf s' - amount tf s) - issued p' in
  I s' /\ G s0 s' /\ 0 <= c' /\ issued_ok p' s' /\
  forall s'', I s'' -> known tf s'' -> G s' s'' -> ready p' c' s''.
Proof.
  intros Hseg. revert c s0.
  induction Hseg as [s|s x|s e k Hs|s k s' p' _ IH|s s1 k s' p' _ IH|s e k r s' p' Hs _ IH];
    simpl; intros c s0 Hp Hk; rewrite ?Z.sub_diag, ?Z.add_0_r, ?Z.sub_0_r.
  - destruct (Hp Hk) as (HI & HG & Hc). split_and!; [done..|]. intros s'' HI' _ _ _. by split_and!.
  - destruct (Hp Hk) as (HI & HG & Hc). split_and!; [done..|]. intros s'' HI' _ _ _. by split_and!.
  - rewrite Hs in *. destruct (Hp Hk) as (HI & HG & Hc & Hg & Hr). split_and!; auto.
  - by apply IH.
  - specialize (IH _ _ Hp Hk). cbn zeta in IH.
    replace (c + (amount tf s' - amount tf s) - issued p')
      with (c + (amount tf s1 - amount tf s) + (amount tf s' - amount tf s1) - issued p') by lia.
    exact IH.
  - rewrite Hs in Hp. apply IH; auto.
Qed.

(** One step of a coroutine: its credit changes by what the answer brings, by
    the change of the quantity, and by the price of the call it stops at. *)
Lemma funded_step s ts zs i p a q s' p' z :
  funded (Pool s ts) zs -> known tf s -> known tf s' ->
  ts !! i = Some p -> zs !! i = Some z ->
  resumed p a q -> permitted a -> segment s q s' p' ->
  let z' := z + gained a + (amount tf s' - amount tf s) - issued p' in
  funded (Pool s' (<[i := p']> ts)) (<[i := z']> zs) /\ 0 <= z' /\ issued_ok p' s' /\ G s s'.
Proof.
  intros [HI Hts] Hk Hk' Hi Hz Hres Hadm Hseg. simpl in *.
  pose proof (proj1 (Forall2_lookup _ _ _) Hts i) as Hi'. rewrite Hi, Hz in Hi'.
  inversion Hi' as [? ? [Hpos Hp]|]; subst.
  specialize (Hp s HI Hk ltac:(reflexivity)).
  assert (pays q squared (z + gained a) s s) as Hq.
  { destruct Hres as [p Hsus|e k r He]; simpl in *.
    - rewrite Z.add_0_r. destruct p; simpl in *; try done. by rewrite Hsus in *.
    - rewrite He in Hp. by apply Hp. }
  destruct (pays_segment _ _ _ _ _ _ Hseg Hq Hk') as (HI' & HG & Hc & Hok & Hrd).
  split_and!; [|done|done|done]. split; [done|]. simpl. apply Forall2_insert.
  - eapply Forall2_impl; [exact Hts|]. intros p0 z0 [H1 H2]. split; [done|].
    intros s1 HI1 Hk1 HG1. apply H2; [done|done|]. by etransitivity.
  - by split.
Qed.

(** A coroutine joins the pool with the credit [z]. *)
Lemma funded_spawn s ts zs p z :
  funded (Pool s ts) zs -> known tf s -> 0 <= z ->
  (forall s, I s -> known tf s -> pays p squared z s s) ->
  funded (Pool s (ts ++ [p])) (zs ++ [z - issued p]) /\ issued_ok p s.
Proof.
  intros [HI Hts] Hk Hz Hp. simpl in *.
  destruct (ready_spawn p z Hz Hp s HI Hk) as (H1 & H2 & H3). split; [|done].
  split; [done|]. simpl. apply Forall2_app; [done|]. by repeat constructor.
Qed.

Lemma funded_nonneg c zs : funded c zs -> Forall (Z.le 0) zs.
Proof. intros [_ H]. induction H as [|p z ts zs [Hz _] _ IH]; by constructor. Qed.

End credits.

Arguments total _ : simpl never.

#[export] Hint Resolve frugal_ret frugal_throw frugal_gets frugal_of_option frugal_raise : gabriel.

(** Structural proof that a program is frugal. *)
Ltac frugal_tac :=
  repeat first
    [ solve [auto with gabriel]
    | match goal with
      | |- frugal _ _ _ (mbind _ _) => apply frugal_bind; [|intros ?]
      | |- frugal _ _ _ (try_except _ _) => apply frugal_try_except; [|intros ?]
      | |- frugal _ _ _ (try_finally _ _) => apply frugal_try_finally
      | |- frugal _ _ _ (anext _) => apply frugal_anext
      | |- frugal _ _ _ (for_each _ _) => apply frugal_for_each; intros ?
      | |- frugal _ _ _ (async_for _ _ _) => apply frugal_async_for; [intros ?|intros ?]
      | |- frugal _ _ _ (match ?x with _ => _ end) => destruct x
      | |- frugal _ _ _ (let _ := _ in _) => cbn zeta
      end ].
