(* ===== verification/Tasks.v ===== *)
(** * Tasks

    What the sources use of [asyncio] to run several coroutines at once:
    [create_task], [task.cancel()], [task.done()], [task.exception()],
    [gather] (with and without [return_exceptions]) and [wait] with
    [FIRST_COMPLETED].  A coroutine that supervises others is a [prog] over the
    signature [task_sig]; its tasks are coroutines of [Coro], numbered in the
    order of their creation.

    [sys_step] is the event loop with one supervisor.  Cancellation is as
    [asyncio] delivers it: a cancelled task is resumed once with
    [CancelledError] at the await where it stands (a task that never ran does
    not start); cancelling an awaited [gather] cancels its tasks, and cancelling
    an awaited [wait] does not. *)

From S2P Require Import Prelude Coro.

(** The answer of an awaited call that is cancelled: the call raises
    [CancelledError]. *)
Class Interrupt (E : sig) := interrupt : forall e : ev E, option (resp E e).

(** [except asyncio.CancelledError] and [except Exception] together: every
    exception but those the interpreter raises. *)
Definition orderly (x : exn) : bool := bool_decide (x = CancelledError) || is_Exception x.

Section tasks.
Context {St : Type} {E : sig}.

Record task : Type := Task {
  t_prog : prog St E unit;
  t_cancel : bool;  (* a cancellation is requested and not yet delivered *)
}.

Definition finished {A} (p : prog St E A) : bool :=
  match p with Ret _ | Throw _ => true | _ => false end.

(** The operations of a supervisor. *)
Inductive tev : Type :=
| TCall (e : ev E)                   (* an external call of its own *)
| TCreate (p : prog St E unit)       (* [asyncio.create_task(p)] *)
| TCancel (t : nat)                  (* [task.cancel()] *)
| TDone (t : nat)                    (* [task.done()] *)
| TException (t : nat)               (* [task.exception()], of a task that is done *)
| TGather (ts : list nat)            (* [await asyncio.gather( *tasks)] *)
| TGatherAll (ts : list nat)         (* [await asyncio.gather( *tasks, return_exceptions=True)] *)
| TWait (ts : list nat).             (* [await asyncio.wait(tasks, return_when=FIRST_COMPLETED)] *)

Definition tresp (e : tev) : Type :=
  match e with
  | TCall e => resp E e
  | TCreate _ => nat
  | TCancel _ => unit
  | TDone _ => bool
  | TException _ => option exn
  | TGather _ | TGatherAll _ => unit + exn
  | TWait _ => list nat + exn        (* the set [done] *)
  end.

Definition tsuspends (e : tev) : bool :=
  match e with
  | TCall e => suspends E e
  | TGather _ | TGatherAll _ | TWait _ => true
  | _ => false
  end.

Definition task_sig : sig := Sig tev tresp tsuspends.

(** ** Supervisors *)

(** A coroutine with no tasks, as (part of) a supervisor. *)
Fixpoint lift {A} (p : prog St E A) : prog St task_sig A :=
  match p with
  | Ret a => Ret a
  | Throw x => Throw x
  | Get k => Get (fun s => lift (k s))
  | Put s k => Put s (lift k)
  | Vis e k => Vis (E := task_sig) (TCall e) (fun r => lift (k r))
  end.

Definition create_task (p : prog St E unit) : prog St task_sig nat :=
  call (E := task_sig) (TCreate p).

(** [[asyncio.create_task(p) for p in ps]] *)
Fixpoint create_tasks (ps : list (prog St E unit)) : prog St task_sig (list nat) :=
  match ps with
  | [] => Ret []
  | p :: ps' => t ← create_task p; ts ← create_tasks ps'; Ret (t :: ts)
  end.

(** [for task in tasks: task.cancel()] *)
Definition cancel_tasks (ts : list nat) : prog St task_sig unit :=
  for_each ts (fun t => call (E := task_sig) (TCancel t)).

Definition gather (ts : list nat) : prog St task_sig unit :=
  (call (E := task_sig) (TGather ts) : prog St task_sig (unit + exn)) ≫= raise.

Definition gather_all (ts : list nat) : prog St task_sig unit :=
  (call (E := task_sig) (TGatherAll ts) : prog St task_sig (unit + exn)) ≫= raise.

Definition wait_first (ts : list nat) : prog St task_sig (list nat) :=
  (call (E := task_sig) (TWait ts) : prog St task_sig (list nat + exn)) ≫= raise.

(** ** The event loop *)

Record tasks : Type := Tasks {
  k_state : St;
  k_tasks : list task;
  k_log : list nat;   (* the tasks that are done, in the order they ended *)
  k_cancel : bool;    (* the supervisor was cancelled while it awaited a [gather] *)
}.

Definition set_state (s : St) (c : tasks) : tasks := Tasks s (k_tasks c) (k_log c) (k_cancel c).
Definition set_cancel (b : bool) (c : tasks) : tasks := Tasks (k_state c) (k_tasks c) (k_log c) b.

Definition add_task (p : prog St E unit) (c : tasks) : tasks :=
  Tasks (k_state c) (k_tasks c ++ [Task p false]) (k_log c) (k_cancel c).

(** [task.cancel()] does nothing to a task that is done. *)
Definition request_cancel (t : task) : task :=
  if finished (t_prog t) then t else Task (t_prog t) true.

Definition cancel (t : nat) (c : tasks) : tasks :=
  Tasks (k_state c) (alter request_cancel t (k_tasks c)) (k_log c) (k_cancel c).

Definition prog_of (c : tasks) (t : nat) : option (prog St E unit) := t_prog <$> k_tasks c !! t.

Definition is_done (t : nat) (c : tasks) : bool :=
  match prog_of c t with Some p => finished p | None => false end.

(** What the task raised. *)
Definition exception_of (t : nat) (c : tasks) : option exn :=
  match prog_of c t with Some (Throw x) => Some x | _ => None end.

Definition all_done (ts : list nat) (c : tasks) : Prop := Forall (fun t => is_done t c = true) ts.

(** The exception of the first of the tasks to fail. *)
Definition first_failure (ts : list nat) (c : tasks) : option exn :=
  head (omap (fun t => if decide (t ∈ ts) then exception_of t c else None) (k_log c)).

(** What an awaited [gather] ends with: the first failure of its tasks, or
    their results when all of them have returned. *)
Inductive gathered (ts : list nat) (c : tasks) : unit + exn -> Prop :=
| gathered_fail x : first_failure ts c = Some x -> gathered ts c (inr x)
| gathered_ok :
    all_done ts c -> Forall (fun t => exception_of t c = None) ts ->
    gathered ts c (if k_cancel c then inr CancelledError else inl tt).

(** ... and one with [return_exceptions], whatever its tasks raise. *)
Inductive gathered_all (ts : list nat) (c : tasks) : unit + exn -> Prop :=
| gathered_all_done :
    all_done ts c -> gathered_all ts c (if k_cancel c then inr CancelledError else inl tt).

(** [wait] gives the set of the tasks that are done; the order of a set is
    not specified. *)
Definition waited (ts : list nat) (c : tasks) (done : list nat) : Prop :=
  done <> [] /\ done ≡ₚ filter (fun t => is_done t c = true) ts.

(** A step of the supervisor. *)
Inductive main_step : prog St task_sig unit -> tasks -> prog St task_sig unit -> tasks -> Prop :=
| main_get k c : main_step (Get k) c (k (k_state c)) c
| main_put s k c : main_step (Put s k) c k (set_state s c)
| main_call e k r c : main_step (Vis (E := task_sig) (TCall e) k) c (k r) c
| main_create p k c :
    main_step (Vis (E := task_sig) (TCreate p) k) c (k (length (k_tasks c))) (add_task p c)
| main_cancel t k c :
    main_step (Vis (E := task_sig) (TCancel t) k) c (k tt) (cancel t c)
| main_done t k c : main_step (Vis (E := task_sig) (TDone t) k) c (k (is_done t c)) c
| main_exception t k c :
    main_step (Vis (E := task_sig) (TException t) k) c (k (exception_of t c)) c
| main_gather ts k c r :
    gathered ts c r -> main_step (Vis (E := task_sig) (TGather ts) k) c (k r) (set_cancel false c)
| main_gather_all ts k c r :
    gathered_all ts c r ->
    main_step (Vis (E := task_sig) (TGatherAll ts) k) c (k r) (set_cancel false c)
| main_wait ts k c done :
    waited ts c done -> main_step (Vis (E := task_sig) (TWait ts) k) c (k (inl done)) c.

Context `{!Interrupt E}.

(** A cancellation is thrown into a task. *)
Inductive interrupted : prog St E unit -> prog St E unit -> Prop :=
| interrupted_new p :
    suspended p = false -> finished p = false -> interrupted p (Throw CancelledError)
| interrupted_await e k r :
    suspends E e = true -> interrupt e = Some r -> interrupted (Vis e k) (k r).

(** A step of the task [i]. *)
Inductive task_step (i : nat) : tasks -> tasks -> Prop :=
| task_go s ts l b p (cn : bool) q s' p' :
    ts !! i = Some (Task p cn) -> finished p = false ->
    (if cn then interrupted p q else resume p q) ->
    segment s q s' p' ->
    task_step i (Tasks s ts l b)
      (Tasks s' (<[i := Task p' false]> ts) (if finished p' then l ++ [i] else l) b).

(** The supervisor is cancelled. *)
Inductive main_interrupt
    : prog St task_sig unit -> tasks -> prog St task_sig unit -> tasks -> Prop :=
| interrupt_gather ts k c :
    main_interrupt (Vis (E := task_sig) (TGather ts) k) c (Vis (E := task_sig) (TGather ts) k)
      (set_cancel true (foldr cancel c ts))
| interrupt_gather_all ts k c :
    main_interrupt (Vis (E := task_sig) (TGatherAll ts) k) c (Vis (E := task_sig) (TGatherAll ts) k)
      (set_cancel true (foldr cancel c ts))
| interrupt_wait ts k c :
    main_interrupt (Vis (E := task_sig) (TWait ts) k) c (k (inr CancelledError)) c.

(** The supervisor has ended or awaits something. *)
Definition idle (m : prog St task_sig unit) : bool :=
  match m with Ret _ | Throw _ => true | Vis e _ => tsuspends e | _ => false end.

(** What the application may run, from its own threads, between the steps of
    the event loop. *)
Context (app : prog St E unit -> Prop).

Inductive sys_step : prog St task_sig unit * tasks -> prog St task_sig unit * tasks -> Prop :=
| sys_main m c m' c' : main_step m c m' c' -> sys_step (m, c) (m', c')
| sys_task m c i c' : idle m = true -> task_step i c c' -> sys_step (m, c) (m, c')
| sys_interrupt m c m' c' : main_interrupt m c m' c' -> sys_step (m, c) (m', c')
| sys_app m c p s' q :
    idle m = true -> app p -> segment (k_state c) p s' q -> finished q = true ->
    sys_step (m, c) (m, set_state s' c).

(** The systems a supervisor can lead to. *)
Inductive sys_reachable (s0 : St) (m0 : prog St task_sig unit)
    : prog St task_sig unit * tasks -> Prop :=
| sys_init : sys_reachable s0 m0 (m0, Tasks s0 [] [] false)
| sys_next y y' : sys_reachable s0 m0 y -> sys_step y y' -> sys_reachable s0 m0 y'.

(** ** Coroutines that do not resist cancellation *)

(** Every way [p] can go on from here raises [CancelledError], without
    another await. *)
Fixpoint dies {A} (p : prog St E A) : Prop :=
  match p with
  | Ret _ => False
  | Throw x => x = CancelledError
  | Get k => forall s, dies (k s)
  | Put _ k => dies k
  | Vis e k => suspends E e = false /\ forall r, dies (k r)
  end.

(** Every way [p] can go on from here returns, without another await. *)
Fixpoint direct {A} (p : prog St E A) : Prop :=
  match p with
  | Ret _ => True
  | Throw _ => False
  | Get k => forall s, direct (k s)
  | Put _ k => direct k
  | Vis e k => suspends E e = false /\ forall r, direct (k r)
  end.

(** Cancelled at any of its awaits, [p] raises [CancelledError] at once. *)
Fixpoint cancellable {A} (p : prog St E A) : Prop :=
  match p with
  | Ret _ | Throw _ => True
  | Get k => forall s, cancellable (k s)
  | Put _ k => cancellable k
  | Vis e k =>
      (suspends E e = true -> exists r, interrupt e = Some r /\ dies (k r)) /\
      forall r, cancellable (k r)
  end.
End tasks.

Arguments task St E : clear implicits.
Arguments tasks St E : clear implicits.
Arguments tev St E : clear implicits.
Arguments task_sig St E : clear implicits.

Section cancellation.
Context {St : Type} {E : sig} `{!Interrupt E}.

Lemma dies_bind {A B} (p : prog St E A) (f : A -> prog St E B) : dies p -> dies (p ≫= f).
Proof.
  unfold mbind, prog_mbind. induction p as [| |k IH|s k IH|e k IH]; simpl; auto; try done.
  intros []. auto.
Qed.

Lemma dies_try_except {A} (p : prog St E A) h :
  dies p -> dies (h CancelledError) -> dies (try_except p h).
Proof.
  intros Hp Hh. induction p as [|x|k IH|s k IH|e k IH]; simpl in *; auto; try done.
  - by subst.
  - destruct Hp. auto.
Qed.

Lemma dies_after {A B} (q : prog St E A) : direct q -> dies (q ≫= fun _ => Throw CancelledError : prog St E B).
Proof.
  unfold mbind, prog_mbind. induction q as [|x|k IH|s k IH|e k IH]; simpl; auto; try done.
  intros []. auto.
Qed.

Lemma dies_try_finally {A} (p : prog St E A) q : dies p -> direct q -> dies (try_finally p q).
Proof.
  intros Hp Hq. induction p as [|x|k IH|s k IH|e k IH]; simpl in *; auto; try done.
  - subst x. by apply dies_after.
  - destruct Hp. auto.
Qed.

Lemma direct_cancellable {A} (p : prog St E A) : direct p -> cancellable p.
Proof.
  induction p as [| |k IH|s k IH|e k IH]; simpl; auto. intros [He Hk]. split; [congruence|auto].
Qed.

Lemma cancellable_bind {A B} (p : prog St E A) (f : A -> prog St E B) :
  cancellable p -> (forall a, cancellable (f a)) -> cancellable (p ≫= f).
Proof.
  unfold mbind, prog_mbind. intros Hp Hf.
  induction p as [| |k IH|s k IH|e k IH]; simpl in *; auto.
  destruct Hp as [Hi Hp]. split; [|auto]. intros He. destruct (Hi He) as (r & Hr & Hd).
  exists r. split; [done|]. by apply (dies_bind (k r) f).
Qed.

Lemma cancellable_try_except {A} (p : prog St E A) h :
  cancellable p -> (forall x, cancellable (h x)) -> dies (h CancelledError) ->
  cancellable (try_except p h).
Proof.
  intros Hp Hh Hd. induction p as [| |k IH|s k IH|e k IH]; simpl in *; auto.
  destruct Hp as [Hi Hp]. split; [|auto]. intros He. destruct (Hi He) as (r & Hr & Hr').
  exists r. split; [done|]. by apply dies_try_except.
Qed.

Lemma cancellable_try_finally {A} (p : prog St E A) q :
  cancellable p -> direct q -> cancellable (try_finally p q).
Proof.
  intros Hp Hq. assert (forall r : A + exn, cancellable (q ≫= fun _ => raise r)) as Hend.
  { intros r. apply cancellable_bind; [by apply direct_cancellable|]. by destruct r. }
  induction p as [a|x|k IH|s k IH|e k IH]; simpl in *; auto.
  - apply (Hend (inl a)).
  - apply (Hend (inr x)).
  - destruct Hp as [Hi Hp]. split; [|auto]. intros He. destruct (Hi He) as (r & Hr & Hr').
    exists r. split; [done|]. by apply dies_try_finally.
Qed.

Lemma cancellable_for_each {X} (l : list X) (body : X -> prog St E unit) :
  (forall x, cancellable (body x)) -> cancellable (for_each l body).
Proof. intros Hb. induction l; [done|]. by apply cancellable_bind. Qed.

Lemma cancellable_raise {A} (r : A + exn) : cancellable (raise r : prog St E A).
Proof. by destruct r. Qed.

Lemma cancellable_of_option {A} x (o : option A) : cancellable (of_option x o : prog St E A).
Proof. by destruct o. Qed.

Lemma cancellable_gets {A} (f : St -> A) : cancellable (gets f : prog St E A).
Proof. simpl. auto. Qed.

Lemma cancellable_modify (f : St -> St) : cancellable (modify f : prog St E unit).
Proof. simpl. auto. Qed.

(** A call that is not awaited. *)
Lemma cancellable_call e : suspends E e = false -> cancellable (call e : prog St E (resp E e)).
Proof. intros He. split; [congruence|done]. Qed.

(** An awaited call whose answer is looked at. *)
Lemma cancellable_await {B} e (f : resp E e -> prog St E B) :
  (suspends E e = true -> exists r, interrupt e = Some r /\ dies (f r)) ->
  (forall r, cancellable (f r)) -> cancellable (call e ≫= f).
Proof. intros Hi Hf. split; [exact Hi|exact Hf]. Qed.

Lemma segment_cancellable s (p : prog St E unit) s' p' :
  segment s p s' p' -> cancellable p -> cancellable p'.
Proof. induction 1; simpl; auto. intros []. auto. Qed.

Lemma segment_dies s (p : prog St E unit) s' p' :
  segment s p s' p' -> dies p -> p' = Throw CancelledError.
Proof.
  induction 1 as [s|s x|s e k Hs|s k s' p' _ IH|s s1 k s' p' _ IH|s e k r s' p' Hs _ IH];
    simpl; intros Hd; auto; try done.
  - by subst.
  - destruct Hd. congruence.
  - destruct Hd. auto.
Qed.

Lemma segment_exists s (p : prog St E unit) :
  (forall e, suspends E e = false -> inhabited (resp E e)) -> exists s' p', segment s p s' p'.
Proof.
  intros Hne. revert s. induction p as [[]|x|k IH|s1 k IH|e k IH]; intros s.
  - do 2 eexists. constructor.
  - do 2 eexists. constructor.
  - destruct (IH s s) as (s' & p' & H). do 2 eexists. by constructor.
  - destruct (IH s1) as (s' & p' & H). do 2 eexists. by constructor.
  - destruct (suspends E e) eqn:He; [do 2 eexists; by constructor|].
    destruct (Hne e He) as [r]. destruct (IH r s) as (s' & p' & H). do 2 eexists. eapply seg_vis; eauto.
Qed.

Lemma resume_cancellable (p q : prog St E unit) : resume p q -> cancellable p -> cancellable q.
Proof. destruct 1; simpl; [done|]. intros []. auto. Qed.

Lemma interrupted_dies (p q : prog St E unit) :
  interrupted p q -> cancellable p -> dies q.
Proof.
  destruct 1 as [p|e k r He Hr]; simpl; [done|]. intros [Hi _].
  destruct (Hi He) as (r' & Hr' & Hd). congruence.
Qed.

Lemma interrupted_exists (p : prog St E unit) :
  cancellable p -> finished p = false -> exists q, interrupted p q.
Proof.
  intros Hc Hf. destruct p as [| |k|s k|e k]; try done; try (eexists; by apply interrupted_new).
  destruct (suspends E e) eqn:He; [|eexists; apply interrupted_new; simpl; congruence].
  destruct Hc as [Hi _]. destruct (Hi He) as (r & Hr & _). eexists. by eapply interrupted_await.
Qed.
End cancellation.

(** ** Executable schedules

    As in [Coro]: a schedule says who takes the next step, the environment
    answers the calls, and what it reaches is [sys_reachable]. *)

Section schedule.
Context {St : Type} {E : sig} `{!Interrupt E}.
Context (env : history E -> forall e : ev E, resp E e).

Inductive saction : Type :=
| SMain           (* the supervisor goes on *)
| STask (i : nat) (* the task [i] runs up to its next await *)
| SCancel.        (* the supervisor is cancelled *)

(** Answers of the operations of a supervisor; [None]: it has to wait. *)
Definition sup_answer (e : tev St E) (c : tasks St E) (h : history E)
    : option (tresp e * tasks St E * history E) :=
  match e return option (tresp e * tasks St E * history E) with
  | TCall e => let r := env h e in Some (r, c, h ++ [existT e r])
  | TCreate p => Some (length (k_tasks c), add_task p c, h)
  | TCancel t => Some (tt, cancel t c, h)
  | TDone t => Some (is_done t c, c, h)
  | TException t => Some (exception_of t c, c, h)
  | TGather ts =>
      match first_failure ts c with
      | Some x => Some (inr x, set_cancel false c, h)
      | None =>
          if forallb (fun t => is_done t c && bool_decide (exception_of t c = None)) ts then
            Some (if k_cancel c then inr CancelledError else inl tt, set_cancel false c, h)
          else None
      end
  | TGatherAll ts =>
      if forallb (fun t => is_done t c) ts then
        Some (if k_cancel c then inr CancelledError else inl tt, set_cancel false c, h)
      else None
  | TWait ts =>
      match filter (fun t => is_done t c = true) ts with
      | [] => None
      | t :: ts' => Some (inl (t :: ts'), c, h)
      end
  end.

Abbreviation config := (prog St (task_sig St E) unit * tasks St E * history E)%type.

Definition sup_go (y : config) : config :=
  let '(m, c, h) := y in
  match m with
  | Get k => (k (k_state c), c, h)
  | Put s k => (k, set_state s c, h)
  | Vis e k =>
      match sup_answer e c h with
      | Some (r, c', h') => (k r, c', h')
      | None => y
      end
  | _ => y
  end.

Definition task_next (t : task St E) (h : history E) : option (prog St E unit * history E) :=
  if finished (t_prog t) then None
  else if t_cancel t then
    match t_prog t with
    | Vis e k =>
        if suspends E e then match interrupt e with Some r => Some (k r, h) | None => None end
        else Some (Throw CancelledError, h)
    | _ => Some (Throw CancelledError, h)
    end
  else Some (answer env (t_prog t) h).

Definition task_run (i : nat) (y : config) : config :=
  let '(m, c, h) := y in
  if idle m then
    match k_tasks c !! i with
    | None => y
    | Some t =>
        match task_next t h with
        | None => y
        | Some (q, h1) =>
            let '(p', s', h2) := run_segment env q (k_state c) h1 in
            (m, Tasks s' (<[i := Task p' false]> (k_tasks c))
                  (if finished p' then k_log c ++ [i] else k_log c) (k_cancel c), h2)
        end
    end
  else y.

Definition sup_cancel (y : config) : config :=
  let '(m, c, h) := y in
  match m with
  | Vis e k =>
      match e with
      | TGather ts | TGatherAll ts => (m, set_cancel true (foldr cancel c ts), h)
      | _ => y
      end
  | _ => y
  end.

Definition sys_act (y : config) (a : saction) : config :=
  match a with SMain => sup_go y | STask i => task_run i y | SCancel => sup_cancel y end.

Definition sys_play (s0 : St) (m0 : prog St (task_sig St E) unit) (l : list saction) : config :=
  foldl sys_act (m0, Tasks s0 [] [] false, []) l.

Context (app : prog St E unit -> Prop) (s0 : St) (m0 : prog St (task_sig St E) unit).

Lemma forallb_all_done ts (c : tasks St E) : forallb (fun t => is_done t c) ts = true -> all_done ts c.
Proof. intros H. apply Forall_forall. intros t Ht. apply (proj1 (forallb_forall _ _) H). by apply list_elem_of_In. Qed.

Lemma sup_go_step m c h m' c' h' :
  sup_go (m, c, h) = (m', c', h') -> (m', c') = (m, c) \/ main_step m c m' c'.
Proof.
  destruct m as [a|x|k|s k|e k]; simpl; intros Hg; try (simplify_eq; by left).
  - simplify_eq. right. constructor.
  - simplify_eq. right. constructor.
  - destruct (sup_answer e c h) as [[[r c1] h1]|] eqn:Ha; [|simplify_eq; by left].
    simplify_eq. right. destruct e as [e|p|t|t|t|ts|ts|ts]; simpl in Ha; try (simplify_eq; by constructor).
    + destruct (first_failure ts c) as [x|] eqn:Hf; [simplify_eq; by repeat constructor|].
      destruct (forallb _ ts) eqn:Hd; [|done]. simplify_eq. constructor.
      constructor; apply Forall_forall; intros t Ht%list_elem_of_In;
        by destruct (proj1 (andb_true_iff _ _) (proj1 (forallb_forall _ _) Hd t Ht)) as [? ?%bool_decide_eq_true].
    + destruct (forallb _ ts) eqn:Hd; [|done]. simplify_eq. constructor. constructor.
      by apply forallb_all_done.
    + destruct (filter _ ts) as [|t ts'] eqn:Hd; [done|]. simplify_eq. constructor.
      split; [done|]. by rewrite Hd.
Qed.

Lemma task_next_ok t h q h' :
  task_next t h = Some (q, h') ->
  finished (t_prog t) = false /\ (if t_cancel t then interrupted (t_prog t) q else resume (t_prog t) q).
Proof.
  unfold task_next. destruct (finished (t_prog t)) eqn:Hf; [done|]. destruct (t_cancel t).
  - destruct (t_prog t) as [| |k|s k|e k]; try done; try (intros; simplify_eq; split; [done|]; by constructor).
    destruct (suspends E e) eqn:He.
    + destruct (interrupt e) as [r|] eqn:Hr; [|done]. intros [= <- <-]. split; [done|]. by constructor.
    + intros [= <- <-]. split; [done|]. by constructor.
  - intros Ha. split; [done|]. destruct (answer env (t_prog t) h) as [q0 h0] eqn:E0. simplify_eq.
    by eapply answer_resume.
Qed.

Lemma sys_act_reachable y a :
  sys_reachable app s0 m0 y.1 -> sys_reachable app s0 m0 (sys_act y a).1.
Proof.
  destruct y as [[m c] h]. intros Hy. destruct a as [|i|]; unfold sys_act.
  - destruct (sup_go (m, c, h)) as [[m' c'] h'] eqn:Hg. simpl.
    destruct (sup_go_step _ _ _ _ _ _ Hg) as [E0|Hs]; [by rewrite E0|].
    eapply sys_next; [exact Hy|]. by apply sys_main.
  - simpl. destruct (idle m) eqn:Hi; [|done]. destruct (k_tasks c !! i) as [t|] eqn:Ht; [|done].
    destruct (task_next t h) as [[q h1]|] eqn:Hn; [|done].
    destruct (run_segment env q (k_state c) h1) as [[p' s'] h2] eqn:Hr. simpl.
    eapply sys_next; [exact Hy|]. eapply sys_task; [done|].
    destruct (task_next_ok _ _ _ _ Hn) as [Hf Hq]. destruct c as [s ts l b]. destruct t as [p cn].
    eapply task_go; eauto using run_segment_segment.
  - simpl. destruct m as [| | | |[e|p|t|t|t|ts|ts|ts] k]; simpl; try done;
      (eapply sys_next; [exact Hy|]; apply sys_interrupt; constructor).
Qed.

Lemma sys_play_reachable l : sys_reachable app s0 m0 (sys_play s0 m0 l).1.
Proof.
  unfold sys_play.
  assert (forall y, sys_reachable app s0 m0 y.1 -> sys_reachable app s0 m0 (foldl sys_act y l).1) as Haux.
  { induction l as [|a l IH]; simpl; intros y Hy; [done|]. by apply IH, sys_act_reachable. }
  apply Haux. constructor.
Qed.
End schedule.

(** Structural proof of [cancellable]. *)
Ltac cancels :=
  repeat first
    [ done
    | apply cancellable_gets | apply cancellable_modify | apply cancellable_of_option
    | apply cancellable_raise
    | match goal with
      | |- cancellable (mbind _ (call _)) =>
          apply cancellable_await;
          [ let He := fresh in intros He;
            first [discriminate He | eexists; split; [reflexivity|cbn; reflexivity]]
          | intros ? ]
      | |- cancellable (mbind _ _) => apply cancellable_bind; [|intros ?]
      | |- cancellable (try_except _ _) =>
          apply cancellable_try_except; [|intros ?|cbn; reflexivity]
      | |- cancellable (for_each _ _) => apply cancellable_for_each; intros ?
      | |- cancellable (call _) => apply cancellable_call; reflexivity
      | |- cancellable (match ?x with _ => _ end) => destruct x
      end ].
