(* ===== verification/TaskLogic.v ===== *)
(** * A logic for supervisors

    [tsafe] extends the rely/guarantee logic [safe] of [Coro] to a supervisor
    and the tasks it creates ([Tasks]).  The supervisor may rely on what its
    tasks cannot undo while it waits ([rely]): a task that is done stays done,
    and (with [prompt]) a cancelled task has nothing left to do but to end.  It
    must establish the invariant where it waits, create only tasks that keep
    it, and (with [prompt]) never wait for the end of tasks it has not
    cancelled.  [sys_inv] is the soundness of the logic; [cleanup_progress] says
    that the wait for cancelled tasks ends, after at most one step of each. *)

From S2P Require Import Prelude Coro Tasks.

Section evolution.
Context {St : Type} {E : sig}.
Implicit Types c : tasks St E.

(** A cancellation is requested. *)
Definition requested (t : nat) (c : tasks St E) : bool :=
  match k_tasks c !! t with Some k => t_cancel k | None => false end.

(** Every task is done or cancelled. *)
Definition flagged (ts : list nat) (c : tasks St E) : Prop :=
  Forall (fun t => is_done t c || requested t c = true) ts.

(** How the tasks may have changed while the supervisor waited. *)
Record evolves (prompt : bool) (c c' : tasks St E) : Prop := {
  ev_length : length (k_tasks c') = length (k_tasks c);
  ev_done : forall i p, prog_of c i = Some p -> finished p = true -> prog_of c' i = Some p;
  ev_flag : prompt = true ->
    forall i, is_done i c || requested i c = true -> is_done i c' || requested i c' = true;
  ev_cancel : prompt = true ->
    forall i, is_done i c = false -> requested i c = true ->
      (is_done i c' = false /\ requested i c' = true) \/ exception_of i c' = Some CancelledError;
}.

Lemma exception_kept c c' t x :
  (forall i p, prog_of c i = Some p -> finished p = true -> prog_of c' i = Some p) ->
  exception_of t c = Some x -> exception_of t c' = Some x.
Proof.
  intros Hd. unfold exception_of. destruct (prog_of c t) as [p|] eqn:Hp; [|done].
  destruct p as [|y| | |]; try done. intros [= <-]. by rewrite (Hd t _ Hp eq_refl).
Qed.

#[export] Instance evolves_preorder b : PreOrder (evolves b).
Proof.
  split.
  - intros c. split; auto.
  - intros c1 c2 c3 [L1 D1 F1 C1] [L2 D2 F2 C2]. split; [congruence|eauto|eauto|].
    intros Hb i Hi Hr. destruct (C1 Hb i Hi Hr) as [[Hi2 Hr2]|Hx]; [by apply C2|].
    right. by eapply exception_kept.
Qed.

(** The state and the flag of the supervisor are not part of it. *)
Lemma evolves_set_state b s c : evolves b c (set_state s c).
Proof. split; auto. Qed.

Lemma evolves_set_cancel b v c : evolves b c (set_cancel v c).
Proof. split; auto. Qed.

Lemma prog_of_cancel i t c : prog_of (cancel t c) i = prog_of c i.
Proof.
  unfold prog_of, cancel. simpl. destruct (decide (t = i)) as [<-|Hne].
  - rewrite list_lookup_alter_eq. destruct (k_tasks c !! t) as [[p b]|]; simpl; [|done].
    unfold request_cancel. simpl. by destruct (finished p).
  - by rewrite list_lookup_alter_ne.
Qed.

Lemma is_done_cancel i t c : is_done i (cancel t c) = is_done i c.
Proof. unfold is_done. by rewrite prog_of_cancel. Qed.

Lemma requested_cancel i t c : requested i c = true -> requested i (cancel t c) = true.
Proof.
  unfold requested, cancel. simpl. destruct (decide (t = i)) as [<-|Hne].
  - rewrite list_lookup_alter_eq. destruct (k_tasks c !! t) as [[p b]|]; simpl; [|done].
    unfold request_cancel. simpl. by destruct (finished p).
  - by rewrite list_lookup_alter_ne.
Qed.

Lemma cancel_flags t c : (t < length (k_tasks c))%nat -> is_done t (cancel t c) || requested t (cancel t c) = true.
Proof.
  intros [[p b] Ht]%lookup_lt_is_Some. unfold is_done, requested, prog_of, cancel. simpl.
  rewrite list_lookup_alter_eq, Ht. simpl. unfold request_cancel. simpl.
  destruct (finished p) eqn:Hp; simpl; [by rewrite Hp|]. apply orb_true_r.
Qed.

Lemma evolves_cancel b t c : evolves b c (cancel t c).
Proof.
  split.
  - apply length_alter.
  - intros i p Hp _. by rewrite prog_of_cancel.
  - intros _ i. rewrite is_done_cancel, !orb_true_iff. intros [H|H]; [by left|right].
    by apply requested_cancel.
  - intros _ i Hi Hr. left. rewrite is_done_cancel. split; [done|by apply requested_cancel].
Qed.

Lemma evolves_cancel_all b ts c : evolves b c (foldr cancel c ts).
Proof.
  induction ts as [|t ts IH]; simpl; [reflexivity|]. etransitivity; [exact IH|]. apply evolves_cancel.
Qed.

Lemma all_done_evolves b ts c c' : evolves b c c' -> all_done ts c -> all_done ts c'.
Proof.
  intros He Hd. eapply Forall_impl; [exact Hd|]. intros t. unfold is_done.
  destruct (prog_of c t) as [p|] eqn:Hp; [|done]. intros Hf. by rewrite (ev_done _ _ _ He t p Hp Hf).
Qed.

Lemma all_done_elem ts (c : tasks St E) t : all_done ts c -> t ∈ ts -> is_done t c = true.
Proof. unfold all_done. rewrite Forall_forall. auto. Qed.

Lemma is_done_evolves b t c c' : evolves b c c' -> is_done t c = true -> is_done t c' = true.
Proof.
  intros He Hd. apply (all_done_elem [t]); [|left]. eapply all_done_evolves; [exact He|].
  by repeat constructor.
Qed.

Lemma flagged_evolves ts c c' : evolves true c c' -> flagged ts c -> flagged ts c'.
Proof. intros He Hf. eapply Forall_impl; [exact Hf|]. intros t. by apply (ev_flag _ _ _ He). Qed.

Lemma exception_evolves b t x c c' :
  evolves b c c' -> exception_of t c = Some x -> exception_of t c' = Some x.
Proof.
  intros He. apply exception_kept, (ev_done _ _ _ He).
Qed.

(** A task that has returned keeps its result. *)
Lemma returned_evolves b t c c' :
  evolves b c c' -> is_done t c = true -> exception_of t c = None ->
  is_done t c' = true /\ exception_of t c' = None.
Proof.
  intros He. unfold is_done, exception_of. destruct (prog_of c t) as [p|] eqn:Hp; [|done].
  intros Hd Hx. by rewrite (ev_done _ _ _ He t p Hp Hd).
Qed.

(** The exception a [gather] raises is that of one of its tasks. *)
Lemma first_failure_exception ts c x :
  first_failure ts c = Some x -> exists t, t ∈ ts /\ exception_of t c = Some x.
Proof.
  unfold first_failure. destruct (omap _ _) as [|y l] eqn:El; [done|]. intros [= <-].
  assert (y ∈ omap (fun t => if decide (t ∈ ts) then exception_of t c else None) (k_log c)) as Hy.
  { rewrite El. left. }
  apply list_elem_of_omap in Hy as (t & _ & Ht). destruct (decide (t ∈ ts)); [|done]. eauto.
Qed.
End evolution.

Section logic.
Context {St : Type} {E : sig} `{!Interrupt E}.
Context (I : St -> Prop) (G : St -> St -> Prop) `{!PreOrder G}.
(** Whether the tasks are to end at once when they are cancelled. *)
Context (prompt : bool).

(** What the supervisor promises at its own awaited calls. *)
Context (obs : ev E -> tasks St E -> Prop).

Definition rely (c c' : tasks St E) : Prop :=
  evolves prompt c c' /\ I (k_state c') /\ G (k_state c) (k_state c').

Lemma rely_trans c1 c2 c3 : rely c1 c2 -> rely c2 c3 -> rely c1 c3.
Proof. intros (A1 & B1 & C1) (A2 & B2 & C2). split_and!; [by etransitivity|done|by etransitivity]. Qed.

Lemma rely_refl c : I (k_state c) -> rely c c.
Proof. intros HI. split_and!; [reflexivity|done|reflexivity]. Qed.

(** A task that may be created. *)
Definition task_safe (p : prog St E unit) : Prop :=
  (forall s, I s -> safe I G p (settled I G) s s) /\ (prompt = true -> cancellable p).

Definition vis_safe (e : tev St E) (rec : tresp e -> St -> tasks St E -> Prop) (s0 : St)
    (c : tasks St E) : Prop :=
  (match e as e return (tresp e -> St -> tasks St E -> Prop) -> Prop with
   | TCall e => fun rec =>
       if suspends E e then
         I (k_state c) /\ G s0 (k_state c) /\
         forall c', rely c c' -> obs e c' /\ forall r, rec r (k_state c') c'
       else forall r, rec r s0 c
   | TCreate p => fun rec => task_safe p /\ rec (length (k_tasks c)) s0 (add_task p c)
   | TCancel t => fun rec => rec tt s0 (cancel t c)
   | TDone t => fun rec => rec (is_done t c) s0 c
   | TException t => fun rec => rec (exception_of t c) s0 c
   | TGather ts => fun rec =>
       I (k_state c) /\ G s0 (k_state c) /\
       forall c' r, rely c c' -> gathered ts c' r -> rec r (k_state c') (set_cancel false c')
   | TGatherAll ts => fun rec =>
       I (k_state c) /\ G s0 (k_state c) /\ (prompt = true -> flagged ts c) /\
       forall c' r, rely c c' -> gathered_all ts c' r -> rec r (k_state c') (set_cancel false c')
   | TWait ts => fun rec =>
       I (k_state c) /\ G s0 (k_state c) /\
       forall c', rely c c' ->
         (forall done, waited ts c' done -> rec (inl done) (k_state c') c') /\
         rec (inr CancelledError) (k_state c') c'
   end) rec.

Lemma vis_safe_mono e (rec rec' : tresp e -> St -> tasks St E -> Prop) s0 c :
  (forall r s0 c, rec r s0 c -> rec' r s0 c) -> vis_safe e rec s0 c -> vis_safe e rec' s0 c.
Proof.
  intros Hr. destruct e as [e|p|t|t|t|ts|ts|ts]; simpl; try naive_solver.
  destruct (suspends E e); [|by auto]. intros (HI & HG & Hk). split_and!; [done|done|].
  intros c' Hc. destruct (Hk c' Hc). eauto.
Qed.

(** [tsafe p Q s0 c]: the supervisor [p], running over the tasks [c] within
    a segment that started in the state [s0], keeps its promises and ends
    with [Q]. *)
Fixpoint tsafe {A} (p : prog St (task_sig St E) A) (Q : A + exn -> St -> tasks St E -> Prop)
    (s0 : St) (c : tasks St E) : Prop :=
  match p with
  | Ret a => Q (inl a) s0 c
  | Throw x => Q (inr x) s0 c
  | Get k => tsafe (k (k_state c)) Q s0 c
  | Put s k => tsafe k Q s0 (set_state s c)
  | Vis e k => vis_safe e (fun r => tsafe (k r) Q) s0 c
  end.

Lemma tsafe_mono {A} (p : prog St (task_sig St E) A) (Q Q' : A + exn -> St -> tasks St E -> Prop) s0 c :
  (forall o s0 c, Q o s0 c -> Q' o s0 c) -> tsafe p Q s0 c -> tsafe p Q' s0 c.
Proof.
  intros HQ. revert s0 c. induction p as [| |k IH|s k IH|e k IH]; simpl; intros s0 c; auto.
  apply vis_safe_mono. auto.
Qed.

Lemma tsafe_bind {A B} (p : prog St (task_sig St E) A) (f : A -> prog St (task_sig St E) B) Q s0 c :
  tsafe p (fun o s0 c => match o with
                         | inl a => tsafe (f a) Q s0 c
                         | inr x => Q (inr x) s0 c
                         end) s0 c ->
  tsafe (p ≫= f) Q s0 c.
Proof.
  unfold mbind, prog_mbind. revert s0 c.
  induction p as [| |k IH|s k IH|e k IH]; simpl; intros s0 c; auto.
  apply vis_safe_mono. auto.
Qed.

Lemma tsafe_gets {A B} (f : St -> A) (k : A -> prog St (task_sig St E) B) Q s0 c :
  tsafe (k (f (k_state c))) Q s0 c -> tsafe (gets f ≫= k) Q s0 c.
Proof. done. Qed.

Lemma tsafe_try_except {A} (p : prog St (task_sig St E) A) h Q s0 c :
  tsafe p (fun o s0 c => match o with
                         | inl a => Q (inl a) s0 c
                         | inr x => tsafe (h x) Q s0 c
                         end) s0 c ->
  tsafe (try_except p h) Q s0 c.
Proof.
  revert s0 c. induction p as [| |k IH|s k IH|e k IH]; simpl; intros s0 c; auto.
  apply vis_safe_mono. auto.
Qed.

Lemma tsafe_try_finally {A} (p : prog St (task_sig St E) A) q Q s0 c :
  tsafe p (fun o s0 c =>
             tsafe q (fun o' s0 c => match o' with
                                     | inl _ => Q o s0 c
                                     | inr x => Q (inr x) s0 c
                                     end) s0 c) s0 c ->
  tsafe (try_finally p q) Q s0 c.
Proof.
  revert s0 c. induction p as [| |k IH|s k IH|e k IH]; simpl; intros s0 c Hs; auto.
  1,2: apply tsafe_bind; revert Hs; apply tsafe_mono; by intros [[]|].
  revert Hs. apply vis_safe_mono. auto.
Qed.

(** A coroutine without tasks, inside a supervisor. *)
Lemma tsafe_lift {A} (p : prog St E A) (Q : A + exn -> St -> St -> Prop) s0 c :
  (forall e c', evolves prompt c c' -> obs e c') ->
  safe I G p Q s0 (k_state c) ->
  tsafe (lift p) (fun o s0 c' => Q o s0 (k_state c') /\ evolves prompt c c') s0 c.
Proof.
  intros Hobs Hp.
  assert (forall s0 c1, evolves prompt c c1 -> safe I G p Q s0 (k_state c1) ->
    tsafe (lift p) (fun o s0 c' => Q o s0 (k_state c') /\ evolves prompt c c') s0 c1) as Haux.
  2: by apply Haux.
  clear s0 Hp. induction p as [| |k IH|s k IH|e k IH]; simpl; intros s0 c1 He Hp; auto.
  - apply IH; [|done]. etransitivity; [exact He|]. apply evolves_set_state.
  - destruct (suspends E e); [|by auto]. destruct Hp as (HI & HG & Hk).
    split_and!; [done|done|]. intros c' (He' & HI' & HG').
    assert (evolves prompt c c') by (by etransitivity). split; [by apply Hobs|]. intros r. by apply IH; [|apply Hk].
Qed.

(** A coroutine that neither waits nor raises. *)
Lemma safe_direct {A} (p : prog St E A) Q s0 s :
  direct p -> safe I G p Q s0 s -> safe I G p (fun o s0 s => (exists a, o = inl a) /\ Q o s0 s) s0 s.
Proof.
  revert s0 s. induction p as [| |k IH|s1 k IH|e k IH]; simpl; intros s0 s Hd Hp; auto; [by eauto|done|].
  destruct Hd as [He Hd]. rewrite He in *. auto.
Qed.

(** ** The idioms of the sources *)

Definition add_tasks (ps : list (prog St E unit)) (c : tasks St E) : tasks St E :=
  foldl (fun c p => add_task p c) c ps.

Lemma add_tasks_length ps c : length (k_tasks (add_tasks ps c)) = (length (k_tasks c) + length ps)%nat.
Proof.
  unfold add_tasks. revert c. induction ps as [|p ps IH]; intros c; simpl; [lia|].
  rewrite IH. simpl. rewrite length_app. simpl. lia.
Qed.

Lemma add_tasks_state ps c : k_state (add_tasks ps c) = k_state c.
Proof. unfold add_tasks. revert c. induction ps as [|p ps IH]; intros c; simpl; [done|]. by rewrite IH. Qed.

(** The other tasks are not affected. *)
Lemma add_tasks_prog ps (c : tasks St E) t p : prog_of c t = Some p -> prog_of (add_tasks ps c) t = Some p.
Proof.
  unfold add_tasks. revert c. induction ps as [|p0 ps IH]; intros c Hp; simpl; [done|].
  apply IH. unfold prog_of in *. simpl. destruct (k_tasks c !! t) as [k|] eqn:Ht; [|done].
  by rewrite (lookup_app_l_Some _ _ _ _ Ht).
Qed.

Lemma add_tasks_done ps (c : tasks St E) t : is_done t c = true -> is_done t (add_tasks ps c) = true.
Proof.
  unfold is_done. destruct (prog_of c t) as [p|] eqn:Hp; [|done]. by rewrite (add_tasks_prog _ _ _ _ Hp).
Qed.

Lemma add_tasks_exception ps (c : tasks St E) t x :
  exception_of t c = Some x -> exception_of t (add_tasks ps c) = Some x.
Proof.
  unfold exception_of. destruct (prog_of c t) as [p|] eqn:Hp; [|done].
  by rewrite (add_tasks_prog _ _ _ _ Hp).
Qed.

Lemma tsafe_create_tasks ps Q s0 c :
  Forall task_safe ps ->
  Q (inl (seq (length (k_tasks c)) (length ps))) s0 (add_tasks ps c) ->
  tsafe (create_tasks ps) Q s0 c.
Proof.
  intros Hps. revert Q c. induction Hps as [|p ps Hp Hps IH]; intros Q c HQ; [done|].
  cbn -[add_task mbind]. split; [done|]. apply tsafe_bind, IH. cbn -[seq]. simpl in HQ.
  by rewrite length_app, Nat.add_1_r.
Qed.

Lemma tsafe_cancel_tasks ts s0 (c : tasks St E) :
  Forall (fun t => (t < length (k_tasks c))%nat) ts ->
  tsafe (cancel_tasks ts)
    (fun o s0' c' => o = inl tt /\ s0' = s0 /\ k_state c' = k_state c /\
                     evolves true c c' /\ flagged ts c' /\
                     forall i, prog_of c' i = prog_of c i) s0 c.
Proof.
  unfold cancel_tasks. revert c. induction ts as [|t ts IH]; intros c Hlt.
  - simpl. split_and!; try done. constructor.
  - apply Forall_cons in Hlt as [Ht Hts]. apply tsafe_bind. cbn -[cancel for_each].
    eapply tsafe_mono; [|apply IH].
    + intros o s1 c' (-> & -> & Hs & He & Hf & Hp). split_and!; try done.
      * etransitivity; [apply evolves_cancel|exact He].
      * constructor; [|done]. apply (ev_flag _ _ _ He); [done|]. by apply cancel_flags.
      * intros i. by rewrite Hp, prog_of_cancel.
    + eapply Forall_impl; [exact Hts|]. simpl. intros. by rewrite length_alter.
Qed.

Lemma evolves_weaken b (c : tasks St E) c' : evolves true c c' -> evolves b c c'.
Proof. intros [H1 H2 H3 H4]. split; auto. Qed.

(** [for task in tasks: task.cancel()], then the wait for all of them. *)
Lemma tsafe_cancel_and_gather ts s0 (c : tasks St E) :
  I (k_state c) -> G s0 (k_state c) -> Forall (fun t => (t < length (k_tasks c))%nat) ts ->
  tsafe (cancel_tasks ts ≫= fun _ => gather_all ts)
    (fun o s0' c' => (o = inl tt \/ o = inr CancelledError) /\ s0' = k_state c' /\ I (k_state c') /\
                     evolves prompt c c' /\ all_done ts c') s0 c.
Proof.
  intros HI HG Hlt. apply tsafe_bind. eapply tsafe_mono; [|by apply tsafe_cancel_tasks].
  intros o s1 c1 (-> & -> & Hs & He & Hf & _). cbn. rewrite Hs. split_and!; [done|done|done|].
  intros c2 r (He2 & HI2 & HG2) [Hd].
  assert (evolves prompt c (set_cancel false c2)).
  { etransitivity; [by apply evolves_weaken|]. etransitivity; [exact He2|apply evolves_set_cancel]. }
  destruct (k_cancel c2); simpl; split_and!; auto.
Qed.

(** [await asyncio.gather( *tasks)] *)
Lemma tsafe_gather ts s0 (c : tasks St E) :
  I (k_state c) -> G s0 (k_state c) ->
  tsafe (gather ts)
    (fun o s0' c' => s0' = k_state c' /\ I (k_state c') /\ evolves prompt c c' /\
       match o with
       | inl _ => all_done ts c' /\ Forall (fun t => exception_of t c' = None) ts
       | inr x => x = CancelledError \/ exists t, t ∈ ts /\ exception_of t c' = Some x
       end) s0 c.
Proof.
  intros HI HG. cbn. split_and!; [done|done|]. intros c' r (He & HI' & HG') Hr.
  assert (evolves prompt c (set_cancel false c')) by (etransitivity; [exact He|apply evolves_set_cancel]).
  destruct Hr as [x Hx|Hd Hno]; simpl; [|destruct (k_cancel c'); simpl]; split_and!; auto.
  right. by apply first_failure_exception.
Qed.

(** ** Soundness *)

Definition cont_safe (p : prog St E unit) (s : St) : Prop :=
  match p with
  | Vis e k => if suspends E e then forall r, safe I G (k r) (settled I G) s s
               else safe I G p (settled I G) s s
  | _ => safe I G p (settled I G) s s
  end.

Definition tasks_ok (s0 : St) (ts : list (task St E)) : Prop :=
  Forall (fun t => (prompt = true -> cancellable (t_prog t)) /\
                   forall s, I s -> G s0 s -> cont_safe (t_prog t) s) ts.

Lemma tasks_ok_later s0 s1 ts : G s0 s1 -> tasks_ok s0 ts -> tasks_ok s1 ts.
Proof.
  intros HG Hf. eapply Forall_impl; [exact Hf|]. intros t [Hc Ht]. split; [done|]. intros s HI HG'.
  apply Ht; [done|]. by etransitivity.
Qed.

Lemma task_safe_ok s0 p : task_safe p -> (prompt = true -> cancellable p) /\
  forall s, I s -> G s0 s -> cont_safe p s.
Proof.
  intros [Hs Hc]. split; [done|]. intros s HI _. specialize (Hs s HI).
  destruct p as [| | | |e k]; try done. simpl in *. destruct (suspends E e); [|done].
  destruct Hs as (_ & _ & Hk). intros r. apply Hk; [done|reflexivity].
Qed.

Lemma resume_safe p q s : finished p = false -> resume p q -> cont_safe p s -> safe I G q (settled I G) s s.
Proof.
  intros Hf [p' Hp|e k r He] Hs; simpl in Hs; [|by rewrite He in Hs].
  destruct p' as [| | | |e k]; simpl in *; try done. by destruct (suspends E e).
Qed.

Lemma interrupted_safe p q s : I s -> interrupted p q -> cont_safe p s -> safe I G q (settled I G) s s.
Proof.
  intros HI [p' Hp Hf|e k r He Hr] Hs; simpl in *; [split; [done|reflexivity]|].
  rewrite He in Hs. auto.
Qed.

(** What a step of a task is to the supervisor. *)
Lemma task_step_rely i c c' :
  task_step i c c' -> I (k_state c) -> tasks_ok (k_state c) (k_tasks c) ->
  rely c c' /\ tasks_ok (k_state c') (k_tasks c').
Proof.
  intros [s ts l b p cn q s' p' Hi Hf Hres Hseg] HI Hts. simpl in *.
  destruct (Forall_lookup_1 _ _ _ _ Hts Hi) as [Hcn Hp]. simpl in *.
  specialize (Hp s HI ltac:(reflexivity)).
  assert (safe I G q (settled I G) s s) as Hq.
  { destruct cn; [by eapply interrupted_safe | by eapply resume_safe]. }
  destruct (safe_segment I G _ _ _ _ _ Hseg Hq) as (HI' & HG' & Hp').
  assert (prompt = true -> cn = true -> p' = Throw CancelledError) as Hdie.
  { intros Hpr ->. eapply segment_dies; [exact Hseg|]. eapply interrupted_dies; eauto. }
  split.
  - split_and!; [|done|done]. split; simpl.
    + apply length_insert.
    + unfold prog_of. simpl. intros j pj Hj Hfj. destruct (decide (i = j)) as [<-|Hne].
      * rewrite Hi in Hj. simpl in Hj. congruence.
      * by rewrite list_lookup_insert_ne.
    + intros Hpr j. unfold is_done, requested, prog_of. simpl. destruct (decide (i = j)) as [<-|Hne].
      * rewrite list_lookup_insert_eq by (by eapply lookup_lt_Some). rewrite Hi. simpl.
        rewrite Hf. simpl. intros ->. by rewrite Hdie.
      * by rewrite list_lookup_insert_ne.
    + intros Hpr j. unfold is_done, requested, exception_of, prog_of. simpl.
      destruct (decide (i = j)) as [<-|Hne].
      * rewrite list_lookup_insert_eq by (by eapply lookup_lt_Some). rewrite Hi. simpl.
        intros _ ->. right. by rewrite Hdie.
      * rewrite list_lookup_insert_ne by done. by left.
  - apply Forall_insert; [by eapply tasks_ok_later|]. simpl. split.
    + intros Hpr. destruct cn; [by rewrite Hdie|].
      eapply segment_cancellable; [exact Hseg|]. eapply resume_cancellable; eauto.
    + intros s1 HI1 HG1. destruct Hp' as [->|[[x ->]|(e & k & -> & He & Hk)]].
      * split; [done|reflexivity].
      * split; [done|reflexivity].
      * simpl. rewrite He. intros r. by apply Hk.
Qed.

Context (P : unit + exn -> tasks St E -> Prop).

Definition final (o : unit + exn) (s0 : St) (c : tasks St E) : Prop :=
  I (k_state c) /\ G s0 (k_state c) /\ forall c', rely c c' -> P o c'.

Lemma idle_rest m s0 c : idle m = true -> tsafe m final s0 c -> I (k_state c) /\ G s0 (k_state c).
Proof.
  destruct m as [| | | |[e| | | | |ts|ts|ts] k]; simpl; intros Hi; try done;
    [by intros (? & ? & _).. | rewrite Hi |  |  | ]; by intros (? & ? & _).
Qed.

Lemma idle_later m s0 c c' : idle m = true -> tsafe m final s0 c -> rely c c' -> tsafe m final (k_state c') c'.
Proof.
  intros Hi Hm Hc. pose proof Hc as (He & HI & HG).
  assert (forall c'', rely c' c'' -> rely c c'') as Htr by (intros; by eapply rely_trans).
  assert (G (k_state c') (k_state c')) as Hrefl by reflexivity.
  destruct m as [| | | |[e| | | | |ts|ts|ts] k]; simpl in *; try done.
  - destruct Hm as (_ & _ & Hp). split_and!; auto.
  - destruct Hm as (_ & _ & Hp). split_and!; auto.
  - rewrite Hi in *. destruct Hm as (_ & _ & Hk). split_and!; auto.
  - destruct Hm as (_ & _ & Hk). split_and!; auto.
  - destruct Hm as (_ & _ & Hf & Hk). split_and!; auto. intros Hpr. eapply flagged_evolves; [|by apply Hf].
    by rewrite Hpr in He.
  - destruct Hm as (_ & _ & Hk). split_and!; auto.
Qed.

Definition sys_ok (y : prog St (task_sig St E) unit * tasks St E) : Prop :=
  exists s0, I s0 /\ tasks_ok s0 (k_tasks y.2) /\ tsafe y.1 final s0 y.2.

Lemma tasks_ok_progs s0 ts ts' : map t_prog ts' = map t_prog ts -> tasks_ok s0 ts -> tasks_ok s0 ts'.
Proof.
  intros Hm Hts. apply Forall_lookup. intros i t Ht.
  assert (map t_prog ts !! i = Some (t_prog t)) as Hi.
  { rewrite <- Hm, list_lookup_fmap, Ht. done. }
  rewrite list_lookup_fmap in Hi. destruct (ts !! i) as [t0|] eqn:H0; [|done]. simpl in Hi.
  destruct (Forall_lookup_1 _ _ _ _ Hts H0) as [H1 H2].
  assert (t_prog t0 = t_prog t) as Et by congruence. rewrite Et in *. auto.
Qed.

Lemma map_prog_cancel t (c : tasks St E) : map t_prog (k_tasks (cancel t c)) = map t_prog (k_tasks c).
Proof.
  apply list_eq. intros i. rewrite !list_lookup_fmap. exact (prog_of_cancel i t c).
Qed.

Lemma map_prog_cancel_all ts (c : tasks St E) :
  map t_prog (k_tasks (foldr cancel c ts)) = map t_prog (k_tasks c).
Proof. induction ts as [|t ts IH]; cbn [foldr]; [done|]. by rewrite map_prog_cancel. Qed.

Lemma k_state_cancel_all ts (c : tasks St E) : k_state (foldr cancel c ts) = k_state c.
Proof. induction ts as [|t ts IH]; simpl; done. Qed.

Lemma main_step_ok m c m' c' : main_step m c m' c' -> sys_ok (m, c) -> sys_ok (m', c').
Proof.
  intros Hs (s0 & HI0 & Hts & Hm). simpl in *.
  destruct Hs as [k c|s k c|e k r c|p k c|t k c|t k c|t k c|ts k c r Hr|ts k c r Hr|ts k c done Hr];
    simpl in Hm; try (exists s0; by split_and!).
  - destruct (suspends E e) eqn:He; [|by exists s0; split_and!; simpl; auto].
    destruct Hm as (HI & HG & Hk). exists (k_state c).
    split_and!; [done|by eapply tasks_ok_later|]. by apply (Hk c (rely_refl c HI)).
  - destruct Hm as [Hp Hm]. exists s0. split_and!; [done| |done]. simpl.
    apply Forall_app. split; [done|]. constructor; [|done]. by apply task_safe_ok.
  - exists s0. split_and!; [done| |done]. eapply tasks_ok_progs; [|exact Hts]. apply map_prog_cancel.
  - destruct Hm as (HI & HG & Hk). exists (k_state c).
    split_and!; [done|by eapply tasks_ok_later|]. by apply Hk; [apply rely_refl|].
  - destruct Hm as (HI & HG & _ & Hk). exists (k_state c).
    split_and!; [done|by eapply tasks_ok_later|]. by apply Hk; [apply rely_refl|].
  - destruct Hm as (HI & HG & Hk). exists (k_state c).
    split_and!; [done|by eapply tasks_ok_later|]. by apply (Hk c (rely_refl c HI)).
Qed.

Context (app : prog St E unit -> Prop).
Hypothesis app_keeps : forall p s, app p -> I s -> safe I G p (settled I G) s s.

Lemma sys_step_ok y y' : sys_step app y y' -> sys_ok y -> sys_ok y'.
Proof.
  intros Hs Hok. destruct Hs as [m c m' c' Hs|m c i c' Hi Hs|m c m' c' Hs|m c p s' q Hi Hp Hseg Hq].
  - by eapply main_step_ok.
  - destruct Hok as (s0 & HI0 & Hts & Hm). simpl in *.
    destruct (idle_rest _ _ _ Hi Hm) as [HI HG].
    destruct (task_step_rely _ _ _ Hs HI) as [Hr Hts']; [by eapply tasks_ok_later|].
    exists (k_state c'). split_and!; [apply Hr|done|by eapply idle_later].
  - destruct Hok as (s0 & HI0 & Hts & Hm). simpl in *.
    assert (idle m = true) as Hi by (by destruct Hs).
    destruct (idle_rest _ _ _ Hi Hm) as [HI HG]. pose proof (tasks_ok_later _ _ _ HG Hts) as Hts'.
    assert (forall ts, rely c (set_cancel true (foldr cancel c ts))) as Hrel.
    { intros ts. split_and!; simpl; rewrite ?k_state_cancel_all; try done.
      etransitivity; [apply evolves_cancel_all|apply evolves_set_cancel]. }
    destruct Hs as [ts k c|ts k c|ts k c].
    1,2: exists (k_state (set_cancel true (foldr cancel c ts))); split_and!;
      [apply Hrel | | by eapply idle_later, Hrel]; simpl; rewrite k_state_cancel_all;
      (eapply tasks_ok_progs; [|exact Hts']); apply map_prog_cancel_all.
    destruct Hm as (_ & _ & Hk). exists (k_state c). split_and!; [done|done|].
    by apply (Hk c (rely_refl c HI)).
  - destruct Hok as (s0 & HI0 & Hts & Hm). simpl in *.
    destruct (idle_rest _ _ _ Hi Hm) as [HI HG].
    destruct (safe_segment I G _ _ _ _ _ Hseg (app_keeps _ _ Hp HI)) as (HI' & HG' & _).
    exists s'. split_and!; [done| |].
    + simpl. eapply tasks_ok_later; [|exact Hts]. by etransitivity.
    + apply (idle_later m s0 c (set_state s' c)); [done|done|].
      split_and!; [apply evolves_set_state|done|done].
Qed.

(** Every reachable system keeps what was proved of its supervisor. *)
Theorem sys_inv s0 m y :
  I s0 -> tsafe m final s0 (Tasks s0 [] [] false) -> sys_reachable app s0 m y -> sys_ok y.
Proof.
  intros HI Hm Hr. induction Hr as [|y y' _ IH Hs]; [|by eapply sys_step_ok].
  exists s0. split_and!; [done|constructor|done].
Qed.

(** What [sys_ok] says when the supervisor has ended, ... *)
Lemma sys_ok_end o (m : prog St (task_sig St E) unit) c :
  (m = match o with inl _ => Ret tt | inr x => Throw x end) -> sys_ok (m, c) -> P o c /\ I (k_state c).
Proof.
  intros -> (s0 & _ & _ & Hm). destruct o as [[]|x]; simpl in Hm; destruct Hm as (HI & _ & Hp);
    split; auto; apply Hp, rely_refl; done.
Qed.

(** ... and when it waits. *)
Lemma sys_ok_obs e k c : suspends E e = true ->
  sys_ok (Vis (E := task_sig St E) (TCall e) k, c) -> obs e c.
Proof.
  intros He (s0 & _ & _ & Hm). simpl in Hm. rewrite He in Hm. destruct Hm as (HI & _ & Hk).
  by apply (Hk c (rely_refl c HI)).
Qed.

(** The wait for the end of cancelled tasks comes to an end: every task that
    is not done can take a step, and is done after whatever step it takes. *)
Lemma cleanup_progress ts k c i :
  (forall e, suspends E e = false -> inhabited (resp E e)) ->
  prompt = true -> sys_ok (Vis (E := task_sig St E) (TGatherAll ts) k, c) -> i ∈ ts ->
  is_done i c = false ->
  (exists c', task_step i c c') /\ forall c', task_step i c c' -> is_done i c' = true.
Proof.
  intros Hinh Hpr (s0 & _ & Hts & Hm) Hin Hnd. simpl in *.
  destruct Hm as (_ & _ & Hfl & _). specialize (Hfl Hpr).
  unfold flagged in Hfl. rewrite Forall_forall in Hfl. specialize (Hfl i Hin). rewrite Hnd in Hfl. simpl in Hfl.
  destruct c as [s tks l b]. unfold requested, is_done, prog_of in *. simpl in *.
  destruct (tks !! i) as [[p cn]|] eqn:Hi; [|done]. simpl in *. subst cn.
  destruct (Forall_lookup_1 _ _ _ _ Hts Hi) as [Hc _]. specialize (Hc Hpr). simpl in Hc. split.
  - destruct (interrupted_exists p Hc Hnd) as [q Hq].
    destruct (segment_exists s q Hinh) as (s' & p' & Hseg).
    eexists. eapply (task_go i s tks l b p true q s' p'); done.
  - intros c' Hs. inversion Hs as [s1 ts1 l1 b1 p1 cn1 q1 s1' p1' Hi1 Hf1 Hr1 Hseg1 E1 E2].
    simplify_eq. simpl. rewrite list_lookup_insert_eq by (by eapply lookup_lt_Some). simpl.
    rewrite (segment_dies _ _ _ _ Hseg1); [done|]. by eapply interrupted_dies.
Qed.
End logic.
