(* ===== verification/SessionLogic.v ===== *)
(** * The lifetime of tasks

    The vocabulary of the properties of supervisors ([TaskLogic]): [calm] says
    that no task is running, and the lemmas follow the idioms by which the
    sources end a session (cancel every task and gather them; wait for the first
    task to end and cancel the others). *)

From S2P Require Import Prelude Coro Tasks TaskLogic.

Section calm.
Context {St : Type} {E : sig}.

(** The exceptions after which a supervisor cleans up. *)
Context (ok : exn -> bool).
Implicit Types c : tasks St E.

(** Tasks fail with such exceptions only. *)
Definition orderly_tasks (c : tasks St E) : Prop :=
  forall t x, exception_of t c = Some x -> ok x = true.

(** Every task is done, provided that they end in an orderly way. *)
Definition calm (c : tasks St E) : Prop :=
  orderly_tasks c -> all_done (seq 0 (length (k_tasks c))) c.

(** The tasks outside of [ts] are done, with the same proviso. *)
Definition covers (ts : list nat) (c : tasks St E) : Prop :=
  orderly_tasks c -> forall t, (t < length (k_tasks c))%nat -> t ∈ ts \/ is_done t c = true.

(** How a supervisor of the tasks from [n] on reports their errors: it
    returns when all of them have returned, and raises a cancellation or the
    exception of a task. *)
Definition raised_by (n : nat) (o : unit + exn) (c : tasks St E) : Prop :=
  match o with
  | inl _ => forall t, (n <= t < length (k_tasks c))%nat -> is_done t c = true /\ exception_of t c = None
  | inr x => x = CancelledError \/ exists t, exception_of t c = Some x
  end.

Lemma orderly_evolves b c c' : evolves b c c' -> orderly_tasks c' -> orderly_tasks c.
Proof. intros He Ho t x Hx. apply (Ho t). by eapply exception_evolves. Qed.

Lemma calm_covers c : calm c <-> covers [] c.
Proof.
  split; intros Hc Ho.
  - intros t Ht. right. eapply all_done_elem; [by apply Hc|]. apply elem_of_seq. lia.
  - apply Forall_forall. intros t Ht%elem_of_seq. destruct (Hc Ho t) as [H|]; [lia| |done].
    by apply not_elem_of_nil in H.
Qed.

Lemma calm_done c t : calm c -> orderly_tasks c -> (t < length (k_tasks c))%nat -> is_done t c = true.
Proof.
  intros Hc%calm_covers Ho Ht. destruct (Hc Ho t Ht) as [H|]; [by apply not_elem_of_nil in H|done].
Qed.

Lemma covers_done b ts c c' : covers ts c -> evolves b c c' -> all_done ts c' -> calm c'.
Proof.
  intros Hc He Hd. apply calm_covers. intros Ho t Ht. right. rewrite (ev_length _ _ _ He) in Ht.
  destruct (Hc (orderly_evolves _ _ _ He Ho) t Ht) as [Hin|Hdone]; [by eapply all_done_elem|].
  by eapply is_done_evolves.
Qed.

Lemma calm_evolves b c c' : evolves b c c' -> calm c -> calm c'.
Proof. intros He Hc%calm_covers. by eapply covers_done; [exact Hc|exact He|constructor]. Qed.

Lemma calm_nil c : k_tasks c = [] -> calm c.
Proof. intros Hn _. unfold all_done. rewrite Hn. constructor. Qed.

Lemma nil_evolves b c c' : evolves b c c' -> k_tasks c = [] -> k_tasks c' = [].
Proof. intros He Hn. apply nil_length_inv. by rewrite (ev_length _ _ _ He), Hn. Qed.

(** The tasks that are created now, and those that are already done, are all
    the tasks. *)
Lemma covers_add ps c : calm c -> covers (seq (length (k_tasks c)) (length ps)) (add_tasks ps c).
Proof.
  intros Hq Ho t. rewrite add_tasks_length. intros Ht.
  destruct (decide (t < length (k_tasks c))%nat) as [Hl|Hl].
  - right. apply add_tasks_done, calm_done; [done| |done]. intros t' x Hx. by eapply Ho, add_tasks_exception.
  - left. apply elem_of_seq. lia.
Qed.

(** The tasks are those of the session. *)
Lemma covers_all ts c : (forall t, (t < length (k_tasks c))%nat -> t ∈ ts) -> covers ts c.
Proof. intros Ht _ t Hl. left. auto. Qed.

Lemma raised_by_evolves b n o c c' : evolves b c c' -> raised_by n o c -> raised_by n o c'.
Proof.
  intros He. destruct o as [[]|x]; simpl.
  - intros Hr t. rewrite (ev_length _ _ _ He). intros Ht. destruct (Hr t Ht).
    by eapply returned_evolves.
  - intros [->|[t Ht]]; [by left|right]. exists t. by eapply exception_evolves.
Qed.

(** The tasks that were done are as they were; others may have been added. *)
Definition extends (c c' : tasks St E) : Prop :=
  (length (k_tasks c) <= length (k_tasks c'))%nat /\
  forall t p, prog_of c t = Some p -> finished p = true -> prog_of c' t = Some p.

#[export] Instance extends_preorder : PreOrder extends.
Proof.
  split; [by split|]. intros c1 c2 c3 [L1 H1] [L2 H2]. split; [lia|]. eauto.
Qed.

Lemma evolves_extends b c c' : evolves b c c' -> extends c c'.
Proof. intros [L H _ _]. split; [lia|done]. Qed.

Lemma add_tasks_extends ps c : extends c (add_tasks ps c).
Proof. split; [rewrite add_tasks_length; lia|]. intros t p Hp _. by apply add_tasks_prog. Qed.

(** Where nothing was raised before, and nothing by the tasks since, nothing
    was raised. *)
Lemma nothing_raised c c' :
  calm c -> (forall t, exception_of t c = None) -> extends c c' ->
  raised_by (length (k_tasks c)) (inl tt) c' -> forall t, exception_of t c' = None.
Proof.
  intros Hc Hno [_ Hext] Hr t.
  destruct (decide (t < length (k_tasks c))%nat) as [Hl|Hl].
  - assert (is_done t c = true) as Hd by (apply calm_done; [done| |done]; intros t' x; by rewrite Hno).
    specialize (Hno t). unfold is_done, exception_of in *. destruct (prog_of c t) as [p|] eqn:Hp; [|done].
    by rewrite (Hext t p Hp Hd).
  - destruct (decide (t < length (k_tasks c'))%nat) as [Hl'|Hl']; [apply Hr; lia|].
    unfold exception_of, prog_of. by rewrite lookup_ge_None_2 by lia.
Qed.

Lemma exception_extends t x c c' : extends c c' -> exception_of t c = Some x -> exception_of t c' = Some x.
Proof.
  intros [_ Hext]. unfold exception_of. destruct (prog_of c t) as [p|] eqn:Hp; [|done].
  destruct p as [|y| | |]; try done. intros [= <-]. by rewrite (Hext t _ Hp eq_refl).
Qed.
End calm.

Lemma seq_below n m (l : list nat) k :
  l = seq n m -> (n + m <= k)%nat -> Forall (fun t => (t < k)%nat) l.
Proof. intros -> Hk. apply Forall_forall. intros t Ht%elem_of_seq. lia. Qed.

Lemma add_tasks_app {St E} ps qs (c : tasks St E) :
  add_tasks qs (add_tasks ps c) = add_tasks (ps ++ qs) c.
Proof. unfold add_tasks. by rewrite foldl_app. Qed.

Section sessions.
Context {St : Type} {E : sig} `{!Interrupt E}.
Context (I : St -> Prop) (G : St -> St -> Prop) `{!PreOrder G}.
Context (prompt : bool) (ok : exn -> bool).

(** While a supervisor itself awaits something else than its tasks, it has
    no running tasks. *)
Definition own_calls (_ : ev E) (c : tasks St E) : Prop := calm ok c.

Abbreviation ssafe p := (tsafe I G prompt own_calls p).
Abbreviation rest s0 c := (I (k_state c) /\ G s0 (k_state c)).

(** The coroutines a supervisor runs itself. *)
Lemma lift_safe {A} (p : prog St E A) Q s0 c :
  safe I G p Q s0 (k_state c) -> calm ok c ->
  ssafe (lift p) (fun o s0' c' => Q o s0' (k_state c') /\ evolves prompt c c' /\ calm ok c') s0 c.
Proof.
  intros Hp Hcalm. eapply tsafe_mono; [|apply tsafe_lift; [|exact Hp]].
  - intros o s1 c1 [H1 He]. split_and!; [done..|]. by eapply calm_evolves.
  - intros e c' He. by eapply calm_evolves.
Qed.

Lemma task_of p : keeps I G p -> (prompt = true -> cancellable p) -> task_safe I G prompt p.
Proof.
  intros Hk Hc. split; [|done]. intros s HI.
  eapply safe_mono; [|apply Hk; split; [done|reflexivity]]. intros o s1 s2 H2. exact H2.
Qed.

(** What a supervisor does before it creates its tasks. *)
Lemma setup_safe {A} (p : prog St E A) (k : A -> prog St (task_sig St E) unit)
    (Q : unit + exn -> tasks St E -> Prop) s0 c :
  keeps I G p -> rest s0 c -> k_tasks c = [] ->
  (forall x c', k_tasks c' = [] -> Q (inr x) c') ->
  (forall a s0 c, rest s0 c -> k_tasks c = [] ->
     ssafe (k a) (fun o s0' c' => rest s0' c' /\ calm ok c' /\ Q o c') s0 c) ->
  ssafe (lift p ≫= k) (fun o s0' c' => rest s0' c' /\ calm ok c' /\ Q o c') s0 c.
Proof.
  intros Hp Hr Hn HQ Hk. apply tsafe_bind.
  eapply tsafe_mono; [|eapply lift_safe; [by apply Hp|by apply calm_nil]].
  intros o s2 c2 (H2 & He & Hc2).
  assert (k_tasks c2 = []) as Hn2 by (by eapply nil_evolves).
  destruct o as [a|x]; [by apply Hk|]. split_and!; try apply H2; auto.
Qed.

(** [await asyncio.wait(tasks, return_when=FIRST_COMPLETED)] *)
Lemma wait_first_safe ts s0 c :
  rest s0 c ->
  ssafe (wait_first ts)
    (fun o s0' c' => s0' = k_state c' /\ I (k_state c') /\ evolves prompt c c' /\
       match o with
       | inl dn => dn <> [] /\ (forall t, t ∈ dn -> t ∈ ts /\ is_done t c' = true) /\
                   forall t, t ∈ ts -> t ∉ dn -> is_done t c' = false
       | inr x => x = CancelledError
       end) s0 c.
Proof.
  intros [HI HG]. cbn. split_and!; [done|done|]. intros c1 (He & HI1 & HG1).
  split; [|by split_and!]. intros dn [Hne Hdn]. simpl. split_and!; try done.
  - intros t Ht. rewrite Hdn in Ht. by apply list_elem_of_filter in Ht as [? ?].
  - intros t Ht. rewrite Hdn, list_elem_of_filter. intros Hn. destruct (is_done t c1); [|done].
    by destruct Hn.
Qed.

(** The tasks that are still pending are cancelled, and all are awaited. *)
Lemma cancel_pending_safe (ts dn ts' : list nat) s0 c :
  rest s0 c -> Forall (fun t => (t < length (k_tasks c))%nat) ts ->
  (forall t, t ∈ dn -> is_done t c = true) ->
  (forall t, t ∈ ts' -> t ∈ ts) ->
  ssafe (cancel_tasks (filter (fun t => t ∉ dn) ts) ≫= fun _ => gather_all ts')
    (fun o s0' c' => (o = inl tt \/ o = inr CancelledError) /\ rest s0' c' /\
                     evolves prompt c c' /\ all_done ts' c' /\
                     (prompt = true -> forall t, t ∈ ts -> t ∉ dn -> t ∈ ts' -> is_done t c = false ->
                        exception_of t c' = Some CancelledError)) s0 c.
Proof.
  intros [HI HG] Hlt Hdn Hts. apply tsafe_bind.
  eapply tsafe_mono; [|apply tsafe_cancel_tasks].
  - intros o s1 c1 (-> & -> & Hs & He & Hf & Hprog). cbn. rewrite Hs. split_and!; [done|done| |].
    { intros _. apply Forall_forall. intros t Ht%Hts. destruct (decide (t ∈ dn)) as [Hin|Hin].
      - rewrite (is_done_evolves _ _ _ _ He); [done|by apply Hdn].
      - unfold flagged in Hf. rewrite Forall_forall in Hf. apply Hf.
        by apply list_elem_of_filter. }
    intros c2 r (He2 & HI2 & HG2) [Hd].
    assert (evolves prompt c (set_cancel false c2)).
    { etransitivity; [by apply evolves_weaken|]. etransitivity; [exact He2|apply evolves_set_cancel]. }
    assert (prompt = true -> forall t, t ∈ ts -> t ∉ dn -> t ∈ ts' -> is_done t c = false ->
              exception_of t (set_cancel false c2) = Some CancelledError) as Hx.
    { intros Hpr t Ht Hn Ht' Hnd. assert (is_done t c1 = false) as Hnd1 by (by unfold is_done; rewrite Hprog).
      unfold flagged in Hf. rewrite Forall_forall in Hf.
      assert (requested t c1 = true) as Hr.
      { specialize (Hf t). rewrite Hnd1 in Hf. apply Hf. by apply list_elem_of_filter. }
      destruct (ev_cancel _ _ _ He2 Hpr t Hnd1 Hr) as [[Hnd2 _]|Hx]; [|exact Hx].
      pose proof (all_done_elem _ _ _ Hd Ht'). congruence. }
    destruct (k_cancel c2); simpl; split_and!; auto; reflexivity.
  - apply Forall_forall. intros t [_ Ht]%list_elem_of_filter. rewrite Forall_forall in Hlt. auto.
Qed.

(** From the proof of a supervisor to its reachable systems. *)
Lemma supervised_ok (app : prog St E unit -> Prop) (R : unit + exn -> tasks St E -> Prop) s m y :
  (forall p, app p -> keeps I G p) ->
  (forall o c c', calm ok c -> evolves prompt c c' -> R o c -> R o c') -> I s ->
  ssafe m (fun o s0 c => rest s0 c /\ calm ok c /\ R o c) s (Tasks s [] [] false) ->
  sys_reachable app s m y ->
  sys_ok I G prompt own_calls (fun o c => calm ok c /\ R o c) y.
Proof.
  intros Happ HR HI Hm Hy. eapply (sys_inv I G prompt own_calls); [|exact HI| |exact Hy].
  - intros p s1 Hp HI1. eapply safe_mono; [|apply (Happ p Hp); split; [done|reflexivity]].
    intros o s2 s3 H3. exact H3.
  - eapply tsafe_mono; [|exact Hm]. intros o s1 c1 ([HI1 HG1] & Hc & Ho).
    split_and!; [done|done|]. intros c2 (He & _ & _). split; [by eapply calm_evolves|by eapply HR].
Qed.

(** The supervisor has ended, or it awaits something that is not its tasks. *)
Definition on_its_own (m : prog St (task_sig St E) unit) : bool :=
  match m with
  | Ret _ | Throw _ => true
  | Vis e _ => match e with TCall e => suspends E e | _ => false end
  | _ => false
  end.

Lemma sys_ok_calm P m c :
  (forall o c, P o c -> calm ok c) -> sys_ok I G prompt own_calls P (m, c) -> on_its_own m = true ->
  calm ok c.
Proof.
  intros HP Hok Hm. destruct m as [[]|x| | |[e| | | | | | |] k]; try done.
  - destruct (sys_ok_end I G prompt own_calls P (inl tt) _ _ eq_refl Hok). eauto.
  - destruct (sys_ok_end I G prompt own_calls P (inr x) _ _ eq_refl Hok). eauto.
  - by eapply (sys_ok_obs I G prompt own_calls P).
Qed.
End sessions.
