(* ===== verification/Resources.v ===== *)
(** * Resources along the paths of a coroutine

    A coroutine acquires and releases resources of the outside world (a
    listening port, a process) through the calls it makes.  [along] follows
    what is held over every path of a program, whatever the calls answer and
    whatever the other coroutines do to the state. *)

From S2P Require Import Prelude Coro Tasks.

Section along.
Context {St : Type} {E : sig} {R : Type}.

(** What is held after a call with its answer. *)
Context (next : forall e : ev E, resp E e -> R -> R).

(** Every path of [p] from [r] ends in a state that [Q] allows. *)
Fixpoint along {A} (p : prog St E A) (Q : A + exn -> R -> Prop) (r : R) : Prop :=
  match p with
  | Ret a => Q (inl a) r
  | Throw x => Q (inr x) r
  | Get k => forall s, along (k s) Q r
  | Put _ k => along k Q r
  | Vis e k => forall a, along (k a) Q (next e a r)
  end.

Lemma along_mono {A} (p : prog St E A) (Q Q' : A + exn -> R -> Prop) r :
  (forall o r', Q o r' -> Q' o r') -> along p Q r -> along p Q' r.
Proof. intros HQ. revert r. induction p; simpl; auto. Qed.

Lemma along_bind {A B} (p : prog St E A) (f : A -> prog St E B) Q r :
  along p (fun o r' => match o with inl a => along (f a) Q r' | inr x => Q (inr x) r' end) r ->
  along (p ≫= f) Q r.
Proof. unfold mbind, prog_mbind. revert r. induction p; simpl; auto. Qed.

Lemma along_modify {A} f (k : unit -> prog St E A) Q r :
  along (k tt) Q r -> along (modify f ≫= k) Q r.
Proof. intros Hk s. exact Hk. Qed.

Lemma along_try_except {A} (p : prog St E A) h Q r :
  along p (fun o r' => match o with inl a => Q (inl a) r' | inr x => along (h x) Q r' end) r ->
  along (try_except p h) Q r.
Proof. revert r. induction p; simpl; auto. Qed.

Lemma along_try_finally {A} (p : prog St E A) q Q r :
  along p (fun o r' => along q (fun o' r'' => match o' with
                                              | inl _ => Q o r''
                                              | inr x => Q (inr x) r''
                                              end) r') r ->
  along (try_finally p q) Q r.
Proof.
  revert r. induction p; simpl; auto; intros r Hp; apply along_bind;
    (eapply along_mono; [|exact Hp]); by intros [] ?.
Qed.

(** Calls that acquire and release nothing. *)
Fixpoint uninvolved {A} (p : prog St E A) : Prop :=
  match p with
  | Ret _ | Throw _ => True
  | Get k => forall s, uninvolved (k s)
  | Put _ k => uninvolved k
  | Vis e k => (forall a r, next e a r = r) /\ forall a, uninvolved (k a)
  end.

Lemma along_uninvolved {A} (p : prog St E A) (Q : A + exn -> R -> Prop) r :
  uninvolved p -> (forall o, Q o r) -> along p Q r.
Proof.
  intros Hu HQ. induction p as [| |k IH|s k IH|e k IH]; simpl in *; auto.
  destruct Hu as [He Hk]. intros a. rewrite He. auto.
Qed.

Lemma uninvolved_bind {A B} (p : prog St E A) (f : A -> prog St E B) :
  uninvolved p -> (forall a, uninvolved (f a)) -> uninvolved (p ≫= f).
Proof. unfold mbind, prog_mbind. intros Hp Hf. induction p; simpl in *; auto. by destruct Hp; auto. Qed.

Lemma uninvolved_try_except {A} (p : prog St E A) h :
  uninvolved p -> (forall x, uninvolved (h x)) -> uninvolved (try_except p h).
Proof. intros Hp Hh. induction p; simpl in *; auto. by destruct Hp; auto. Qed.

Lemma uninvolved_for_each {X} (l : list X) (body : X -> prog St E unit) :
  (forall x, uninvolved (body x)) -> uninvolved (for_each l body).
Proof. intros Hb. induction l; [done|]. by apply uninvolved_bind. Qed.
End along.

(** The calls a supervisor makes itself; its tasks have paths of their own. *)
Definition own_next {St E R} (next : forall e : ev E, resp E e -> R -> R)
    (e : ev (task_sig St E)) : resp (task_sig St E) e -> R -> R :=
  match e with
  | TCall e => next e
  | _ => fun _ r => r
  end.

Lemma along_lift {St E R} (next : forall e : ev E, resp E e -> R -> R) {A} (p : prog St E A) Q r :
  along next p Q r -> along (own_next next) (lift p) Q r.
Proof. revert r. induction p; simpl; auto. Qed.
