(* ===== verification/Protocol.v ===== *)
(** * Protocol messages

    The protobuf messages of [protocol/proto/gabriel_protocol/v1/gabriel.proto]
    as the generated classes of [gabriel_pb2] present them: a field that is
    not set reads as its default, a [oneof] is an inductive type whose first
    constructor is "not set", and enums are open ([UNRECOGNIZED]).

    The protobuf runtime is not part of the repository: [Codec] states what
    the sources rely on, that parsing a serialized message gives it back. *)

From S2P Require Import Prelude.

(** Python [bytes]. *)
Abbreviation bytes := string (only parsing).

(** [google.protobuf.Any] *)
Record Any := mkAny { any_type_url : string; any_value : bytes }.

Inductive PayloadType : Type :=
| PAYLOAD_TYPE_UNSPECIFIED | TEXT | IMAGE | AUDIO | VIDEO | OTHER
| PAYLOAD_TYPE_UNRECOGNIZED (n : Z).

Inductive InputPayload : Type :=
| NoInputPayload
| StringPayload (s : string)
| BytePayload (b : bytes)
| AnyPayload (a : Any).

Record InputFrame := mkInputFrame {
  payload_type : PayloadType;
  input_payload : InputPayload;
}.

Record Input := mkInput {
  in_frame_id : Z;
  in_producer_id : string;
  in_target_engine_ids : list string;
  in_input_frame : InputFrame;
}.

Inductive FromClient : Type :=
| FromClient_unset
| FromClient_input (i : Input)
| FromClient_registration (client_info : Any).

Inductive StatusCode : Type :=
| STATUS_CODE_UNSPECIFIED
| SUCCESS
| UNSPECIFIED_ERROR
| ENGINE_ERROR
| WRONG_INPUT_FORMAT
| NO_ENGINE_FOR_INPUT
| NO_TOKENS
| SERVER_DROPPED_FRAME
| UNRECOGNIZED (n : Z).

Record Status := mkStatus { code : StatusCode; message : string }.

Inductive ResultPayload : Type :=
| NoResult
| StringResult (s : string)
| BytesResult (b : bytes)
| AnyResult (a : Any).

Record Result := mkResult {
  status : Status;
  payload : ResultPayload;
  target_engine_id : string;
  frame_id : Z;
}.

Record Registered := mkRegistered {
  num_tokens_per_producer : Z;
  registered_engine_ids : list string;
}.

Record ResultWrapper := mkResultWrapper {
  rw_producer_id : string;
  rw_return_token : bool;
  rw_result : Result;
}.

Inductive ToClient : Type :=
| ToClient_unset
| ToClient_registered (r : Registered)
| ToClient_result_wrapper (w : ResultWrapper)
| ToClient_engine_ids_update (engine_ids : list string).

Record Register := mkRegister {
  reg_engine_id : string;
  reg_all_responses_required : bool;
}.

Inductive FromEngine : Type :=
| FromEngine_unset
| FromEngine_register (r : Register)
| FromEngine_result (r : Result).

Record ToEngine := mkToEngine {
  te_input_frame : option InputFrame;
  te_client_info : Any;
}.

(** ** Defaults of unset fields *)

Definition default_Any : Any := mkAny "" "".
Definition default_InputFrame : InputFrame := mkInputFrame PAYLOAD_TYPE_UNSPECIFIED NoInputPayload.
Definition default_Input : Input := mkInput 0 "" [] default_InputFrame.
Definition default_Status : Status := mkStatus STATUS_CODE_UNSPECIFIED "".
Definition default_Result : Result := mkResult default_Status NoResult "" 0.

(** [from_client.input] *)
Definition fc_input (m : FromClient) : Input :=
  match m with FromClient_input i => i | _ => default_Input end.

(** [from_engine.result] *)
Definition fe_result (m : FromEngine) : Result :=
  match m with FromEngine_result r => r | _ => default_Result end.

(** [from_client.WhichOneof("message_type") == "registration"] *)
Definition is_registration (m : FromClient) : bool :=
  match m with FromClient_registration _ => true | _ => false end.

Definition set_frame_id (f : Z) (r : Result) : Result :=
  mkResult (status r) (payload r) (target_engine_id r) f.

(** Protobuf refuses to store a value outside the range of the field. *)
Definition in_int32 (z : Z) : bool := (- 2 ^ 31 <=? z) && (z <? 2 ^ 31).
Definition in_int64 (z : Z) : bool := (- 2 ^ 63 <=? z) && (z <? 2 ^ 63).

(** [StatusCode.Name(code)], which raises [ValueError] on an open value. *)
Definition StatusCode_Name (c : StatusCode) : option string :=
  match c with
  | STATUS_CODE_UNSPECIFIED => Some "STATUS_CODE_UNSPECIFIED"
  | SUCCESS => Some "SUCCESS"
  | UNSPECIFIED_ERROR => Some "UNSPECIFIED_ERROR"
  | ENGINE_ERROR => Some "ENGINE_ERROR"
  | WRONG_INPUT_FORMAT => Some "WRONG_INPUT_FORMAT"
  | NO_ENGINE_FOR_INPUT => Some "NO_ENGINE_FOR_INPUT"
  | NO_TOKENS => Some "NO_TOKENS"
  | SERVER_DROPPED_FRAME => Some "SERVER_DROPPED_FRAME"
  | UNRECOGNIZED _ => None
  end.

(** ** Decidable equality *)

#[export] Instance Any_eq_dec : EqDecision Any.
Proof. solve_decision. Defined.
#[export] Instance PayloadType_eq_dec : EqDecision PayloadType.
Proof. solve_decision. Defined.
#[export] Instance InputPayload_eq_dec : EqDecision InputPayload.
Proof. solve_decision. Defined.
#[export] Instance InputFrame_eq_dec : EqDecision InputFrame.
Proof. solve_decision. Defined.
#[export] Instance StatusCode_eq_dec : EqDecision StatusCode.
Proof. solve_decision. Defined.
#[export] Instance Status_eq_dec : EqDecision Status.
Proof. solve_decision. Defined.
#[export] Instance ResultPayload_eq_dec : EqDecision ResultPayload.
Proof. solve_decision. Defined.
#[export] Instance Result_eq_dec : EqDecision Result.
Proof. solve_decision. Defined.

(** ** Serialization *)

(** [SerializeToString] and [ParseFromString], which fails with
    [DecodeError]. *)
Class Codec (M : Type) := {
  serialize : M -> bytes;
  parse : bytes -> option M;
  parse_serialize : forall m, parse (serialize m) = Some m;
}.

(** What the sources use of Python beyond the language: the text [repr] gives
    for a string, and the order in which a set iterates over its elements,
    which is unspecified. *)
Class PyEnv := {
  py_repr : string -> string;
  set_iter : forall {A : Type} `{Countable A}, gset A -> list A;
  set_iter_perm : forall {A : Type} `{Countable A} (X : gset A), set_iter X ≡ₚ elements X;
}.

Lemma set_iter_elem `{!PyEnv} {A} `{Countable A} (X : gset A) x : x ∈ set_iter X <-> x ∈ X.
Proof. by rewrite set_iter_perm, elem_of_elements. Qed.

Lemma set_iter_NoDup `{!PyEnv} {A} `{Countable A} (X : gset A) : NoDup (set_iter X).
Proof. rewrite set_iter_perm. apply NoDup_elements. Qed.

(** [str(list)] for a list of strings, and for a set of strings. *)
Definition join (sep : string) (l : list string) : string := String.concat sep l.

Definition py_str_list `{!PyEnv} (l : list string) : string :=
  ("[" +:+ join ", " (map py_repr l) +:+ "]")%string.

(** ** Messages that carry tokens *)

(** An input of the producer, and a response that returns one of its tokens. *)
Definition input_of (pid : string) (m : FromClient) : bool :=
  negb (is_registration m) && bool_decide (in_producer_id (fc_input m) = pid).

Definition returns_to (pid : string) (m : ToClient) : bool :=
  match m with
  | ToClient_result_wrapper w => rw_return_token w && bool_decide (rw_producer_id w = pid)
  | _ => false
  end.

(** The acknowledgement of a registration grants [num] tokens. *)
Definition grants (num : Z) (m : ToClient) : Prop :=
  match m with ToClient_registered r => num_tokens_per_producer r = num | _ => True end.

Definition one (b : bool) : Z := if b then 1 else 0.

Lemma one_bounds b : 0 <= one b <= 1.
Proof. destruct b; simpl; lia. Qed.
