(* ===== verification/Wire.v ===== *)
(** * The wire format of protocol buffers

    The protobuf runtime is not part of the repository, and the development
    relies on no more than [Codec] of it.  This file defines, executably, the
    encoding that its documentation describes, for the constructs that
    [gabriel.proto] uses: variable-length integers, keys, length-delimited
    values, optional and repeated fields, embedded messages and oneofs.
    [Descriptor] applies it to the descriptor in the generated code, and
    [Messages] to the messages.

    A message is encoded as a sequence of records.  A codec of a part of a
    message ([fields]) says which fields it covers, how they are declared, and
    how they are written and read; the codecs of messages are products of such
    parts.  As documented, fields may come in any order, the last value of a
    field counts, embedded messages are merged, and unknown fields and fields of
    the wrong wire type are skipped.  That strings must be valid UTF-8 is not
    checked. *)

From Stdlib Require Import Ascii.
From S2P Require Import Prelude Protocol.

(** ** Bytes and variable-length integers *)

Definition byte_of (n : Z) : ascii := ascii_of_N (Z.to_N n).
Definition of_byte (a : ascii) : Z := Z.of_N (N_of_ascii a).

Lemma of_byte_of n : 0 <= n < 256 -> of_byte (byte_of n) = n.
Proof. intros Hn. unfold of_byte, byte_of. rewrite N_ascii_embedding by lia. lia. Qed.

Lemma of_byte_bounds a : 0 <= of_byte a < 256.
Proof. unfold of_byte. pose proof (N_ascii_bounded a). lia. Qed.

(** Seven bits per byte, the lowest first; the top bit says that more follow. *)
Fixpoint put_varint (fuel : nat) (n : Z) : bytes :=
  match fuel with
  | O => EmptyString
  | S fuel' =>
      if n <? 128 then String (byte_of n) EmptyString
      else String (byte_of (n mod 128 + 128)) (put_varint fuel' (n / 128))
  end.

Fixpoint get_varint (fuel : nat) (s : bytes) : option (Z * bytes) :=
  match fuel, s with
  | S fuel', String a s' =>
      if of_byte a <? 128 then Some (of_byte a, s')
      else '(m, r) ← get_varint fuel' s'; Some (of_byte a - 128 + 128 * m, r)
  | _, _ => None
  end.

Lemma get_put_varint fuel n s :
  0 <= n < 128 ^ Z.of_nat (S fuel) -> get_varint (S fuel) (put_varint (S fuel) n +:+ s) = Some (n, s).
Proof.
  revert n. induction fuel as [|fuel IH]; intros n Hn.
  - change (128 ^ Z.of_nat 1) with 128 in Hn. simpl. rewrite (proj2 (Z.ltb_lt n 128)) by lia. simpl.
    rewrite of_byte_of by lia. by rewrite (proj2 (Z.ltb_lt n 128)) by lia.
  - rewrite Nat2Z.inj_succ, Z.pow_succ_r in Hn by lia. remember (S fuel) as f. simpl.
    destruct (Z.ltb_spec n 128) as [Hlt|Hge]; simpl.
    + rewrite of_byte_of by lia. by rewrite (proj2 (Z.ltb_lt n 128)) by lia.
    + pose proof (Z.mod_pos_bound n 128). rewrite of_byte_of by lia.
      rewrite (proj2 (Z.ltb_ge (n mod 128 + 128) 128)) by lia.
      rewrite IH by (split; [apply Z.div_pos; lia|apply Z.div_lt_upper_bound; lia]). simpl.
      do 2 f_equal. pose proof (Z.div_mod n 128). lia.
Qed.

(** At most ten bytes, of which the lowest 64 bits count. *)
Definition varint (n : Z) : bytes := put_varint 10 n.

Definition read_varint (s : bytes) : option (Z * bytes) :=
  '(n, r) ← get_varint 10 s; Some (n mod 2 ^ 64, r).

Lemma read_varint_eq n s : 0 <= n < 2 ^ 64 -> read_varint (varint n +:+ s) = Some (n, s).
Proof.
  intros Hn. unfold read_varint, varint. rewrite get_put_varint.
  - simpl. by rewrite Z.mod_small.
  - split; [lia|]. etransitivity; [apply Hn|]. reflexivity.
Qed.

(** ** Records *)

Inductive wire_type : Type := WVarint | WFixed64 | WLen | WFixed32.

#[export] Instance wire_type_eq_dec : EqDecision wire_type.
Proof. solve_decision. Defined.

Inductive value : Type :=
| Varint (n : Z)
| Fixed64 (b : bytes)
| Len (b : bytes)
| Fixed32 (b : bytes).

Definition wire_of (v : value) : wire_type :=
  match v with Varint _ => WVarint | Fixed64 _ => WFixed64 | Len _ => WLen | Fixed32 _ => WFixed32 end.

Definition wire_code (w : wire_type) : Z :=
  match w with WVarint => 0 | WFixed64 => 1 | WLen => 2 | WFixed32 => 5 end.

(** The number of a field and a value. *)
Abbreviation record := (Z * value)%type.

Definition length_of (b : bytes) : Z := Z.of_nat (String.length b).

Definition value_fits (v : value) : bool :=
  match v with
  | Varint n => (0 <=? n) && (n <? 2 ^ 64)
  | Fixed64 b => length_of b =? 8
  | Len b => length_of b <? 2 ^ 64
  | Fixed32 b => length_of b =? 4
  end.

Definition number_fits (n : Z) : bool := (1 <=? n) && (n <? 2 ^ 29).

Definition record_fits (r : record) : bool := number_fits r.1 && value_fits r.2.

Definition put_value (v : value) : bytes :=
  match v with
  | Varint n => varint n
  | Fixed64 b | Fixed32 b => b
  | Len b => (varint (length_of b) +:+ b)%string
  end.

Definition put_record (r : record) : bytes :=
  (varint (r.1 * 8 + wire_code (wire_of r.2)) +:+ put_value r.2)%string.

Definition put_records (l : list record) : bytes := foldr (fun r s => put_record r +:+ s)%string "" l.

Fixpoint split_at (n : nat) (s : bytes) : option (bytes * bytes) :=
  match n, s with
  | O, _ => Some (EmptyString, s)
  | S n', String a s' => '(b, r) ← split_at n' s'; Some (String a b, r)
  | S _, EmptyString => None
  end.

Definition read_block (n : Z) (s : bytes) : option (bytes * bytes) :=
  if n <=? length_of s then split_at (Z.to_nat n) s else None.

Definition read_value (w : Z) (s : bytes) : option (value * bytes) :=
  if w =? 0 then '(n, r) ← read_varint s; Some (Varint n, r)
  else if w =? 1 then '(b, r) ← read_block 8 s; Some (Fixed64 b, r)
  else if w =? 2 then '(n, s') ← read_varint s; '(b, r) ← read_block n s'; Some (Len b, r)
  else if w =? 5 then '(b, r) ← read_block 4 s; Some (Fixed32 b, r)
  else None.

Definition read_record (s : bytes) : option (record * bytes) :=
  '(key, s') ← read_varint s;
  if number_fits (key / 8) then '(v, r) ← read_value (key mod 8) s'; Some ((key / 8, v), r) else None.

Fixpoint read_records (fuel : nat) (s : bytes) : option (list record) :=
  match s, fuel with
  | EmptyString, _ => Some []
  | _, O => None
  | _, S fuel' => '(r, s') ← read_record s; l ← read_records fuel' s'; Some (r :: l)
  end.

(** A record takes at least one byte. *)
Definition records_of (s : bytes) : option (list record) := read_records (String.length s) s.

Lemma string_length_app (a b : string) : String.length (a +:+ b) = (String.length a + String.length b)%nat.
Proof. induction a; simpl; auto. Qed.

Lemma split_at_app b s : split_at (String.length b) (b +:+ s) = Some (b, s).
Proof. induction b as [|a b IH]; simpl; [done|]. by rewrite IH. Qed.

Lemma read_block_app n b s : length_of b = n -> read_block n (b +:+ s) = Some (b, s).
Proof.
  intros <-. unfold read_block, length_of. rewrite string_length_app.
  rewrite (proj2 (Z.leb_le _ _)) by lia. rewrite Nat2Z.id. apply split_at_app.
Qed.

Lemma string_app_assoc (a b c : string) : ((a +:+ b) +:+ c = a +:+ (b +:+ c))%string.
Proof. induction a as [|x a IH]; [done|]. exact (f_equal (String x) IH). Qed.

Lemma string_app_nil_r (a : string) : (a +:+ "" = a)%string.
Proof. induction a as [|x a IH]; [done|]. exact (f_equal (String x) IH). Qed.

Lemma read_value_eq v s :
  value_fits v = true -> read_value (wire_code (wire_of v)) (put_value v +:+ s) = Some (v, s).
Proof.
  destruct v as [n|b|b|b]; simpl; intros Hv.
  - apply andb_true_iff in Hv as [H1%Z.leb_le H2%Z.ltb_lt]. unfold read_value. simpl.
    by rewrite read_varint_eq.
  - apply Z.eqb_eq in Hv. unfold read_value. simpl. by rewrite (read_block_app 8).
  - apply Z.ltb_lt in Hv. unfold read_value. simpl. rewrite string_app_assoc, read_varint_eq; simpl.
    + by rewrite (read_block_app _ b).
    + split; [unfold length_of; lia|done].
  - apply Z.eqb_eq in Hv. unfold read_value. simpl. by rewrite (read_block_app 4).
Qed.

Lemma wire_code_bounds w : 0 <= wire_code w < 8.
Proof. destruct w; simpl; lia. Qed.

Lemma read_record_eq r s : record_fits r = true -> read_record (put_record r +:+ s) = Some (r, s).
Proof.
  destruct r as [n v]. intros [Hn Hv]%andb_true_iff. simpl in Hn, Hv.
  pose proof Hn as [H1%Z.leb_le H2%Z.ltb_lt]%andb_true_iff. pose proof (wire_code_bounds (wire_of v)).
  unfold read_record, put_record. cbn [fst snd]. rewrite string_app_assoc, read_varint_eq by lia. cbn.
  rewrite (Z.add_comm (n * 8)), Z.div_add, Z.div_small, Z.mod_add, Z.mod_small by lia.
  rewrite Z.add_0_l, Hn, read_value_eq by done. done.
Qed.

Lemma put_record_length r : (1 <= String.length (put_record r))%nat.
Proof. unfold put_record, varint. rewrite string_length_app. cbn. destruct (_ <? _); simpl; lia. Qed.

Lemma records_of_put l : forallb record_fits l = true -> records_of (put_records l) = Some l.
Proof.
  intros Hl. unfold records_of.
  assert (forall fuel, (length l <= fuel)%nat -> read_records fuel (put_records l) = Some l) as Hf.
  { induction l as [|r l IH]; intros fuel Hfuel; [by destruct fuel|]. simpl in Hl, Hfuel.
    apply andb_true_iff in Hl as [Hr Hl]. destruct fuel as [|fuel]; [lia|].
    pose proof (put_record_length r) as Hlen. pose proof (read_record_eq r (put_records l) Hr) as Hread.
    simpl. destruct (put_record r +:+ put_records l)%string as [|a s] eqn:Hs.
    { apply (f_equal String.length) in Hs. rewrite string_length_app in Hs. simpl in Hs. lia. }
    rewrite Hread. cbn. rewrite IH by (done || lia). done. }
  apply Hf. clear Hl Hf. induction l as [|r l IH]; simpl; [lia|].
  rewrite string_length_app. pose proof (put_record_length r). lia.
Qed.

(** ** Fields *)

Inductive ftype : Type :=
| TInt32 | TInt64 | TBool | TString | TBytes
| TEnum (name : string)
| TMessage (name : string).

(** A field as it is declared: [repeated] or not, and in which oneof. *)
Record field := mkField {
  f_name : string;
  f_number : Z;
  f_repeated : bool;
  f_type : ftype;
  f_oneof : option string;
}.

#[export] Instance ftype_eq_dec : EqDecision ftype.
Proof. solve_decision. Defined.
#[export] Instance field_eq_dec : EqDecision field.
Proof. solve_decision. Defined.

(** *** The values of one field *)

(** How a value of the type [A] is written, and how it is read from the values
    of the field, of which there is at least one. *)
Record scalar (A : Type) := Scalar {
  s_type : ftype;
  s_wire : wire_type;
  s_fits : A -> bool;
  s_put : A -> value;
  s_get : list value -> option A;
}.

Arguments Scalar {A} _ _ _ _ _.
Arguments s_type {A} _.
Arguments s_wire {A} _.
Arguments s_fits {A} _ _.
Arguments s_put {A} _ _.
Arguments s_get {A} _ _.

Class ScalarOk {A} (c : scalar A) : Prop := {
  s_put_wire : forall a, wire_of (s_put c a) = s_wire c;
  s_put_fits : forall a, s_fits c a = true -> value_fits (s_put c a) = true;
  s_get_put : forall a, s_fits c a = true -> s_get c [s_put c a] = Some a;
}.

(** The last value counts. *)
Definition last_varint (l : list value) : option Z :=
  v ← last l; match v with Varint n => Some n | _ => None end.

Definition last_len (l : list value) : option bytes :=
  v ← last l; match v with Len b => Some b | _ => None end.

(** Two's complement. *)
Definition signed (bits n : Z) : Z :=
  let m := n mod 2 ^ bits in if m <? 2 ^ (bits - 1) then m else m - 2 ^ bits.

Lemma signed_mod64 bits z :
  0 < bits <= 64 -> - 2 ^ (bits - 1) <= z < 2 ^ (bits - 1) -> signed bits (z mod 2 ^ 64) = z.
Proof.
  intros Hb Hz. unfold signed.
  assert (2 ^ 64 = 2 ^ (64 - bits) * 2 ^ bits) as Hsplit by (rewrite <- Z.pow_add_r by lia; f_equal; lia).
  assert (2 ^ bits = 2 * 2 ^ (bits - 1)) as Hdouble
    by (rewrite <- (Z.pow_succ_r 2) by lia; f_equal; lia).
  assert (0 < 2 ^ (bits - 1)) by (apply Z.pow_pos_nonneg; lia).
  assert (0 < 2 ^ (64 - bits)) by (apply Z.pow_pos_nonneg; lia).
  assert ((z mod 2 ^ 64) mod 2 ^ bits = z mod 2 ^ bits) as ->.
  { apply Z.mod_mod_divide. exists (2 ^ (64 - bits)). exact Hsplit. }
  destruct (Z.ltb_spec z 0).
  - assert (z mod 2 ^ bits = z + 2 ^ bits) as ->.
    { symmetry. apply (Z.mod_unique _ _ (-1)); lia. }
    destruct (Z.ltb_spec (z + 2 ^ bits) (2 ^ (bits - 1))); lia.
  - rewrite Z.mod_small by lia. rewrite (proj2 (Z.ltb_lt _ _)) by lia. done.
Qed.

Definition int64 : scalar Z :=
  Scalar TInt64 WVarint in_int64 (fun z => Varint (z mod 2 ^ 64))
    (fun l => signed 64 <$> last_varint l).

(** A negative number is extended to 64 bits. *)
Definition int32 : scalar Z :=
  Scalar TInt32 WVarint in_int32 (fun z => Varint (z mod 2 ^ 64))
    (fun l => signed 32 <$> last_varint l).

Definition boolean : scalar bool :=
  Scalar TBool WVarint (fun _ => true) (fun b : bool => Varint (if b then 1 else 0))
    (fun l => (fun n => negb (n =? 0)) <$> last_varint l).

Definition text : scalar string :=
  Scalar TString WLen (fun s => length_of s <? 2 ^ 64) Len last_len.

Definition blob : scalar bytes :=
  Scalar TBytes WLen (fun s => length_of s <? 2 ^ 64) Len last_len.

(** An open enum, by the numbers of its values. *)
Definition enum {A} `{EqDecision A} (name : string) (num_of : A -> Z) (of_num : Z -> A) : scalar A :=
  Scalar (TEnum name) WVarint (fun a => in_int32 (num_of a) && bool_decide (of_num (num_of a) = a))
    (fun a => Varint (num_of a mod 2 ^ 64)) (fun l => of_num <$> (signed 32 <$> last_varint l)).

Lemma varint_fits z : value_fits (Varint (z mod 2 ^ 64)) = true.
Proof.
  pose proof (Z.mod_pos_bound z (2 ^ 64)). simpl. apply andb_true_iff.
  split; [apply Z.leb_le|apply Z.ltb_lt]; lia.
Qed.

Lemma signed_int64 z : in_int64 z = true -> signed 64 (z mod 2 ^ 64) = z.
Proof. intros [H1%Z.leb_le H2%Z.ltb_lt]%andb_true_iff. apply signed_mod64; lia. Qed.

Lemma signed_int32 z : in_int32 z = true -> signed 32 (z mod 2 ^ 64) = z.
Proof. intros [H1%Z.leb_le H2%Z.ltb_lt]%andb_true_iff. apply signed_mod64; lia. Qed.

#[export] Instance int64_ok : ScalarOk int64.
Proof.
  split; [done|intros; apply varint_fits|]. intros z Hz. cbn -[signed Z.pow]. by rewrite signed_int64.
Qed.

#[export] Instance int32_ok : ScalarOk int32.
Proof.
  split; [done|intros; apply varint_fits|]. intros z Hz. cbn -[signed Z.pow]. by rewrite signed_int32.
Qed.

#[export] Instance boolean_ok : ScalarOk boolean.
Proof. split; [done|by intros []|by intros []]. Qed.

#[export] Instance text_ok : ScalarOk text.
Proof. by split. Qed.

#[export] Instance blob_ok : ScalarOk blob.
Proof. by split. Qed.

#[export] Instance enum_ok {A} `{EqDecision A} name num_of of_num : ScalarOk (enum (A := A) name num_of of_num).
Proof.
  split; [done|intros; apply varint_fits|].
  intros a [Hz Ha%bool_decide_eq_true]%andb_true_iff. cbn -[signed Z.pow]. by rewrite signed_int32, Ha.
Qed.

(** *** Parts of messages *)

Record fields (A : Type) := Fields {
  d_fields : list field;
  d_fits : A -> bool;
  d_put : A -> list record;
  d_get : list record -> option A;
}.

Arguments Fields {A} _ _ _ _.
Arguments d_fields {A} _.
Arguments d_fits {A} _ _.
Arguments d_put {A} _ _.
Arguments d_get {A} _ _.

Definition numbers {A} (c : fields A) : list Z := map f_number (d_fields c).

(** The records of the fields of a part. *)
Definition covered (ns : list Z) (l : list record) : list record := filter (fun r => r.1 ∈ ns) l.

Class FieldsOk {A} (c : fields A) : Prop := {
  d_put_covered : forall a, covered (numbers c) (d_put c a) = d_put c a;
  d_get_covered : forall l, d_get c (covered (numbers c) l) = d_get c l;
  d_put_fits : forall a, d_fits c a = true -> forallb record_fits (d_put c a) = true;
  d_get_put : forall a, d_fits c a = true -> d_get c (d_put c a) = Some a;
}.

Definition marshal {A} (c : fields A) (a : A) : bytes := put_records (d_put c a).

Definition unmarshal {A} (c : fields A) (s : bytes) : option A := records_of s ≫= d_get c.

Lemma unmarshal_marshal {A} (c : fields A) `{!FieldsOk c} a :
  d_fits c a = true -> unmarshal c (marshal c a) = Some a.
Proof.
  intros Ha. unfold unmarshal, marshal. rewrite records_of_put by by apply d_put_fits.
  by apply d_get_put.
Qed.

Lemma covered_all ns l : Forall (fun r : record => r.1 ∈ ns) l -> covered ns l = l.
Proof.
  induction 1 as [|r l Hr _ IH]; [done|]. unfold covered in *. rewrite filter_cons_True by done. by rewrite IH.
Qed.

(** The values of a field. *)
Definition values (n : Z) (w : wire_type) (l : list record) : list value :=
  map snd (filter (fun r => r.1 = n /\ wire_of r.2 = w) l).

Lemma covered_values ns n w l : n ∈ ns -> values n w (covered ns l) = values n w l.
Proof.
  intros Hn. unfold values, covered. f_equal. rewrite list_filter_filter. apply list_filter_iff.
  intros [m v]. simpl. naive_solver.
Qed.

(** A field that is not repeated: it is not written if it has its default. *)
Definition optional {A} `{EqDecision A} (name : string) (n : Z) (c : scalar A) (dflt : A) : fields A :=
  Fields [mkField name n false (s_type c) None]
    (fun a => number_fits n && (bool_decide (a = dflt) || s_fits c a))
    (fun a => if decide (a = dflt) then [] else [(n, s_put c a)])
    (fun l => match values n (s_wire c) l with [] => Some dflt | vs => s_get c vs end).

Definition repeated {A} (name : string) (n : Z) (c : scalar A) : fields (list A) :=
  Fields [mkField name n true (s_type c) None]
    (fun l => number_fits n && forallb (s_fits c) l)
    (fun l => map (fun a => (n, s_put c a)) l)
    (fun l => mapM (fun v => s_get c [v]) (values n (s_wire c) l)).

(** Two parts, of different fields. *)
Definition both {A B} (c : fields A) (d : fields B) : fields (A * B) :=
  Fields (d_fields c ++ d_fields d)
    (fun '(a, b) => d_fits c a && d_fits d b)
    (fun '(a, b) => d_put c a ++ d_put d b)
    (fun l => a ← d_get c l; b ← d_get d l; Some (a, b)).

(** The same part, seen as another type. *)
Definition seen_as {A B} (c : fields A) (f : A -> B) (g : B -> A) : fields B :=
  Fields (d_fields c) (fun b => d_fits c (g b)) (fun b => d_put c (g b)) (fun l => f <$> d_get c l).

(** A message as the value of a field; several values are merged, which is to
    read them one after the other. *)
Definition payload_bytes (l : list value) : bytes :=
  foldr (fun v s => match v with Len b => b +:+ s | _ => s end)%string "" l.

Definition embedded {A} (name : string) (c : fields A) : scalar A :=
  Scalar (TMessage name) WLen (fun a => d_fits c a && (length_of (marshal c a) <? 2 ^ 64))
    (fun a => Len (marshal c a)) (fun l => unmarshal c (payload_bytes l)).

#[export] Instance embedded_ok {A} name (c : fields A) : FieldsOk c -> ScalarOk (embedded name c).
Proof.
  intros Hc. split; [done| |]; intros a [H1 H2]%andb_true_iff; [exact H2|].
  cbn [s_get s_put embedded payload_bytes foldr]. rewrite string_app_nil_r. by apply unmarshal_marshal.
Qed.

Lemma values_one n w v : wire_of v = w -> values n w [(n, v)] = [v].
Proof. intros Hv. unfold values. rewrite filter_cons_True by done. done. Qed.

#[export] Instance optional_ok {A} `{EqDecision A} name n (c : scalar A) dflt :
  ScalarOk c -> FieldsOk (optional name n c dflt).
Proof.
  intros Hc. split; simpl.
  - intros a. destruct (decide _); [done|]. unfold covered. rewrite filter_cons_True; [done|].
    simpl. apply list_elem_of_here.
  - intros l. rewrite covered_values; [done|]. apply list_elem_of_here.
  - intros a [Hn Ha]%andb_true_iff. destruct (decide _); [done|]. simpl.
    rewrite bool_decide_false in Ha by done. unfold record_fits. simpl.
    by rewrite Hn, s_put_fits.
  - intros a [Hn Ha]%andb_true_iff. destruct (decide (a = dflt)) as [->|]; [done|].
    rewrite bool_decide_false in Ha by done. rewrite values_one by apply s_put_wire.
    by apply s_get_put.
Qed.

Lemma values_repeated {A} (c : scalar A) `{!ScalarOk c} n l :
  values n (s_wire c) (map (fun a => (n, s_put c a)) l) = map (s_put c) l.
Proof.
  induction l as [|a l IH]; [done|]. unfold values in *. simpl.
  rewrite filter_cons_True by (split; [done|apply s_put_wire]). simpl. by rewrite IH.
Qed.

#[export] Instance repeated_ok {A} name n (c : scalar A) : ScalarOk c -> FieldsOk (repeated name n c).
Proof.
  intros Hc. split; simpl.
  - intros l. apply covered_all, Forall_map, Forall_true. intros a. apply list_elem_of_here.
  - intros l. rewrite covered_values; [done|]. apply list_elem_of_here.
  - intros l [Hn Hl]%andb_true_iff. induction l as [|a l IH]; [done|]. simpl in *.
    apply andb_true_iff in Hl as [Ha Hl]. unfold record_fits at 1. simpl. by rewrite Hn, s_put_fits, IH.
  - intros l [_ Hl]%andb_true_iff. rewrite values_repeated by done.
    induction l as [|a l IH]; [done|]. simpl in *. apply andb_true_iff in Hl as [Ha Hl].
    by rewrite (s_get_put a Ha), IH.
Qed.

(** The fields of two parts differ. *)
Definition apart {A B} (c : fields A) (d : fields B) : bool :=
  forallb (fun n => bool_decide (n ∉ numbers d)) (numbers c).

Lemma apart_ne {A B} (c : fields A) (d : fields B) n m :
  apart c d = true -> n ∈ numbers c -> m ∈ numbers d -> n <> m.
Proof.
  intros Hcd Hn Hm ->. unfold apart in Hcd. rewrite forallb_forall in Hcd.
  specialize (Hcd m (proj1 (list_elem_of_In _ _) Hn)). by apply bool_decide_eq_true_1 in Hcd.
Qed.

Lemma covered_app ns l l' : covered ns (l ++ l') = covered ns l ++ covered ns l'.
Proof. apply filter_app. Qed.

Lemma covered_sub ns ms l : (forall n, n ∈ ns -> n ∈ ms) -> covered ns (covered ms l) = covered ns l.
Proof.
  intros Hs. unfold covered. rewrite list_filter_filter. apply list_filter_iff. intros r. naive_solver.
Qed.

Lemma covered_none ns l : Forall (fun r : record => r.1 ∉ ns) l -> covered ns l = [].
Proof. induction 1 as [|r l Hr _ IH]; [done|]. unfold covered in *. by rewrite filter_cons_False. Qed.

Lemma covered_elem ns l : covered ns l = l -> Forall (fun r : record => r.1 ∈ ns) l.
Proof.
  intros <-. apply Forall_forall. intros r Hr. by apply list_elem_of_filter in Hr as [Hr _].
Qed.

Lemma both_ok {A B} (c : fields A) (d : fields B) :
  FieldsOk c -> FieldsOk d -> apart c d = true -> FieldsOk (both c d).
Proof.
  intros Hc Hd Hcd.
  assert (numbers (both c d) = numbers c ++ numbers d) as Hns by (unfold numbers; simpl; by rewrite map_app).
  assert (forall b, covered (numbers c) (d_put d b) = []) as H1.
  { intros b. apply covered_none. eapply Forall_impl; [apply covered_elem, d_put_covered|].
    intros r Hr Hr'. simpl in *. by eapply (apart_ne c d r.1 r.1). }
  assert (forall a, covered (numbers d) (d_put c a) = []) as H2.
  { intros a. apply covered_none. eapply Forall_impl; [apply covered_elem, d_put_covered|].
    intros r Hr Hr'. simpl in *. by eapply (apart_ne c d r.1 r.1). }
  split; rewrite ?Hns; simpl.
  - intros [a b]. apply covered_all, Forall_app. split.
    + eapply Forall_impl; [apply covered_elem, (d_put_covered a)|]. intros r Hr. apply elem_of_app. by left.
    + eapply Forall_impl; [apply covered_elem, (d_put_covered b)|]. intros r Hr. apply elem_of_app. by right.
  - intros l. rewrite <- (d_get_covered (c := c) (covered _ l)), <- (d_get_covered (c := d) (covered _ l)).
    rewrite !covered_sub, !d_get_covered; [done|..]; intros n Hn; apply elem_of_app; auto.
  - intros [a b] [Ha Hb]%andb_true_iff. rewrite forallb_app. by rewrite !d_put_fits.
  - intros [a b] [Ha Hb]%andb_true_iff.
    rewrite <- (d_get_covered (c := c)), <- (d_get_covered (c := d)).
    rewrite !covered_app, H1, H2, !d_put_covered, app_nil_r. simpl. by rewrite !d_get_put.
Qed.

Lemma seen_as_ok {A B} (c : fields A) (f : A -> B) (g : B -> A) :
  FieldsOk c -> (forall b, f (g b) = b) -> FieldsOk (seen_as c f g).
Proof.
  intros Hc Hfg. split; simpl.
  - intros b. apply (d_put_covered (g b)).
  - intros l. change (numbers (seen_as c f g)) with (numbers c). by rewrite d_get_covered.
  - intros b. apply d_put_fits.
  - intros b Hb. rewrite d_get_put by done. simpl. by rewrite Hfg.
Qed.

(** *** Oneofs *)

(** The fields of a oneof: how the one that is set is written, which records are
    of the oneof, and how the values of the field [n] are read. *)
Record choice (A : Type) := Choice {
  o_fields : list field;
  o_mine : record -> bool;
  o_fits : A -> bool;
  o_put : A -> record;
  o_get : Z -> list value -> option A;
}.

Arguments Choice {A} _ _ _ _ _.
Arguments o_fields {A} _.
Arguments o_mine {A} _ _.
Arguments o_fits {A} _ _.
Arguments o_put {A} _ _.
Arguments o_get {A} _ _ _.

Class ChoiceOk {A} (c : choice A) : Prop := {
  o_mine_number : forall r, o_mine c r = true -> r.1 ∈ map f_number (o_fields c);
  o_put_mine : forall a, o_mine c (o_put c a) = true;
  o_put_fits : forall a, o_fits c a = true -> record_fits (o_put c a) = true;
  o_get_put : forall a, o_fits c a = true -> o_get c (o_put c a).1 [(o_put c a).2] = Some a;
}.

Definition alone {A} (group name : string) (n : Z) (c : scalar A) : choice A :=
  Choice [mkField name n false (s_type c) (Some group)]
    (fun r => (r.1 =? n) && bool_decide (wire_of r.2 = s_wire c))
    (fun a => number_fits n && s_fits c a)
    (fun a => (n, s_put c a))
    (fun m vs => if m =? n then s_get c vs else None).

Definition either {A B} (c : choice A) (d : choice B) : choice (A + B) :=
  Choice (o_fields c ++ o_fields d)
    (fun r => o_mine c r || o_mine d r)
    (fun x => match x with inl a => o_fits c a | inr b => o_fits d b end)
    (fun x => match x with inl a => o_put c a | inr b => o_put d b end)
    (fun n vs => if bool_decide (n ∈ map f_number (o_fields c)) then inl <$> o_get c n vs
                 else inr <$> o_get d n vs).

(** The values at the end that are all of the field [n]. *)
Fixpoint run_of (n : Z) (rev : list record) : list value :=
  match rev with
  | (m, v) :: rev' => if m =? n then run_of n rev' ++ [v] else []
  | [] => []
  end.

(** The last field of the oneof counts, and clears the others. *)
Definition oneof {A} (c : choice A) : fields (option A) :=
  Fields (o_fields c)
    (fun x => match x with Some a => o_fits c a | None => true end)
    (fun x => match x with Some a => [o_put c a] | None => [] end)
    (fun l => match reverse (filter (fun r => o_mine c r = true) l) with
              | [] => Some None
              | (n, v) :: rev => Some <$> o_get c n (run_of n rev ++ [v])
              end).

#[export] Instance alone_ok {A} group name n (c : scalar A) : ScalarOk c -> ChoiceOk (alone group name n c).
Proof.
  intros Hc. split; simpl.
  - intros r [->%Z.eqb_eq _]%andb_true_iff. apply list_elem_of_here.
  - intros a. by rewrite Z.eqb_refl, bool_decide_true by apply s_put_wire.
  - intros a [Hn Ha]%andb_true_iff. unfold record_fits. simpl. by rewrite Hn, s_put_fits.
  - intros a [Hn Ha]%andb_true_iff. rewrite Z.eqb_refl. by apply s_get_put.
Qed.

Lemma either_ok {A B} (c : choice A) (d : choice B) :
  ChoiceOk c -> ChoiceOk d ->
  forallb (fun f => bool_decide (f_number f ∉ map f_number (o_fields c))) (o_fields d) = true ->
  ChoiceOk (either c d).
Proof.
  intros Hc Hd Hcd.
  assert (forall b, (o_put d b).1 ∉ map f_number (o_fields c)) as Hno.
  { intros b Hb. pose proof (o_mine_number _ (o_put_mine (c := d) b)) as Hm.
    apply list_elem_of_fmap in Hm as (f & Hf & Hin).
    rewrite forallb_forall in Hcd. specialize (Hcd f (proj1 (list_elem_of_In _ _) Hin)).
    apply bool_decide_eq_true_1 in Hcd. by rewrite <- Hf in Hcd. }
  split; simpl.
  - intros r [Hr|Hr]%orb_true_iff; rewrite map_app; apply elem_of_app; [left|right]; by apply o_mine_number.
  - intros [a|b]; rewrite o_put_mine; [done|by rewrite orb_true_r].
  - intros [a|b]; apply o_put_fits.
  - intros [a|b] H.
    + rewrite bool_decide_true by (by apply o_mine_number, o_put_mine). by rewrite o_get_put.
    + rewrite bool_decide_false by done. by rewrite o_get_put.
Qed.

#[export] Instance oneof_ok {A} (c : choice A) : ChoiceOk c -> FieldsOk (oneof c).
Proof.
  intros Hc. split; simpl.
  - intros [a|]; [|done]. unfold covered. rewrite filter_cons_True; [done|].
    by apply o_mine_number, o_put_mine.
  - intros l. unfold covered. rewrite list_filter_filter.
    assert (filter (fun r => o_mine c r = true /\ r.1 ∈ numbers (oneof c)) l =
            filter (fun r => o_mine c r = true) l) as ->; [|done].
    apply list_filter_iff. intros r. split; [by intros []|]. intros Hr. split; [done|]. by apply o_mine_number.
  - intros [a|] Ha; [|done]. simpl. by rewrite o_put_fits.
  - intros [a|] Ha; [|done]. rewrite filter_cons_True by apply o_put_mine. simpl.
    pose proof (o_get_put a Ha) as Hg. destruct (o_put c a) as [n v]. simpl in *. by rewrite Hg.
Qed.

(** A field that tells whether it is set. *)
Definition presence {A} (name : string) (n : Z) (c : scalar A) : fields (option A) :=
  Fields [mkField name n false (s_type c) None]
    (fun x => number_fits n && match x with Some a => s_fits c a | None => true end)
    (fun x => match x with Some a => [(n, s_put c a)] | None => [] end)
    (fun l => match values n (s_wire c) l with [] => Some None | vs => Some <$> s_get c vs end).

#[export] Instance presence_ok {A} name n (c : scalar A) : ScalarOk c -> FieldsOk (presence name n c).
Proof.
  intros Hc. split; simpl.
  - intros [a|]; [|done]. apply covered_all. repeat constructor.
  - intros l. rewrite covered_values; [done|]. apply list_elem_of_here.
  - intros [a|] [Hn Ha]%andb_true_iff; [|done]. simpl. unfold record_fits. simpl. by rewrite Hn, s_put_fits.
  - intros [a|] [Hn Ha]%andb_true_iff; [|done]. rewrite values_one by apply s_put_wire.
    by rewrite s_get_put.
Qed.

(** An embedded message that the sources set in every message they send: it is
    written also when it has its default, as an empty record. *)
Definition always_set {A} (name : string) (n : Z) (c : scalar A) (dflt : A) : fields A :=
  Fields [mkField name n false (s_type c) None]
    (fun a => number_fits n && s_fits c a)
    (fun a => [(n, s_put c a)])
    (fun l => match values n (s_wire c) l with [] => Some dflt | vs => s_get c vs end).

#[export] Instance always_set_ok {A} name n (c : scalar A) dflt :
  ScalarOk c -> FieldsOk (always_set name n c dflt).
Proof.
  intros Hc. split; simpl.
  - intros a. apply covered_all. repeat constructor.
  - intros l. rewrite covered_values; [done|]. apply list_elem_of_here.
  - intros a [Hn Ha]%andb_true_iff. unfold record_fits. simpl. by rewrite Hn, s_put_fits.
  - intros a [Hn Ha]%andb_true_iff. rewrite values_one by apply s_put_wire. by apply s_get_put.
Qed.

(** A product of parts whose fields differ, which is checked by computation. *)
Ltac parts_ok :=
  repeat first
    [ apply seen_as_ok; [|by intros []]
    | apply both_ok; [| |reflexivity]
    | apply either_ok; [| |reflexivity]
    | apply oneof_ok | apply alone_ok | apply optional_ok | apply repeated_ok | apply presence_ok | apply always_set_ok
    | apply embedded_ok | apply _ ].
