(* ===== verification/Descriptor.v ===== *)
(** * The declarations of the protocol and the generated code

    [gabriel.proto] as data, and the descriptor that [gabriel_pb2.py] hands to
    the protobuf runtime: a sequence of bytes from which the runtime builds the
    message classes, and the positions in it of the declarations.  The
    descriptor of a file is itself a message, whose declaration is documented;
    its fields are written by the codecs of [Wire]. *)

From Stdlib Require Import Ascii.
From S2P Require Import Prelude Protocol Wire.

(** ** Declarations *)

(** A message; in these files messages are nested at most once. *)
Record shape := mkShape { m_name : string; m_fields : list field; m_oneofs : list string }.

Record message_decl := Message { m_shape : shape; m_nested : list shape }.

Record enum_decl := mkEnum { e_name : string; e_values : list (string * Z) }.

(** [rpc name(stream input) returns (stream output)] *)
Record rpc := mkRpc {
  r_name : string;
  r_input : string;
  r_output : string;
  r_client_streaming : bool;
  r_server_streaming : bool;
}.

Record service_decl := mkService { v_name : string; v_methods : list rpc }.

Record FileOptions := mkFileOptions {
  java_package : option string;
  java_outer_classname : option string;
  go_package : option string;
}.

Record proto_file := mkProto {
  pf_name : string;
  pf_package : string;
  pf_imports : list string;
  pf_messages : list message_decl;
  pf_enums : list enum_decl;
  pf_services : list service_decl;
  pf_options : FileOptions;
  pf_json_names : bool;
}.

(** ** [gabriel.proto] *)

Definition gabriel (name : string) : string := ("gabriel_protocol.v1." +:+ name)%string.
Definition any_name : string := "google.protobuf.Any".

(** Fields: plain, repeated, and of a oneof. *)
Definition plain (name : string) (n : Z) (t : ftype) : field := mkField name n false t None.
Definition many (name : string) (n : Z) (t : ftype) : field := mkField name n true t None.
Definition of_group (g name : string) (n : Z) (t : ftype) : field := mkField name n false t (Some g).

Definition PayloadType_decl : enum_decl :=
  mkEnum "PayloadType"
    [("PAYLOAD_TYPE_UNSPECIFIED", 0); ("TEXT", 1); ("IMAGE", 2); ("AUDIO", 3); ("VIDEO", 4); ("OTHER", 100)].

Definition InputFrame_decl : message_decl :=
  Message (mkShape "InputFrame"
    [plain "payload_type" 1 (TEnum (gabriel "PayloadType"));
     of_group "payload" "string_payload" 2 TString;
     of_group "payload" "byte_payload" 3 TBytes;
     of_group "payload" "any_payload" 4 (TMessage any_name)] ["payload"])
    [].

Definition FromClient_Input_decl : shape :=
  mkShape "Input"
    [plain "frame_id" 1 TInt64;
     plain "producer_id" 2 TString;
     many "target_engine_ids" 3 TString;
     plain "input_frame" 4 (TMessage (gabriel "InputFrame"))] [].

Definition FromClient_Registration_decl : shape :=
  mkShape "Registration"
    [plain "client_info" 1 (TMessage any_name)] [].

Definition FromClient_decl : message_decl :=
  Message (mkShape "FromClient"
    [of_group "message_type" "input" 1 (TMessage (gabriel "FromClient.Input"));
     of_group "message_type" "registration" 2 (TMessage (gabriel "FromClient.Registration"))] ["message_type"])
    [FromClient_Input_decl; FromClient_Registration_decl].

Definition StatusCode_decl : enum_decl :=
  mkEnum "StatusCode"
    [("STATUS_CODE_UNSPECIFIED", 0); ("SUCCESS", 1); ("UNSPECIFIED_ERROR", 2); ("ENGINE_ERROR", 3);
     ("WRONG_INPUT_FORMAT", 4); ("NO_ENGINE_FOR_INPUT", 5); ("NO_TOKENS", 6); ("SERVER_DROPPED_FRAME", 7)].

Definition Status_decl : message_decl :=
  Message (mkShape "Status"
    [plain "code" 1 (TEnum (gabriel "StatusCode")); plain "message" 2 TString] [])
    [].

Definition Result_decl : message_decl :=
  Message (mkShape "Result"
    [plain "status" 1 (TMessage (gabriel "Status"));
     of_group "payload" "string_result" 2 TString;
     of_group "payload" "bytes_result" 3 TBytes;
     of_group "payload" "any_result" 4 (TMessage any_name);
     plain "target_engine_id" 5 TString;
     plain "frame_id" 6 TInt64] ["payload"])
    [].

Definition ToClient_Registered_decl : shape :=
  mkShape "Registered"
    [plain "num_tokens_per_producer" 1 TInt32; many "engine_ids" 2 TString] [].

Definition ToClient_EngineIdsUpdate_decl : shape :=
  mkShape "EngineIdsUpdate"
    [many "engine_ids" 1 TString] [].

Definition ToClient_ResultWrapper_decl : shape :=
  mkShape "ResultWrapper"
    [plain "producer_id" 1 TString;
     plain "return_token" 2 TBool;
     plain "result" 3 (TMessage (gabriel "Result"))] [].

Definition ToClient_decl : message_decl :=
  Message (mkShape "ToClient"
    [of_group "message_type" "registered" 1 (TMessage (gabriel "ToClient.Registered"));
     of_group "message_type" "result_wrapper" 2 (TMessage (gabriel "ToClient.ResultWrapper"));
     of_group "message_type" "engine_ids_update" 3 (TMessage (gabriel "ToClient.EngineIdsUpdate"))] ["message_type"])
    [ToClient_Registered_decl; ToClient_EngineIdsUpdate_decl; ToClient_ResultWrapper_decl].

Definition FromEngine_Register_decl : shape :=
  mkShape "Register"
    [plain "engine_id" 1 TString; plain "all_responses_required" 2 TBool] [].

Definition FromEngine_decl : message_decl :=
  Message (mkShape "FromEngine"
    [of_group "message_type" "register" 1 (TMessage (gabriel "FromEngine.Register"));
     of_group "message_type" "result" 2 (TMessage (gabriel "Result"))] ["message_type"])
    [FromEngine_Register_decl].

Definition ToEngine_decl : message_decl :=
  Message (mkShape "ToEngine"
    [of_group "message_type" "input_frame" 1 (TMessage (gabriel "InputFrame"));
     plain "client_info" 2 (TMessage any_name)] ["message_type"])
    [].

Definition services_decl : list service_decl :=
  [mkService "GabrielClientService"
     [mkRpc "ClientSession" (gabriel "FromClient") (gabriel "ToClient") true true];
   mkService "GabrielEngineService"
     [mkRpc "EngineSession" (gabriel "FromEngine") (gabriel "ToEngine") true true]].

Definition gabriel_proto : proto_file :=
  mkProto "gabriel_protocol/v1/gabriel.proto" "gabriel_protocol.v1" ["google/protobuf/any.proto"]
    [InputFrame_decl; FromClient_decl; Status_decl; Result_decl; ToClient_decl; FromEngine_decl;
     ToEngine_decl]
    [PayloadType_decl; StatusCode_decl] services_decl
    (mkFileOptions None None (Some "github.com/cmusatyalab/gabriel/protocol/go;gabrielpb"%string)) true.

(** The message of the YUV example. *)
Definition ToServer_decl : message_decl :=
  Message (mkShape "ToServer"
    [plain "image" 1 TBytes; plain "width" 2 TInt32; plain "height" 3 TInt32; plain "rotation" 4 TInt32] [])
    [].

Definition yuv_proto : proto_file :=
  mkProto "yuv.proto" "yuv" [] [ToServer_decl] [] []
    (mkFileOptions (Some "edu.cmu.cs.gabriel"%string) (Some "YUVProtos"%string) None) false.

(** ** Descriptors *)

(** The messages of [descriptor.proto], with the fields that are used here. *)
Record FieldDescriptor := mkFieldDescriptor {
  fd_name : option string;
  fd_number : option Z;
  fd_label : option Z;
  fd_type : option Z;
  fd_type_name : option string;
  fd_oneof_index : option Z;
  fd_json_name : option string;
}.

Record ShapeDescriptor := mkShapeDescriptor {
  dp_name : option string;
  dp_fields : list FieldDescriptor;
  dp_oneofs : list (option string);
}.

(** A message with the messages that are nested in it. *)
Record Descriptor := mkDescriptor { dp_shape : ShapeDescriptor; dp_nested : list ShapeDescriptor }.

Record EnumDescriptor := mkEnumDescriptor {
  ed_name : option string;
  ed_values : list (option string * option Z);
}.

Record MethodDescriptor := mkMethodDescriptor {
  md_name : option string;
  md_input : option string;
  md_output : option string;
  md_client_streaming : option bool;
  md_server_streaming : option bool;
}.

Record ServiceDescriptor := mkServiceDescriptor {
  sd_name : option string;
  sd_methods : list MethodDescriptor;
}.

Record FileDescriptor := mkFileDescriptor {
  fl_name : option string;
  fl_package : option string;
  fl_dependencies : list string;
  fl_messages : list Descriptor;
  fl_enums : list EnumDescriptor;
  fl_services : list ServiceDescriptor;
  fl_options : option FileOptions;
  fl_syntax : option string;
}.

(** *** Their codecs *)

Definition FieldDescriptor_codec : fields FieldDescriptor :=
  seen_as
    (both (presence "name" 1 text) (both (presence "number" 3 int32) (both (presence "label" 4 int32)
    (both (presence "type" 5 int32) (both (presence "type_name" 6 text)
    (both (presence "oneof_index" 9 int32) (presence "json_name" 10 text)))))))
    (fun '(a, (b, (c, (d, (e, (f, g)))))) => mkFieldDescriptor a b c d e f g)
    (fun x => (fd_name x, (fd_number x, (fd_label x, (fd_type x, (fd_type_name x,
              (fd_oneof_index x, fd_json_name x))))))).

Definition fields_part : fields (list FieldDescriptor) :=
  repeated "field" 2 (embedded "FieldDescriptorProto" FieldDescriptor_codec).
Definition oneofs_part : fields (list (option string)) :=
  repeated "oneof_decl" 8 (embedded "OneofDescriptorProto" (presence "name" 1 text)).

Definition ShapeDescriptor_codec : fields ShapeDescriptor :=
  seen_as (both (presence "name" 1 text) (both fields_part oneofs_part))
    (fun '(n, (f, o)) => mkShapeDescriptor n f o)
    (fun x => (dp_name x, (dp_fields x, dp_oneofs x))).

Definition Descriptor_codec : fields Descriptor :=
  seen_as
    (both (presence "name" 1 text) (both fields_part
    (both (repeated "nested_type" 3 (embedded "DescriptorProto" ShapeDescriptor_codec)) oneofs_part)))
    (fun '(n, (f, (m, o))) => mkDescriptor (mkShapeDescriptor n f o) m)
    (fun x => (dp_name (dp_shape x), (dp_fields (dp_shape x), (dp_nested x, dp_oneofs (dp_shape x))))).

Definition EnumDescriptor_codec : fields EnumDescriptor :=
  seen_as
    (both (presence "name" 1 text)
       (repeated "value" 2 (embedded "EnumValueDescriptorProto"
          (both (presence "name" 1 text) (presence "number" 2 int32)))))
    (fun '(n, v) => mkEnumDescriptor n v) (fun x => (ed_name x, ed_values x)).

Definition MethodDescriptor_codec : fields MethodDescriptor :=
  seen_as
    (both (presence "name" 1 text) (both (presence "input_type" 2 text) (both (presence "output_type" 3 text)
    (both (presence "client_streaming" 5 boolean) (presence "server_streaming" 6 boolean)))))
    (fun '(a, (b, (c, (d, e)))) => mkMethodDescriptor a b c d e)
    (fun x => (md_name x, (md_input x, (md_output x, (md_client_streaming x, md_server_streaming x))))).

Definition ServiceDescriptor_codec : fields ServiceDescriptor :=
  seen_as
    (both (presence "name" 1 text)
       (repeated "method" 2 (embedded "MethodDescriptorProto" MethodDescriptor_codec)))
    (fun '(n, m) => mkServiceDescriptor n m) (fun x => (sd_name x, sd_methods x)).

(** The options of a file: [java_package], [java_outer_classname] and
    [go_package]. *)
Definition FileOptions_codec : fields FileOptions :=
  seen_as
    (both (presence "java_package" 1 text) (both (presence "java_outer_classname" 8 text)
       (presence "go_package" 11 text)))
    (fun '(a, (b, c)) => mkFileOptions a b c)
    (fun x => (java_package x, (java_outer_classname x, go_package x))).

Definition FileDescriptor_codec : fields FileDescriptor :=
  seen_as
    (both (presence "name" 1 text) (both (presence "package" 2 text) (both (repeated "dependency" 3 text)
    (both (repeated "message_type" 4 (embedded "DescriptorProto" Descriptor_codec))
    (both (repeated "enum_type" 5 (embedded "EnumDescriptorProto" EnumDescriptor_codec))
    (both (repeated "service" 6 (embedded "ServiceDescriptorProto" ServiceDescriptor_codec))
    (both (presence "options" 8 (embedded "FileOptions" FileOptions_codec)) (presence "syntax" 12 text))))))))
    (fun '(a, (b, (c, (d, (e, (f, (g, h))))))) => mkFileDescriptor a b c d e f g h)
    (fun x => (fl_name x, (fl_package x, (fl_dependencies x, (fl_messages x, (fl_enums x,
              (fl_services x, (fl_options x, fl_syntax x)))))))).

#[export] Instance FieldDescriptor_ok : FieldsOk FieldDescriptor_codec.
Proof. unfold FieldDescriptor_codec. parts_ok. Qed.
#[export] Instance fields_part_ok : FieldsOk fields_part.
Proof. unfold fields_part. parts_ok. Qed.
#[export] Instance oneofs_part_ok : FieldsOk oneofs_part.
Proof. unfold oneofs_part. parts_ok. Qed.
#[export] Instance ShapeDescriptor_ok : FieldsOk ShapeDescriptor_codec.
Proof. unfold ShapeDescriptor_codec. parts_ok. Qed.
#[export] Instance Descriptor_ok : FieldsOk Descriptor_codec.
Proof. apply seen_as_ok; [parts_ok|by intros [[]]]. Qed.
#[export] Instance EnumDescriptor_ok : FieldsOk EnumDescriptor_codec.
Proof. unfold EnumDescriptor_codec. parts_ok. Qed.
#[export] Instance MethodDescriptor_ok : FieldsOk MethodDescriptor_codec.
Proof. unfold MethodDescriptor_codec. parts_ok. Qed.
#[export] Instance ServiceDescriptor_ok : FieldsOk ServiceDescriptor_codec.
Proof. unfold ServiceDescriptor_codec. parts_ok. Qed.
#[export] Instance FileOptions_ok : FieldsOk FileOptions_codec.
Proof. unfold FileOptions_codec. parts_ok. Qed.
#[export] Instance FileDescriptor_ok : FieldsOk FileDescriptor_codec.
Proof. unfold FileDescriptor_codec. parts_ok. Qed.

(** *** What protoc makes of declarations *)

Definition type_code (t : ftype) : Z :=
  match t with
  | TInt64 => 3 | TInt32 => 5 | TBool => 8 | TString => 9 | TMessage _ => 11 | TBytes => 12 | TEnum _ => 14
  end.

(** A fully qualified name starts with a dot. *)
Definition qualified (name : string) : string := String "."%char name.

Definition type_name (t : ftype) : option string :=
  match t with TEnum name | TMessage name => Some (qualified name) | _ => None end.

Definition upper (a : ascii) : ascii :=
  let n := of_byte a in if (97 <=? n) && (n <=? 122) then byte_of (n - 32) else a.

(** The name of a field in JSON: an underscore goes, and the letter after it
    becomes a capital. *)
Fixpoint json_name (capital : bool) (s : string) : string :=
  match s with
  | EmptyString => EmptyString
  | String a s' =>
      if (a =? "_")%char then json_name true s'
      else String (if capital then upper a else a) (json_name false s')
  end.

Fixpoint index_of (s : string) (l : list string) : Z :=
  match l with
  | [] => 0
  | x :: l' => if decide (x = s) then 0 else 1 + index_of s l'
  end.

Definition compile_field (json : bool) (oneofs : list string) (f : field) : FieldDescriptor :=
  mkFieldDescriptor (Some (f_name f)) (Some (f_number f)) (Some (if f_repeated f then 3 else 1))
    (Some (type_code (f_type f))) (type_name (f_type f))
    ((fun g => index_of g oneofs) <$> f_oneof f)
    (if json then Some (json_name false (f_name f)) else None).

Definition compile_shape (json : bool) (m : shape) : ShapeDescriptor :=
  mkShapeDescriptor (Some (m_name m)) (map (compile_field json (m_oneofs m)) (m_fields m))
    (map Some (m_oneofs m)).

Definition compile_message (json : bool) (m : message_decl) : Descriptor :=
  mkDescriptor (compile_shape json (m_shape m)) (map (compile_shape json) (m_nested m)).

Definition compile_enum (e : enum_decl) : EnumDescriptor :=
  mkEnumDescriptor (Some (e_name e)) (map (fun '(s, n) => (Some s, Some n)) (e_values e)).

(** A flag is written if it is set. *)
Definition flag (b : bool) : option bool := if b then Some true else None.

Definition compile_rpc (r : rpc) : MethodDescriptor :=
  mkMethodDescriptor (Some (r_name r)) (Some (qualified (r_input r))) (Some (qualified (r_output r)))
    (flag (r_client_streaming r)) (flag (r_server_streaming r)).

Definition compile_service (v : service_decl) : ServiceDescriptor :=
  mkServiceDescriptor (Some (v_name v)) (map compile_rpc (v_methods v)).

Definition compile_file (f : proto_file) : FileDescriptor :=
  mkFileDescriptor (Some (pf_name f)) (Some (pf_package f)) (pf_imports f)
    (map (compile_message (pf_json_names f)) (pf_messages f)) (map compile_enum (pf_enums f))
    (map compile_service (pf_services f)) (Some (pf_options f)) (Some "proto3"%string).

(** A decidable fact, by evaluation. *)
Ltac decided := match goal with |- ?P => apply (bool_decide_eq_true_1 P) end; vm_compute; reflexivity.

(** ** The generated modules *)

(** A Python bytes literal: its escapes. *)
Definition hex (a : ascii) : Z :=
  let n := of_byte a in if n <=? 57 then n - 48 else if n <=? 70 then n - 55 else n - 87.

Fixpoint py_bytes (s : string) : bytes :=
  match s with
  | String "\"%char (String "x"%char (String a (String b s'))) =>
      String (byte_of (hex a * 16 + hex b)) (py_bytes s')
  | String "\"%char (String "n"%char s') => String (byte_of 10) (py_bytes s')
  | String "\"%char (String "t"%char s') => String (byte_of 9) (py_bytes s')
  | String "\"%char (String "r"%char s') => String (byte_of 13) (py_bytes s')
  | String "\"%char (String a s') => String a (py_bytes s')
  | String a s' => String a (py_bytes s')
  | EmptyString => EmptyString
  end.

(** [DESCRIPTOR] of [gabriel_pb2.py], and that of [yuv_pb2.py]; a double quote
    is written as \x22. *)
Definition DESCRIPTOR : bytes := py_bytes
  ("\n!gabriel_protocol/v1/gabriel.proto\x12\x13gabriel_protocol.v1\x1a\x19google/protobuf/a" +:+
   "ny.proto\x22\xe3\x01\n\nInputFrame\x12\x43\n\x0cpayload_type\x18\x01 \x01(\x0e\x32 .gabr" +:+
   "iel_protocol.v1.PayloadTypeR\x0bpayloadType\x12\'\n\x0estring_payload\x18\x02 \x01(\tH" +:+
   "\x00R\rstringPayload\x12#\n\x0c\x62yte_payload\x18\x03 \x01(\x0cH\x00R\x0b\x62ytePayload" +:+
   "\x12\x37\n\x0b\x61ny_payload\x18\x04 \x01(\x0b\x32\x14.google.protobuf.AnyH\x00R\nanyPay" +:+
   "loadB\t\n\x07payload\x22\xaa\x03\n\nFromClient\x12=\n\x05input\x18\x01 \x01(\x0b\x32%.ga" +:+
   "briel_protocol.v1.FromClient.InputH\x00R\x05input\x12R\n\x0cregistration\x18\x02 \x01(" +:+
   "\x0b\x32,.gabriel_protocol.v1.FromClient.RegistrationH\x00R\x0cregistration\x1a\xb1\x01" +:+
   "\n\x05Input\x12\x19\n\x08\x66rame_id\x18\x01 \x01(\x03R\x07\x66rameId\x12\x1f\n\x0bprodu" +:+
   "cer_id\x18\x02 \x01(\tR\nproducerId\x12*\n\x11target_engine_ids\x18\x03 \x03(\tR\x0ftarg" +:+
   "etEngineIds\x12@\n\x0binput_frame\x18\x04 \x01(\x0b\x32\x1f.gabriel_protocol.v1.InputFra" +:+
   "meR\ninputFrame\x1a\x45\n\x0cRegistration\x12\x35\n\x0b\x63lient_info\x18\x01 \x01(\x0b" +:+
   "\x32\x14.google.protobuf.AnyR\nclientInfoB\x0e\n\x0cmessage_type\x22W\n\x06Status\x12" +:+
   "\x33\n\x04\x63ode\x18\x01 \x01(\x0e\x32\x1f.gabriel_protocol.v1.StatusCodeR\x04\x63ode" +:+
   "\x12\x18\n\x07message\x18\x02 \x01(\tR\x07message\x22\x90\x02\n\x06Result\x12\x33\n\x06s" +:+
   "tatus\x18\x01 \x01(\x0b\x32\x1b.gabriel_protocol.v1.StatusR\x06status\x12%\n\rstring_res" +:+
   "ult\x18\x02 \x01(\tH\x00R\x0cstringResult\x12#\n\x0c\x62ytes_result\x18\x03 \x01(\x0cH" +:+
   "\x00R\x0b\x62ytesResult\x12\x35\n\nany_result\x18\x04 \x01(\x0b\x32\x14.google.protobuf." +:+
   "AnyH\x00R\tanyResult\x12(\n\x10target_engine_id\x18\x05 \x01(\tR\x0etargetEngineId\x12" +:+
   "\x19\n\x08\x66rame_id\x18\x06 \x01(\x03R\x07\x66rameIdB\t\n\x07payload\x22\xba\x04\n\x08" +:+
   "ToClient\x12J\n\nregistered\x18\x01 \x01(\x0b\x32(.gabriel_protocol.v1.ToClient.Register" +:+
   "edH\x00R\nregistered\x12T\n\x0eresult_wrapper\x18\x02 \x01(\x0b\x32+.gabriel_protocol.v1" +:+
   ".ToClient.ResultWrapperH\x00R\rresultWrapper\x12[\n\x11\x65ngine_ids_update\x18\x03 \x01" +:+
   "(\x0b\x32-.gabriel_protocol.v1.ToClient.EngineIdsUpdateH\x00R\x0f\x65ngineIdsUpdate\x1a" +:+
   "\x62\n\nRegistered\x12\x35\n\x17num_tokens_per_producer\x18\x01 \x01(\x05R\x14numTokensP" +:+
   "erProducer\x12\x1d\n\nengine_ids\x18\x02 \x03(\tR\tengineIds\x1a\x30\n\x0f\x45ngineIdsUp" +:+
   "date\x12\x1d\n\nengine_ids\x18\x01 \x03(\tR\tengineIds\x1a\x88\x01\n\rResultWrapper\x12" +:+
   "\x1f\n\x0bproducer_id\x18\x01 \x01(\tR\nproducerId\x12!\n\x0creturn_token\x18\x02 \x01(" +:+
   "\x08R\x0breturnToken\x12\x33\n\x06result\x18\x03 \x01(\x0b\x32\x1b.gabriel_protocol.v1.R" +:+
   "esultR\x06resultB\x0e\n\x0cmessage_type\x22\xfa\x01\n\nFromEngine\x12\x46\n\x08register" +:+
   "\x18\x01 \x01(\x0b\x32(.gabriel_protocol.v1.FromEngine.RegisterH\x00R\x08register\x12" +:+
   "\x35\n\x06result\x18\x02 \x01(\x0b\x32\x1b.gabriel_protocol.v1.ResultH\x00R\x06result" +:+
   "\x1a]\n\x08Register\x12\x1b\n\tengine_id\x18\x01 \x01(\tR\x08\x65ngineId\x12\x34\n\x16" +:+
   "\x61ll_responses_required\x18\x02 \x01(\x08R\x14\x61llResponsesRequiredB\x0e\n\x0cmessag" +:+
   "e_type\x22\x95\x01\n\x08ToEngine\x12\x42\n\x0binput_frame\x18\x01 \x01(\x0b\x32\x1f.gabr" +:+
   "iel_protocol.v1.InputFrameH\x00R\ninputFrame\x12\x35\n\x0b\x63lient_info\x18\x02 \x01(" +:+
   "\x0b\x32\x14.google.protobuf.AnyR\nclientInfoB\x0e\n\x0cmessage_type*a\n\x0bPayloadType" +:+
   "\x12\x1c\n\x18PAYLOAD_TYPE_UNSPECIFIED\x10\x00\x12\x08\n\x04TEXT\x10\x01\x12\t\n\x05IMAG" +:+
   "E\x10\x02\x12\t\n\x05\x41UDIO\x10\x03\x12\t\n\x05VIDEO\x10\x04\x12\t\n\x05OTHER\x10\x64*" +:+
   "\xb9\x01\n\nStatusCode\x12\x1b\n\x17STATUS_CODE_UNSPECIFIED\x10\x00\x12\x0b\n\x07SUCCESS" +:+
   "\x10\x01\x12\x15\n\x11UNSPECIFIED_ERROR\x10\x02\x12\x10\n\x0c\x45NGINE_ERROR\x10\x03\x12" +:+
   "\x16\n\x12WRONG_INPUT_FORMAT\x10\x04\x12\x17\n\x13NO_ENGINE_FOR_INPUT\x10\x05\x12\r\n\tN" +:+
   "O_TOKENS\x10\x06\x12\x18\n\x14SERVER_DROPPED_FRAME\x10\x07\x32k\n\x14GabrielClientServic" +:+
   "e\x12S\n\rClientSession\x12\x1f.gabriel_protocol.v1.FromClient\x1a\x1d.gabriel_protocol." +:+
   "v1.ToClient(\x01\x30\x01\x32k\n\x14GabrielEngineService\x12S\n\rEngineSession\x12\x1f.ga" +:+
   "briel_protocol.v1.FromEngine\x1a\x1d.gabriel_protocol.v1.ToEngine(\x01\x30\x01\x42\x36Z4" +:+
   "github.com/cmusatyalab/gabriel/protocol/go;gabrielpbb\x06proto3").

Definition yuv_DESCRIPTOR : bytes := py_bytes
  ("\n\tyuv.proto\x12\x03yuv\x22J\n\x08ToServer\x12\r\n\x05image\x18\x01 \x01(\x0c\x12\r\n" +:+
   "\x05width\x18\x02 \x01(\x05\x12\x0e\n\x06height\x18\x03 \x01(\x05\x12\x10\n\x08rotation" +:+
   "\x18\x04 \x01(\x05\x42\x1f\n\x12\x65\x64u.cmu.cs.gabrielB\tYUVProtosb\x06proto3").

(** [_serialized_options] of the descriptor of [gabriel_pb2.py]. *)
Definition serialized_options : bytes := py_bytes "Z4github.com/cmusatyalab/gabriel/protocol/go;gabrielpb".

(** [_serialized_start] and [_serialized_end] of the attributes of the module. *)
Definition serialized_positions : list (string * (Z * Z)) :=
  [("_PAYLOADTYPE", (2086, 2183));
   ("_STATUSCODE", (2186, 2371));
   ("_INPUTFRAME", (86, 313));
   ("_FROMCLIENT", (316, 742));
   ("_FROMCLIENT_INPUT", (478, 655));
   ("_FROMCLIENT_REGISTRATION", (657, 726));
   ("_STATUS", (744, 831));
   ("_RESULT", (834, 1106));
   ("_TOCLIENT", (1109, 1679));
   ("_TOCLIENT_REGISTERED", (1376, 1474));
   ("_TOCLIENT_ENGINEIDSUPDATE", (1476, 1524));
   ("_TOCLIENT_RESULTWRAPPER", (1527, 1663));
   ("_FROMENGINE", (1682, 1932));
   ("_FROMENGINE_REGISTER", (1823, 1916));
   ("_TOENGINE", (1935, 2084));
   ("_GABRIELCLIENTSERVICE", (2373, 2480));
   ("_GABRIELENGINESERVICE", (2482, 2589))].

(** The attribute of a declaration. *)
Fixpoint uppercase (s : string) : string :=
  match s with EmptyString => EmptyString | String a s' => String (upper a) (uppercase s') end.

Definition attribute (path : list string) : string := uppercase ("_" +:+ join "_" path)%string.

(** The declarations of a file, by attribute, with their descriptors. *)
Definition message_entries (json : bool) (m : message_decl) : list (string * bytes) :=
  (attribute [m_name (m_shape m)], marshal Descriptor_codec (compile_message json m)) ::
  map (fun n => (attribute [m_name (m_shape m); m_name n], marshal ShapeDescriptor_codec (compile_shape json n)))
    (m_nested m).

Definition entries (f : proto_file) : list (string * bytes) :=
  map (fun e => (attribute [e_name e], marshal EnumDescriptor_codec (compile_enum e))) (pf_enums f) ++
  concat (map (message_entries (pf_json_names f)) (pf_messages f)) ++
  map (fun v => (attribute [v_name v], marshal ServiceDescriptor_codec (compile_service v))) (pf_services f).

(** [s[start:end]] *)
Definition slice (from to : Z) (s : bytes) : bytes :=
  String.substring (Z.to_nat from) (Z.to_nat (to - from)) s.

(** A check of the generated module against the declarations.  The descriptor that
    gabriel_pb2.py hands to the protobuf runtime is, byte for byte, that of the
    declarations of gabriel.proto, and reads back as them: every message with its
    fields, their numbers, types, labels and oneofs, every enum with its values
    and every service with its methods.  The options that the module gives are
    those of the file; the attributes of the module are its enums, messages and
    services, and the positions it gives for each of them are
    those of its descriptor. *)
Example generated_descriptor_is_the_protocol :
  DESCRIPTOR = marshal FileDescriptor_codec (compile_file gabriel_proto) /\
  unmarshal FileDescriptor_codec DESCRIPTOR = Some (compile_file gabriel_proto) /\
  serialized_options = marshal FileOptions_codec (pf_options gabriel_proto) /\
  map (fun '(a, (from, to)) => (a, slice from to DESCRIPTOR)) serialized_positions = entries gabriel_proto.
Proof.
  assert (DESCRIPTOR = marshal FileDescriptor_codec (compile_file gabriel_proto)) as HD
    by decided.
  split; [exact HD|]. split.
  - rewrite HD. apply unmarshal_marshal; [apply _|]. vm_compute. reflexivity.
  - split; decided.
Qed.

(** The same of the YUV example, whose generated module comes without its
    declarations. *)
Lemma yuv_descriptor_declares_ToServer :
  unmarshal FileDescriptor_codec yuv_DESCRIPTOR = Some (compile_file yuv_proto) /\
  slice 18 92 yuv_DESCRIPTOR = marshal Descriptor_codec (compile_message false ToServer_decl).
Proof. split; vm_compute; reflexivity. Qed.
