(* ===== verification/Config.v ===== *)
(** * Configuration

    The command line of [server/main.py], the credentials of
    [protocol/python/src/gabriel_protocol/tls_utils.py], and the address the
    engine-facing server listens on. *)

From stdpp Require Import pretty.
From S2P Require Import Prelude Protocol.

(** ** TLS *)

(** [grpc.ssl_server_credentials(...)] *)
Record ServerCredentials := mkServerCredentials {
  sc_private_key : option bytes;
  sc_certificate_chain : option bytes;
  sc_root_certificates : option bytes;
  sc_require_client_auth : bool;
}.

(** [grpc.ssl_channel_credentials(...)] *)
Record ChannelCredentials := mkChannelCredentials {
  cc_root_certificates : option bytes;
  cc_private_key : option bytes;
  cc_certificate_chain : option bytes;
}.

Section tls.
(** [open(path, "rb")] and [f.read()] *)
Variable read_file : string -> bytes + exn.

(** [_read] *)
Definition read (path : option string) : option bytes + exn :=
  match path with
  | None => inl None
  | Some p => match read_file p with inl b => inl (Some b) | inr x => inr x end
  end.

(** [build_server_credentials] *)
Definition build_server_credentials (cert_path key_path ca_cert_path : option string)
    : option ServerCredentials + exn :=
  if negb (truthy_str cert_path) || negb (truthy_str key_path) then inl None
  else
    match read key_path with
    | inr x => inr x
    | inl key =>
        match read cert_path with
        | inr x => inr x
        | inl cert =>
            match read ca_cert_path with
            | inr x => inr x
            | inl ca => inl (Some (mkServerCredentials key cert ca
                                     (bool_decide (ca_cert_path <> None))))
            end
        end
    end.

(** [build_channel_credentials] *)
Definition build_channel_credentials (ca_cert_path cert_path key_path : option string)
    : option ChannelCredentials + exn :=
  if negb (truthy_str ca_cert_path) && negb (truthy_str cert_path) && negb (truthy_str key_path)
  then inl None
  else if xorb (truthy_str cert_path) (truthy_str key_path)
  then inr (ValueError "cert_path and key_path must be provided together")
  else
    match read ca_cert_path with
    | inr x => inr x
    | inl ca =>
        match read key_path with
        | inr x => inr x
        | inl key =>
            match read cert_path with
            | inr x => inr x
            | inl cert => inl (Some (mkChannelCredentials ca key cert))
            end
        end
    end.
End tls.

(** ** The command line of the server *)

Inductive endpoint : Type := Port (n : Z) | Path (p : string).

(** The endpoint in an f-string. *)
Definition endpoint_str (e : endpoint) : string :=
  match e with Port n => pretty n | Path p => p end.

(** The address a gRPC server listens on. *)
Definition grpc_target (e : endpoint) (use_ipc : bool) : string :=
  if use_ipc then "unix://" +:+ endpoint_str e else "[::]:" +:+ endpoint_str e.

(** The arguments of [launch_async] of the three client transports. *)
Record Listen := mkListen {
  li_port_or_path : endpoint;
  li_message_max_size : option Z;
  li_use_ipc : bool;
}.

(** The arguments [tls_cert], [tls_key] and [tls_client_ca_cert]. *)
Record TlsPaths := mkTlsPaths {
  tls_cert : option string;
  tls_key : option string;
  tls_client_ca_cert : option string;
}.

Definition no_tls : TlsPaths := mkTlsPaths None None None.

Definition DEFAULT_PORT : Z := 9099.
Definition DEFAULT_NUM_TOKENS : Z := 2.
Definition INPUT_QUEUE_MAXLEN : Z := 60.
Definition DEFAULT_ENGINE_PORT : Z := 5555.

(** The parsed arguments that decide the endpoints; an option that is not
    given has its default. *)
Record args := mkArgs {
  a_client_port : Z;
  a_client_path : option string;
  a_engine_port : Z;
  a_engine_path : option string;
}.

(** What [parse_known_args] yields for the options that are given. *)
Definition parse_args (client_port : option Z) (client_path : option string)
    (engine_port : option Z) (engine_path : option string) : args :=
  mkArgs (default DEFAULT_PORT client_port) client_path
    (default DEFAULT_ENGINE_PORT engine_port) engine_path.

(** One endpoint of [main]: a port of 0 is false. *)
Definition select_endpoint (port : Z) (path : option string) : (endpoint * bool) + exn :=
  if negb (port =? 0) && truthy_str path
  then inr (ValueError "Can't specify both port and path")
  else
    inl (if truthy_str path then Path (default "" path) else Port port, truthy_str path).

(** The endpoints of [main], with whether each is an IPC path. *)
Definition main_endpoints (a : args) : (endpoint * bool) * (endpoint * bool) + exn :=
  match select_endpoint (a_client_port a) (a_client_path a) with
  | inr x => inr x
  | inl client =>
      match select_endpoint (a_engine_port a) (a_engine_path a) with
      | inr x => inr x
      | inl engine => inl (client, engine)
      end
  end.

(** ** Properties *)

Section tls_properties.
Variable read_file : string -> bytes + exn.
(** The certificate files can be read. *)
Hypothesis readable : forall p, exists b, read_file p = inl b.

Lemma read_ok path : exists b, read read_file path = inl b /\ (b = None <-> path = None).
Proof.
  destruct path as [p|]; simpl; [|by exists None].
  destruct (readable p) as [b ->]. by exists (Some b).
Qed.

(** TLS credentials.  The server is insecure exactly when the
    certificate or the key is missing, and asks clients for a certificate
    exactly when a CA is given.  A channel is insecure exactly when nothing
    is given, refuses a certificate without its key and a key without its
    certificate, and otherwise presents a client certificate exactly when
    one is given. *)
Theorem credentials_match_the_files cert key ca :
  (match build_server_credentials read_file cert key ca with
   | inl None => truthy_str cert = false \/ truthy_str key = false
   | inl (Some c) =>
       truthy_str cert = true /\ truthy_str key = true /\
       is_Some (sc_certificate_chain c) /\ is_Some (sc_private_key c) /\
       (sc_require_client_auth c = true <-> is_Some ca) /\
       (is_Some (sc_root_certificates c) <-> is_Some ca)
   | inr _ => False
   end) /\
  (match build_channel_credentials read_file ca cert key with
   | inl None => truthy_str ca = false /\ truthy_str cert = false /\ truthy_str key = false
   | inl (Some c) =>
       truthy_str cert = truthy_str key /\
       (is_Some (cc_certificate_chain c) <-> is_Some cert) /\
       (is_Some (cc_private_key c) <-> is_Some key) /\
       (is_Some (cc_root_certificates c) <-> is_Some ca)
   | inr _ => truthy_str cert <> truthy_str key
   end).
Proof.
  unfold build_server_credentials, build_channel_credentials.
  destruct (read_ok cert) as (bc & -> & Hc), (read_ok key) as (bk & -> & Hk),
    (read_ok ca) as (ba & -> & Ha).
  assert (forall (o : option bytes) (p : option string), (o = None <-> p = None) ->
    (is_Some o <-> is_Some p)) as Hs.
  { intros o p Hop. rewrite <- !not_eq_None_Some. naive_solver. }
  split.
  - destruct (truthy_str cert) eqn:Ec, (truthy_str key) eqn:Ek; simpl; auto.
    split_and!; [done|done| | | |by apply Hs].
    + apply (Hs _ _ Hc). destruct cert; [by eexists|done].
    + apply (Hs _ _ Hk). destruct key; [by eexists|done].
    + rewrite bool_decide_eq_true. apply not_eq_None_Some.
  - destruct (truthy_str ca) eqn:Ea, (truthy_str cert) eqn:Ec, (truthy_str key) eqn:Ek; simpl; auto;
      (split_and!; [done|by apply Hs|by apply Hs|by apply Hs]).
Qed.
End tls_properties.

(** Unless the port is given explicitly as 0, [--client_path] and
    [--engine_path] are always refused: the port has a default, and a port and
    a path together are an error. *)
Theorem path_without_zero_port_is_refused client_port client_path engine_port engine_path :
  (client_port <> Some 0 /\ truthy_str client_path = true) \/
  (engine_port <> Some 0 /\ truthy_str engine_path = true) ->
  main_endpoints (parse_args client_port client_path engine_port engine_path) =
  inr (ValueError "Can't specify both port and path").
Proof.
  assert (forall d p path, d <> 0 -> p <> Some 0 -> truthy_str path = true ->
    select_endpoint (default d p) path = inr (ValueError "Can't specify both port and path")) as Hs.
  { intros d p path Hd Hp Ht. unfold select_endpoint. rewrite Ht.
    assert (default d p <> 0) as Hne by (destruct p as [z|]; simpl; [congruence|done]).
    by rewrite (proj2 (Z.eqb_neq _ _) Hne). }
  unfold main_endpoints, parse_args. simpl. intros [[Hp Ht]|[Hp Ht]].
  - by rewrite (Hs DEFAULT_PORT) by done.
  - rewrite (Hs DEFAULT_ENGINE_PORT engine_port) by done.
    unfold select_endpoint. by destruct (_ && _).
Qed.

Lemma credentials_match_the_files_witness :
  match build_server_credentials (fun p => inl p) (Some "c") (Some "k") None with
  | inl (Some c) => sc_require_client_auth c = true <-> is_Some (None : option string)
  | _ => False
  end.
Proof.
  exact (proj1 (proj2 (proj2 (proj2 (proj2 (proj1 (credentials_match_the_files (fun p => inl p)
           (fun p => ex_intro _ p eq_refl) (Some "c") (Some "k") None))))))).
Defined.

Lemma path_without_zero_port_is_refused_witness :
  main_endpoints (parse_args None (Some "/tmp/gabriel") None None) =
  inr (ValueError "Can't specify both port and path").
Proof. apply path_without_zero_port_is_refused. left. by split. Defined.
