(* ===== verification/ServerState.v ===== *)
(** * State of the server process

    The objects of [server_runner.py], [gabriel_server.py] and
    [result_manager.py] that live in one Gabriel server process, and the
    external calls its coroutines make.

    Objects that the code shares by reference are entries of a store, named by
    their index: the [_EngineWorker]s (held by the [_engine_workers]
    dictionary, by the [target_engines] sets of the producers and by running
    coroutines) and the [_Client]s (held by the [_clients] dictionary and by
    running coroutines).  A [_ProducerInfo] is created once per producer id
    and never removed from [_producer_infos], so it is named by its id. *)

From S2P Require Import Prelude Coro Protocol Config.

(** [_Metadata]; tuples compare by value. *)
Record Metadata := mkMetadata {
  md_frame_id : Z;
  md_producer_id : string;
  md_client_address : string;
  md_target_engine_ids : list string;
  md_client_info : Any;
}.

#[export] Instance Metadata_eq_dec : EqDecision Metadata.
Proof. solve_decision. Defined.

(** [_MetadataPayload] *)
Record MetadataPayload := mkMetadataPayload {
  mp_metadata : Metadata;
  mp_payload : InputFrame;
}.

(** A reference used as a dictionary key: a gRPC stream context or an engine
    worker object. *)
Inductive objref : Type :=
| RContext (ctx : nat)
| RWorker (wid : nat).

#[export] Instance objref_eq_dec : EqDecision objref.
Proof. solve_decision. Defined.

(** [_EngineWorker] *)
Record EngineWorker := mkEngineWorker {
  ew_context : nat;
  ew_engine_id : string;
  ew_all_responses_required : bool;
  ew_last_payload_send_time : Z;  (* clock reading *)
  ew_current_input_metadata : option Metadata;  (* None: idle *)
  ew_size_for_queues : Z;
  ew_producers : list string;  (* deque of producers *)
  ew_latest_input_processed : dict string Metadata;
}.

(** [_ProducerInfo] *)
Record ProducerInfo := mkProducerInfo {
  pi_producer_id : string;
  pi_input_queue : list MetadataPayload;  (* deque, maxlen = pi_size_for_queues *)
  pi_size_for_queues : Z;
  pi_latest_input_sent_to_engine : option MetadataPayload;
  pi_target_engines : option (gset nat);  (* set of engine workers *)
  pi_pending_token_return : option bool;
}.

(** [GabrielServer._Client] *)
Record Client := mkClient {
  cl_owner : string;  (* the key it was stored under; read by no operation *)
  cl_tokens_for_producer : dict string Z;
  cl_inputs : list bytes;  (* asyncio.Queue *)
  cl_websocket : nat;  (* connection object *)
  cl_client_info : option Any;
}.

(** [_LocalServer]: its input queue, with the capacity it was created with,
    and the local variables [from_client], [address] and [client_info] of its
    only [_engine_comm] coroutine while the engine works on them. *)
Record LocalState := mkLocalState {
  lo_queue : list (FromClient * string * Any);  (* _input_queue *)
  lo_maxsize : Z;
  lo_current : option (FromClient * string * Any);
}.

(** No local engine. *)
Definition no_local : LocalState := mkLocalState [] 0 None.

(** The whole process. *)
Record World := mkWorld {
  w_engine_workers : dict objref nat;  (* _Server._engine_workers *)
  w_engine_ids : gset string;  (* _engine_ids, shared by _Server and GabrielServer *)
  w_producer_infos : dict string ProducerInfo;  (* _Server._producer_infos *)
  w_size_for_queues : Z;  (* _Server._size_for_queues *)
  w_workers : list EngineWorker;  (* store of the _EngineWorker objects *)
  w_num_tokens_per_producer : Z;  (* GabrielServer._num_tokens_per_producer *)
  w_clients : dict string nat;  (* GabrielServer._clients *)
  w_client_store : list Client;  (* store of the _Client objects *)
  w_write_locks : dict string nat;  (* _write_locks *)
  w_next_lock : nat;  (* identity of the next asyncio.Lock *)
  w_sinks : gset nat;  (* ResultManager._sinks *)
  w_is_running : bool;  (* _is_running *)
  w_start_event : bool;  (* _start_event *)
  w_simulate_disconnection : bool;  (* ZeroMQServer._simulate_disconnection *)
  w_local : LocalState;  (* _LocalServer, when the engine is local *)
}.

(** ** Field updates *)

Definition upd_ew_last_payload_send_time (g : Z -> Z) (w : EngineWorker) : EngineWorker :=
  mkEngineWorker (ew_context w) (ew_engine_id w) (ew_all_responses_required w) (g
    (ew_last_payload_send_time w)) (ew_current_input_metadata w) (ew_size_for_queues w)
    (ew_producers w) (ew_latest_input_processed w).
Definition upd_ew_current_input_metadata (g : option Metadata -> option Metadata) (w : EngineWorker) : EngineWorker :=
  mkEngineWorker (ew_context w) (ew_engine_id w) (ew_all_responses_required w)
    (ew_last_payload_send_time w) (g (ew_current_input_metadata w)) (ew_size_for_queues w)
    (ew_producers w) (ew_latest_input_processed w).
Definition upd_ew_producers (g : list string -> list string) (w : EngineWorker) : EngineWorker :=
  mkEngineWorker (ew_context w) (ew_engine_id w) (ew_all_responses_required w)
    (ew_last_payload_send_time w) (ew_current_input_metadata w) (ew_size_for_queues w) (g
    (ew_producers w)) (ew_latest_input_processed w).
Definition upd_ew_latest_input_processed (g : dict string Metadata -> dict string Metadata) (w : EngineWorker) : EngineWorker :=
  mkEngineWorker (ew_context w) (ew_engine_id w) (ew_all_responses_required w)
    (ew_last_payload_send_time w) (ew_current_input_metadata w) (ew_size_for_queues w)
    (ew_producers w) (g (ew_latest_input_processed w)).
Definition upd_pi_input_queue (g : list MetadataPayload -> list MetadataPayload) (p : ProducerInfo) : ProducerInfo :=
  mkProducerInfo (pi_producer_id p) (g (pi_input_queue p)) (pi_size_for_queues p)
    (pi_latest_input_sent_to_engine p) (pi_target_engines p) (pi_pending_token_return p).
Definition upd_pi_latest_input_sent_to_engine (g : option MetadataPayload -> option MetadataPayload) (p : ProducerInfo) : ProducerInfo :=
  mkProducerInfo (pi_producer_id p) (pi_input_queue p) (pi_size_for_queues p) (g
    (pi_latest_input_sent_to_engine p)) (pi_target_engines p) (pi_pending_token_return p).
Definition upd_pi_target_engines (g : option (gset nat) -> option (gset nat)) (p : ProducerInfo) : ProducerInfo :=
  mkProducerInfo (pi_producer_id p) (pi_input_queue p) (pi_size_for_queues p)
    (pi_latest_input_sent_to_engine p) (g (pi_target_engines p)) (pi_pending_token_return p).
Definition upd_pi_pending_token_return (g : option bool -> option bool) (p : ProducerInfo) : ProducerInfo :=
  mkProducerInfo (pi_producer_id p) (pi_input_queue p) (pi_size_for_queues p)
    (pi_latest_input_sent_to_engine p) (pi_target_engines p) (g (pi_pending_token_return p)).
Definition upd_cl_tokens_for_producer (g : dict string Z -> dict string Z) (c : Client) : Client :=
  mkClient (cl_owner c) (g (cl_tokens_for_producer c)) (cl_inputs c) (cl_websocket c)
    (cl_client_info c).
Definition upd_cl_inputs (g : list bytes -> list bytes) (c : Client) : Client :=
  mkClient (cl_owner c) (cl_tokens_for_producer c) (g (cl_inputs c)) (cl_websocket c)
    (cl_client_info c).
Definition upd_cl_client_info (g : option Any -> option Any) (c : Client) : Client :=
  mkClient (cl_owner c) (cl_tokens_for_producer c) (cl_inputs c) (cl_websocket c) (g
    (cl_client_info c)).
Definition upd_w_engine_workers (g : dict objref nat -> dict objref nat) (w : World) : World :=
  mkWorld (g (w_engine_workers w)) (w_engine_ids w) (w_producer_infos w) (w_size_for_queues w)
    (w_workers w) (w_num_tokens_per_producer w) (w_clients w) (w_client_store w) (w_write_locks
    w) (w_next_lock w) (w_sinks w) (w_is_running w) (w_start_event w) (w_simulate_disconnection
    w) (w_local w).
Definition upd_w_engine_ids (g : gset string -> gset string) (w : World) : World :=
  mkWorld (w_engine_workers w) (g (w_engine_ids w)) (w_producer_infos w) (w_size_for_queues w)
    (w_workers w) (w_num_tokens_per_producer w) (w_clients w) (w_client_store w) (w_write_locks
    w) (w_next_lock w) (w_sinks w) (w_is_running w) (w_start_event w) (w_simulate_disconnection
    w) (w_local w).
Definition upd_w_producer_infos (g : dict string ProducerInfo -> dict string ProducerInfo) (w : World) : World :=
  mkWorld (w_engine_workers w) (w_engine_ids w) (g (w_producer_infos w)) (w_size_for_queues w)
    (w_workers w) (w_num_tokens_per_producer w) (w_clients w) (w_client_store w) (w_write_locks
    w) (w_next_lock w) (w_sinks w) (w_is_running w) (w_start_event w) (w_simulate_disconnection
    w) (w_local w).
Definition upd_w_workers (g : list EngineWorker -> list EngineWorker) (w : World) : World :=
  mkWorld (w_engine_workers w) (w_engine_ids w) (w_producer_infos w) (w_size_for_queues w) (g
    (w_workers w)) (w_num_tokens_per_producer w) (w_clients w) (w_client_store w) (w_write_locks
    w) (w_next_lock w) (w_sinks w) (w_is_running w) (w_start_event w) (w_simulate_disconnection
    w) (w_local w).
Definition upd_w_clients (g : dict string nat -> dict string nat) (w : World) : World :=
  mkWorld (w_engine_workers w) (w_engine_ids w) (w_producer_infos w) (w_size_for_queues w)
    (w_workers w) (w_num_tokens_per_producer w) (g (w_clients w)) (w_client_store w)
    (w_write_locks w) (w_next_lock w) (w_sinks w) (w_is_running w) (w_start_event w)
    (w_simulate_disconnection w) (w_local w).
Definition upd_w_client_store (g : list Client -> list Client) (w : World) : World :=
  mkWorld (w_engine_workers w) (w_engine_ids w) (w_producer_infos w) (w_size_for_queues w)
    (w_workers w) (w_num_tokens_per_producer w) (w_clients w) (g (w_client_store w))
    (w_write_locks w) (w_next_lock w) (w_sinks w) (w_is_running w) (w_start_event w)
    (w_simulate_disconnection w) (w_local w).
Definition upd_w_write_locks (g : dict string nat -> dict string nat) (w : World) : World :=
  mkWorld (w_engine_workers w) (w_engine_ids w) (w_producer_infos w) (w_size_for_queues w)
    (w_workers w) (w_num_tokens_per_producer w) (w_clients w) (w_client_store w) (g
    (w_write_locks w)) (w_next_lock w) (w_sinks w) (w_is_running w) (w_start_event w)
    (w_simulate_disconnection w) (w_local w).
Definition upd_w_next_lock (g : nat -> nat) (w : World) : World :=
  mkWorld (w_engine_workers w) (w_engine_ids w) (w_producer_infos w) (w_size_for_queues w)
    (w_workers w) (w_num_tokens_per_producer w) (w_clients w) (w_client_store w) (w_write_locks
    w) (g (w_next_lock w)) (w_sinks w) (w_is_running w) (w_start_event w)
    (w_simulate_disconnection w) (w_local w).
Definition upd_w_sinks (g : gset nat -> gset nat) (w : World) : World :=
  mkWorld (w_engine_workers w) (w_engine_ids w) (w_producer_infos w) (w_size_for_queues w)
    (w_workers w) (w_num_tokens_per_producer w) (w_clients w) (w_client_store w) (w_write_locks
    w) (w_next_lock w) (g (w_sinks w)) (w_is_running w) (w_start_event w)
    (w_simulate_disconnection w) (w_local w).
Definition upd_w_is_running (g : bool -> bool) (w : World) : World :=
  mkWorld (w_engine_workers w) (w_engine_ids w) (w_producer_infos w) (w_size_for_queues w)
    (w_workers w) (w_num_tokens_per_producer w) (w_clients w) (w_client_store w) (w_write_locks
    w) (w_next_lock w) (w_sinks w) (g (w_is_running w)) (w_start_event w)
    (w_simulate_disconnection w) (w_local w).
Definition upd_w_start_event (g : bool -> bool) (w : World) : World :=
  mkWorld (w_engine_workers w) (w_engine_ids w) (w_producer_infos w) (w_size_for_queues w)
    (w_workers w) (w_num_tokens_per_producer w) (w_clients w) (w_client_store w) (w_write_locks
    w) (w_next_lock w) (w_sinks w) (w_is_running w) (g (w_start_event w))
    (w_simulate_disconnection w) (w_local w).
Definition upd_w_simulate_disconnection (g : bool -> bool) (w : World) : World :=
  mkWorld (w_engine_workers w) (w_engine_ids w) (w_producer_infos w) (w_size_for_queues w)
    (w_workers w) (w_num_tokens_per_producer w) (w_clients w) (w_client_store w) (w_write_locks
    w) (w_next_lock w) (w_sinks w) (w_is_running w) (w_start_event w) (g
    (w_simulate_disconnection w)) (w_local w).

Definition upd_w_local (g : LocalState -> LocalState) (w : World) : World :=
  mkWorld (w_engine_workers w) (w_engine_ids w) (w_producer_infos w) (w_size_for_queues w)
    (w_workers w) (w_num_tokens_per_producer w) (w_clients w) (w_client_store w) (w_write_locks
    w) (w_next_lock w) (w_sinks w) (w_is_running w) (w_start_event w) (w_simulate_disconnection
    w) (g (w_local w)).

(** ** External calls *)

Inductive metric : Type :=
| CLIENT_INPUTS_RECEIVED_TOTAL_inc (producer_id : string)
| ENGINE_INPUTS_RECEIVED_TOTAL_inc (engine_id : string)
| ENGINE_INPUTS_PROCESSED_TOTAL_inc (engine_id : string)
| ENGINE_LATENCY_observe (engine_id : string) (latency : Z)
| PRODUCER_QUEUE_LENGTH_set (producer_id : string) (n : nat).

Inductive metric_removal : Type :=
| ENGINE_INPUTS_RECEIVED_TOTAL_remove (engine_id : string)
| ENGINE_INPUTS_PROCESSED_TOTAL_remove (engine_id : string).

(** What [ServerStart] serves on: the port bound before, the arguments of
    [serve(...)], or those of [unix_serve(...)], which are given no size
    limit. *)
Inductive serving : Type :=
| ServeGrpc
| ServeTcp (host : string) (port : endpoint) (max_size : option Z)
| ServeUnix (path : endpoint).

(** A message of a stream: of a gRPC client, of an engine, of a WebSocket
    client. *)
Inductive incoming : Type :=
| client_message (m : FromClient)
| engine_message (m : FromEngine)
| raw_message (b : bytes).

Inductive sev : Type :=
| EngineWrite (ctx : nat) (m : ToEngine)      (* [_context.write], to an engine *)
| GrpcWrite (ctx : nat) (m : ToClient)        (* [context.write], to a client *)
| GrpcAbort (ctx : nat)                       (* [context.abort], which raises *)
| WsSend (ws : nat) (b : bytes)               (* [websocket.send] *)
| ZmqSend (address : string) (b : bytes)      (* [_sock.send_multipart] *)
| ZmqRecv                                     (* [_sock.recv_multipart] *)
| StreamNext (stream : nat) (m : option incoming)
                                              (* next message of a stream: [m], if it comes *)
| InputsGet (cid : nat)                       (* [wait_for(client.inputs.get(), ...)] *)
| Sleep                                       (* [asyncio.sleep] *)
| LockAcquire (l : nat)
| LockRelease (l : nat)
| SinkProcess (sink : nat) (r : Result)       (* [sink.process_result] *)
| SinkCleanup (sink : nat)                    (* [sink.cleanup] *)
| PerfCounter                                 (* [time.perf_counter] *)
| MetricCall (m : metric)
| MetricRemove (m : metric_removal)
| CreateTask (address : string)               (* [asyncio.create_task(self._consumer(address))] *)
| StartWait                                   (* [_start_event.wait()] *)
| LocalQueueGet                               (* [_input_queue.get()], of [_LocalServer] *)
| PipeSend (b : bytes)                        (* [_conn.send_bytes], in an executor *)
| ResultReady                                 (* [_result_ready.wait()] *)
| PipeRecv                                    (* [_conn.recv_bytes], in an executor *)
| BindPort (options : list (string * Z)) (target : string) (secure : bool)
                                              (* [grpc.aio.server(options)] and [add_..._port] *)
| ServerStart (on : serving)                  (* [server.start()], entering [serve(...)] *)
| ServerStop                                  (* [server.stop()], leaving [serve(...)] *)
| ServeForever                                (* until the task is cancelled *)
| SockOpen                                    (* [zmq.asyncio.Context()], [_ctx.socket(...)] *)
| SockBind (uri : string)                     (* [_sock.bind] *)
| SockClose                                   (* [_sock.close] *)
| CtxTerm                                     (* [_ctx.term] *)
| CancelTasks (addresses : list string)       (* cancel the consumers and gather them *)
| EngineServerStart                           (* [_engine_grpc_server.start()] *)
| EngineServerStop                            (* [_engine_grpc_server.stop(grace)] *)
| MetricsStart (port : Z)                     (* [start_http_server] *)
| MetricsStop                                 (* [to_thread(shutdown_prometheus)] *)
| ProcessStart                                (* [engine_process.start()] *)
| ProcessTerminate                            (* [engine_process.terminate()] *)
| ProcessJoin.                                (* [engine_process.join()] *)

Definition sresp (e : sev) : Type :=
  match e with
  | PerfCounter => Z
  | MetricCall _ | LockRelease _ | CreateTask _ | SockClose => unit
  | GrpcAbort _ => exn
  | ZmqRecv => (string * bytes) + exn
  | PipeRecv => bytes + exn
  | _ => unit + exn
  end.

Definition ssuspends (e : sev) : bool :=
  match e with
  | PerfCounter | MetricCall _ | MetricRemove _ | LockRelease _ | CreateTask _
  | BindPort _ _ _ | SockOpen | SockBind _ | SockClose | CtxTerm
  | MetricsStart _ | ProcessStart | ProcessTerminate | ProcessJoin => false
  | _ => true
  end.

Definition server_sig : sig := Sig sev sresp ssuspends.

(** Coroutines of the server process. *)
Abbreviation srv A := (prog World server_sig A).

(** An awaited or plain call that returns nothing and may raise. *)
Definition EngineWrite_ (ctx : nat) (m : ToEngine) : srv unit :=
  call (E := server_sig) (EngineWrite ctx m) ≫= raise.
Definition GrpcWrite_ (ctx : nat) (m : ToClient) : srv unit :=
  call (E := server_sig) (GrpcWrite ctx m) ≫= raise.
Definition WsSend_ (ws : nat) (b : bytes) : srv unit :=
  call (E := server_sig) (WsSend ws b) ≫= raise.
Definition ZmqSend_ (a : string) (b : bytes) : srv unit :=
  call (E := server_sig) (ZmqSend a b) ≫= raise.
Definition StreamNext_ (stream : nat) (m : option incoming) : srv unit :=
  call (E := server_sig) (StreamNext stream m) ≫= raise.
Definition MetricRemove_ (m : metric_removal) : srv unit :=
  call (E := server_sig) (MetricRemove m) ≫= raise.
Definition MetricCall_ (m : metric) : srv unit := call (E := server_sig) (MetricCall m).
Definition PerfCounter_ : srv Z := call (E := server_sig) PerfCounter.

Definition BindPort_ (options : list (string * Z)) (target : string) (secure : bool) : srv unit :=
  (call (E := server_sig) (BindPort options target secure) : srv (unit + exn)) ≫= raise.
Definition ServerStart_ (on : serving) : srv unit :=
  (call (E := server_sig) (ServerStart on) : srv (unit + exn)) ≫= raise.
Definition ServerStop_ : srv unit :=
  (call (E := server_sig) ServerStop : srv (unit + exn)) ≫= raise.
Definition ServeForever_ : srv unit :=
  (call (E := server_sig) ServeForever : srv (unit + exn)) ≫= raise.
Definition SockOpen_ : srv unit :=
  (call (E := server_sig) SockOpen : srv (unit + exn)) ≫= raise.
Definition CtxTerm_ : srv unit :=
  (call (E := server_sig) CtxTerm : srv (unit + exn)) ≫= raise.
Definition SockBind_ (uri : string) : srv unit :=
  (call (E := server_sig) (SockBind uri) : srv (unit + exn)) ≫= raise.

(** [async with lock: body] *)
Definition with_lock {A} (l : nat) (body : srv A) : srv A :=
  (call (E := server_sig) (LockAcquire l) ≫= raise) ;;
  try_finally body (call (E := server_sig) (LockRelease l)).

(** ** Object access *)

Definition get_worker (wid : nat) : srv EngineWorker :=
  gets (fun s => w_workers s !! wid) ≫= of_option DanglingReference.

Definition upd_worker (wid : nat) (g : EngineWorker -> EngineWorker) : srv unit :=
  modify (upd_w_workers (alter g wid)).

Definition get_producer (pid : string) : srv ProducerInfo :=
  gets (fun s => (w_producer_infos s).[pid]) ≫= of_option KeyError.

(** Change an attribute of a producer object. *)
Definition upd_producer (pid : string) (g : ProducerInfo -> ProducerInfo) : srv unit :=
  modify (upd_w_producer_infos (fun d =>
    match d.[pid] with Some p => d.[pid <- g p] | None => d end)).

Definition get_client (cid : nat) : srv Client :=
  gets (fun s => w_client_store s !! cid) ≫= of_option DanglingReference.

Definition upd_client (cid : nat) (g : Client -> Client) : srv unit :=
  modify (upd_w_client_store (alter g cid)).
