(* ===== verification/Trace.v ===== *)
(** * Sequential execution of the server's coroutines

    Equations of [run] for object access, and what an execution sends: the
    writes to the engines and to the clients, read off the history of external
    calls. *)

From S2P Require Import Prelude Coro Protocol ServerState.

(** ** Observables *)

Definition engine_write (x : { e : sev & sresp e }) : option (nat * ToEngine) :=
  match projT1 x with EngineWrite ctx m => Some (ctx, m) | _ => None end.

(** The frames written to engine streams. *)
Definition engine_writes (h : history server_sig) : list (nat * ToEngine) :=
  omap engine_write h.

Definition grpc_write (x : { e : sev & sresp e }) : option (nat * ToClient) :=
  match projT1 x with GrpcWrite ctx m => Some (ctx, m) | _ => None end.

(** The messages written to the control streams of gRPC clients. *)
Definition grpc_writes (h : history server_sig) : list (nat * ToClient) := omap grpc_write h.

Definition zmq_write (x : { e : sev & sresp e }) : option (string * bytes) :=
  match projT1 x with ZmqSend a b => Some (a, b) | _ => None end.

(** The messages sent on the ZeroMQ socket. *)
Definition zmq_writes (h : history server_sig) : list (string * bytes) := omap zmq_write h.

Definition sink_call (x : { e : sev & sresp e }) : option (nat * Result) :=
  match projT1 x with SinkProcess k r => Some (k, r) | _ => None end.

(** The results handed to result sinks. *)
Definition sink_calls (h : history server_sig) : list (nat * Result) := omap sink_call h.

(** ** Environments *)

(** No write to an engine stream fails. *)
Definition engines_reachable (env : history server_sig -> forall e : sev, sresp e) : Prop :=
  forall h ctx m, env h (EngineWrite ctx m) = inl tt.

(** A result sink that raises, raises an [Exception]. *)
Definition sinks_raise_Exceptions (env : history server_sig -> forall e : sev, sresp e) : Prop :=
  forall h k r, match env h (SinkProcess k r) with inl _ => True | inr x => is_Exception x = true end.

(** ** Assigning an object *)

Definition put_producer (pid : string) (p : ProducerInfo) (s : World) : World :=
  upd_w_producer_infos (fun ps => ps.[pid <- p]) s.

Definition put_worker (wid : nat) (w : EngineWorker) (s : World) : World :=
  upd_w_workers (fun l => <[wid := w]> l) s.

Definition put_client (cid : nat) (c : Client) (s : World) : World :=
  upd_w_client_store (fun l => <[cid := c]> l) s.

Lemma put_producer_get pid p s : (w_producer_infos (put_producer pid p s)).[pid] = Some p.
Proof. apply dict_get_set_eq. Qed.

Lemma put_put_producer pid p p' s : put_producer pid p' (put_producer pid p s) = put_producer pid p' s.
Proof. unfold put_producer, upd_w_producer_infos. simpl. by rewrite dict_set_set. Qed.

Lemma put_producer_same pid p s : (w_producer_infos s).[pid] = Some p -> put_producer pid p s = s.
Proof.
  intros Hp. unfold put_producer, upd_w_producer_infos. rewrite dict_set_same by done. by destruct s.
Qed.

Lemma put_worker_get wid w w0 s :
  w_workers s !! wid = Some w0 -> w_workers (put_worker wid w s) !! wid = Some w.
Proof. intros Hw. simpl. apply list_lookup_insert_eq. by eapply lookup_lt_Some. Qed.

Lemma put_worker_ne wid wid' w s :
  wid <> wid' -> w_workers (put_worker wid w s) !! wid' = w_workers s !! wid'.
Proof. intros Hne. simpl. by apply list_lookup_insert_ne. Qed.

Lemma put_put_worker wid w w' s : put_worker wid w' (put_worker wid w s) = put_worker wid w' s.
Proof. unfold put_worker, upd_w_workers. simpl. by rewrite list_insert_insert_eq. Qed.

Lemma put_client_get cid c c0 s :
  w_client_store s !! cid = Some c0 -> w_client_store (put_client cid c s) !! cid = Some c.
Proof. intros Hw. simpl. apply list_lookup_insert_eq. by eapply lookup_lt_Some. Qed.

Section run_equations.
Context (env : history server_sig -> forall e : sev, sresp e).
Abbreviation exec := (run (E := server_sig) env).

Lemma exec_gets {A B} (f : World -> A) (k : A -> srv B) s h :
  exec (gets f ≫= k) s h = exec (k (f s)) s h.
Proof. done. Qed.

Lemma exec_modify {B} g (k : unit -> srv B) s h :
  exec (modify g ≫= k) s h = exec (k tt) (g s) h.
Proof. done. Qed.

Lemma exec_ret {A B} (a : A) (k : A -> srv B) s h : exec (Ret a ≫= k) s h = exec (k a) s h.
Proof. done. Qed.

Lemma exec_throw {A B} x (k : A -> srv B) s h : exec (Throw x ≫= k) s h = (inr x, s, h).
Proof. done. Qed.

Lemma exec_get_worker {B} wid w (k : EngineWorker -> srv B) s h :
  w_workers s !! wid = Some w -> exec (get_worker wid ≫= k) s h = exec (k w) s h.
Proof. intros Hw. simpl. by rewrite Hw. Qed.

Lemma exec_get_producer {B} pid p (k : ProducerInfo -> srv B) s h :
  (w_producer_infos s).[pid] = Some p -> exec (get_producer pid ≫= k) s h = exec (k p) s h.
Proof. intros Hp. simpl. by rewrite Hp. Qed.

Lemma exec_get_client {B} cid c (k : Client -> srv B) s h :
  w_client_store s !! cid = Some c -> exec (get_client cid ≫= k) s h = exec (k c) s h.
Proof. intros Hc. simpl. by rewrite Hc. Qed.

Lemma exec_upd_worker {B} wid g w (k : unit -> srv B) s h :
  w_workers s !! wid = Some w ->
  exec (upd_worker wid g ≫= k) s h = exec (k tt) (put_worker wid (g w) s) h.
Proof.
  intros Hw. unfold upd_worker. rewrite exec_modify. f_equal.
  unfold put_worker, upd_w_workers. f_equal. by apply alter_lookup_insert.
Qed.

Lemma exec_upd_producer {B} pid g p (k : unit -> srv B) s h :
  (w_producer_infos s).[pid] = Some p ->
  exec (upd_producer pid g ≫= k) s h = exec (k tt) (put_producer pid (g p) s) h.
Proof. intros Hp. simpl. unfold upd_w_producer_infos. by rewrite Hp. Qed.

Lemma exec_upd_client {B} cid g c (k : unit -> srv B) s h :
  w_client_store s !! cid = Some c ->
  exec (upd_client cid g ≫= k) s h = exec (k tt) (put_client cid (g c) s) h.
Proof.
  intros Hc. unfold upd_client. rewrite exec_modify. f_equal.
  unfold put_client, upd_w_client_store. f_equal. by apply alter_lookup_insert.
Qed.

(** A final step as one with a continuation. *)
Lemma exec_eta (p : srv unit) s h : exec p s h = exec (p ≫= Ret) s h.
Proof. rewrite run_bind. by destruct (run _ p s h) as [[[[]|x] s'] h']. Qed.

Lemma exec_call {B} (e : sev) (k : sresp e -> srv B) s h :
  exec (call (E := server_sig) e ≫= k) s h = exec (k (env h e)) s (h ++ [existT e (env h e)]).
Proof. done. Qed.

Lemma exec_MetricCall {B} m (k : unit -> srv B) s h :
  exec (MetricCall_ m ≫= k) s h = exec (k tt) s (h ++ [existT (MetricCall m) tt]).
Proof. unfold MetricCall_. rewrite (exec_call (MetricCall m)). by destruct (env h (MetricCall m)). Qed.

Lemma exec_assoc {A B C} (p : srv A) (f : A -> srv B) (g : B -> srv C) s h :
  exec ((p ≫= f) ≫= g) s h = exec (p ≫= fun a => f a ≫= g) s h.
Proof. apply run_assoc. Qed.
End run_equations.

Lemma engine_writes_app h h' : engine_writes (h ++ h') = engine_writes h ++ engine_writes h'.
Proof. apply omap_app. Qed.
Lemma grpc_writes_app h h' : grpc_writes (h ++ h') = grpc_writes h ++ grpc_writes h'.
Proof. apply omap_app. Qed.
Lemma sink_calls_app h h' : sink_calls (h ++ h') = sink_calls h ++ sink_calls h'.
Proof. apply omap_app. Qed.
