(* ===== verification/Instances.v ===== *)
(** * Concrete parameters

    Instances of the parameters of the model, for executing it on concrete
    inputs: a codec for the messages, an order of iteration for sets, and an
    environment in which every external call succeeds. *)

From Stdlib Require Import Ascii.
From S2P Require Import Prelude Coro Protocol ServerState.

(** ** Messages as strings of bits *)

Fixpoint bits_of_pos (p : positive) : string :=
  match p with
  | xH => EmptyString
  | xO p' => String "0"%char (bits_of_pos p')
  | xI p' => String "1"%char (bits_of_pos p')
  end.

Fixpoint pos_of_bits (s : string) : positive :=
  match s with
  | EmptyString => xH
  | String "0"%char s' => xO (pos_of_bits s')
  | String _ s' => xI (pos_of_bits s')
  end.

Lemma pos_of_bits_of_pos p : pos_of_bits (bits_of_pos p) = p.
Proof. induction p; simpl; congruence. Qed.

(** A codec for any countable type of messages; the leading letter keeps a
    message apart from the control messages of the ZeroMQ transport. *)
Definition countable_serialize {M} `{Countable M} (m : M) : string :=
  String "M"%char (bits_of_pos (encode m)).

Definition countable_parse {M} `{Countable M} (b : string) : option M :=
  match b with
  | String "M"%char s => decode (pos_of_bits s)
  | _ => None
  end.

Lemma countable_codec_law {M} `{Countable M} (m : M) :
  countable_parse (countable_serialize m) = Some m.
Proof. simpl. by rewrite pos_of_bits_of_pos, decode_encode. Qed.

Definition countable_codec (M : Type) `{Countable M} : Codec M :=
  {| serialize := countable_serialize;
     parse := countable_parse;
     parse_serialize := countable_codec_law |}.

#[export] Instance Any_countable : Countable Any.
Proof.
  refine (inj_countable' (fun a => (any_type_url a, any_value a))
            (fun '(t, v) => mkAny t v) _). by intros [].
Defined.

#[export] Instance PayloadType_countable : Countable PayloadType.
Proof.
  refine (inj_countable'
    (fun t => match t with
              | PAYLOAD_TYPE_UNSPECIFIED => inl 0%nat | TEXT => inl 1%nat | IMAGE => inl 2%nat
              | AUDIO => inl 3%nat | VIDEO => inl 4%nat | OTHER => inl 5%nat
              | PAYLOAD_TYPE_UNRECOGNIZED n => inr n end)
    (fun c => match c with
              | inl 0%nat => PAYLOAD_TYPE_UNSPECIFIED | inl 1%nat => TEXT | inl 2%nat => IMAGE
              | inl 3%nat => AUDIO | inl 4%nat => VIDEO | inl _ => OTHER
              | inr n => PAYLOAD_TYPE_UNRECOGNIZED n end) _). by intros [].
Defined.

#[export] Instance InputPayload_countable : Countable InputPayload.
Proof.
  refine (inj_countable'
    (fun t => match t with
              | NoInputPayload => inl tt | StringPayload s => inr (inl s)
              | BytePayload b => inr (inr (inl b)) | AnyPayload a => inr (inr (inr a)) end)
    (fun c => match c with
              | inl _ => NoInputPayload | inr (inl s) => StringPayload s
              | inr (inr (inl b)) => BytePayload b | inr (inr (inr a)) => AnyPayload a end) _).
  by intros [].
Defined.

#[export] Instance InputFrame_countable : Countable InputFrame.
Proof.
  refine (inj_countable' (fun f => (payload_type f, input_payload f))
            (fun '(t, v) => mkInputFrame t v) _). by intros [].
Defined.

#[export] Instance Input_eq_dec : EqDecision Input.
Proof. solve_decision. Defined.

#[export] Instance Input_countable : Countable Input.
Proof.
  refine (inj_countable'
    (fun i => (in_frame_id i, in_producer_id i, in_target_engine_ids i, in_input_frame i))
    (fun '(f, p, t, i) => mkInput f p t i) _). by intros [].
Defined.

#[export] Instance FromClient_eq_dec : EqDecision FromClient.
Proof. solve_decision. Defined.

#[export] Instance FromClient_countable : Countable FromClient.
Proof.
  refine (inj_countable'
    (fun m => match m with
              | FromClient_unset => inl tt | FromClient_input i => inr (inl i)
              | FromClient_registration a => inr (inr a) end)
    (fun c => match c with
              | inl _ => FromClient_unset | inr (inl i) => FromClient_input i
              | inr (inr a) => FromClient_registration a end) _). by intros [].
Defined.

#[export] Instance StatusCode_countable : Countable StatusCode.
Proof.
  refine (inj_countable'
    (fun t => match t with
              | STATUS_CODE_UNSPECIFIED => inl 0%nat | SUCCESS => inl 1%nat
              | UNSPECIFIED_ERROR => inl 2%nat | ENGINE_ERROR => inl 3%nat
              | WRONG_INPUT_FORMAT => inl 4%nat | NO_ENGINE_FOR_INPUT => inl 5%nat
              | NO_TOKENS => inl 6%nat | SERVER_DROPPED_FRAME => inl 7%nat
              | UNRECOGNIZED n => inr n end)
    (fun c => match c with
              | inl 0%nat => STATUS_CODE_UNSPECIFIED | inl 1%nat => SUCCESS
              | inl 2%nat => UNSPECIFIED_ERROR | inl 3%nat => ENGINE_ERROR
              | inl 4%nat => WRONG_INPUT_FORMAT | inl 5%nat => NO_ENGINE_FOR_INPUT
              | inl 6%nat => NO_TOKENS | inl _ => SERVER_DROPPED_FRAME
              | inr n => UNRECOGNIZED n end) _). by intros [].
Defined.

#[export] Instance ResultPayload_countable : Countable ResultPayload.
Proof.
  refine (inj_countable'
    (fun t => match t with
              | NoResult => inl tt | StringResult s => inr (inl s)
              | BytesResult b => inr (inr (inl b)) | AnyResult a => inr (inr (inr a)) end)
    (fun c => match c with
              | inl _ => NoResult | inr (inl s) => StringResult s
              | inr (inr (inl b)) => BytesResult b | inr (inr (inr a)) => AnyResult a end) _).
  by intros [].
Defined.

#[export] Instance Result_countable : Countable Result.
Proof.
  refine (inj_countable'
    (fun r => (code (status r), message (status r), payload r, target_engine_id r, frame_id r))
    (fun '(c, m, p, t, f) => mkResult (mkStatus c m) p t f) _). by intros [[]].
Defined.

#[export] Instance ToClient_eq_dec : EqDecision ToClient.
Proof. unfold EqDecision, Decision. repeat (decide equality; try solve_decision). Defined.

#[export] Instance ToClient_countable : Countable ToClient.
Proof.
  refine (inj_countable'
    (fun m => match m with
              | ToClient_unset => inl tt
              | ToClient_registered r => inr (inl (num_tokens_per_producer r, registered_engine_ids r))
              | ToClient_result_wrapper w =>
                  inr (inr (inl (rw_producer_id w, rw_return_token w, rw_result w)))
              | ToClient_engine_ids_update l => inr (inr (inr l)) end)
    (fun c => match c with
              | inl _ => ToClient_unset
              | inr (inl (n, l)) => ToClient_registered (mkRegistered n l)
              | inr (inr (inl (p, t, r))) => ToClient_result_wrapper (mkResultWrapper p t r)
              | inr (inr (inr l)) => ToClient_engine_ids_update l end) _).
  by intros [|[]|[]|].
Defined.

#[export] Instance FromEngine_eq_dec : EqDecision FromEngine.
Proof. unfold EqDecision, Decision. repeat (decide equality; try solve_decision). Defined.

#[export] Instance FromEngine_countable : Countable FromEngine.
Proof.
  refine (inj_countable'
    (fun m => match m with
              | FromEngine_unset => inl tt
              | FromEngine_register r => inr (inl (reg_engine_id r, reg_all_responses_required r))
              | FromEngine_result r => inr (inr r) end)
    (fun c => match c with
              | inl _ => FromEngine_unset
              | inr (inl (e, b)) => FromEngine_register (mkRegister e b)
              | inr (inr r) => FromEngine_result r end) _).
  by intros [|[]|].
Defined.

#[export] Instance ToEngine_eq_dec : EqDecision ToEngine.
Proof. solve_decision. Defined.

#[export] Instance ToEngine_countable : Countable ToEngine.
Proof.
  refine (inj_countable' (fun m => (te_input_frame m, te_client_info m))
            (fun '(f, i) => mkToEngine f i) _). by intros [].
Defined.

(** The concrete parameters. *)
Module Concrete.
#[export] Instance py : PyEnv := {|
  py_repr s := ("'" +:+ s +:+ "'")%string;
  set_iter A _ _ X := elements X;
  set_iter_perm A _ _ X := reflexivity (elements X);
|}.

#[export] Instance codec_ToClient : Codec ToClient := countable_codec ToClient.
#[export] Instance codec_FromClient : Codec FromClient := countable_codec FromClient.
#[export] Instance codec_FromEngine : Codec FromEngine := countable_codec FromEngine.
#[export] Instance codec_ToEngine : Codec ToEngine := countable_codec ToEngine.
#[export] Instance codec_InputFrame : Codec InputFrame := countable_codec InputFrame.
#[export] Instance codec_Result : Codec Result := countable_codec Result.
#[export] Instance codec_Any : Codec Any := countable_codec Any.

(** An environment in which every call succeeds at once. *)
Definition calm (h : history server_sig) (e : sev) : sresp e :=
  match e return sresp e with
  | PerfCounter => 0
  | GrpcAbort _ => AioRpcError
  | ZmqRecv => inr ZMQError
  | PipeRecv => inr EOFError
  | MetricCall _ | LockRelease _ | CreateTask _ | SockClose => tt
  | _ => inl tt
  end.
End Concrete.
