(* ===== verification/ResultManager.v ===== *)
(** * Result sinks

    [server/src/gabriel_server/result_manager.py].  A [ResultSink] is supplied
    by the user of the library: its [process_result] and [cleanup] are
    external calls on the identity of the sink. *)

From S2P Require Import Prelude Coro Protocol Config ServerState.

Section result_manager.
Context `{!PyEnv}.

(** [ResultManager.register_result_sink] *)
Definition register_result_sink (sink : nat) : srv unit :=
  modify (upd_w_sinks (fun X => {[sink]} ∪ X)).

(** [ResultManager.unregister_result_sink] *)
Definition unregister_result_sink (sink : nat) : srv unit :=
  modify (upd_w_sinks (fun X => X ∖ {[sink]})).

(** [for sink in self._sinks: body(sink)]: the iterator checks, each time it
    is advanced, that the set still has the size it started with. *)
Fixpoint for_sinks (n : nat) (todo : list nat) (body : nat -> srv unit) : srv unit :=
  m ← gets (fun s => size (w_sinks s));
  if decide (m = n) then
    match todo with
    | [] => Ret tt
    | sink :: todo' => body sink ;; for_sinks n todo' body
    end
  else Throw (RuntimeError "Set changed size during iteration").

(** [ResultManager.process_result] *)
Definition process_result (r : Result) : srv unit :=
  if decide (code (status r) = SUCCESS) then
    sinks ← gets w_sinks;
    for_sinks (size sinks) (set_iter sinks) (fun sink =>
      try_except (call (E := server_sig) (SinkProcess sink r) ≫= raise)
        (fun x => if is_Exception x then Ret tt else Throw x))
  else Ret tt.

(** [ResultManager.cleanup] *)
Definition sinks_cleanup : srv unit :=
  sinks ← gets w_sinks;
  for_sinks (size sinks) (set_iter sinks) (fun sink =>
    call (E := server_sig) (SinkCleanup sink) ≫= raise).

(** ** [ZeroMQSink] *)

(** [ZeroMQSink.__init__]: where the socket is bound. *)
Definition zeromq_sink_uri (port_or_path : endpoint) : string :=
  match port_or_path with
  | Port _ => ("tcp://*:" +:+ endpoint_str port_or_path)%string
  | Path p => ("ipc://" +:+ p)%string
  end.

(** [ZeroMQSink.process_result]: the parts of the message it publishes. *)
Definition zeromq_sink_message `{!Codec Result} (result : Result) : list bytes :=
  [target_engine_id result; serialize result].

(** ** Lemmas *)

Lemma for_sinks_readonly n todo body :
  (forall k, readonly (body k)) -> readonly (for_sinks n todo body).
Proof.
  intros Hb. induction todo as [|k todo IH]; simpl; intros s; case_decide; simpl; auto.
  by apply readonly_bind.
Qed.

Lemma process_result_readonly r : readonly (process_result r).
Proof.
  unfold process_result. case_decide; [|done].
  intros s. apply for_sinks_readonly. intros k. apply readonly_try_except.
  - intros [?|?]; done.
  - intros x. by destruct (is_Exception x).
Qed.

Lemma sinks_cleanup_readonly : readonly sinks_cleanup.
Proof. intros s. apply for_sinks_readonly. intros k [?|?]; done. Qed.
End result_manager.

#[export] Hint Resolve process_result_readonly sinks_cleanup_readonly : gabriel.
