(* ===== verification/GabrielServer.v ===== *)
(** * The client-facing server

    [server/src/gabriel_server/gabriel_server.py]: the operations every
    client transport shares.  A transport supplies
    [_send_via_transport] ([Transport]); what the shared operations rely on is
    that sending does not change the state of the process ([TransportOk]),
    which the three transports prove of their implementations. *)

From S2P Require Import Prelude Coro Protocol ServerState.

(** The abstract method of [GabrielServer] the shared code calls. *)
Class Transport := {
  send_via_transport : string -> bytes -> srv bool;
}.

Class TransportOk `{!Transport} : Prop := {
  send_via_transport_readonly : forall a b, readonly (send_via_transport a b);
}.

#[export] Hint Resolve send_via_transport_readonly : gabriel.

Section gabriel_server.
Context `{!PyEnv, !Codec ToClient, !Transport}.

(** [_new_client]: a fresh, not yet registered client object; [owner] is
    the address it is about to be stored under. *)
Definition new_client (owner : string) (websocket : nat) : srv nat :=
  cid ← gets (fun s => length (w_client_store s));
  modify (upd_w_client_store (fun h => h ++ [mkClient owner [] [] websocket None])) ;;
  Ret cid.

(** [client.tokens_for_producer[producer_id] = n] *)
Definition set_tokens (cid : nat) (pid : string) (n : Z) : srv unit :=
  upd_client cid (upd_cl_tokens_for_producer (fun d => d.[pid <- n])).

(** [send_result] *)
Definition send_result (address producer_id engine_id : string) (result : Result)
    (return_token : bool) : srv bool :=
  client ← gets (fun s => (w_clients s).[address]);
  match client with
  | None => Ret false
  | Some cid =>
      c ← get_client cid;
      match (cl_tokens_for_producer c).[producer_id] with
      | None => Ret tt  (* still send so the client gets back its token *)
      | Some n => if return_token then set_tokens cid producer_id (n + 1) else Ret tt
      end ;;
      send_via_transport address (serialize
        (ToClient_result_wrapper (mkResultWrapper producer_id return_token result)))
  end.

(** [for address in self._clients: await self._send_via_transport(...)]: the
    dictionary iterator checks, each time it is advanced, that the
    dictionary still has the size it started with. *)
Fixpoint engines_updated_loop (n : nat) (todo : list string) (msg : bytes) : srv unit :=
  m ← gets (fun s => length (w_clients s));
  if decide (m = n) then
    match todo with
    | [] => Ret tt
    | address :: todo' =>
        send_via_transport address msg ;; engines_updated_loop n todo' msg
    end
  else Throw (RuntimeError "dictionary changed size during iteration").

(** [_engines_updated_cb] *)
Definition engines_updated_cb : srv unit :=
  ids ← gets w_engine_ids;
  clients ← gets w_clients;
  engines_updated_loop (length clients) (dict_keys clients)
    (serialize (ToClient_engine_ids_update (set_iter ids))).

(** [_consumer_helper], from the token check on: [client_info] is what the
    client registered; [engine_cb] is [self._engine_cb]. *)
Definition forward_input
    (engine_cb : FromClient -> string -> Any -> srv (StatusCode * string))
    (cid : nat) (address : string) (from_client : FromClient) (client_info : Any)
    : srv (StatusCode * string) :=
  let producer_id := in_producer_id (fc_input from_client) in
  c ← get_client cid;
  num ← gets w_num_tokens_per_producer;
  match (cl_tokens_for_producer c).[producer_id] with
  | None => set_tokens cid producer_id num
  | Some _ => Ret tt
  end ;;
  c ← get_client cid;
  n ← of_option KeyError ((cl_tokens_for_producer c).[producer_id]);
  if n <? 1 then Ret (NO_TOKENS, "No tokens for producer")
  else engine_cb from_client address client_info.

(** [_consumer_helper] *)
Definition consumer_helper
    (engine_cb : FromClient -> string -> Any -> srv (StatusCode * string))
    (cid : nat) (address : string) (from_client : FromClient) : srv (StatusCode * string) :=
  match from_client with
  | FromClient_registration client_info =>
      upd_client cid (upd_cl_client_info (fun _ => Some client_info)) ;;
      Ret (SUCCESS, "")
  | _ =>
      c ← get_client cid;
      match cl_client_info c with
      | None => Ret (UNSPECIFIED_ERROR, "Client must register before sending input")
      | Some client_info => forward_input engine_cb cid address from_client client_info
      end
  end.

(** [client.tokens_for_producer[producer_id] -= 1] *)
Definition consume_token (cid : nat) (producer_id : string) : srv unit :=
  c ← get_client cid;
  n ← of_option KeyError ((cl_tokens_for_producer c).[producer_id]);
  set_tokens cid producer_id (n - 1).

(** [_make_registered] *)
Definition make_registered : srv ToClient :=
  num ← gets w_num_tokens_per_producer;
  ids ← gets w_engine_ids;
  if in_int32 num then Ret (ToClient_registered (mkRegistered num (set_iter ids)))
  else Throw (ValueError "Value out of range").

(** [_make_error_response] *)
Definition make_error_response (from_client : FromClient) (st : StatusCode) (msg : string)
    : ToClient :=
  ToClient_result_wrapper (mkResultWrapper
    (in_producer_id (fc_input from_client))
    true
    (mkResult (mkStatus st msg) NoResult "" (in_frame_id (fc_input from_client)))).
End gabriel_server.
