(* ===== verification/Dispatch.v ===== *)
(** * Engine workers and producers

    [_EngineWorker] and [_ProducerInfo] of
    [server/src/gabriel_server/network_engine/server_runner.py]: the input
    queue of each producer, the in-flight input, and the rotation of each
    engine over the producers that target it. *)

From S2P Require Import Prelude Coro Protocol ServerState.

(** ** [_EngineWorker] *)

(** [_EngineWorker._send_helper] *)
Definition send_helper (wid : nat) (to_engine : ToEngine) : srv unit :=
  w ← get_worker wid;
  EngineWrite_ (ew_context w) to_engine ;;
  t ← PerfCounter_;
  upd_worker wid (upd_ew_last_payload_send_time (fun _ => t)).

(** [_EngineWorker.send_payload] *)
Definition send_payload (wid : nat) (mp : MetadataPayload) : srv unit :=
  let metadata := mp_metadata mp in
  upd_worker wid (upd_ew_current_input_metadata (fun _ => Some metadata)) ;;
  upd_worker wid (upd_ew_latest_input_processed
                    (fun d => d.[md_producer_id metadata <- metadata])) ;;
  send_helper wid (mkToEngine (Some (mp_payload mp)) (md_client_info metadata)).

(** [_EngineWorker.clear_current_input_metadata] *)
Definition clear_current_input_metadata (wid : nat) : srv unit :=
  upd_worker wid (upd_ew_current_input_metadata (fun _ => None)).

(** [_EngineWorker.add_producer] *)
Definition add_producer (wid : nat) (pid : string) : srv unit :=
  w ← get_worker wid;
  if decide (pid ∈ ew_producers w) then Ret tt
  else upd_worker wid (upd_ew_producers (fun l => l ++ [pid])).

(** [deque.remove(x)]: the first occurrence. *)
Fixpoint deque_remove (x : string) (l : list string) : list string :=
  match l with
  | [] => []
  | y :: l' => if decide (x = y) then l' else y :: deque_remove x l'
  end.

(** [_EngineWorker.remove_producer] *)
Definition remove_producer (wid : nat) (pid : string) : srv unit :=
  w ← get_worker wid;
  if decide (pid ∈ ew_producers w) then
    upd_worker wid (upd_ew_producers (deque_remove pid)) ;;
    match (ew_latest_input_processed w).[pid] with
    | None => Throw KeyError
    | Some _ => upd_worker wid (upd_ew_latest_input_processed (dict_del pid))
    end
  else Ret tt.

(** ** [_ProducerInfo] *)

(** [_ProducerInfo.__init__]; [deque(maxlen=...)] refuses a negative size. *)
Definition new_producer_info (pid : string) (size_for_queues : Z) : option ProducerInfo :=
  if size_for_queues <? 0 then None
  else Some (mkProducerInfo pid [] size_for_queues None None None).

(** [_ProducerInfo.add_input_to_queue] *)
Definition add_input_to_queue (pid : string) (mp : MetadataPayload) : srv bool :=
  p ← get_producer pid;
  if Z.of_nat (length (pi_input_queue p)) =? pi_size_for_queues p then Ret false
  else
    upd_producer pid (upd_pi_input_queue (fun q => q ++ [mp])) ;;
    p ← get_producer pid;
    MetricCall_ (PRODUCER_QUEUE_LENGTH_set pid (length (pi_input_queue p))) ;;
    Ret true.

(** [_ProducerInfo.get_input_from_queue] *)
Definition get_input_from_queue (pid : string) : srv (option MetadataPayload) :=
  p ← get_producer pid;
  match pi_input_queue p with
  | [] => Ret None
  | mp :: _ =>
      upd_producer pid (upd_pi_latest_input_sent_to_engine (fun _ => Some mp)) ;;
      upd_producer pid (upd_pi_pending_token_return (fun _ => Some true)) ;;
      upd_producer pid (upd_pi_input_queue (drop 1)) ;;
      Ret (Some mp)
  end.

(** The loop of [_EngineWorker.send_next_input]; [n] iterations are left. *)
Fixpoint send_next_input_loop (wid : nat) (n : nat) : srv unit :=
  match n with
  | O => clear_current_input_metadata wid  (* no input available *)
  | S n' =>
      upd_worker wid (upd_ew_producers rotate_left) ;;
      w ← get_worker wid;
      pid ← of_option IndexError (head (ew_producers w));
      p ← get_producer pid;
      from_queue ← (if truthy (pi_pending_token_return p) then Ret None
                    else get_input_from_queue pid);
      match from_queue with
      | Some mp => send_payload wid mp
      | None =>
          p ← get_producer pid;
          match pi_latest_input_sent_to_engine p with
          | None => send_next_input_loop wid n'
          | Some mp =>
              match (ew_latest_input_processed w).[pid] with
              | Some m =>
                  if md_frame_id m <? md_frame_id (mp_metadata mp)
                  then send_payload wid mp
                  else send_next_input_loop wid n'
              | None => send_next_input_loop wid n'
              end
          end
      end
  end.

(** [_EngineWorker.send_next_input] *)
Definition send_next_input (wid : nat) : srv unit :=
  w ← get_worker wid;
  send_next_input_loop wid (length (ew_producers w)).

Section process_input.
Context `{!PyEnv}.

(** The engine workers whose engine is among the targets of the input, with
    the count of each engine's inputs. *)
Fixpoint find_target_engines (targets : list string) (wids : list nat) : srv (gset nat) :=
  match wids with
  | [] => Ret ∅
  | wid :: wids' =>
      w ← get_worker wid;
      if decide (ew_engine_id w ∈ targets) then
        MetricCall_ (ENGINE_INPUTS_RECEIVED_TOTAL_inc (ew_engine_id w)) ;;
        X ← find_target_engines targets wids';
        Ret ({[wid]} ∪ X)
      else find_target_engines targets wids'
  end.

(** The ids of the given engine workers. *)
Fixpoint engine_ids_of (wids : list nat) : srv (list string) :=
  match wids with
  | [] => Ret []
  | wid :: wids' =>
      w ← get_worker wid;
      l ← engine_ids_of wids';
      Ret (ew_engine_id w :: l)
  end.

(** [for engine in removed_targets: ...]: the elements are engine workers
    while [_engine_workers] is keyed by stream contexts, and the coroutine
    [remove_producer(self)] is created without being awaited, so its body
    does not run. *)
Definition drop_removed_targets (removed : gset nat) : srv unit :=
  for_each (set_iter removed) (fun wid =>
    d ← gets w_engine_workers;
    match d.[RWorker wid] with
    | None => Ret tt
    | Some _ => Ret tt
    end).

(** Dispatch to every idle target engine; the result says whether all the
    target engines are busy. *)
Fixpoint dispatch_loop (pid : string) (mp : MetadataPayload) (wids : list nat)
    (all_busy : bool) : srv bool :=
  match wids with
  | [] => Ret all_busy
  | wid :: wids' =>
      add_producer wid pid ;;
      w ← get_worker wid;
      match ew_current_input_metadata w with
      | None => send_payload wid mp ;; dispatch_loop pid mp wids' false
      | Some _ => dispatch_loop pid mp wids' all_busy
      end
  end.

(** [_ProducerInfo.process_input_from_client] *)
Definition process_input_from_client (pid : string) (from_client : FromClient)
    (client_address : string) (client_info : Any) : srv (StatusCode * string) :=
  let input := fc_input from_client in
  MetricCall_ (CLIENT_INPUTS_RECEIVED_TOTAL_inc pid) ;;
  let metadata := mkMetadata (in_frame_id input) pid client_address
                    (in_target_engine_ids input) client_info in
  let mp := mkMetadataPayload metadata (in_input_frame input) in
  workers ← gets (fun s => dict_values (w_engine_workers s));
  target_engines ← find_target_engines (in_target_engine_ids input) workers;
  if decide (target_engines = ∅) then
    available ← engine_ids_of workers;
    Ret (NO_ENGINE_FOR_INPUT,
         ("No target engines found. Specified target: "
          +:+ py_str_list (in_target_engine_ids input)
          +:+ ". Available engines: " +:+ py_str_list available)%string)
  else
    p ← get_producer pid;
    (if decide (pi_target_engines p = Some target_engines) then Ret tt
     else
       drop_removed_targets
         (match pi_target_engines p with
          | Some old => old ∖ target_engines
          | None => ∅
          end) ;;
       upd_producer pid (upd_pi_target_engines (fun _ => Some target_engines))) ;;
    all_busy ← dispatch_loop pid mp (set_iter target_engines) true;
    if all_busy : bool then
      success ← add_input_to_queue pid mp;
      if success : bool then Ret (SUCCESS, "")
      else Ret (SERVER_DROPPED_FRAME,
                ("Input queue for " +:+ pid +:+ " is full, dropping input")%string)
    else
      upd_producer pid (upd_pi_latest_input_sent_to_engine (fun _ => Some mp)) ;;
      upd_producer pid (upd_pi_pending_token_return (fun _ => Some true)) ;;
      Ret (SUCCESS, "").
End process_input.
