(* ===== verification/DispatchSpec.v ===== *)
(** * What an engine is given next

    The rotation of [_EngineWorker.send_next_input] against a declarative
    specification: the producers are visited in rotation order, the first one
    that offers an input is served and moves to the front of the rotation.  The
    equations of the loop hold of any interpretation of coroutines that reads
    and writes the state in place, so of a run to the end and of a segment of the
    event loop alike. *)

From S2P Require Import Prelude Coro Protocol ServerState Trace Dispatch Instances.

(** ** Specification *)

(** What the producer [pid] offers to the engine worker [w]: the head of its
    queue when no token return is pending ([true]), or else its in-flight
    input when the engine has been given an earlier input of the producer and
    the in-flight input is more recent than the last of them ([false]). *)
Definition offer (ps : dict string ProducerInfo) (w : EngineWorker) (pid : string)
    : option (MetadataPayload * bool) :=
  match ps.[pid] with
  | None => None
  | Some p =>
      match (if truthy (pi_pending_token_return p) then None else head (pi_input_queue p)) with
      | Some mp => Some (mp, true)
      | None =>
          match pi_latest_input_sent_to_engine p, (ew_latest_input_processed w).[pid] with
          | Some mp, Some m =>
              if md_frame_id m <? md_frame_id (mp_metadata mp) then Some (mp, false) else None
          | _, _ => None
          end
      end
  end.

(** The producer's side of serving an offer: an input taken off the queue
    becomes the in-flight input. *)
Definition serve (pid : string) (mp : MetadataPayload) (from_queue : bool) (s : World) : World :=
  if from_queue then
    match (w_producer_infos s).[pid] with
    | Some p => put_producer pid
        (mkProducerInfo (pi_producer_id p) (drop 1 (pi_input_queue p)) (pi_size_for_queues p)
           (Some mp) (pi_target_engines p) (Some true)) s
    | None => s
    end
  else s.

(** The worker's side, at the time [t]. *)
Definition take_input (mp : MetadataPayload) (t : Z) (w : EngineWorker) : EngineWorker :=
  mkEngineWorker (ew_context w) (ew_engine_id w) (ew_all_responses_required w) t
    (Some (mp_metadata mp)) (ew_size_for_queues w) (ew_producers w)
    ((ew_latest_input_processed w).[md_producer_id (mp_metadata mp) <- mp_metadata mp]).

Definition set_rotation (l : list string) (w : EngineWorker) : EngineWorker :=
  upd_ew_producers (fun _ => l) w.

(** The frame written to the engine. *)
Definition frame_of (mp : MetadataPayload) : ToEngine :=
  mkToEngine (Some (mp_payload mp)) (md_client_info (mp_metadata mp)).

(** The order in which [send_next_input] visits the producers. *)
Definition visits (w : EngineWorker) : list string := rotate_left (ew_producers w).

Definition producers_known (w : EngineWorker) (s : World) : Prop :=
  Forall (fun pid => is_Some ((w_producer_infos s).[pid])) (ew_producers w).

Definition offers_nothing (ps : dict string ProducerInfo) (w : EngineWorker) (pid : string) : Prop :=
  offer ps w pid = None.

Lemma serve_put_worker pid mp b wid w s :
  serve pid mp b (put_worker wid w s) = put_worker wid w (serve pid mp b s).
Proof. unfold serve. destruct b; [|done]. simpl. by destruct (_.[pid]). Qed.

Lemma serve_workers pid mp b s : w_workers (serve pid mp b s) = w_workers s.
Proof. unfold serve. destruct b; [|done]. by destruct (_.[pid]). Qed.

(** ** The loop *)

Section silent.
(** An interpretation of coroutines: reading and writing the state takes effect
    at once. *)
Context {R : Type} (ex : srv unit -> World -> R).
Hypothesis ex_get : forall k s, ex (Get k) s = ex (k s) s.
Hypothesis ex_put : forall s' k s, ex (Put s' k) s = ex k s'.

Lemma ex_get_worker wid w (k : EngineWorker -> srv unit) s :
  w_workers s !! wid = Some w -> ex (get_worker wid ≫= k) s = ex (k w) s.
Proof. intros Hw. cbn -[prog_bind]. cbn. rewrite ex_get. by rewrite Hw. Qed.

Lemma ex_get_producer pid p (k : ProducerInfo -> srv unit) s :
  (w_producer_infos s).[pid] = Some p -> ex (get_producer pid ≫= k) s = ex (k p) s.
Proof. intros Hp. cbn. rewrite ex_get. by rewrite Hp. Qed.

Lemma ex_upd_worker wid g w (k : unit -> srv unit) s :
  w_workers s !! wid = Some w -> ex (upd_worker wid g ≫= k) s = ex (k tt) (put_worker wid (g w) s).
Proof.
  intros Hw. cbn. rewrite ex_get, ex_put. f_equal.
  unfold put_worker, upd_w_workers. f_equal. by apply alter_lookup_insert.
Qed.

Lemma ex_upd_producer pid g p (k : unit -> srv unit) s :
  (w_producer_infos s).[pid] = Some p ->
  ex (upd_producer pid g ≫= k) s = ex (k tt) (put_producer pid (g p) s).
Proof. intros Hp. cbn. rewrite ex_get, ex_put. unfold upd_w_producer_infos. by rewrite Hp. Qed.

(** Taking an input off the queue, when no token return is pending. *)
Lemma ex_fetch pid p (k : option MetadataPayload -> srv unit) s :
  (w_producer_infos s).[pid] = Some p ->
  ex (get_producer pid ≫= fun p =>
      (if truthy (pi_pending_token_return p) then Ret None else get_input_from_queue pid) ≫= k) s =
  match (if truthy (pi_pending_token_return p) then None else head (pi_input_queue p)) with
  | None => ex (k None) s
  | Some mp => ex (k (Some mp)) (serve pid mp true s)
  end.
Proof.
  intros Hp. erewrite ex_get_producer by done.
  destruct (truthy (pi_pending_token_return p)); [done|].
  unfold serve. rewrite Hp. unfold get_input_from_queue. cbn. rewrite ex_get, Hp. cbn.
  destruct (pi_input_queue p) as [|mp q] eqn:Hq; [done|]. cbn.
  rewrite ex_get, ex_put. unfold upd_w_producer_infos. rewrite Hp. cbn.
  rewrite ex_get, ex_put. cbn. rewrite dict_get_set_eq, dict_set_set.
  rewrite ex_get, ex_put. cbn. rewrite dict_get_set_eq, dict_set_set.
  unfold put_producer, upd_pi_input_queue, upd_pi_pending_token_return,
    upd_pi_latest_input_sent_to_engine. cbn. by rewrite Hq.
Qed.

(** An iteration: the next producer of the rotation is visited. *)
Lemma ex_iteration wid w n pid post s :
  w_workers s !! wid = Some w -> visits w = pid :: post ->
  is_Some ((w_producer_infos s).[pid]) ->
  let s' := put_worker wid (set_rotation (pid :: post) w) s in
  ex (send_next_input_loop wid (S n)) s =
  match offer (w_producer_infos s) w pid with
  | None => ex (send_next_input_loop wid n) s'
  | Some (mp, from_queue) => ex (send_payload wid mp) (serve pid mp from_queue s')
  end.
Proof.
  intros Hw Hv [p Hp] s'. cbn [send_next_input_loop].
  erewrite ex_upd_worker by done. erewrite ex_get_worker by (by eapply put_worker_get).
  unfold visits in Hv. subst s'. unfold set_rotation, upd_ew_producers, offer.
  cbn [ew_producers ew_latest_input_processed]. rewrite Hv, Hp. cbn [head of_option].
  change (Ret pid ≫= ?k) with (k pid). cbv beta. erewrite ex_fetch by done.
  destruct (if truthy _ then _ else _) as [mp|]; [done|].
  erewrite ex_get_producer by done.
  destruct (pi_latest_input_sent_to_engine p) as [mp|]; [|done].
  destruct ((ew_latest_input_processed w).[pid]) as [m|]; [|done]. by destruct (_ <? _).
Qed.

(** Producers that offer nothing are passed over. *)
Lemma ex_skip_all wid w n pre post s :
  w_workers s !! wid = Some w -> visits w = pre ++ post ->
  Forall (fun pid => is_Some ((w_producer_infos s).[pid])) pre ->
  Forall (offers_nothing (w_producer_infos s) w) pre ->
  exists l, rotate_left l = post ++ pre /\
    ex (send_next_input_loop wid (length pre + n)) s =
    ex (send_next_input_loop wid n) (put_worker wid (set_rotation l w) s).
Proof.
  revert w post s. induction pre as [|pid pre IH]; intros w post s Hw Hv Hk Ho.
  - exists (ew_producers w). rewrite app_nil_r. split; [done|]. f_equal.
    unfold put_worker, upd_w_workers. rewrite list_insert_id; [by destruct s|].
    rewrite Hw. by destruct w.
  - apply Forall_cons in Hk as [Hk0 Hk]. apply Forall_cons in Ho as [Ho0 Ho].
    cbn [length plus]. rewrite (ex_iteration wid w _ pid (pre ++ post)); [|done|done|done].
    rewrite Ho0. set (w' := set_rotation (pid :: pre ++ post) w).
    destruct (IH w' (post ++ [pid]) (put_worker wid w' s)) as (l & Hl & ->).
    + by eapply put_worker_get.
    + unfold visits. simpl. by rewrite (assoc_L (++)).
    + done.
    + done.
    + exists l. split; [by rewrite Hl, <- (assoc_L (++))|].
      by rewrite put_put_worker.
Qed.

(** The first producer with an offer is served. *)
Lemma ex_serve wid w pre pid post mp from_queue s :
  w_workers s !! wid = Some w -> producers_known w s ->
  visits w = pre ++ pid :: post ->
  Forall (offers_nothing (w_producer_infos s) w) pre ->
  offer (w_producer_infos s) w pid = Some (mp, from_queue) ->
  ex (send_next_input wid) s =
  ex (send_payload wid mp)
    (put_worker wid (set_rotation (pid :: post ++ pre) w) (serve pid mp from_queue s)).
Proof.
  intros Hw Hk Hv Hpre Ho. unfold send_next_input. erewrite ex_get_worker by done.
  assert (Forall (fun pid => is_Some ((w_producer_infos s).[pid])) (pre ++ pid :: post)) as Hk'.
  { rewrite <- Hv. unfold visits. by rewrite rotate_left_perm. }
  apply Forall_app in Hk' as [Hk1 [Hk2 Hk3]%Forall_cons].
  assert (length (ew_producers w) = (length pre + S (length post))%nat) as ->.
  { rewrite <- rotate_left_length. unfold visits in Hv. rewrite Hv, length_app. done. }
  destruct (ex_skip_all wid w (S (length post)) pre (pid :: post) s) as (l & Hl & ->); auto.
  set (w1 := set_rotation l w).
  rewrite (ex_iteration wid w1 _ pid (post ++ pre)); [|by eapply put_worker_get|done|done].
  rewrite put_put_worker.
  change (offer _ w1 pid) with (offer (w_producer_infos s) w pid). rewrite Ho.
  by rewrite serve_put_worker.
Qed.
End silent.

Section send_next_input.
Context (env : history server_sig -> forall e : sev, sresp e).
Hypothesis Henv : engines_reachable env.
Abbreviation exec := (run (E := server_sig) env).

Lemma exec_send_payload wid w mp s h :
  w_workers s !! wid = Some w ->
  exists t, exec (send_payload wid mp) s h =
    (inl tt, put_worker wid (take_input mp t w) s,
     h ++ [existT (EngineWrite (ew_context w) (frame_of mp)) (inl tt); existT PerfCounter t]).
Proof.
  intros Hw. unfold send_payload. cbn zeta.
  erewrite exec_upd_worker by done.
  erewrite exec_upd_worker by (by eapply put_worker_get). rewrite put_put_worker.
  unfold send_helper. erewrite exec_get_worker by (by eapply put_worker_get).
  unfold EngineWrite_. rewrite exec_assoc. cbn -[put_worker upd_w_workers]. rewrite Henv.
  cbn -[put_worker upd_w_workers upd_worker]. eexists.
  rewrite exec_eta. erewrite exec_upd_worker by (by eapply put_worker_get).
  rewrite put_put_worker. cbn [run].
  by rewrite <- (assoc_L (++)).
Qed.

Lemma exec_serve wid w pre pid post mp from_queue s h :
  w_workers s !! wid = Some w -> producers_known w s ->
  visits w = pre ++ pid :: post ->
  Forall (offers_nothing (w_producer_infos s) w) pre ->
  offer (w_producer_infos s) w pid = Some (mp, from_queue) ->
  exists t, exec (send_next_input wid) s h =
    (inl tt,
     put_worker wid (take_input mp t (set_rotation (pid :: post ++ pre) w))
       (serve pid mp from_queue s),
     h ++ [existT (EngineWrite (ew_context w) (frame_of mp)) (inl tt); existT PerfCounter t]).
Proof.
  intros Hw Hk Hv Hpre Ho.
  rewrite (ex_serve (fun p s => exec p s h) ltac:(done) ltac:(done) wid w pre pid post mp from_queue s);
    [|done..].
  destruct (exec_send_payload wid (set_rotation (pid :: post ++ pre) w) mp
              (put_worker wid (set_rotation (pid :: post ++ pre) w) (serve pid mp from_queue s)) h)
    as (t & ->); [eapply put_worker_get; by rewrite serve_workers|].
  exists t. by rewrite put_put_worker.
Qed.

Lemma exec_idle wid w s h :
  w_workers s !! wid = Some w -> producers_known w s ->
  Forall (offers_nothing (w_producer_infos s) w) (ew_producers w) ->
  exec (send_next_input wid) s h =
    (inl tt, put_worker wid (upd_ew_current_input_metadata (fun _ => None) w) s, h).
Proof.
  intros Hw Hk Ho. unfold send_next_input. erewrite exec_get_worker by done.
  destruct (ex_skip_all (fun p s => exec p s h) ltac:(done) ltac:(done) wid w 0 (visits w) [] s) as (l & Hl & E).
  - done.
  - by rewrite app_nil_r.
  - unfold visits. by rewrite rotate_left_perm.
  - unfold visits. by rewrite rotate_left_perm.
  - apply rotate_left_inj in Hl as ->. rewrite Nat.add_0_r in E.
    unfold visits in E. rewrite rotate_left_length in E. rewrite E.
    cbn [send_next_input_loop]. unfold clear_current_input_metadata.
    rewrite exec_eta. erewrite exec_upd_worker by (by eapply put_worker_get).
    by rewrite put_put_worker.
Qed.

(** C6.  [send_next_input] gives the engine the offer of the first producer,
    in rotation order, that offers one: its queue head, when no token return is
    pending for the producer, which then becomes the in-flight input awaiting its
    token; or else its in-flight input, if the engine has already been given an
    earlier input of that producer and the in-flight input is more recent than
    the last one it was given.  That producer moves to the front of the rotation,
    exactly one frame is written to the engine's stream, and no other producer or
    worker changes.  A producer of which the engine has never been given an
    input is not offering its in-flight input, although the docstring of the
    method promises it to any engine that was not sent it.  When no producer
    offers an input, the engine becomes idle, the rotation is unchanged and
    nothing is written.  The write to the engine is assumed to succeed. *)
Theorem send_next_input_refines wid w s h :
  w_workers s !! wid = Some w -> producers_known w s ->
  (forall pre pid post mp from_queue,
     visits w = pre ++ pid :: post ->
     Forall (offers_nothing (w_producer_infos s) w) pre ->
     offer (w_producer_infos s) w pid = Some (mp, from_queue) ->
     exists t, exec (send_next_input wid) s h =
       (inl tt,
        put_worker wid (take_input mp t (set_rotation (pid :: post ++ pre) w))
          (serve pid mp from_queue s),
        h ++ [existT (EngineWrite (ew_context w) (frame_of mp)) (inl tt); existT PerfCounter t]))
  /\
  (Forall (offers_nothing (w_producer_infos s) w) (ew_producers w) ->
   exec (send_next_input wid) s h =
     (inl tt, put_worker wid (upd_ew_current_input_metadata (fun _ => None) w) s, h))
  /\
  (forall pid p mp,
     (w_producer_infos s).[pid] = Some p ->
     pi_input_queue p = [] \/ truthy (pi_pending_token_return p) = true ->
     pi_latest_input_sent_to_engine p = Some mp ->
     match (ew_latest_input_processed w).[pid] with
     | None => offers_nothing (w_producer_infos s) w pid
     | Some m =>
         if md_frame_id m <? md_frame_id (mp_metadata mp)
         then offer (w_producer_infos s) w pid = Some (mp, false)
         else offers_nothing (w_producer_infos s) w pid
     end).
Proof.
  intros Hw Hk. split_and!; [intros; by apply exec_serve | by apply exec_idle |].
  intros pid p mp Hp Hq Hl. unfold offers_nothing, offer. rewrite Hp, Hl.
  assert ((if truthy (pi_pending_token_return p) then None else head (pi_input_queue p)) = None) as ->.
  { destruct Hq as [->| ->]; [by destruct (truthy _)|done]. }
  destruct ((ew_latest_input_processed w).[pid]) as [m|]; [|done]. by destruct (_ <? _).
Qed.
End send_next_input.

(** ** A concrete engine *)

Module Demo.
Definition md (frame : Z) (pid : string) : Metadata := mkMetadata frame pid "s" ["e"] default_Any.
Definition mp (frame : Z) (pid : string) : MetadataPayload :=
  mkMetadataPayload (md frame pid) (mkInputFrame TEXT (StringPayload "x")).

(** The engine "e" rotates over the producers "x", "a" and "p"; "a" and "p"
    have a waiting input. *)
Definition worker : EngineWorker :=
  mkEngineWorker 1 "e" false 0 (Some (md 1 "x")) 5 ["x"; "a"; "p"] [("x", md 1 "x")].
Definition producer (pid : string) (q : list MetadataPayload) : ProducerInfo :=
  mkProducerInfo pid q 5 None None None.
Definition world : World :=
  mkWorld [(RContext 1, 0%nat)] {["e"]}
    [("x", producer "x" []); ("a", producer "a" [mp 1 "a"]); ("p", producer "p" [mp 7 "p"; mp 8 "p"])]
    5 [worker] 2 [] [] [] 0 ∅ true true false no_local.

Lemma calm_reachable : engines_reachable Concrete.calm.
Proof. done. Qed.

Lemma known : producers_known worker world.
Proof. repeat constructor; eauto. Qed.
End Demo.

Lemma send_next_input_refines_witness :
  exists t, run (E := server_sig) Concrete.calm (send_next_input 0) Demo.world [] =
    (inl tt,
     put_worker 0 (take_input (Demo.mp 1 "a") t (set_rotation ["a"; "p"; "x"] Demo.worker))
       (serve "a" (Demo.mp 1 "a") true Demo.world),
     [existT (EngineWrite 1 (frame_of (Demo.mp 1 "a"))) (inl tt); existT PerfCounter t]).
Proof.
  apply (proj1 (send_next_input_refines Concrete.calm Demo.calm_reachable 0 Demo.worker Demo.world []
           eq_refl Demo.known)) with (pre := []) (post := ["p"; "x"]);
    [reflexivity|constructor|reflexivity].
Defined.
