(* ===== verification/Metrics.v ===== *)
(** * The metrics of the server

    The Prometheus metrics that [network_engine/server_runner.py] declares, and
    their values, which the calls of a run determine: a counter is the number of
    its increments since its label was last removed, a gauge the value it was
    last set to. *)

From S2P Require Import Prelude Coro Protocol ServerState Trace Dispatch.

Inductive metric_kind : Type := Counter | Gauge | Histogram.

Record metric_declaration := mkMetric {
  mt_kind : metric_kind;
  mt_name : string;
  mt_labels : list string;
}.

Definition ENGINE_LATENCY : metric_declaration :=
  mkMetric Histogram "gabriel_engine_processing_latency_seconds" ["engine_id"].
Definition PRODUCER_QUEUE_LENGTH : metric_declaration :=
  mkMetric Gauge "gabriel_producer_queue_length" ["producer_id"].
Definition CLIENT_INPUTS_RECEIVED_TOTAL : metric_declaration :=
  mkMetric Counter "gabriel_producer_inputs_received_total" ["producer_id"].
Definition ENGINE_INPUTS_RECEIVED_TOTAL : metric_declaration :=
  mkMetric Counter "gabriel_engine_inputs_received_total" ["engine_id"].
Definition ENGINE_INPUTS_PROCESSED_TOTAL : metric_declaration :=
  mkMetric Counter "gabriel_engine_inputs_processed_total" ["engine_id"].

Definition server_metrics : list metric_declaration :=
  [ENGINE_LATENCY; PRODUCER_QUEUE_LENGTH; CLIENT_INPUTS_RECEIVED_TOTAL; ENGINE_INPUTS_RECEIVED_TOTAL;
   ENGINE_INPUTS_PROCESSED_TOTAL].

(** The registry refuses a name that is taken. *)
Lemma metric_names_differ : NoDup (map mt_name server_metrics).
Proof. apply (bool_decide_eq_true_1 _). vm_compute. reflexivity. Qed.

(** ** Values *)

(** An increment of the inputs received from a producer. *)
Definition receives (pid : string) (e : ev server_sig) : bool :=
  match (e : sev) with
  | MetricCall (CLIENT_INPUTS_RECEIVED_TOTAL_inc p) => bool_decide (p = pid)
  | _ => false
  end.

Definition inputs_received (pid : string) (h : history server_sig) : Z :=
  countb (fun x => receives pid (projT1 x)) h.

(** The value the gauge of a producer was last set to. *)
Definition queue_gauge (pid : string) (h : history server_sig) : option nat :=
  foldl (fun v x => match (projT1 x : sev) with
                    | MetricCall (PRODUCER_QUEUE_LENGTH_set p n) => if decide (p = pid) then Some n else v
                    | _ => v
                    end) None h.

Lemma queue_gauge_snoc pid h x :
  queue_gauge pid (h ++ [x]) =
  match (projT1 x : sev) with
  | MetricCall (PRODUCER_QUEUE_LENGTH_set p n) => if decide (p = pid) then Some n else queue_gauge pid h
  | _ => queue_gauge pid h
  end.
Proof. unfold queue_gauge. by rewrite foldl_app. Qed.

(** ** Properties *)

(** The calls of the dispatch of an input: after the first, the writes to the
    engines, the clock, and the other two metrics. *)
Lemma dispatch_avoids `{!PyEnv} (bad : ev server_sig -> bool) pid fc a info :
  (forall c m, bad (EngineWrite c m : sev) = false) -> bad (PerfCounter : sev) = false ->
  (forall e, bad (MetricCall (ENGINE_INPUTS_RECEIVED_TOTAL_inc e) : sev) = false) ->
  (forall p n, bad (MetricCall (PRODUCER_QUEUE_LENGTH_set p n) : sev) = false) ->
  exists rest, process_input_from_client pid fc a info =
    (MetricCall_ (CLIENT_INPUTS_RECEIVED_TOTAL_inc pid) ≫= fun _ => rest) /\ avoids bad rest.
Proof.
  intros Hwrite Hclock Hreceived Hqueue.
  assert (forall mp wid, avoids bad (send_payload wid mp)) as Hsend.
  { intros mp wid. unfold send_payload, send_helper, EngineWrite_, PerfCounter_, get_worker, upd_worker, get_worker.
    repeat first [apply avoids_call; auto|progress avoid]. }
  assert (forall ts wids, avoids bad (find_target_engines ts wids)) as Hfind.
  { intros ts wids. induction wids as [|wid wids IH]; cbn -[mbind]; [done|].
    unfold MetricCall_, get_worker. repeat first [apply IH|apply avoids_call; auto|progress avoid]. }
  assert (forall wids, avoids bad (engine_ids_of wids)) as Hids.
  { intros wids. induction wids as [|wid wids IH]; cbn -[mbind]; [done|].
    unfold get_worker. repeat first [apply IH|progress avoid]. }
  assert (forall p mp wids b, avoids bad (dispatch_loop p mp wids b)) as Hloop.
  { intros p mp wids. induction wids as [|wid wids IH]; intros b; cbn -[mbind send_payload]; [done|].
    unfold add_producer, get_worker, upd_worker, get_worker.
    repeat first [apply IH|apply Hsend|progress avoid]. }
  assert (forall X, avoids bad (drop_removed_targets X)) as Hdrop.
  { intros X. unfold drop_removed_targets. induction (set_iter X) as [|x l IH]; cbn -[mbind]; [done|].
    repeat first [apply IH|progress avoid]. }
  eexists. split; [reflexivity|].
  unfold add_input_to_queue, get_producer, upd_producer, MetricCall_. cbn zeta.
  repeat first [apply Hfind|apply Hids|apply Hloop|apply Hdrop|apply avoids_call; auto|progress avoid].
Qed.

Section values.
Context `{!PyEnv}.
Context (env : history server_sig -> forall e : ev server_sig, resp server_sig e).
Abbreviation exec := (run (E := server_sig) env).

(** Every input that is dispatched is counted once, for its producer and for no
    other, whatever becomes of it. *)
Theorem every_input_is_counted q pid fc a info s h o s' h' :
  exec (process_input_from_client pid fc a info) s h = (o, s', h') ->
  inputs_received q h' = inputs_received q h + (if decide (pid = q) then 1 else 0).
Proof.
  destruct (dispatch_avoids (receives q) pid fc a info) as (rest & -> & Hrest); [done..|].
  rewrite exec_MetricCall. intros Hr.
  destruct (run_avoids (receives q) env rest _ _ _ _ _ Hrest Hr) as (hs & -> & Hhs).
  unfold inputs_received. rewrite !countb_app.
  assert (countb (fun x => receives q (projT1 x)) hs = 0) as ->.
  { clear Hr. induction Hhs as [|x hs Hx _ IH]; [done|]. by rewrite countb_cons, Hx. }
  rewrite countb_cons. simpl. destruct (decide (pid = q)) as [->|Hq].
  - rewrite bool_decide_true by done. change (countb _ []) with 0. lia.
  - rewrite bool_decide_false by done. change (countb _ []) with 0. lia.
Qed.

(** The gauge of the queue: it is set to the length of the queue when an input
    is added, and is not set when one is taken; so after the queue has been
    emptied the gauge still shows the length it had. *)
Theorem queue_gauge_is_set_on_append_only pid p mp q s h :
  (w_producer_infos s).[pid] = Some p ->
  (Z.of_nat (length (pi_input_queue p)) <> pi_size_for_queues p ->
   exists s' h', exec (add_input_to_queue pid mp) s h = (inl true, s', h') /\
     queue_gauge pid h' = Some (S (length (pi_input_queue p)))) /\
  (pi_input_queue p = mp :: q ->
   exists s' p', exec (get_input_from_queue pid) s h = (inl (Some mp), s', h) /\
     (w_producer_infos s').[pid] = Some p' /\ pi_input_queue p' = q).
Proof.
  intros Hp. split.
  - intros Hlen. unfold add_input_to_queue. erewrite exec_get_producer by done.
    rewrite (proj2 (Z.eqb_neq _ _) Hlen). erewrite exec_upd_producer by done.
    erewrite exec_get_producer by apply put_producer_get. rewrite exec_MetricCall.
    eexists _, _. split; [reflexivity|]. rewrite queue_gauge_snoc. simpl.
    rewrite decide_True, length_app by done. simpl. f_equal. lia.
  - intros Hq. unfold get_input_from_queue. erewrite exec_get_producer by done. rewrite Hq.
    erewrite exec_upd_producer by done. erewrite exec_upd_producer by apply put_producer_get.
    rewrite put_put_producer. erewrite exec_upd_producer by apply put_producer_get. rewrite put_put_producer.
    eexists _, _. split; [reflexivity|]. split; [apply put_producer_get|]. simpl. by rewrite Hq.
Qed.
End values.
