(* ===== verification/InputSpec.v ===== *)
(** * What becomes of an input

    [_ProducerInfo.process_input_from_client] against a specification of its
    four outcomes: no engine for the input, dispatch to the idle target
    engines, the queue, or a dropped frame. *)

From S2P Require Import Prelude Coro Protocol ServerState Trace Instances Dispatch.
From S2P Require Import DispatchSpec.

(** ** Specification *)

Definition targeted (s : World) (tids : list string) (wid : nat) : bool :=
  match w_workers s !! wid with
  | Some w => bool_decide (ew_engine_id w ∈ tids)
  | None => false
  end.

(** The registered workers whose engine is among the targets. *)
Definition target_set (s : World) (tids : list string) : gset nat :=
  list_to_set (List.filter (targeted s tids) (dict_values (w_engine_workers s))).

Definition idle (w : EngineWorker) : bool :=
  match ew_current_input_metadata w with None => true | Some _ => false end.

Definition idle_at (s : World) (wid : nat) : bool :=
  match w_workers s !! wid with Some w => idle w | None => false end.

(** The producer joins the rotation of the engine, once. *)
Definition enlisted (pid : string) (w : EngineWorker) : EngineWorker :=
  if decide (pid ∈ ew_producers w) then w else upd_ew_producers (fun l => l ++ [pid]) w.

(** The frames written: one to each idle engine. *)
Definition idle_writes (s : World) (mp : MetadataPayload) (wids : list nat)
    : list (nat * ToEngine) :=
  omap (fun wid =>
    match w_workers s !! wid with
    | Some w => if idle w then Some (ew_context w, frame_of mp) else None
    | None => None
    end) wids.

(** The workers after the dispatch of [mp] to the workers [wids]. *)
Record dispatched (pid : string) (mp : MetadataPayload) (wids : list nat)
    (ws ws' : list EngineWorker) : Prop := {
  dp_other : forall wid, wid ∉ wids -> ws' !! wid = ws !! wid;
  dp_busy : forall wid w, wid ∈ wids -> ws !! wid = Some w -> idle w = false ->
    ws' !! wid = Some (enlisted pid w);
  dp_idle : forall wid w, wid ∈ wids -> ws !! wid = Some w -> idle w = true ->
    exists t, ws' !! wid = Some (take_input mp t (enlisted pid w));
}.

Definition registry_live (s : World) : Prop :=
  Forall (fun wid => is_Some (w_workers s !! wid)) (dict_values (w_engine_workers s)).

Definition put_workers (ws : list EngineWorker) (s : World) : World := upd_w_workers (fun _ => ws) s.

Section process_input.
Context `{!PyEnv}.
Context (env : history server_sig -> forall e : sev, sresp e).
Hypothesis Henv : engines_reachable env.
Abbreviation exec := (run (E := server_sig) env).

Lemma exec_find_target_engines tids wids s h :
  Forall (fun wid => is_Some (w_workers s !! wid)) wids ->
  exists h', engine_writes h' = engine_writes h /\
    exec (find_target_engines tids wids) s h =
    (inl (list_to_set (List.filter (targeted s tids) wids)), s, h').
Proof.
  intros Hl. revert h. induction Hl as [|wid wids [w Hw] _ IH]; intros h; [by exists h|].
  cbn [find_target_engines List.filter]. erewrite exec_get_worker by done.
  unfold targeted at 1. rewrite Hw. case_decide; [|rewrite bool_decide_eq_false_2 by done; apply IH].
  rewrite bool_decide_eq_true_2 by done. rewrite exec_MetricCall.
  destruct (IH (h ++ [existT (MetricCall (ENGINE_INPUTS_RECEIVED_TOTAL_inc (ew_engine_id w))) tt]))
    as (h' & Hh & E).
  exists h'. split; [by rewrite Hh, engine_writes_app, app_nil_r|].
  rewrite run_bind, E. done.
Qed.

Lemma exec_engine_ids_of wids s h :
  Forall (fun wid => is_Some (w_workers s !! wid)) wids ->
  exec (engine_ids_of wids) s h =
  (inl (omap (fun wid => ew_engine_id <$> w_workers s !! wid) wids), s, h).
Proof.
  intros Hl. induction Hl as [|wid wids [w Hw] _ IH]; [done|].
  cbn [engine_ids_of omap list_omap]. erewrite exec_get_worker by done.
  rewrite run_bind, IH, Hw. done.
Qed.

Lemma exec_drop_removed_targets X s h : exec (drop_removed_targets X) s h = (inl tt, s, h).
Proof.
  unfold drop_removed_targets. induction (set_iter X) as [|wid wids IH]; [done|].
  cbn [for_each]. rewrite run_bind, exec_gets. by destruct (_.[_]).
Qed.

Lemma exec_add_producer {B} wid w pid (k : unit -> srv B) s h :
  w_workers s !! wid = Some w ->
  exec (add_producer wid pid ≫= k) s h = exec (k tt) (put_worker wid (enlisted pid w) s) h.
Proof.
  intros Hw. unfold add_producer, enlisted. rewrite exec_assoc. erewrite exec_get_worker by done.
  case_decide; [|by erewrite exec_upd_worker].
  rewrite exec_ret. f_equal. unfold put_worker, upd_w_workers.
  rewrite list_insert_id by done. by destruct s.
Qed.

Lemma idle_enlisted pid w : idle (enlisted pid w) = idle w.
Proof. unfold enlisted. by case_decide. Qed.

(** The state after visiting one worker: [w'] is the worker then. *)
Lemma dispatched_cons pid mp wid wids w w' ws ws' :
  ws !! wid = Some w -> wid ∉ wids ->
  (if idle w then exists t, w' = take_input mp t (enlisted pid w) else w' = enlisted pid w) ->
  dispatched pid mp wids (<[wid := w']> ws) ws' -> dispatched pid mp (wid :: wids) ws ws'.
Proof.
  intros Hw Hni Hw' [Ho Hb Hi].
  assert (ws' !! wid = Some w') as Hself.
  { rewrite Ho by done. apply list_lookup_insert_eq. by eapply lookup_lt_Some. }
  assert (forall wid', wid' ∈ wids -> <[wid := w']> ws !! wid' = ws !! wid') as Hsame.
  { intros wid' Hin. apply list_lookup_insert_ne. by intros ->. }
  split.
  - intros wid' [Hne Hni']%not_elem_of_cons. rewrite Ho by done. by apply list_lookup_insert_ne.
  - intros wid' w0 [->|Hin]%elem_of_cons Hw0 Hidle.
    + assert (w0 = w) as -> by congruence. rewrite Hidle in Hw'. congruence.
    + apply Hb; [done| |done]. by rewrite Hsame.
  - intros wid' w0 [->|Hin]%elem_of_cons Hw0 Hidle.
    + assert (w0 = w) as -> by congruence. rewrite Hidle in Hw'.
      destruct Hw' as [t ->]. by exists t.
    + apply Hi; [done| |done]. by rewrite Hsame.
Qed.

Lemma idle_writes_insert mp wid w' wids s :
  wid ∉ wids -> idle_writes (put_worker wid w' s) mp wids = idle_writes s mp wids.
Proof.
  intros Hni. unfold idle_writes. induction wids as [|x wids IH]; [done|].
  apply not_elem_of_cons in Hni as [Hne Hni]. cbn [omap list_omap].
  rewrite put_worker_ne by done. by rewrite IH.
Qed.

Lemma all_busy_insert wid w' wids s :
  wid ∉ wids ->
  forallb (fun x => negb (idle_at (put_worker wid w' s) x)) wids =
  forallb (fun x => negb (idle_at s x)) wids.
Proof.
  intros Hni. induction wids as [|x wids IH]; [done|].
  apply not_elem_of_cons in Hni as [Hne Hni]. cbn [forallb]. unfold idle_at at 1 3.
  rewrite put_worker_ne by done. by rewrite IH.
Qed.

Lemma exec_dispatch_loop pid mp wids b s h :
  NoDup wids -> Forall (fun wid => is_Some (w_workers s !! wid)) wids ->
  exists ws h', exec (dispatch_loop pid mp wids b) s h =
      (inl (b && forallb (fun wid => negb (idle_at s wid)) wids), put_workers ws s, h') /\
    dispatched pid mp wids (w_workers s) ws /\
    engine_writes h' = engine_writes h ++ idle_writes s mp wids.
Proof.
  intros Hnd. revert b s h. induction Hnd as [|wid wids Hni _ IH]; intros b s h Hl.
  { exists (w_workers s), h. split_and!; [by destruct s, b| |by rewrite app_nil_r].
    by split; [|intros ? ? []%not_elem_of_nil..]. }
  apply Forall_cons in Hl as [[w Hw] Hl]. cbn [dispatch_loop].
  erewrite exec_add_producer by done. erewrite exec_get_worker by (by eapply put_worker_get).
  assert (forall w', Forall (fun x => is_Some (w_workers (put_worker wid w' s) !! x)) wids) as Hl'.
  { intros w'. rewrite Forall_forall in Hl |- *. intros x Hx. rewrite put_worker_ne; [auto|].
    by intros ->. }
  assert (idle_at s wid = idle w) as Hid by (unfold idle_at; by rewrite Hw).
  pose proof (idle_enlisted pid w) as Hen. cbn [forallb]. rewrite Hid.
  unfold idle_writes. cbn [omap list_omap]. rewrite Hw. fold (idle_writes s mp wids).
  unfold idle in Hen at 1. destruct (ew_current_input_metadata (enlisted pid w)) eqn:Hcur.
  - rewrite <- Hen. cbn [negb andb].
    destruct (IH b (put_worker wid (enlisted pid w) s) h (Hl' _)) as (ws & h' & E & Hd & Hh).
    exists ws, h'. rewrite E, all_busy_insert by done. split_and!; [done| |].
    + eapply dispatched_cons; [done..| |exact Hd]. by rewrite <- Hen.
    + by rewrite Hh, idle_writes_insert.
  - rewrite <- Hen. cbn [negb andb]. rewrite run_bind, andb_false_r.
    destruct (exec_send_payload env Henv wid (enlisted pid w) mp (put_worker wid (enlisted pid w) s) h)
      as (t & ->); [by eapply put_worker_get|].
    rewrite put_put_worker.
    destruct (IH false (put_worker wid (take_input mp t (enlisted pid w)) s)
      (h ++ [existT (EngineWrite (ew_context (enlisted pid w)) (frame_of mp)) (inl tt);
             existT PerfCounter t]) (Hl' _)) as (ws & h' & E & Hd & Hh).
    exists ws, h'. rewrite E. split_and!; [done| |].
    + eapply dispatched_cons; [done..| |exact Hd]. rewrite <- Hen. by exists t.
    + rewrite Hh, engine_writes_app, idle_writes_insert, <- (assoc_L (++)) by done.
      assert (ew_context (enlisted pid w) = ew_context w) as ->; [|done].
      unfold enlisted. by case_decide.
Qed.

(** The input as it is queued and dispatched. *)
Definition input_of (pid : string) (fc : FromClient) (a : string) (ci : Any) : MetadataPayload :=
  let input := fc_input fc in
  mkMetadataPayload (mkMetadata (in_frame_id input) pid a (in_target_engine_ids input) ci)
    (in_input_frame input).

Definition retarget (X : gset nat) (p : ProducerInfo) : ProducerInfo :=
  upd_pi_target_engines (fun _ => Some X) p.

(** What follows the search for target engines. *)
Definition place_input (pid : string) (mp : MetadataPayload) (X : gset nat)
    : srv (StatusCode * string) :=
  all_busy ← dispatch_loop pid mp (set_iter X) true;
  if all_busy : bool then
    success ← add_input_to_queue pid mp;
    if success : bool then Ret (SUCCESS, "")
    else Ret (SERVER_DROPPED_FRAME,
              ("Input queue for " +:+ pid +:+ " is full, dropping input")%string)
  else
    upd_producer pid (upd_pi_latest_input_sent_to_engine (fun _ => Some mp)) ;;
    upd_producer pid (upd_pi_pending_token_return (fun _ => Some true)) ;;
    Ret (SUCCESS, "").

Lemma exec_process_input pid p fc a ci s h :
  let X := target_set s (in_target_engine_ids (fc_input fc)) in
  registry_live s -> (w_producer_infos s).[pid] = Some p -> X <> ∅ ->
  exists h', engine_writes h' = engine_writes h /\
    exec (process_input_from_client pid fc a ci) s h =
    exec (place_input pid (input_of pid fc a ci) X) (put_producer pid (retarget X p) s) h'.
Proof.
  intros X Hl Hp HX. unfold process_input_from_client. cbn zeta.
  rewrite exec_MetricCall, exec_gets. rewrite run_bind.
  edestruct exec_find_target_engines as (h' & Hh & ->); [exact Hl|].
  fold (target_set s (in_target_engine_ids (fc_input fc))). fold X.
  exists h'. split; [by rewrite Hh, engine_writes_app, app_nil_r|].
  rewrite decide_False by done. erewrite exec_get_producer by done.
  case_decide as Ht.
  - rewrite exec_ret. f_equal. rewrite put_producer_same; [done|]. rewrite Hp.
    unfold retarget, upd_pi_target_engines. rewrite <- Ht. by destruct p.
  - rewrite exec_assoc, run_bind, exec_drop_removed_targets.
    by erewrite exec_upd_producer.
Qed.

Lemma target_set_live s tids :
  registry_live s -> Forall (fun wid => is_Some (w_workers s !! wid)) (set_iter (target_set s tids)).
Proof.
  intros Hl. apply Forall_forall. intros wid Hw%set_iter_elem.
  unfold target_set in Hw. apply elem_of_list_to_set in Hw.
  apply list_elem_of_In, filter_In in Hw as [Hw _]. apply list_elem_of_In in Hw.
  unfold registry_live in Hl. rewrite Forall_forall in Hl. auto.
Qed.

(** C8.  When no registered engine is among the targets of an input, the
    answer is [NO_ENGINE_FOR_INPUT], nothing is written to any engine and
    the state is unchanged: the input is neither queued nor in flight. *)
Theorem input_without_engine pid fc a ci s h :
  registry_live s -> target_set s (in_target_engine_ids (fc_input fc)) = ∅ ->
  exists msg h', exec (process_input_from_client pid fc a ci) s h =
      (inl (NO_ENGINE_FOR_INPUT, msg), s, h') /\
    engine_writes h' = engine_writes h.
Proof.
  intros Hl HX. unfold process_input_from_client. cbn zeta.
  rewrite exec_MetricCall, exec_gets. rewrite run_bind.
  edestruct exec_find_target_engines as (h' & Hh & ->); [exact Hl|].
  fold (target_set s (in_target_engine_ids (fc_input fc))).
  rewrite decide_True by done. rewrite run_bind, exec_engine_ids_of by exact Hl.
  eexists _, h'. split; [done|]. by rewrite Hh, engine_writes_app, app_nil_r.
Qed.

(** C9.  When some target engine is idle, the input is written once to each
    idle target engine and to no other; the idle ones become busy with it,
    every target engine has the producer in its rotation, the input becomes
    the in-flight input of the producer with its token pending, the queue is
    untouched, and the answer is [SUCCESS]. *)
Theorem input_to_idle_engines pid p fc a ci s h :
  let X := target_set s (in_target_engine_ids (fc_input fc)) in
  let mp := input_of pid fc a ci in
  registry_live s -> (w_producer_infos s).[pid] = Some p ->
  (exists wid, wid ∈ X /\ idle_at s wid = true) ->
  exists ws h', exec (process_input_from_client pid fc a ci) s h =
      (inl (SUCCESS, ""),
       put_producer pid (mkProducerInfo (pi_producer_id p) (pi_input_queue p)
         (pi_size_for_queues p) (Some mp) (Some X) (Some true)) (put_workers ws s), h') /\
    dispatched pid mp (set_iter X) (w_workers s) ws /\
    engine_writes h' = engine_writes h ++ idle_writes s mp (set_iter X).
Proof.
  intros X mp Hl Hp (wid & Hwid & Hidle).
  destruct (exec_process_input pid p fc a ci s h Hl Hp) as (h1 & Hh1 & ->); [set_solver|].
  fold X mp. unfold place_input. rewrite run_bind.
  destruct (exec_dispatch_loop pid mp (set_iter X) true (put_producer pid (retarget X p) s) h1)
    as (ws & h' & -> & Hd & Hh); [apply set_iter_NoDup|by apply (target_set_live s)|].
  replace (forallb _ _) with false.
  - cbn [andb]. erewrite exec_upd_producer by apply put_producer_get.
    erewrite exec_upd_producer by apply put_producer_get.
    exists ws, h'. split_and!; [|done|by rewrite Hh, Hh1].
    f_equal. f_equal. unfold put_producer, upd_w_producer_infos. simpl. by rewrite !dict_set_set.
  - symmetry. apply not_true_iff_false. rewrite forallb_forall. intros Hall.
    specialize (Hall wid). rewrite <- list_elem_of_In, set_iter_elem in Hall.
    specialize (Hall Hwid). change (idle_at _ wid) with (idle_at s wid) in Hall.
    by rewrite Hidle in Hall.
Qed.

(** C10.  When there are target engines and all of them are busy, nothing is
    written to any engine.  The input goes to the end of the producer's
    queue and the answer is [SUCCESS], unless the queue holds exactly as many
    inputs as its capacity: then the input is dropped, the queue is
    untouched, and the answer is [SERVER_DROPPED_FRAME].  The in-flight input
    and its token are untouched in both cases. *)
Theorem input_to_busy_engines pid p fc a ci s h :
  let X := target_set s (in_target_engine_ids (fc_input fc)) in
  let mp := input_of pid fc a ci in
  registry_live s -> (w_producer_infos s).[pid] = Some p ->
  X <> ∅ -> (forall wid, wid ∈ X -> idle_at s wid = false) ->
  exists ws h' msg,
    exec (process_input_from_client pid fc a ci) s h =
      (if decide (Z.of_nat (length (pi_input_queue p)) = pi_size_for_queues p)
       then (inl (SERVER_DROPPED_FRAME, msg),
             put_producer pid (retarget X p) (put_workers ws s), h')
       else (inl (SUCCESS, ""),
             put_producer pid (mkProducerInfo (pi_producer_id p) (pi_input_queue p ++ [mp])
               (pi_size_for_queues p) (pi_latest_input_sent_to_engine p) (Some X)
               (pi_pending_token_return p)) (put_workers ws s), h')) /\
    dispatched pid mp (set_iter X) (w_workers s) ws /\
    engine_writes h' = engine_writes h.
Proof.
  intros X mp Hl Hp HX Hbusy.
  destruct (exec_process_input pid p fc a ci s h Hl Hp) as (h1 & Hh1 & ->); [done|].
  fold X mp. unfold place_input. rewrite run_bind.
  destruct (exec_dispatch_loop pid mp (set_iter X) true (put_producer pid (retarget X p) s) h1)
    as (ws & h' & -> & Hd & Hh); [apply set_iter_NoDup|by apply (target_set_live s)|].
  replace (forallb _ _) with true.
  2:{ symmetry. apply forallb_forall. intros wid Hin%list_elem_of_In%set_iter_elem.
      change (idle_at _ wid) with (idle_at s wid). by rewrite Hbusy. }
  assert (idle_writes (put_producer pid (retarget X p) s) mp (set_iter X) = []) as Hnone.
  { apply omap_none. intros wid Hin%set_iter_elem. specialize (Hbusy wid Hin).
    unfold idle_at in Hbusy. simpl. destruct (w_workers s !! wid) as [w|]; [|done].
    by rewrite Hbusy. }
  rewrite Hnone, app_nil_r in Hh. cbn [andb].
  unfold add_input_to_queue. rewrite exec_assoc. erewrite exec_get_producer by apply put_producer_get.
  cbn [retarget upd_pi_target_engines pi_input_queue pi_size_for_queues].
  destruct (Z.eqb_spec (Z.of_nat (length (pi_input_queue p))) (pi_size_for_queues p)) as [Hf|Hf].
  - eexists ws, h', _. rewrite decide_True by done. split_and!; [done|done|by rewrite Hh].
  - rewrite exec_assoc. erewrite exec_upd_producer by apply put_producer_get.
    rewrite exec_assoc. erewrite exec_get_producer by apply put_producer_get.
    rewrite exec_assoc, exec_MetricCall.
    eexists ws, _, "". rewrite decide_False by done. split_and!; [|done|].
    + cbn [run mbind prog_mbind prog_bind]. f_equal. f_equal.
      unfold put_producer, upd_w_producer_infos. simpl. by rewrite dict_set_set.
    + by rewrite engine_writes_app, app_nil_r, Hh.
Qed.
End process_input.

(** ** Concrete inputs *)

Import Concrete.

Module DemoInput.
(** A second engine, "f", is idle. *)
Definition worker_f : EngineWorker := mkEngineWorker 2 "f" false 0 None 5 [] [].
Definition world : World :=
  mkWorld [(RContext 1, 0%nat); (RContext 2, 1%nat)] {["e"; "f"]}
    (w_producer_infos Demo.world) 5 [Demo.worker; worker_f] 2 [] [] [] 0 ∅ true true false no_local.

Definition input (targets : list string) : FromClient :=
  FromClient_input (mkInput 9 "p" targets (mkInputFrame TEXT (StringPayload "x"))).

Lemma engines_live : registry_live world.
Proof. repeat constructor; eauto. Qed.
End DemoInput.

Lemma input_without_engine_witness :
  exists msg h', run (E := server_sig) Concrete.calm
      (process_input_from_client "p" (DemoInput.input ["g"]) "s" default_Any) DemoInput.world [] =
      (inl (NO_ENGINE_FOR_INPUT, msg), DemoInput.world, h') /\
    engine_writes h' = [].
Proof.
  apply (input_without_engine Concrete.calm "p" (DemoInput.input ["g"]) "s" default_Any
           DemoInput.world []); [exact DemoInput.engines_live|vm_compute; reflexivity].
Defined.

(** The input targets the busy engine "e" and the idle engine "f". *)
Lemma input_to_idle_engines_witness :
  exists s' h', run (E := server_sig) Concrete.calm
      (process_input_from_client "p" (DemoInput.input ["e"; "f"]) "s" default_Any)
      DemoInput.world [] = (inl (SUCCESS, ""), s', h') /\
    engine_writes h' =
      [(2%nat, frame_of (input_of "p" (DemoInput.input ["e"; "f"]) "s" default_Any))].
Proof.
  destruct (input_to_idle_engines Concrete.calm Demo.calm_reachable "p"
              (Demo.producer "p" [Demo.mp 7 "p"; Demo.mp 8 "p"])
              (DemoInput.input ["e"; "f"]) "s" default_Any DemoInput.world [])
    as (ws & h' & E & _ & Hh).
  - exact DemoInput.engines_live.
  - reflexivity.
  - exists 1%nat. split; [apply (bool_decide_unpack _); vm_compute; exact I|reflexivity].
  - eexists _, h'. split; [exact E|]. rewrite Hh. vm_compute. reflexivity.
Defined.

Lemma input_to_busy_engines_witness :
  exists s' h', run (E := server_sig) Concrete.calm
      (process_input_from_client "p" (DemoInput.input ["e"]) "s" default_Any)
      DemoInput.world [] = (inl (SUCCESS, ""), s', h') /\ engine_writes h' = [].
Proof.
  destruct (input_to_busy_engines Concrete.calm Demo.calm_reachable "p"
              (Demo.producer "p" [Demo.mp 7 "p"; Demo.mp 8 "p"])
              (DemoInput.input ["e"]) "s" default_Any DemoInput.world [])
    as (ws & h' & msg & E & _ & Hh).
  - exact DemoInput.engines_live.
  - reflexivity.
  - intros HX. assert (0%nat ∉ (∅ : gset nat)) as Hno by apply not_elem_of_empty.
    apply Hno. rewrite <- HX. apply (bool_decide_unpack _). vm_compute. exact I.
  - intros wid Hwid. assert (wid = 0%nat) as -> ; [|reflexivity].
    apply elem_of_list_to_set in Hwid. vm_compute in Hwid.
    by apply list_elem_of_singleton in Hwid.
  - eexists _, h'. split; [exact E|exact Hh].
Defined.
