(* ===== verification/ServerRunner.v ===== *)
(** * The server between clients and engines

    [_Server] of [server/src/gabriel_server/network_engine/server_runner.py]:
    the engine streams ([EngineSession]), the results they carry, engine
    registration and removal, and the callback that hands client inputs to
    their producer. *)

From S2P Require Import Prelude Coro Protocol ServerState ResultManager GabrielServer Dispatch.

Section server_runner.
Context `{!PyEnv, !Codec ToClient, !Transport}.

(** [_Server._calculate_engine_metrics] *)
Definition calculate_engine_metrics (wid : nat) : srv unit :=
  t ← PerfCounter_;
  w ← get_worker wid;
  MetricCall_ (ENGINE_LATENCY_observe (ew_engine_id w) (t - ew_last_payload_send_time w)).

(** The part of [_Server._handle_from_engine] that answers the client and
    gives the engine its next input: [m] is the input the engine [w] was
    processing, [p] its producer. *)
Definition answer_and_continue (wid : nat) (w : EngineWorker) (m : Metadata)
    (p : ProducerInfo) (result : Result) : srv unit :=
  is_latest ←
    (if truthy (pi_pending_token_return p) then
       latest ← of_option AttributeError (pi_latest_input_sent_to_engine p);
       Ret (bool_decide (mp_metadata latest = m))
     else Ret false);
  if is_latest : bool then
    upd_producer (md_producer_id m) (upd_pi_pending_token_return (fun _ => Some false)) ;;
    send_result (md_client_address m) (pi_producer_id p) (ew_engine_id w) result true ;;
    send_next_input wid
  else
    (if ew_all_responses_required w then
       send_result (md_client_address m) (pi_producer_id p) (ew_engine_id w) result false ;;
       Ret tt
     else Ret tt) ;;
    send_next_input wid.

(** [_Server._handle_from_engine], for the message of a registered engine
    that is not a register message *)
Definition handle_result (wid : nat) (from_engine : FromEngine) : srv unit :=
  calculate_engine_metrics wid ;;
  w ← get_worker wid;
  MetricCall_ (ENGINE_INPUTS_PROCESSED_TOTAL_inc (ew_engine_id w)) ;;
  let metadata := ew_current_input_metadata w in
  let result := match metadata with
                | Some m => set_frame_id (md_frame_id m) (fe_result from_engine)
                | None => fe_result from_engine
                end in
  process_result result ;;
  match metadata with
  | None => Ret tt                               (* no input metadata for the result *)
  | Some m =>
      producer ← gets (fun s => (w_producer_infos s).[md_producer_id m]);
      match producer with
      | None => Ret tt                           (* producer info not found *)
      | Some p => answer_and_continue wid w m p result
      end
  end.

(** [_Server._handle_from_engine] *)
Definition handle_from_engine (ctx : nat) (from_engine : FromEngine) : srv unit :=
  worker ← gets (fun s => (w_engine_workers s).[RContext ctx]);
  match worker with
  | None => Ret tt                               (* message from unregistered engine *)
  | Some wid =>
      match from_engine with
      | FromEngine_register _ => Ret tt          (* duplicate register message *)
      | _ => handle_result wid from_engine
      end
  end.

(** The result sent for an input whose engine disconnected. *)
Definition disconnected_result (engine_id : string) (m : Metadata) : Result :=
  mkResult (mkStatus ENGINE_ERROR ("Engine " +:+ engine_id +:+ " disconnected")%string)
    NoResult engine_id (md_frame_id m).

(** The part of [_Server._remove_engine_worker] that settles the input the
    engine was processing. *)
Definition settle_current_input (w : EngineWorker) : srv unit :=
  match ew_current_input_metadata w with
  | None => Ret tt
  | Some m =>
      producer ← gets (fun s => (w_producer_infos s).[md_producer_id m]);
      match producer with
      | None => Ret tt                           (* source info not found *)
      | Some p =>
          match pi_latest_input_sent_to_engine p with
          | None => Ret tt
          | Some latest =>
              if bool_decide (m = mp_metadata latest)
                 && (truthy (pi_pending_token_return p) || ew_all_responses_required w)
              then
                let return_token := truthy (pi_pending_token_return p) in
                upd_producer (md_producer_id m)
                  (upd_pi_pending_token_return (fun _ => Some false)) ;;
                send_result (md_client_address m) (pi_producer_id p) (ew_engine_id w)
                  (disconnected_result (ew_engine_id w) m) return_token ;;
                Ret tt
              else Ret tt
          end
      end
  end.

(** [_Server._remove_engine_worker] *)
Definition remove_engine_worker (context : objref) : srv unit :=
  wid ← (gets (fun s => (w_engine_workers s).[context]) ≫= of_option KeyError);
  w ← get_worker wid;
  let engine_id := ew_engine_id w in
  MetricRemove_ (ENGINE_INPUTS_RECEIVED_TOTAL_remove engine_id) ;;
  MetricRemove_ (ENGINE_INPUTS_PROCESSED_TOTAL_remove engine_id) ;;
  settle_current_input w ;;
  ids ← gets w_engine_ids;
  (if decide (engine_id ∈ ids)
   then modify (upd_w_engine_ids (fun X => X ∖ {[engine_id]}))
   else Throw KeyError) ;;
  d ← gets w_engine_workers;
  (match d.[context] with
   | Some _ => modify (upd_w_engine_workers (dict_del context))
   | None => Throw KeyError
   end) ;;
  engines_updated_cb.

(** The first context whose worker runs the engine [engine_id]. *)
Fixpoint find_context (engine_id : string) (items : list (objref * nat)) : srv (option objref) :=
  match items with
  | [] => Ret None
  | (ctx, wid) :: items' =>
      w ← get_worker wid;
      if decide (ew_engine_id w = engine_id) then Ret (Some ctx)
      else find_context engine_id items'
  end.

(** [_EngineWorker(...)]: a new worker object. *)
Definition new_engine_worker (ctx : nat) (register : Register) : srv nat :=
  wid ← gets (fun s => length (w_workers s));
  size ← gets w_size_for_queues;
  modify (upd_w_workers (fun l => l ++
    [mkEngineWorker ctx (reg_engine_id register) (reg_all_responses_required register)
       0 None size [] []])) ;;
  Ret wid.

(** [_Server._add_engine_worker] *)
Definition add_engine_worker (ctx : nat) (register : Register) : srv unit :=
  let engine_id := reg_engine_id register in
  ids ← gets w_engine_ids;
  (if decide (engine_id ∈ ids) then
     items ← gets w_engine_workers;
     existing ← find_context engine_id items;
     match existing with
     | Some c => remove_engine_worker c
     | None => Ret tt
     end
   else Ret tt) ;;
  wid ← new_engine_worker ctx register;
  modify (upd_w_engine_workers (fun d => d.[RContext ctx <- wid])) ;;
  modify (upd_w_engine_ids (fun X => {[engine_id]} ∪ X)) ;;
  engines_updated_cb.

(** [_Server.EngineSession]; [msgs] are the messages the engine sends on the
    stream before it closes. *)
Definition EngineSession (ctx : nat) (msgs : list FromEngine) : srv unit :=
  more ← anext (StreamNext_ ctx (engine_message <$> head msgs));
  if more : bool then
    match msgs with
    | FromEngine_register register :: rest =>
        add_engine_worker ctx register ;;
        try_finally
          (async_for (fun m => StreamNext_ ctx (engine_message <$> m)) rest (handle_from_engine ctx))
          (d ← gets w_engine_workers;
           match d.[RContext ctx] with
           | Some _ => remove_engine_worker (RContext ctx)
           | None => Ret tt
           end)
    | _ => Ret tt                                (* no register message, or no message *)
    end
  else Ret tt.

(** [_Server._send_to_engine] *)
Definition send_to_engine (from_client : FromClient) (client_address : string)
    (client_info : Any) : srv (StatusCode * string) :=
  let pid := in_producer_id (fc_input from_client) in
  d ← gets w_producer_infos;
  match d.[pid] with
  | Some _ => Ret tt
  | None =>
      size ← gets w_size_for_queues;
      p ← of_option (ValueError "maxlen must be non-negative") (new_producer_info pid size);
      modify (upd_w_producer_infos (fun d => d.[pid <- p]))
  end ;;
  get_producer pid ;;
  process_input_from_client pid from_client client_address client_info.
End server_runner.
