(* ===== verification/ResultSpec.v ===== *)
(** * Results, disconnections and the registry of engines

    What a result or the disconnection of an engine does to the token of the
    input, and what registration and removal do to the registry of engines,
    when they run without interleaving. *)

From S2P Require Import Prelude Coro Protocol ServerState Trace Instances ResultManager.
From S2P Require Import GabrielServer Dispatch DispatchSpec ServerRunner.

Section results.
Context `{!PyEnv, !Codec ToClient, !Transport, !TransportOk}.
Context (env : history server_sig -> forall e : sev, sresp e).
Abbreviation exec := (run (E := server_sig) env).

(** ** Specification *)

(** What the answer to the client about an input is: whether one is sent,
    and whether it returns the token. *)
Inductive answer_kind : Type :=
| NoAnswer
| Answer (return_token : bool).

(** For the result of an engine [w] about the input [m] of the producer [p]:
    the first engine to finish the in-flight input returns its token; other
    results are sent only if the engine requires all its responses to be
    sent. *)
Definition result_answer (w : EngineWorker) (m : Metadata) (p : ProducerInfo) : answer_kind :=
  if truthy (pi_pending_token_return p)
     && bool_decide (mp_metadata <$> pi_latest_input_sent_to_engine p = Some m)
  then Answer true
  else if ew_all_responses_required w then Answer false else NoAnswer.

(** For an engine that disconnects while it processes [m]. *)
Definition disconnect_answer (w : EngineWorker) (m : Metadata) (p : ProducerInfo) : answer_kind :=
  if bool_decide (mp_metadata <$> pi_latest_input_sent_to_engine p = Some m)
     && (truthy (pi_pending_token_return p) || ew_all_responses_required w)
  then Answer (truthy (pi_pending_token_return p))
  else NoAnswer.

(** Return a token to the client [a], if it has tokens for the producer. *)
Definition credit_token (a pid : string) (s : World) : World :=
  match (w_clients s).[a] with
  | None => s
  | Some cid =>
      match w_client_store s !! cid with
      | None => s
      | Some c =>
          match (cl_tokens_for_producer c).[pid] with
          | None => s
          | Some n => put_client cid
              (upd_cl_tokens_for_producer (fun d => d.[pid <- n + 1]) c) s
          end
      end
  end.

Definition clients_live (s : World) : Prop :=
  forall a cid, (w_clients s).[a] = Some cid -> is_Some (w_client_store s !! cid).

(** The message to the client. *)
Definition wrapped (pid : string) (r : Result) (return_token : bool) : bytes :=
  serialize (ToClient_result_wrapper (mkResultWrapper pid return_token r)).

Lemma exec_send_via {B} a b (k : bool -> srv B) s h :
  exists o h', exec (send_via_transport a b) s h = (o, s, h') /\
    exec (send_via_transport a b ≫= k) s h =
    match o with inl x => exec (k x) s h' | inr x => (inr x, s, h') end.
Proof.
  rewrite run_bind. destruct (run env (send_via_transport a b) s h) as [[o s'] h'] eqn:E.
  assert (s' = s) as ->; [by eapply run_readonly; [apply send_via_transport_readonly|exact E]|].
  by exists o, h'.
Qed.

(** [send_result]: nothing for an unknown client, or else the message, after
    the token was credited. *)
Lemma exec_send_result a pid eid r rt s h :
  clients_live s ->
  exec (send_result a pid eid r rt) s h =
  match (w_clients s).[a] with
  | None => (inl false, s, h)
  | Some _ => exec (send_via_transport a (wrapped pid r rt))
                (if rt then credit_token a pid s else s) h
  end.
Proof.
  intros Hl. unfold send_result, credit_token, wrapped. rewrite exec_gets.
  destruct (_.[a]) as [cid|] eqn:Ha; [|done]. destruct (Hl a cid Ha) as [c Hc].
  erewrite exec_get_client by done. rewrite Hc.
  destruct ((cl_tokens_for_producer c).[pid]) as [n|]; [|by destruct rt].
  destruct rt; [|done]. unfold set_tokens. by erewrite exec_upd_client.
Qed.

(** The state in which the answer is sent. *)
Definition answered (k : answer_kind) (m : Metadata) (p : ProducerInfo) (s : World) : World :=
  match k with
  | Answer true =>
      credit_token (md_client_address m) (pi_producer_id p)
        (put_producer (md_producer_id m) (upd_pi_pending_token_return (fun _ => Some false) p) s)
  | _ => s
  end.

(** The answer itself. *)
Definition send_answer (k : answer_kind) (m : Metadata) (p : ProducerInfo) (r : Result)
    (s : World) (h : history server_sig) : (bool + exn) * World * history server_sig :=
  match k with
  | NoAnswer => (inl false, s, h)
  | Answer rt =>
      match (w_clients s).[md_client_address m] with
      | None => (inl false, s, h)
      | Some _ => exec (send_via_transport (md_client_address m) (wrapped (pi_producer_id p) r rt)) s h
      end
  end.

Lemma credit_token_clients a pid s : w_clients (credit_token a pid s) = w_clients s.
Proof.
  unfold credit_token. destruct (_.[a]) as [cid|]; [|done].
  destruct (_ !! cid) as [c|]; [|done]. by destruct (_.[pid]).
Qed.

(** ** Result sinks *)

(** The calls of [process_result], in the order of the sinks. *)
Definition sink_requests (r : Result) (s : World) : list sev :=
  if decide (code (status r) = SUCCESS)
  then map (fun k => SinkProcess k r) (set_iter (w_sinks s)) else [].

Lemma exec_for_sinks (body : nat -> srv unit) r todo s h :
  (forall k h, exists x, exec (body k) s h = (inl tt, s, h ++ [existT (SinkProcess k r) x])) ->
  exists cs, exec (for_sinks (size (w_sinks s)) todo body) s h = (inl tt, s, h ++ cs) /\
    map projT1 cs = map (fun k => SinkProcess k r) todo.
Proof.
  intros Hb. revert h. induction todo as [|k todo IH]; intros h; cbn [for_sinks map];
    rewrite exec_gets, decide_True by done.
  - exists []. by rewrite app_nil_r.
  - destruct (Hb k h) as (x & E1). rewrite run_bind, E1.
    edestruct IH as (cs & -> & Hcs).
    exists (existT (SinkProcess k r) x :: cs). rewrite <- (assoc_L (++)). split; [done|].
    cbn [map projT1]. f_equal. exact Hcs.
Qed.

Lemma exec_process_result r s h :
  sinks_raise_Exceptions env ->
  exists cs, exec (process_result r) s h = (inl tt, s, h ++ cs) /\ map projT1 cs = sink_requests r s.
Proof.
  intros Henv. unfold process_result, sink_requests. case_decide; [|by exists []; rewrite app_nil_r].
  rewrite exec_gets. apply exec_for_sinks. intros k h1.
  rewrite run_try_except, (exec_call env (SinkProcess k r)). specialize (Henv h1 k r).
  destruct (env h1 (SinkProcess k r)) as [[]|x]; cbn [raise run]; [|rewrite Henv]; by eexists.
Qed.

Lemma sink_calls_requests cs r s :
  map projT1 cs = sink_requests r s ->
  sink_calls cs = (if decide (code (status r) = SUCCESS)
                   then map (fun k => (k, r)) (set_iter (w_sinks s)) else []).
Proof.
  unfold sink_requests. case_decide; [|by destruct cs].
  generalize (set_iter (w_sinks s)). intros l. revert cs.
  induction l as [|k l IH]; intros [|[e x] cs]; try done. simpl. intros [= -> Hcs].
  cbn. f_equal. by apply IH.
Qed.

(** C37. Every registered sink is handed each [SUCCESS] result exactly once,
    also when other sinks raise an exception, and no sink is handed a result
    with another status; the state of the server is unchanged and the
    exception of a sink (an [Exception], as [except Exception] catches it) does
    not reach the caller. *)
Theorem sinks_get_every_success r s h :
  sinks_raise_Exceptions env ->
  exists h', exec (process_result r) s h = (inl tt, s, h') /\
    sink_calls h' = sink_calls h ++
      (if decide (code (status r) = SUCCESS)
       then map (fun k => (k, r)) (set_iter (w_sinks s)) else []).
Proof.
  intros Henv. destruct (exec_process_result r s h Henv) as (cs & -> & Hcs).
  eexists. split; [done|]. by rewrite sink_calls_app, (sink_calls_requests cs r s).
Qed.

(** ** Results *)

Lemma exec_answer {B} a pid eid r (rt : bool) (k : bool -> srv B) s h :
  clients_live s ->
  let s1 := if rt then credit_token a pid s else s in
  exec (send_result a pid eid r rt ≫= k) s h =
  match
    match (w_clients s).[a] with
    | None => (inl false, s1, h)
    | Some _ => exec (send_via_transport a (wrapped pid r rt)) s1 h
    end
  with
  | (inl b, s2, h1) => exec (k b) s2 h1
  | (inr x, s2, h1) => (inr x, s2, h1)
  end.
Proof.
  intros Hl s1. rewrite run_bind, exec_send_result by done. subst s1.
  destruct (_.[a]) eqn:Ha; [done|]. destruct rt; [|done].
  unfold credit_token. by rewrite Ha.
Qed.

Lemma exec_answer_and_continue wid w m p r s h :
  clients_live s -> (w_producer_infos s).[md_producer_id m] = Some p ->
  (truthy (pi_pending_token_return p) = true -> is_Some (pi_latest_input_sent_to_engine p)) ->
  let k := result_answer w m p in
  let s1 := answered k m p s in
  exec (answer_and_continue wid w m p r) s h =
  match send_answer k m p r s1 h with
  | (inl _, s2, h1) => exec (send_next_input wid) s2 h1
  | (inr x, s2, h1) => (inr x, s2, h1)
  end.
Proof.
  intros Hl Hp Hpend. unfold answer_and_continue, result_answer. cbn zeta.
  assert (forall k, k = (if ew_all_responses_required w then Answer false else NoAnswer) ->
    exec ((if ew_all_responses_required w then
             send_result (md_client_address m) (pi_producer_id p) (ew_engine_id w) r false ;; Ret tt
           else Ret tt) ;; send_next_input wid) s h =
    match send_answer k m p r (answered k m p s) h with
    | (inl _, s2, h1) => exec (send_next_input wid) s2 h1
    | (inr x, s2, h1) => (inr x, s2, h1)
    end) as Hno.
  { intros k ->. destruct (ew_all_responses_required w); [|done].
    rewrite exec_assoc, exec_answer by done. done. }
  destruct (truthy (pi_pending_token_return p)); [|by rewrite exec_ret; apply Hno].
  destruct (Hpend eq_refl) as [mp Hmp]. rewrite Hmp. cbn [of_option fmap option_fmap option_map].
  rewrite exec_assoc, exec_ret, exec_ret. cbn [andb].
  case_bool_decide as E; [|rewrite bool_decide_eq_false_2 by congruence; by apply Hno].
  rewrite bool_decide_eq_true_2 by congruence.
  erewrite exec_upd_producer by done. rewrite exec_answer by exact Hl. cbn [answered send_answer].
  rewrite credit_token_clients. done.
Qed.

(** C11.  When a registered engine sends a result for the input it was
    processing, exactly this happens, in this order: its latency and its count of
    processed inputs are recorded, and a [SUCCESS] result is handed to every sink
    once; then, if the engine is the first to finish the in-flight input, the
    pending flag is cleared, the client's tokens for the producer go up by one and
    the result is sent once, with the token; any other result leaves tokens and
    flag alone, and is sent, once and without the token, only by an engine that
    requires all responses; last, the engine gets its next input, unless sending
    failed.  What a sink raises is an [Exception]. *)
Theorem result_returns_token_once ctx wid w m p from_engine s h :
  sinks_raise_Exceptions env -> clients_live s ->
  (w_engine_workers s).[RContext ctx] = Some wid -> w_workers s !! wid = Some w ->
  ew_current_input_metadata w = Some m ->
  (w_producer_infos s).[md_producer_id m] = Some p ->
  (truthy (pi_pending_token_return p) = true -> is_Some (pi_latest_input_sent_to_engine p)) ->
  (forall reg, from_engine <> FromEngine_register reg) ->
  let k := result_answer w m p in
  let s1 := answered k m p s in
  let r := set_frame_id (md_frame_id m) (fe_result from_engine) in
  exists t calls, map projT1 calls = sink_requests r s /\
  exec (handle_from_engine ctx from_engine) s h =
  match send_answer k m p r s1
          (h ++ [existT PerfCounter t;
                 existT (MetricCall (ENGINE_LATENCY_observe (ew_engine_id w)
                                       (t - ew_last_payload_send_time w))) tt;
                 existT (MetricCall (ENGINE_INPUTS_PROCESSED_TOTAL_inc (ew_engine_id w))) tt]
             ++ calls) with
  | (inl _, s2, h1) => exec (send_next_input wid) s2 h1
  | (inr x, s2, h1) => (inr x, s2, h1)
  end.
Proof.
  intros Hs Hl Hctx Hw Hm Hp Hpend Hreg k s1 r. unfold handle_from_engine.
  rewrite exec_gets, Hctx.
  assert (exec (handle_result wid from_engine) s h =
          exec match from_engine with FromEngine_register _ => Ret tt
                | _ => handle_result wid from_engine end s h) as <-
    by (destruct from_engine as [|reg|res]; [done|by destruct (Hreg reg)|done]).
  unfold handle_result, calculate_engine_metrics. rewrite exec_assoc. unfold PerfCounter_.
  rewrite (exec_call env PerfCounter), exec_assoc. erewrite exec_get_worker by done.
  rewrite exec_MetricCall. erewrite exec_get_worker by done. rewrite exec_MetricCall.
  cbn zeta. rewrite Hm, run_bind. fold r. rewrite <- !(assoc_L (++)).
  edestruct exec_process_result as (calls & -> & Hc); [done|].
  eexists _, calls. split; [exact Hc|]. rewrite exec_gets, Hp.
  rewrite exec_answer_and_continue by done. by rewrite <- !(assoc_L (++)).
Qed.

(** C12.  When an engine disconnects while processing an input: if that is
    the in-flight input and its token is pending, the flag is cleared and
    the client is sent an [ENGINE_ERROR] result that returns the token; so a
    second engine that disconnects while processing it returns no token.  An
    engine that requires all responses also answers when the token is
    already returned, without the token; otherwise nothing changes. *)
Theorem disconnection_returns_token_once w m p s h :
  clients_live s -> ew_current_input_metadata w = Some m ->
  (w_producer_infos s).[md_producer_id m] = Some p ->
  let k := disconnect_answer w m p in
  let s1 := match k with
            | NoAnswer => s
            | Answer rt =>
                let s' := put_producer (md_producer_id m)
                            (upd_pi_pending_token_return (fun _ => Some false) p) s in
                if rt then credit_token (md_client_address m) (pi_producer_id p) s' else s'
            end in
  exec (settle_current_input w) s h =
  match send_answer k m p (disconnected_result (ew_engine_id w) m) s1 h with
  | (inl _, s2, h1) => (inl tt, s2, h1)
  | (inr x, s2, h1) => (inr x, s2, h1)
  end.
Proof.
  intros Hl Hm Hp. unfold settle_current_input, disconnect_answer. cbn zeta.
  rewrite Hm, exec_gets, Hp.
  destruct (pi_latest_input_sent_to_engine p) as [mp|]; [|done].
  cbn [fmap option_fmap option_map].
  case_bool_decide as E1; [|by rewrite bool_decide_eq_false_2 by congruence].
  rewrite bool_decide_eq_true_2 by congruence. cbn [andb].
  destruct (truthy _ || _); [|done].
  erewrite exec_upd_producer by done. rewrite exec_answer by exact Hl. cbn [send_answer].
  destruct (truthy (pi_pending_token_return p)); rewrite ?credit_token_clients; done.
Qed.
End results.
