(* ===== verification/RegistrySpec.v ===== *)
(** * The registry of engines

    [_Server._engine_workers] and [_engine_ids] when [_add_engine_worker] and
    [_remove_engine_worker] run without interleaving: the set of engine ids is
    the set of ids of the registered workers, no two of which share an id. *)

From S2P Require Import Prelude Coro Protocol ServerState Trace Instances GabrielServer.
From S2P Require Import Dispatch ServerRunner.

(** The engine id of a worker object. *)
Definition id_at (s : World) (wid : nat) : option string := (ew_engine_id <$> w_workers s) !! wid.

Record RegInv (s : World) : Prop := {
  ri_keys : NoDup (dict_keys (w_engine_workers s));
  ri_live : forall k wid, (w_engine_workers s).[k] = Some wid -> is_Some (id_at s wid);
  ri_unique : forall k1 k2 w1 w2 eid,
    (w_engine_workers s).[k1] = Some w1 -> (w_engine_workers s).[k2] = Some w2 ->
    id_at s w1 = Some eid -> id_at s w2 = Some eid -> k1 = k2;
  ri_ids : forall eid, eid ∈ w_engine_ids s <->
    exists k wid, (w_engine_workers s).[k] = Some wid /\ id_at s wid = Some eid;
}.

Definition reg_view (s : World) := (w_engine_workers s, w_engine_ids s, ew_engine_id <$> w_workers s).

Lemma RegInv_view s s' : reg_view s' = reg_view s -> RegInv s -> RegInv s'.
Proof.
  intros [= E1 E2 E3] [H0 H1 H2 H3]. split; unfold id_at; rewrite ?E1, ?E2, ?E3; auto.
Qed.

Lemma id_at_lookup s wid w : w_workers s !! wid = Some w -> id_at s wid = Some (ew_engine_id w).
Proof. intros Hw. unfold id_at. by rewrite list_lookup_fmap, Hw. Qed.

Lemma id_at_worker s wid eid :
  id_at s wid = Some eid -> exists w, w_workers s !! wid = Some w /\ ew_engine_id w = eid.
Proof.
  unfold id_at. rewrite list_lookup_fmap. destruct (_ !! wid) as [w|]; [|done].
  intros [= <-]. eauto.
Qed.

(** Unregister the engine at [k]. *)
Definition unregister (k : objref) (eid : string) (s : World) : World :=
  upd_w_engine_workers (dict_del k) (upd_w_engine_ids (fun X => X ∖ {[eid]}) s).

Lemma RegInv_unregister k wid eid s :
  RegInv s -> (w_engine_workers s).[k] = Some wid -> id_at s wid = Some eid ->
  RegInv (unregister k eid s).
Proof.
  intros [Hn Hl Hu Hi] Hk Hid. split; simpl.
  - by apply dict_del_NoDup.
  - intros k' wid' Hk'%dict_get_del_Some. by apply (Hl k').
  - intros k1 k2 w1 w2 eid' H1%dict_get_del_Some H2%dict_get_del_Some. by apply Hu.
  - intros eid'. rewrite elem_of_difference, not_elem_of_singleton, Hi. split.
    + intros [(k' & wid' & Hk' & Hid') Hne]. exists k', wid'. split; [|done].
      rewrite dict_get_del_ne; [done|]. intros <-. congruence.
    + intros (k' & wid' & Hk' & Hid'). rewrite dict_get_del in Hk'. case_decide as Hne; [done|].
      split; [by eauto|]. intros ->. apply Hne. by eapply Hu.
Qed.

Section registry.
Context `{!PyEnv, !Codec ToClient, !Transport, !TransportOk}.
Context (env : history server_sig -> forall e : sev, sresp e).
Abbreviation exec := (run (E := server_sig) env).

Lemma engines_updated_cb_readonly : readonly engines_updated_cb.
Proof.
  intros s s1. simpl. generalize (length (w_clients s1)) (dict_keys (w_clients s1)).
  generalize (serialize (ToClient_engine_ids_update (set_iter (w_engine_ids s)))).
  intros msg n todo. induction todo as [|a todo IH]; intros s2; cbn -[mbind];
    case_decide; try done.
  apply readonly_bind; [apply send_via_transport_readonly|]. by intros.
Qed.

Lemma send_result_pres a pid eid r rt s : preserves reg_view (send_result a pid eid r rt) s.
Proof.
  unfold send_result, set_tokens, upd_client, get_client.
  repeat first [apply readonly_preserves, send_via_transport_readonly | progress pres].
Qed.

Lemma settle_current_input_pres w s : preserves reg_view (settle_current_input w) s.
Proof.
  unfold settle_current_input, upd_producer.
  repeat first [apply send_result_pres | progress pres].
Qed.

Lemma exec_find_context eid items s h :
  Forall (fun kw => is_Some (id_at s kw.2)) items ->
  exists r, exec (find_context eid items) s h = (inl r, s, h) /\
    match r with
    | Some k => exists wid, (k, wid) ∈ items /\ id_at s wid = Some eid
    | None => forall k wid, (k, wid) ∈ items -> id_at s wid <> Some eid
    end.
Proof.
  induction 1 as [|[k wid] items [i Hi] _ IH]; [exists None; split; [done|]; by intros ? ? ?%not_elem_of_nil|].
  cbn [find_context]. destruct (id_at_worker _ _ _ Hi) as (w & Hw & <-).
  erewrite exec_get_worker by done. case_decide as E.
  - exists (Some k). split; [done|]. exists wid. split; [left|]. simpl in Hi. by rewrite Hi, E.
  - destruct IH as (r & -> & Hr). exists r. split; [done|]. destruct r as [k'|].
    + destruct Hr as (wid' & Hin & Hid). exists wid'. split; [by right|done].
    + intros k' wid' [[= -> ->]|Hin]%elem_of_cons; [|by eapply Hr].
      simpl in Hi. rewrite Hi. congruence.
Qed.

Lemma exec_remove k wid eid s h o s' h' :
  RegInv s -> (w_engine_workers s).[k] = Some wid -> id_at s wid = Some eid ->
  exec (remove_engine_worker k) s h = (o, s', h') ->
  reg_view s' = reg_view (unregister k eid s) \/
  ((exists x, o = inr x) /\ reg_view s' = reg_view s).
Proof.
  intros HI Hk Hid. destruct (id_at_worker _ _ _ Hid) as (w & Hw & He).
  unfold remove_engine_worker. rewrite exec_assoc, exec_gets, Hk. cbn [of_option].
  rewrite exec_ret. erewrite exec_get_worker by done. cbn zeta. rewrite He.
  unfold MetricRemove_.
  rewrite exec_assoc, (exec_call env (MetricRemove (ENGINE_INPUTS_RECEIVED_TOTAL_remove eid))).
  destruct (env _ (MetricRemove (ENGINE_INPUTS_RECEIVED_TOTAL_remove eid))) as [[]|x];
    cbn [raise]; [|rewrite exec_throw; intros [= <- <- <-]; eauto].
  rewrite exec_ret, exec_assoc,
    (exec_call env (MetricRemove (ENGINE_INPUTS_PROCESSED_TOTAL_remove eid))).
  destruct (env _ (MetricRemove (ENGINE_INPUTS_PROCESSED_TOTAL_remove eid))) as [[]|x];
    cbn [raise]; [|rewrite exec_throw; intros [= <- <- <-]; eauto].
  rewrite exec_ret, run_bind.
  destruct (run env (settle_current_input w) s _) as [[[[]|x] s1] h1] eqn:E1;
    apply (run_preserves reg_view) in E1; try apply settle_current_input_pres;
    [|intros [= <- <- <-]; eauto].
  pose proof E1 as [= V1 V2 V3]. rewrite exec_gets, V2.
  rewrite decide_True by (apply (ri_ids _ HI); eauto).
  rewrite exec_modify, exec_gets. cbn [upd_w_engine_ids w_engine_workers]. rewrite V1, Hk.
  rewrite exec_modify. intros Hcb. apply run_readonly in Hcb as ->;
    [|apply engines_updated_cb_readonly].
  left. unfold unregister, reg_view. simpl. by rewrite V1, V2, V3.
Qed.

Lemma exec_remove_inv k wid s h o s' h' :
  RegInv s -> (w_engine_workers s).[k] = Some wid ->
  exec (remove_engine_worker k) s h = (o, s', h') -> RegInv s'.
Proof.
  intros HI Hk Hr. destruct (ri_live _ HI _ _ Hk) as [eid Hid].
  destruct (exec_remove _ _ _ _ _ _ _ _ HI Hk Hid Hr) as [E|[_ E]];
    (eapply RegInv_view; [exact E|]); [by eapply RegInv_unregister|done].
Qed.

(** The state in which a new worker has just been registered. *)
Definition registered (ctx : nat) (reg : Register) (s : World) : World :=
  upd_w_engine_ids (fun X => {[reg_engine_id reg]} ∪ X)
    (upd_w_engine_workers (fun d => d.[RContext ctx <- length (w_workers s)])
       (upd_w_workers (fun l => l ++
          [mkEngineWorker ctx (reg_engine_id reg) (reg_all_responses_required reg) 0 None
             (w_size_for_queues s) [] []]) s)).

Lemma id_at_registered_old ctx reg s wid eid :
  id_at s wid = Some eid -> id_at (registered ctx reg s) wid = Some eid.
Proof. unfold id_at. simpl. rewrite fmap_app. apply lookup_app_l_Some. Qed.

Lemma id_at_registered_new ctx reg s :
  id_at (registered ctx reg s) (length (w_workers s)) = Some (reg_engine_id reg).
Proof.
  unfold id_at. simpl. rewrite fmap_app. simpl.
  by rewrite <- (length_fmap ew_engine_id), list_lookup_middle.
Qed.

Lemma RegInv_registered ctx reg s :
  RegInv s -> (w_engine_workers s).[RContext ctx] = None ->
  reg_engine_id reg ∉ w_engine_ids s -> RegInv (registered ctx reg s).
Proof.
  intros [Hn Hl Hu Hi] Hctx Hfresh.
  assert (forall k wid, (w_engine_workers (registered ctx reg s)).[k] = Some wid ->
    (k = RContext ctx /\ id_at (registered ctx reg s) wid = Some (reg_engine_id reg)) \/
    ((w_engine_workers s).[k] = Some wid /\ exists eid, id_at s wid = Some eid /\
       id_at (registered ctx reg s) wid = Some eid /\ eid <> reg_engine_id reg)) as Hcase.
  { intros k wid. simpl. rewrite dict_get_set. case_decide as E.
    - intros [= <-]. left. split; [done|apply id_at_registered_new].
    - intros Hk. right. split; [done|]. destruct (Hl k wid Hk) as [eid Hid]. exists eid.
      split_and!; [done|by apply id_at_registered_old|]. intros ->. apply Hfresh, Hi. eauto. }
  split.
  - by apply dict_set_NoDup.
  - intros k wid [[_ ->]|(_ & eid & _ & -> & _)]%Hcase; eauto.
  - intros k1 k2 w1 w2 eid C1%Hcase C2%Hcase I1 I2.
    destruct C1 as [[-> J1]|(E1 & e1 & K1 & J1 & N1)], C2 as [[-> J2]|(E2 & e2 & K2 & J2 & N2)];
      simplify_eq; try congruence.
    by eapply Hu; [exact E1|exact E2| |]; [done|congruence].
  - intros eid. simpl. rewrite elem_of_union, elem_of_singleton, Hi. split.
    + intros [->|(k & wid & Hk & Hid)].
      * exists (RContext ctx), (length (w_workers s)).
        split; [apply dict_get_set_eq|apply id_at_registered_new].
      * exists k, wid. split; [|by apply id_at_registered_old].
        rewrite dict_get_set_ne; [done|]. intros <-. congruence.
    + intros (k & wid & Hk%Hcase & Hid). destruct Hk as [[-> E]|(E & e & K & J & N)].
      * left. congruence.
      * right. exists k, wid. split; congruence.
Qed.

(** Registration proper, when the engine id is free. *)
Lemma exec_register ctx reg s h o s' h' :
  RegInv s -> (w_engine_workers s).[RContext ctx] = None ->
  reg_engine_id reg ∉ w_engine_ids s ->
  exec (wid ← new_engine_worker ctx reg;
        modify (upd_w_engine_workers (fun d => d.[RContext ctx <- wid])) ;;
        modify (upd_w_engine_ids (fun X => {[reg_engine_id reg]} ∪ X)) ;;
        engines_updated_cb) s h = (o, s', h') ->
  s' = registered ctx reg s /\ RegInv s'.
Proof.
  intros HI Hctx Hfresh Hr.
  assert (exec engines_updated_cb (registered ctx reg s) h = (o, s', h')) as Hcb by exact Hr.
  apply run_readonly in Hcb as ->; [|apply engines_updated_cb_readonly].
  split; [done|]. by apply RegInv_registered.
Qed.

(** The worker that holds the engine id, if any, is removed first. *)
Lemma exec_make_room eid s h o s' h' :
  RegInv s ->
  exec (ids ← gets w_engine_ids;
        if decide (eid ∈ ids) then
          items ← gets w_engine_workers;
          existing ← find_context eid items;
          match existing with Some c => remove_engine_worker c | None => Ret tt end
        else Ret tt) s h = (o, s', h') ->
  RegInv s' /\
  (forall k, (w_engine_workers s).[k] = None -> (w_engine_workers s').[k] = None) /\
  (o = inl tt -> eid ∉ w_engine_ids s' /\
     forall k wid i, (w_engine_workers s).[k] = Some wid -> id_at s wid = Some i -> i <> eid ->
       (w_engine_workers s').[k] = Some wid /\ id_at s' wid = Some i).
Proof.
  intros HI. rewrite exec_gets. case_decide as Hin; [|intros [= <- <- <-]; by eauto].
  rewrite exec_gets, run_bind.
  destruct (exec_find_context eid (w_engine_workers s) s h) as ([k|] & -> & Hr).
  { apply Forall_forall. intros [k wid] Hk. eapply (ri_live _ HI k).
    by apply dict_elem_get; [apply (ri_keys _ HI)|]. }
  - destruct Hr as (wid & Hk & Hid). apply dict_elem_get in Hk; [|apply (ri_keys _ HI)].
    intros Hrm. split; [by eapply exec_remove_inv|].
    destruct (exec_remove _ _ _ _ _ _ _ _ HI Hk Hid Hrm) as [[= E1 E2 E3]|[[x ->] [= E1 E2 E3]]].
    + rewrite E1, E2. split; [intros k' Hk'; rewrite dict_get_del; by case_decide|].
      intros _. split; [set_solver|]. intros k' wid' i Hk' Hid' Hne.
      unfold id_at in *. rewrite E3. split; [|done].
      rewrite dict_get_del_ne; [done|]. intros <-. congruence.
    + rewrite E1. by split.
  - apply (ri_ids _ HI) in Hin as (k & wid & Hk & Hid).
    by destruct (Hr k wid (dict_get_Some_elem _ _ _ Hk)).
Qed.

(** C13.  Registering an engine on a new stream keeps the registry
    consistent (the ids are those of the registered workers, and no two
    workers share one), whether or not an external call fails on the way.
    When it succeeds, the engine id leads to the new stream only, an engine
    that was registered under the id is gone, and every other engine is
    still registered on its stream. *)
Theorem registration_replaces_engine ctx reg s h o s' h' :
  RegInv s -> (w_engine_workers s).[RContext ctx] = None ->
  exec (add_engine_worker ctx reg) s h = (o, s', h') ->
  RegInv s' /\
  (o = inl tt ->
   (exists wid, (w_engine_workers s').[RContext ctx] = Some wid /\
      id_at s' wid = Some (reg_engine_id reg)) /\
   (forall k wid i, (w_engine_workers s).[k] = Some wid -> id_at s wid = Some i ->
      i <> reg_engine_id reg ->
      (w_engine_workers s').[k] = Some wid /\ id_at s' wid = Some i)).
Proof.
  intros HI Hctx. unfold add_engine_worker. cbn zeta. rewrite <- exec_assoc, run_bind.
  destruct (run env (gets w_engine_ids ≫= _) s h) as [[o1 s1] h1] eqn:E1.
  apply exec_make_room in E1 as (HI1 & Hnone & Hok); [|done].
  destruct o1 as [[]|x]; [|intros [= <- <- <-]; split; [done|discriminate]].
  destruct (Hok eq_refl) as [Hfresh Hkeep]. specialize (Hnone _ Hctx).
  intros Hr. apply exec_register in Hr as [-> HI']; [|done..]. split; [done|]. intros _. split.
  - exists (length (w_workers s1)). split; [apply dict_get_set_eq|apply id_at_registered_new].
  - intros k wid i Hk Hid Hne. destruct (Hkeep k wid i Hk Hid Hne) as [Hk1 Hid1].
    split; [|by apply id_at_registered_old]. simpl. rewrite dict_get_set_ne; [done|].
    intros <-. congruence.
Qed.

(** C14.  Removing a registered engine keeps the registry consistent, also
    when an external call fails; when it succeeds the stream and the engine
    id are gone and every other entry is untouched. *)
Theorem removal_unregisters_engine k wid eid s h o s' h' :
  RegInv s -> (w_engine_workers s).[k] = Some wid -> id_at s wid = Some eid ->
  exec (remove_engine_worker k) s h = (o, s', h') ->
  RegInv s' /\
  (o = inl tt ->
   w_engine_workers s' = dict_del k (w_engine_workers s) /\
   w_engine_ids s' = w_engine_ids s ∖ {[eid]}).
Proof.
  intros HI Hk Hid Hr. split; [by eapply exec_remove_inv|]. intros ->.
  destruct (exec_remove _ _ _ _ _ _ _ _ HI Hk Hid Hr) as [[= E1 E2 _]|[[x ?] _]]; done.
Qed.
End registry.
