(* ===== verification/GrpcServer.v ===== *)
(** * The gRPC client transport

    [server/src/gabriel_server/grpc_server.py].  A client opens one control
    stream and one upload-only stream per producer; a coroutine of
    [ClientSession] serves each stream for its whole lifetime. *)

From S2P Require Import Prelude Coro Protocol Config ServerState ResultManager GabrielServer.

Module Grpc.

Definition SESSION_ID_METADATA_KEY : string := "session-id".
Definition STREAM_ROLE_METADATA_KEY : string := "stream-role".
Definition STREAM_ROLE_CONTROL : string := "control".
Definition STREAM_ROLE_PRODUCER : string := "producer".

Section grpc_server.
Context `{!PyEnv, !Codec ToClient}.

(** [GrpcServer._send_via_transport] *)
Definition grpc_send_via_transport (address : string) (payload : bytes) : srv bool :=
  client ← gets (fun s => (w_clients s).[address]);
  write_lock ← gets (fun s => (w_write_locks s).[address]);
  match client, write_lock with
  | Some cid, Some l =>
      to_client ← of_option DecodeError (parse payload);
      c ← get_client cid;
      try_except (with_lock l (GrpcWrite_ (cl_websocket c) to_client) ;; Ret true)
        (fun x => if is_Exception x then Ret false else Throw x)
  | _, _ => Ret false
  end.

Definition grpc_transport : Transport := {| send_via_transport := grpc_send_via_transport |}.

Lemma grpc_transport_ok : @TransportOk grpc_transport.
Proof.
  constructor. intros a b s s1. simpl.
  destruct ((w_clients s).[a]) as [cid|]; [|done].
  destruct ((w_write_locks s1).[a]) as [l|]; [|done].
  destruct (parse b); [|done]. intros s2. simpl.
  destruct (w_client_store s2 !! cid); [|done]. simpl.
  intros [[]|x]; simpl; [|by destruct (is_Exception x)].
  intros [[]|x]; simpl; [done|]. intros _. by destruct (is_Exception x).
Qed.

Context (engine_cb : FromClient -> string -> Any -> srv (StatusCode * string)).

(** [GrpcServer._handle_from_client] *)
Definition handle_from_client (from_client : FromClient) (ctx : nat) (session_id : string)
    (cid : nat) : srv unit :=
  '(st, msg) ← consumer_helper engine_cb cid session_id from_client;
  response ←
    (if decide (st = SUCCESS) then
       if is_registration from_client then
         m ← make_registered; Ret (Some m)
       else
         consume_token cid (in_producer_id (fc_input from_client)) ;; Ret None
     else
       of_option (ValueError "Enum has no name defined for value") (StatusCode_Name st) ;;
       Ret (Some (make_error_response from_client st msg)));
  match response with
  | None => Ret tt
  | Some m =>
      write_lock ← gets (fun s => (w_write_locks s).[session_id]);
      match write_lock with
      | None => Ret tt                     (* control stream already disconnected *)
      | Some l => with_lock l (GrpcWrite_ ctx m)
      end
  end.

(** [GrpcServer._consumer], over the messages of the control stream *)
Definition consumer (ctx : nat) (msgs : list FromClient) (session_id : string) (cid : nat)
    : srv unit :=
  async_for (fun m => StreamNext_ ctx (client_message <$> m)) msgs (fun m => handle_from_client m ctx session_id cid).

(** [GrpcServer._producer_stream]: the loop returns when the session has no
    control stream. *)
Fixpoint producer_stream (ctx : nat) (msgs : list FromClient) (session_id : string)
    : srv unit :=
  more ← anext (StreamNext_ ctx (client_message <$> head msgs));
  if more : bool then
    match msgs with
    | [] => Ret tt
    | m :: msgs' =>
        client ← gets (fun s => (w_clients s).[session_id]);
        match client with
        | None => Ret tt                   (* unknown or already closed session *)
        | Some cid =>
            c ← get_client cid;
            handle_from_client m (cl_websocket c) session_id cid ;;
            producer_stream ctx msgs' session_id
        end
    end
  else Ret tt.

(** [del d[k]] on the two dictionaries of sessions *)
Definition del_client (address : string) : srv unit :=
  d ← gets w_clients;
  match d.[address] with
  | Some _ => modify (upd_w_clients (dict_del address))
  | None => Throw KeyError
  end.

Definition del_write_lock (address : string) : srv unit :=
  d ← gets w_write_locks;
  match d.[address] with
  | Some _ => modify (upd_w_write_locks (dict_del address))
  | None => Throw KeyError
  end.

(** Enter a new client object and its write lock in the dictionaries. *)
Definition open_session (address : string) (conn : nat) : srv nat :=
  cid ← new_client address conn;
  modify (upd_w_clients (fun d => d.[address <- cid])) ;;
  l ← gets w_next_lock;
  modify (upd_w_next_lock S) ;;
  modify (upd_w_write_locks (fun d => d.[address <- l])) ;;
  Ret cid.

(** [dict(context.invocation_metadata())] *)
Definition dict_of (l : list (string * string)) : dict string string :=
  foldl (fun d kv => d.[kv.1 <- kv.2]) [] l.

(** [GrpcServer.ClientSession]; [metadata] is the invocation metadata of the
    stream [ctx], [msgs] the messages the client sends on it. *)
Definition ClientSession (ctx : nat) (metadata : list (string * string))
    (msgs : list FromClient) : srv unit :=
  let invocation_metadata := dict_of metadata in
  let session_id := invocation_metadata.[SESSION_ID_METADATA_KEY] in
  let stream_role := invocation_metadata.[STREAM_ROLE_METADATA_KEY] in
  if truthy_str session_id
     && bool_decide (stream_role ∈ [Some STREAM_ROLE_CONTROL; Some STREAM_ROLE_PRODUCER])
  then
    let session_id := default "" session_id in
    if decide (stream_role = Some STREAM_ROLE_PRODUCER)
    then producer_stream ctx msgs session_id
    else
      cid ← open_session session_id ctx;
      try_finally (consumer ctx msgs session_id cid)
        (del_client session_id ;; del_write_lock session_id)
  else
    x ← (call (E := server_sig) (GrpcAbort ctx) : srv exn);
    Throw x.
End grpc_server.

(** [GrpcServer.mark_started] *)
Definition mark_started : srv unit :=
  modify (upd_w_is_running (fun _ => true)) ;;
  modify (upd_w_start_event (fun _ => true)).

(** The options of the grpc.aio server of [GrpcServer._start_grpc_server]. *)
Definition server_options (http2_stream_window_bytes message_max_size : option Z)
    : list (string * Z) :=
  [("grpc.http2.min_ping_interval_without_data_ms", 5000);
   ("grpc.http2.max_pings_without_data", 0)]
  ++ from_option (fun n => [("grpc.http2.lookahead_bytes", n)]) [] http2_stream_window_bytes
  ++ from_option (fun n => [("grpc.max_send_message_length", n);
                            ("grpc.max_receive_message_length", n)]) [] message_max_size.

Section lifecycle.
Context `{!PyEnv}.

(** [GrpcServer.shutdown] *)
Definition shutdown : srv unit :=
  ServerStop_ ;;
  modify (upd_w_is_running (fun _ => false)) ;;
  sinks_cleanup.

(** [open(path, "rb").read()], and the arguments of the constructor. *)
Variables (read_file : string -> bytes + exn) (tls : TlsPaths)
  (http2_stream_window_bytes : option Z).

(** [GrpcServer._start_grpc_server] *)
Definition start_grpc_server (li : Listen) : srv unit :=
  let options := server_options http2_stream_window_bytes (li_message_max_size li) in
  let target := grpc_target (li_port_or_path li) (li_use_ipc li) in
  credentials ← raise (build_server_credentials read_file
                         (tls_cert tls) (tls_key tls) (tls_client_ca_cert tls));
  BindPort_ options target (bool_decide (credentials <> None)) ;;
  ServerStart_ ServeGrpc.

(** [GrpcServer.launch_async] *)
Definition launch (li : Listen) : srv unit :=
  start_grpc_server li ;;
  mark_started ;;
  try_finally ServeForever_ shutdown.

(** [GrpcServer._close_server_socket] *)
Definition close_server_socket : srv unit :=
  ServerStop_ ;;
  modify (upd_w_clients (fun _ => [])) ;;
  modify (upd_w_write_locks (fun _ => [])).

(** [GrpcServer._recreate_server_socket] *)
Definition recreate_server_socket (li : Listen) : srv unit := start_grpc_server li.
End lifecycle.

End Grpc.
