(* ===== verification/SessionSpec.v ===== *)
(** * Client messages and sessions

    What a message of a gRPC client does to its tokens and what is written
    back on the control stream; what is broadcast when the set of engines
    changes; and what a session leaves behind. *)

From S2P Require Import Prelude Coro Protocol ServerState Trace Instances GabrielServer.
From S2P Require Import Dispatch InputSpec ServerRunner GrpcServer.

(** ** Environments *)

(** No write to a client fails, and no lock is cancelled. *)
Definition clients_reachable (env : history server_sig -> forall e : sev, sresp e) : Prop :=
  (forall h ctx m, env h (GrpcWrite ctx m) = inl tt) /\ (forall h l, env h (LockAcquire l) = inl tt).

(** ** The callback *)

(** The part of the state the client-facing server owns. *)
Definition client_view (s : World) :=
  (w_clients s, w_client_store s, w_write_locks s, w_num_tokens_per_producer s).

(** What the client-facing server relies on when it hands an input over. *)
Class EngineCb (cb : FromClient -> string -> Any -> srv (StatusCode * string)) : Prop := {
  engine_cb_preserves : forall fc a ci s, preserves client_view (cb fc a ci) s;
}.

Section callback.
Context `{!PyEnv}.

Lemma find_target_engines_view ts wids s : preserves client_view (find_target_engines ts wids) s.
Proof.
  revert s. induction wids as [|wid wids IH]; intros s; cbn -[mbind]; [done|].
  unfold MetricCall_, get_worker. repeat first [apply IH | progress pres].
Qed.

Lemma engine_ids_of_view wids s : preserves client_view (engine_ids_of wids) s.
Proof.
  revert s. induction wids as [|wid wids IH]; intros s; cbn -[mbind]; [done|].
  unfold get_worker. repeat first [apply IH | progress pres].
Qed.

Lemma dispatch_loop_view pid mp wids b s : preserves client_view (dispatch_loop pid mp wids b) s.
Proof.
  revert b s. induction wids as [|wid wids IH]; intros b s; cbn -[mbind]; [done|].
  unfold add_producer, get_worker, send_payload, send_helper, upd_worker, get_worker,
    EngineWrite_, PerfCounter_.
  repeat first [apply IH | progress pres].
Qed.

#[export] Instance send_to_engine_cb : EngineCb send_to_engine.
Proof.
  constructor. intros fc a ci s. unfold send_to_engine, process_input_from_client,
    drop_removed_targets, add_input_to_queue, get_producer, upd_producer, MetricCall_.
  cbn zeta.
  repeat first [apply find_target_engines_view | apply engine_ids_of_view
               | apply dispatch_loop_view | progress pres].
Qed.
End callback.

(** ** Messages *)

(** The client once it has tokens for the producer: they are granted at the
    first input. *)
Definition granted (num : Z) (pid : string) (c : Client) : Client :=
  match (cl_tokens_for_producer c).[pid] with
  | Some _ => c
  | None => upd_cl_tokens_for_producer (fun d => d.[pid <- num]) c
  end.

Definition tokens_of (num : Z) (pid : string) (c : Client) : Z :=
  default num ((cl_tokens_for_producer c).[pid]).

Definition spend (pid : string) (n : Z) (c : Client) : Client :=
  upd_cl_tokens_for_producer (fun d => d.[pid <- n - 1]) c.

Section messages.
Context `{!PyEnv, !Codec ToClient}.
Context (cb : FromClient -> string -> Any -> srv (StatusCode * string)) `{!EngineCb cb}.
Context (env : history server_sig -> forall e : sev, sresp e).
Hypothesis Henv : clients_reachable env.
Abbreviation exec := (run (E := server_sig) env).

Lemma exec_locked_write l ctx m s h :
  exec (with_lock l (GrpcWrite_ ctx m)) s h =
  (inl tt, s, h ++ [existT (LockAcquire l) (inl tt); existT (GrpcWrite ctx m) (inl tt);
                    existT (LockRelease l) tt]).
Proof.
  destruct Henv as [Hw Hl]. unfold with_lock, GrpcWrite_.
  rewrite exec_assoc, (exec_call env (LockAcquire l)), Hl. cbn [raise].
  rewrite exec_ret, run_try_finally, (exec_call env (GrpcWrite ctx m)), Hw. cbn [raise run call].
  rewrite <- !(assoc_L (++)). simpl. by destruct (env _ (LockRelease l)).
Qed.

Lemma granted_tokens num pid c :
  (cl_tokens_for_producer (granted num pid c)).[pid] = Some (tokens_of num pid c).
Proof.
  unfold granted, tokens_of.
  destruct ((cl_tokens_for_producer c).[pid]) as [n|] eqn:E; [done|]. apply dict_get_set_eq.
Qed.

Lemma put_client_same cid c s : w_client_store s !! cid = Some c -> put_client cid c s = s.
Proof.
  intros Hc. unfold put_client, upd_w_client_store. rewrite list_insert_id by done. by destruct s.
Qed.

Lemma exec_forward_input cid c a fc ci s h :
  let pid := in_producer_id (fc_input fc) in
  let num := w_num_tokens_per_producer s in
  let s1 := put_client cid (granted num pid c) s in
  w_client_store s !! cid = Some c ->
  exec (forward_input cb cid a fc ci) s h =
  if tokens_of num pid c <? 1 then (inl (NO_TOKENS, "No tokens for producer"), s1, h)
  else exec (cb fc a ci) s1 h.
Proof.
  intros pid num s1 Hc. unfold forward_input. cbn zeta.
  erewrite exec_get_client by done. rewrite exec_gets. fold num pid.
  assert (exec (match (cl_tokens_for_producer c).[pid] with
                | Some _ => Ret tt | None => set_tokens cid pid num end) s h = (inl tt, s1, h)) as E.
  { subst s1. unfold granted. destruct ((cl_tokens_for_producer c).[pid]).
    - by rewrite put_client_same.
    - unfold set_tokens. rewrite exec_eta. by erewrite exec_upd_client. }
  rewrite run_bind, E. erewrite exec_get_client by (by eapply put_client_get). fold pid.
  rewrite granted_tokens. cbn [of_option]. rewrite exec_ret. by destruct (_ <? 1).
Qed.

(** The error result for a refused input, written under the lock. *)
Definition refusal (l ctx : nat) (fc : FromClient) (st : StatusCode) (msg : string)
    : history server_sig :=
  [existT (LockAcquire l) (inl tt);
   existT (GrpcWrite ctx (make_error_response fc st msg)) (inl tt); existT (LockRelease l) tt].

Lemma exec_handle_input fc ctx sid cid c ci s h :
  is_registration fc = false -> w_client_store s !! cid = Some c -> cl_client_info c = Some ci ->
  exec (Grpc.handle_from_client cb fc ctx sid cid) s h =
  exec ('(st, msg) ← forward_input cb cid sid fc ci;
        response ←
          (if decide (st = SUCCESS) then
             consume_token cid (in_producer_id (fc_input fc)) ;; Ret None
           else
             of_option (ValueError "Enum has no name defined for value") (StatusCode_Name st) ;;
             Ret (Some (make_error_response fc st msg)));
        match response with
        | None => Ret tt
        | Some m =>
            write_lock ← gets (fun s => (w_write_locks s).[sid]);
            match write_lock with
            | None => Ret tt
            | Some l => with_lock l (GrpcWrite_ ctx m)
            end
        end) s h.
Proof.
  intros Hr Hc Hci. unfold Grpc.handle_from_client. rewrite !run_bind.
  assert (exec (consumer_helper cb cid sid fc) s h = exec (forward_input cb cid sid fc ci) s h) as ->.
  { destruct fc as [|i|info]; [| |done]; cbn [consumer_helper];
      erewrite exec_get_client by done; by rewrite Hci. }
  by rewrite Hr.
Qed.

(** C15.  An input of a registered gRPC client.  The first input of a
    producer grants its tokens.  Without a token left the engines are not
    involved and the client gets a [NO_TOKENS] result.  Otherwise the input
    is handed over, and either it is accepted, which costs exactly one token
    and writes nothing to the client, or it is refused, which costs none and
    writes exactly one result, with the status, the id of the refused frame
    and the token the client spent on it. *)
Theorem input_costs_one_token fc ctx sid cid c l ci s h :
  let pid := in_producer_id (fc_input fc) in
  let num := w_num_tokens_per_producer s in
  let s1 := put_client cid (granted num pid c) s in
  let n := tokens_of num pid c in
  is_registration fc = false -> w_client_store s !! cid = Some c -> cl_client_info c = Some ci ->
  (w_write_locks s).[sid] = Some l ->
  (n < 1 -> exec (Grpc.handle_from_client cb fc ctx sid cid) s h =
     (inl tt, s1, h ++ refusal l ctx fc NO_TOKENS "No tokens for producer")) /\
  (1 <= n -> forall st msg s2 h2, exec (cb fc sid ci) s1 h = (inl (st, msg), s2, h2) ->
     (st = SUCCESS -> exec (Grpc.handle_from_client cb fc ctx sid cid) s h =
        (inl tt, put_client cid (spend pid n (granted num pid c)) s2, h2)) /\
     (st <> SUCCESS -> is_Some (StatusCode_Name st) ->
        exec (Grpc.handle_from_client cb fc ctx sid cid) s h =
        (inl tt, s2, h2 ++ refusal l ctx fc st msg))).
Proof.
  intros pid num s1 n Hr Hc Hci Hl.
  erewrite exec_handle_input by done. rewrite run_bind, (exec_forward_input cid c) by done.
  fold num pid s1 n. split.
  - intros Hn. rewrite (proj2 (Z.ltb_lt n 1)) by done. cbn beta iota.
    rewrite decide_False by done. cbn [StatusCode_Name of_option].
    rewrite exec_assoc, exec_ret, exec_ret, exec_gets. change (w_write_locks s1) with (w_write_locks s).
    rewrite Hl. apply exec_locked_write.
  - intros Hn st msg s2 h2 E. rewrite (proj2 (Z.ltb_ge n 1)), E by lia.
    apply (run_preserves client_view) in E as Hv; [|intros; apply engine_cb_preserves].
    injection Hv as V1 V2 V3 V4. split.
    + intros ->. cbn beta iota. rewrite decide_True by done. rewrite exec_assoc.
      unfold consume_token. rewrite exec_assoc.
      assert (w_client_store s2 !! cid = Some (granted num pid c)) as Hc2.
      { rewrite V2. by eapply put_client_get. }
      erewrite exec_get_client by done. fold pid. rewrite granted_tokens. cbn [of_option].
      rewrite exec_assoc, exec_ret. unfold set_tokens. by erewrite exec_upd_client.
    + intros Hst [name Hname]. cbn beta iota. rewrite decide_False by done.
      rewrite Hname. cbn [of_option]. rewrite exec_assoc, exec_ret, exec_ret, exec_gets, V3.
      change (w_write_locks s1) with (w_write_locks s). rewrite Hl. apply exec_locked_write.
Qed.
End messages.

(** ** Changes of the set of engines *)

Section broadcast.
Context `{!PyEnv, !Codec ToClient}.
Context (env : history server_sig -> forall e : sev, sresp e).
Hypothesis Henv : clients_reachable env.
Abbreviation exec := (run (E := server_sig) env).
Existing Instance Grpc.grpc_transport.

(** Every session has its client object and its write lock. *)
Definition sessions_open (s : World) : Prop :=
  forall a, a ∈ dict_keys (w_clients s) ->
    exists cid c l, (w_clients s).[a] = Some cid /\ w_client_store s !! cid = Some c /\
      (w_write_locks s).[a] = Some l.

(** The control stream of a session. *)
Definition stream_of (s : World) (a : string) : nat :=
  match (w_clients s).[a] with
  | Some cid => match w_client_store s !! cid with Some c => cl_websocket c | None => 0%nat end
  | None => 0%nat
  end.

Lemma exec_grpc_send a cid c l m s h :
  (w_clients s).[a] = Some cid -> w_client_store s !! cid = Some c ->
  (w_write_locks s).[a] = Some l ->
  exec (send_via_transport a (serialize m)) s h =
  (inl true, s, h ++ [existT (LockAcquire l) (inl tt); existT (GrpcWrite (cl_websocket c) m) (inl tt);
                      existT (LockRelease l) tt]).
Proof.
  intros Ha Hc Hl. cbn [send_via_transport Grpc.grpc_transport].
  unfold Grpc.grpc_send_via_transport.
  rewrite exec_gets, exec_gets, Ha, Hl, parse_serialize. cbn [of_option]. rewrite exec_ret.
  erewrite exec_get_client by done.
  rewrite run_try_except, run_bind, exec_locked_write by done. done.
Qed.

Lemma exec_engines_updated_loop todo m s h :
  (forall a, a ∈ todo -> a ∈ dict_keys (w_clients s)) -> sessions_open s ->
  exists h', exec (engines_updated_loop (length (w_clients s)) todo (serialize m)) s h =
      (inl tt, s, h') /\
    grpc_writes h' = grpc_writes h ++ map (fun a => (stream_of s a, m)) todo.
Proof.
  intros Hin Ho. revert h. induction todo as [|a todo IH]; intros h; cbn [engines_updated_loop map];
    rewrite exec_gets, decide_True by done; [exists h; by rewrite app_nil_r|].
  destruct (Ho a (Hin a ltac:(left))) as (cid & c & l & Ha & Hc & Hl).
  rewrite run_bind, (exec_grpc_send a cid c l) by done.
  edestruct IH as (h' & -> & Hh); [intros; apply Hin; by right|].
  exists h'. split; [done|]. rewrite Hh, grpc_writes_app, <- (assoc_L (++)). f_equal. simpl.
  unfold stream_of. by rewrite Ha, Hc.
Qed.

(** C36. When the set of engines changes, the new list of engine ids is
    written exactly once to the control stream of every gRPC session, in the
    order in which the sessions were opened, and nothing else is written; the
    state is unchanged.  This is a broadcast that runs alone: every session has
    its client object and its write lock, and the clients are reachable. *)
Theorem engine_update_reaches_every_session s h :
  sessions_open s ->
  exists h', exec engines_updated_cb s h = (inl tt, s, h') /\
    grpc_writes h' = grpc_writes h ++
      map (fun a => (stream_of s a, ToClient_engine_ids_update (set_iter (w_engine_ids s))))
        (dict_keys (w_clients s)).
Proof.
  intros Ho. unfold engines_updated_cb. rewrite exec_gets, exec_gets.
  by apply exec_engines_updated_loop.
Qed.
End broadcast.

(** ** Sessions *)

Section sessions.
Context `{!PyEnv, !Codec ToClient}.
Context (cb : FromClient -> string -> Any -> srv (StatusCode * string)) `{!EngineCb cb}.
Context (env : history server_sig -> forall e : sev, sresp e).
Abbreviation exec := (run (E := server_sig) env).

Definition session_view (s : World) := (w_clients s, w_write_locks s).

Lemma cb_session_view fc a ci s : preserves session_view (cb fc a ci) s.
Proof.
  apply (preserves_compose client_view (fun v => (v.1.1.1, v.1.2))), engine_cb_preserves.
Qed.

Lemma handle_session_view fc ctx sid cid s :
  preserves session_view (Grpc.handle_from_client cb fc ctx sid cid) s.
Proof.
  unfold Grpc.handle_from_client, consumer_helper, forward_input, consume_token, set_tokens,
    upd_client, get_client, make_registered, with_lock, GrpcWrite_.
  repeat first [apply cb_session_view | progress pres].
Qed.

Lemma producer_stream_session_view ctx msgs sid s :
  preserves session_view (Grpc.producer_stream cb ctx msgs sid) s.
Proof.
  revert s. induction msgs as [|m msgs IH]; intros s; cbn -[mbind anext];
    unfold StreamNext_, get_client; repeat first [apply handle_session_view | apply IH | progress pres].
Qed.

Lemma exec_del_session a cid l s h :
  (w_clients s).[a] = Some cid -> (w_write_locks s).[a] = Some l ->
  exec (Grpc.del_client a ;; Grpc.del_write_lock a) s h =
  (inl tt, upd_w_write_locks (dict_del a) (upd_w_clients (dict_del a) s), h).
Proof.
  intros Ha Hl. unfold Grpc.del_client, Grpc.del_write_lock.
  rewrite exec_assoc, exec_gets, Ha, exec_modify, exec_gets.
  change (w_write_locks (upd_w_clients (dict_del a) s)) with (w_write_locks s). by rewrite Hl.
Qed.

Lemma exec_open_session {B} a conn (k : nat -> srv B) s h :
  exists s1, exec (Grpc.open_session a conn ≫= k) s h = exec (k (length (w_client_store s))) s1 h /\
    w_clients s1 = (w_clients s).[a <- length (w_client_store s)] /\
    w_write_locks s1 = (w_write_locks s).[a <- w_next_lock s].
Proof. eexists. split; [reflexivity|]. done. Qed.

(** The role and the session of a stream, if its metadata is valid. *)
Inductive stream_role : Type :=
| ControlStream (session_id : string)
| ProducerStream (session_id : string)
| InvalidStream.

Definition role_of (md : list (string * string)) : stream_role :=
  match (Grpc.dict_of md).["session-id"] with
  | None | Some EmptyString => InvalidStream
  | Some a =>
      if decide ((Grpc.dict_of md).["stream-role"] = Some "control") then ControlStream a
      else if decide ((Grpc.dict_of md).["stream-role"] = Some "producer") then ProducerStream a
      else InvalidStream
  end.

Lemma ClientSession_role ctx md msgs :
  Grpc.ClientSession cb ctx md msgs =
  match role_of md with
  | InvalidStream => (call (E := server_sig) (GrpcAbort ctx) : srv exn) ≫= Throw
  | ProducerStream a => Grpc.producer_stream cb ctx msgs a
  | ControlStream a =>
      cid ← Grpc.open_session a ctx;
      try_finally (Grpc.consumer cb ctx msgs a cid) (Grpc.del_client a ;; Grpc.del_write_lock a)
  end.
Proof.
  unfold Grpc.ClientSession, role_of, Grpc.SESSION_ID_METADATA_KEY,
    Grpc.STREAM_ROLE_METADATA_KEY, Grpc.STREAM_ROLE_CONTROL, Grpc.STREAM_ROLE_PRODUCER. cbn zeta.
  destruct ((Grpc.dict_of md).["session-id"]) as [[|ch a]|]; try done.
  cbn [truthy_str andb default].
  destruct (decide ((Grpc.dict_of md).["stream-role"] = Some "control")) as [->|Hc]; [done|].
  destruct (decide ((Grpc.dict_of md).["stream-role"] = Some "producer")) as [->|Hp]; [done|].
  rewrite bool_decide_eq_false_2 by set_solver. done.
Qed.

(** C16.  A stream with no session id or an unknown role is aborted and
    changes nothing.  When a control stream ends, whether normally or by an
    exception, its session is gone from the clients and from the write locks
    and the other sessions are untouched.  A producer stream never opens or
    closes a session. *)
Theorem session_closes_what_it_opened ctx md msgs s h o s' h' :
  exec (Grpc.ClientSession cb ctx md msgs) s h = (o, s', h') ->
  match role_of md with
  | InvalidStream => s' = s /\ o = inr (env h (GrpcAbort ctx))
  | ControlStream a =>
      w_clients s' = dict_del a (w_clients s) /\ w_write_locks s' = dict_del a (w_write_locks s)
  | ProducerStream _ => w_clients s' = w_clients s /\ w_write_locks s' = w_write_locks s
  end.
Proof.
  rewrite ClientSession_role. destruct (role_of md) as [a|a|].
  - destruct (exec_open_session a ctx
      (fun cid => try_finally (Grpc.consumer cb ctx msgs a cid)
                    (Grpc.del_client a ;; Grpc.del_write_lock a)) s h) as (s1 & -> & V1 & V2).
    rewrite run_try_finally.
    destruct (run env (Grpc.consumer cb ctx msgs a _) s1 h) as [[r s2] h2] eqn:E.
    apply (run_preserves session_view) in E.
    2:{ intros s0. unfold Grpc.consumer, StreamNext_.
        repeat first [apply handle_session_view | progress pres]. }
    injection E as E1 E2. rewrite V1 in E1. rewrite V2 in E2.
    erewrite exec_del_session; [|rewrite E1; apply dict_get_set_eq|rewrite E2; apply dict_get_set_eq].
    intros [= <- <- <-]. simpl. by rewrite E1, E2, !dict_del_set.
  - intros E. apply (run_preserves session_view) in E; [by injection E as -> ->|].
    intros s0. apply producer_stream_session_view.
  - rewrite (exec_call env (GrpcAbort ctx)). by intros [= <- <- <-].
Qed.
End sessions.
