(* ===== verification/WebsocketServer.v ===== *)
(** * The WebSocket client transport

    [server/src/gabriel_server/websocket_server.py].  A client is one
    WebSocket connection, named by its remote address. *)

From S2P Require Import Prelude Coro Protocol Config ServerState GabrielServer GrpcServer.

Module Ws.

Section websocket_server.
Context `{!PyEnv, !Codec ToClient, !Codec FromClient}.

(** [WebsocketServer._send_via_transport] *)
Definition ws_send_via_transport (address : string) (payload : bytes) : srv bool :=
  client ← gets (fun s => (w_clients s).[address]);
  write_lock ← gets (fun s => (w_write_locks s).[address]);
  match client, write_lock with
  | Some cid, Some l =>
      c ← get_client cid;
      try_except (with_lock l (WsSend_ (cl_websocket c) payload) ;; Ret true)
        (fun x => match x with ConnectionClosed => Ret false | _ => Throw x end)
  | _, _ => Ret false
  end.

Definition ws_transport : Transport := {| send_via_transport := ws_send_via_transport |}.

Lemma ws_transport_ok : @TransportOk ws_transport.
Proof.
  constructor. intros a b s s1. simpl.
  destruct ((w_clients s).[a]) as [cid|]; [|done].
  destruct ((w_write_locks s1).[a]) as [l|]; [|done].
  intros s2. simpl. destruct (w_client_store s2 !! cid); [|done]. simpl.
  intros [[]|x]; simpl; [|by destruct x].
  intros [[]|x]; simpl; [done|]. intros _. by destruct x.
Qed.

Context (engine_cb : FromClient -> string -> Any -> srv (StatusCode * string)).

(** [async with self._write_locks[address]: await websocket.send(...)] *)
Definition locked_send (address : string) (ws : nat) (b : bytes) : srv unit :=
  l ← (gets (fun s => (w_write_locks s).[address]) ≫= of_option KeyError);
  with_lock l (WsSend_ ws b).

(** The body of the loop of [WebsocketServer._consumer]. *)
Definition consume (ws : nat) (address : string) (cid : nat) (raw_input : bytes) : srv unit :=
  from_client ← of_option DecodeError (parse raw_input);
  '(st, msg) ← consumer_helper engine_cb cid address from_client;
  if decide (st = SUCCESS) then
    if is_registration from_client then
      m ← make_registered;
      locked_send address ws (serialize m)
    else consume_token cid (in_producer_id (fc_input from_client))
  else
    locked_send address ws (serialize (make_error_response from_client st msg)).

(** [WebsocketServer._consumer] *)
Definition consumer (ws : nat) (address : string) (cid : nat) (msgs : list bytes) : srv unit :=
  async_for (fun m => StreamNext_ ws (raw_message <$> m)) msgs (consume ws address cid).

(** [WebsocketServer._client_handler]; [address] is
    [websocket.remote_address]. *)
Definition client_handler (ws : nat) (address : string) (msgs : list bytes) : srv unit :=
  cid ← Grpc.open_session address ws;
  try_finally
    (try_except (consumer ws address cid msgs)
       (fun x => match x with ConnectionClosed => Ret tt | _ => Throw x end))
    (Grpc.del_client address ;; Grpc.del_write_lock address).

(** [WebsocketServer.get_server] *)
Definition get_server (li : Listen) : serving :=
  if negb (li_use_ipc li)
  then ServeTcp "localhost" (li_port_or_path li) (li_message_max_size li)
  else ServeUnix (li_port_or_path li).

(** [WebsocketServer.launch_async]: [is_running] asks the websockets server
    whether it is serving, which it is inside the [async with]. *)
Definition launch (li : Listen) : srv unit :=
  ServerStart_ (get_server li) ;;
  modify (upd_w_is_running (fun _ => true)) ;;
  try_finally
    (modify (upd_w_start_event (fun _ => true)) ;; ServeForever_)
    (modify (upd_w_is_running (fun _ => false)) ;; ServerStop_).
End websocket_server.

End Ws.
