(* ===== verification/ZeroMQServer.v ===== *)
(** * The ZeroMQ client transport

    [server/src/gabriel_server/zeromq_server.py].  One [ROUTER] socket serves
    every client; [_client_handler] queues the messages of each client, and a
    [_consumer] task per client takes them off the queue. *)

From S2P Require Import Prelude Coro Protocol Config ServerState ResultManager GabrielServer.

Module Zmq.

Definition HEARTBEAT : bytes := "".
Definition HELLO_MSG : bytes := "Hello message".

Section zeromq_server.
Context `{!PyEnv, !Codec ToClient, !Codec FromClient}.

(** [ZeroMQServer._send_via_transport] *)
Definition zmq_send_via_transport (address : string) (payload : bytes) : srv bool :=
  sim ← gets w_simulate_disconnection;
  if sim : bool then Ret false
  else ZmqSend_ address payload ;; Ret true.

Definition zmq_transport : Transport := {| send_via_transport := zmq_send_via_transport |}.

Lemma zmq_transport_ok : @TransportOk zmq_transport.
Proof.
  constructor. intros a b s. simpl. destruct (w_simulate_disconnection s); [done|].
  intros [[]|x]; done.
Qed.

(** What [_client_handler] does with one message. *)
Definition dispatch_message (address : string) (raw_input : bytes) : srv unit :=
  client ← gets (fun s => (w_clients s).[address]);
  cid ← match client with
        | Some cid => Ret cid
        | None =>
            (call (E := server_sig) (CreateTask address) : srv unit) ;;
            cid ← new_client address 0%nat;
            modify (upd_w_clients (fun d => d.[address <- cid])) ;;
            Ret cid
        end;
  if decide (raw_input = HELLO_MSG) then Ret tt
  else upd_client cid (upd_cl_inputs (fun q => q ++ [raw_input])).

(** One iteration of the loop of [ZeroMQServer._client_handler]. *)
Definition client_handler_iter : srv unit :=
  sim ← gets w_simulate_disconnection;
  if sim : bool then call (E := server_sig) Sleep ≫= raise
  else
    received ← (call (E := server_sig) ZmqRecv : srv ((string * bytes) + exn));
    match received with
    | inl (address, raw_input) => dispatch_message address raw_input
    | inr ZMQError => Ret tt
    | inr CancelledError =>
        sim ← gets w_simulate_disconnection;
        if sim : bool then Ret tt else Throw CancelledError
    | inr x => Throw x
    end.

(** [ZeroMQServer._client_handler], [while self._is_running], for at most
    [fuel] iterations. *)
Fixpoint client_handler (fuel : nat) : srv unit :=
  match fuel with
  | O => Throw NotReady
  | S fuel' =>
      running ← gets w_is_running;
      if running : bool then client_handler_iter ;; client_handler fuel' else Ret tt
  end.

Context (engine_cb : FromClient -> string -> Any -> srv (StatusCode * string)).

(** What [_consumer] does with one message of its client. *)
Definition consume (address : string) (cid : nat) (raw_input : bytes) : srv unit :=
  if decide (raw_input = HEARTBEAT) then ZmqSend_ address HEARTBEAT
  else
    match parse raw_input with
    | None => Ret tt                       (* failed to parse the input *)
    | Some from_client =>
        '(st, msg) ← consumer_helper engine_cb cid address from_client;
        if decide (st = SUCCESS) then
          if is_registration from_client then
            m ← make_registered;
            ZmqSend_ address (serialize m)
          else consume_token cid (in_producer_id (fc_input from_client))
        else
          of_option (ValueError "Enum has no name defined for value") (StatusCode_Name st) ;;
          ZmqSend_ address (serialize (make_error_response from_client st msg))
    end.

(** [await asyncio.wait_for(client.inputs.get(), CLIENT_TIMEOUT_SECS)]:
    [None] when it times out.  [get] returns only when the queue has an
    element. *)
Definition wait_input (cid : nat) : srv (option bytes) :=
  r ← (call (E := server_sig) (InputsGet cid) : srv (unit + exn));
  match r with
  | inr TimeoutError => Ret None
  | inr x => Throw x
  | inl _ =>
      c ← get_client cid;
      match cl_inputs c with
      | [] => Throw NotReady
      | raw :: _ => upd_client cid (upd_cl_inputs (drop 1)) ;; Ret (Some raw)
      end
  end.

(** The loop of [ZeroMQServer._consumer], for at most [fuel] iterations. *)
Fixpoint consumer_loop (address : string) (cid : nat) (fuel : nat) : srv unit :=
  match fuel with
  | O => Throw NotReady
  | S fuel' =>
      d ← gets w_clients;
      match d.[address] with
      | None => Ret tt
      | Some _ =>
          raw ← wait_input cid;
          match raw with
          | None =>                        (* client disconnected *)
              d ← gets w_clients;
              match d.[address] with
              | Some _ => modify (upd_w_clients (dict_del address))
              | None => Throw KeyError
              end
          | Some raw_input =>
              consume address cid raw_input ;; consumer_loop address cid fuel'
          end
      end
  end.

(** [ZeroMQServer._consumer] *)
Definition consumer (address : string) (fuel : nat) : srv unit :=
  cid ← (gets (fun s => (w_clients s).[address]) ≫= of_option KeyError);
  consumer_loop address cid fuel.

(** [URI_FORMAT.format(...)] and [IPC_FORMAT.format(...)] *)
Definition bind_uri (li : Listen) : string :=
  if negb (li_use_ipc li) then "tcp://*:" +:+ endpoint_str (li_port_or_path li)
  else "ipc://" +:+ endpoint_str (li_port_or_path li).

(** [ZeroMQServer.launch_async]; the task of [_client_handler] runs by itself
    and is awaited here, as do the consumers of the clients it has created, which
    are cancelled by their addresses: they are coroutines of the event loop, and
    not tasks of the supervisor that runs [launch]. *)
Definition launch (li : Listen) : srv unit :=
  SockBind_ (bind_uri li) ;;
  modify (upd_w_is_running (fun _ => true)) ;;
  modify (upd_w_start_event (fun _ => true)) ;;
  try_finally
    (try_except ServeForever_
       (fun x => match x with
                 | CancelledError =>
                     addresses ← gets (fun s => dict_keys (w_clients s));
                     ((call (E := server_sig) (CancelTasks addresses) : srv (unit + exn)) ≫= raise) ;;
                     Throw CancelledError
                 | _ => Throw x
                 end))
    ((call (E := server_sig) SockClose : srv unit) ;; CtxTerm_ ;; sinks_cleanup).

(** [ZeroMQServer._close_server_socket] *)
Definition close_server_socket : srv unit :=
  modify (upd_w_simulate_disconnection (fun _ => true)) ;;
  (call (E := server_sig) SockClose : srv unit).

(** [ZeroMQServer._recreate_server_socket] *)
Definition recreate_server_socket (li : Listen) : srv unit :=
  SockOpen_ ;; SockBind_ (bind_uri li) ;; modify (upd_w_simulate_disconnection (fun _ => false)).
End zeromq_server.

End Zmq.
