(* ===== verification/TokenInv.v ===== *)
(** * Token accounting: the invariant

    The server returns to a client, for each producer, no more tokens than the
    client consumed: the tokens the server counts for a client, plus the
    inputs of the client that wait in the queue of the producer, plus the
    in-flight input if it is the client's and its token is still to be
    returned, never exceed the tokens granted per producer.

    [TokInv d] is that invariant with a temporary allowance [d]; this file
    proves what each elementary change of the state does to it. *)

From S2P Require Import Prelude Coro Protocol ServerState Trace.

(** ** Outstanding inputs *)

Definition from_client_at (a : string) (mp : MetadataPayload) : bool :=
  bool_decide (md_client_address (mp_metadata mp) = a).

(** The in-flight input of the producer is a client's and awaits its token. *)
Definition in_flight (a : string) (p : ProducerInfo) : Z :=
  match pi_latest_input_sent_to_engine p with
  | Some mp => if truthy (pi_pending_token_return p) && from_client_at a mp then 1 else 0
  | None => 0
  end.

Definition producer_outstanding (a : string) (p : ProducerInfo) : Z :=
  countb (from_client_at a) (pi_input_queue p) + in_flight a p.

(** The inputs the engine runner's side holds, ... *)
Definition runner_outstanding (a pid : string) (s : World) : Z :=
  match (w_producer_infos s).[pid] with
  | Some p => producer_outstanding a p
  | None => 0
  end.

(** ... and those the local engine's side holds. *)
Definition local_item (a pid : string) (x : FromClient * string * Any) : bool :=
  bool_decide (x.1.2 = a) && bool_decide (in_producer_id (fc_input x.1.1) = pid).

Definition local_outstanding (a pid : string) (l : LocalState) : Z :=
  countb (local_item a pid) (lo_queue l) +
  match lo_current l with Some x => if local_item a pid x then 1 else 0 | None => 0 end.

Definition outstanding (a pid : string) (s : World) : Z :=
  runner_outstanding a pid s + local_outstanding a pid (w_local s).

Definition owners (s : World) : list string := cl_owner <$> w_client_store s.

Definition of_producer (pid : string) (mp : MetadataPayload) : Prop :=
  md_producer_id (mp_metadata mp) = pid.

(** A producer is stored under its id; its queue has the configured capacity
    [q] and is within it; the inputs it holds are its own; it has an in-flight
    input whenever a token return is pending. *)
Record producer_wf (q : Z) (pid : string) (p : ProducerInfo) : Prop := {
  pw_id : pi_producer_id p = pid;
  pw_size : pi_size_for_queues p = q;
  pw_queue : Z.of_nat (length (pi_input_queue p)) <= q;
  pw_queue_own : Forall (of_producer pid) (pi_input_queue p);
  pw_latest_own : forall mp, pi_latest_input_sent_to_engine p = Some mp -> of_producer pid mp;
  pw_pending : truthy (pi_pending_token_return p) = true ->
               is_Some (pi_latest_input_sent_to_engine p);
}.

(** An entry of the registry of engines: the stream context of the worker it
    leads to. *)
Definition contexts (s : World) : list nat := ew_context <$> w_workers s.

Definition registered_at (s : World) (k : objref) (wid : nat) : Prop :=
  exists ctx, contexts s !! wid = Some ctx /\ k = RContext ctx.

(** The queue of the local engine is within its capacity, if it has one. *)
Definition local_wf (l : LocalState) : Prop :=
  0 < lo_maxsize l -> Z.of_nat (length (lo_queue l)) <= lo_maxsize l.

Record token_bounds (d : string -> string -> Z) (s : World) : Prop := {
  tb_client : forall cid c pid, w_client_store s !! cid = Some c ->
    match (cl_tokens_for_producer c).[pid] with
    | Some n => n + outstanding (cl_owner c) pid s
                <= w_num_tokens_per_producer s + d (cl_owner c) pid
    | None => outstanding (cl_owner c) pid s <= d (cl_owner c) pid
    end;
  tb_stranger : forall a pid, a ∉ owners s -> outstanding a pid s <= d a pid;
}.

(** The bounds hold as long as no two client objects were stored under the
    same address. *)
Record TokInv (d : string -> string -> Z) (s : World) : Prop := {
  ti_clients : forall a cid, (w_clients s).[a] = Some cid ->
    exists c, w_client_store s !! cid = Some c /\ cl_owner c = a;
  ti_producers : forall pid p, (w_producer_infos s).[pid] = Some p ->
    producer_wf (w_size_for_queues s) pid p;
  ti_registry : forall k wid, (w_engine_workers s).[k] = Some wid -> registered_at s k wid;
  ti_local : local_wf (w_local s);
  ti_bounds : NoDup (owners s) -> token_bounds d s;
}.

Definition no_credit : string -> string -> Z := fun _ _ => 0.

(** An allowance of [z] for one client and producer. *)
Definition credit (a pid : string) (z : Z) : string -> string -> Z :=
  fun a' pid' => if decide (a' = a /\ pid' = pid) then z else 0.

Lemma outstanding_nonneg a pid s : 0 <= outstanding a pid s.
Proof.
  unfold outstanding, runner_outstanding, local_outstanding.
  pose proof (countb_nonneg (local_item a pid) (lo_queue (w_local s))).
  assert (0 <= match lo_current (w_local s) with Some x => if local_item a pid x then 1 else 0 | None => 0 end).
  { destruct (lo_current (w_local s)) as [x|]; [|lia]. destruct (local_item a pid x); lia. }
  destruct (_.[pid]) as [p|]; [|lia]. unfold producer_outstanding, in_flight.
  pose proof (countb_nonneg (from_client_at a) (pi_input_queue p)).
  destruct (pi_latest_input_sent_to_engine p); [destruct (_ && _)|]; lia.
Qed.

(** ** Monotone facts

    What never changes, or only grows: the number of tokens granted, and the
    client objects with their address and the producers they have tokens for. *)
Definition client_le (c c' : Client) : Prop :=
  cl_owner c' = cl_owner c /\
  forall pid, is_Some ((cl_tokens_for_producer c).[pid]) ->
              is_Some ((cl_tokens_for_producer c').[pid]).

Record evolves (s s' : World) : Prop := {
  ev_num : w_num_tokens_per_producer s' = w_num_tokens_per_producer s;
  ev_size : w_size_for_queues s' = w_size_for_queues s;
  ev_maxsize : lo_maxsize (w_local s') = lo_maxsize (w_local s);
  ev_store : forall cid c, w_client_store s !! cid = Some c ->
    exists c', w_client_store s' !! cid = Some c' /\ client_le c c';
}.

#[export] Instance client_le_preorder : PreOrder client_le.
Proof.
  split.
  - intros c. split; auto.
  - intros c1 c2 c3 [H1 H2] [H3 H4]. split; [congruence|auto].
Qed.

#[export] Instance evolves_preorder : PreOrder evolves.
Proof.
  split.
  - intros s. split; [done..|]. intros cid c Hc. exists c. split; [done|reflexivity].
  - intros s1 s2 s3 [N1 Q1 M1 S1] [N2 Q2 M2 S2]. split; [congruence..|].
    intros cid c Hc. destruct (S1 _ _ Hc) as (c2 & Hc2 & L2).
    destruct (S2 _ _ Hc2) as (c3 & Hc3 & L3). exists c3. split; [done|]. by etransitivity.
Qed.

(** The part of the state the invariant and the order look at. *)
Definition token_view (s : World) :=
  (w_clients s, w_client_store s, w_producer_infos s, w_num_tokens_per_producer s,
   w_size_for_queues s, w_engine_workers s, contexts s, w_local s).

Section view.
Lemma outstanding_view a pid s s' :
  token_view s' = token_view s -> outstanding a pid s' = outstanding a pid s.
Proof. unfold token_view, outstanding, runner_outstanding. by intros [= _ _ -> _ _ _ _ ->]. Qed.

Lemma TokInv_view d s s' : token_view s' = token_view s -> TokInv d s -> TokInv d s'.
Proof.
  intros Hv [Hc Hp Hr Hlo Hb]. pose proof Hv as [= E1 E2 E3 E4 E5 E6 E7 E8].
  split; unfold registered_at; rewrite ?E1, ?E2, ?E3, ?E5, ?E6, ?E7, ?E8; auto.
  intros Hnd. assert (owners s' = owners s) as Eo by (unfold owners; by rewrite E2).
  rewrite Eo in Hnd. destruct (Hb Hnd) as [B1 B2].
  split; [intros cid c pid | intros a pid]; rewrite ?Eo, ?E2, ?E4;
    rewrite (outstanding_view _ _ _ _ Hv); [apply B1|apply B2].
Qed.

Lemma evolves_view s0 s s' : token_view s' = token_view s -> evolves s0 s -> evolves s0 s'.
Proof. intros [= _ E2 _ E4 E5 _ _ E8] [Hn Hq Hm Hs]. split; rewrite ?E2, ?E4, ?E5, ?E8; auto. Qed.
End view.

Lemma evolves_put_producer s0 pid p s : evolves s0 s -> evolves s0 (put_producer pid p s).
Proof. intros [Hn Hq Hm Hs]. by split. Qed.

(** ** Elementary changes *)

Lemma TokInv_weaken d d' s : (forall a pid, d a pid <= d' a pid) -> TokInv d s -> TokInv d' s.
Proof.
  intros Hd [Hc Hp Hr Hlo Hb]. split; auto. intros Hnd. destruct (Hb Hnd) as [B1 B2]. split.
  - intros cid c pid Hcid. specialize (B1 cid c pid Hcid). specialize (Hd (cl_owner c) pid).
    destruct (_.[_]); lia.
  - intros a pid Ha. specialize (B2 a pid Ha). specialize (Hd a pid). lia.
Qed.

Lemma credit_same a pid z : credit a pid z a pid = z.
Proof. unfold credit. by rewrite decide_True. Qed.

Lemma credit_elsewhere a pid z a' pid' : a' <> a \/ pid' <> pid -> credit a pid z a' pid' = 0.
Proof. intros Hne. unfold credit. rewrite decide_False; naive_solver. Qed.

(** An allowance confined to one producer and one client. *)
Lemma credit_covers a0 pid z a q :
  no_credit a q + (if decide (q = pid) then if decide (a = a0) then z else 0 else 0)
  <= credit a0 pid z a q.
Proof.
  unfold no_credit, credit.
  destruct (decide (q = pid)), (decide (a = a0)); case_decide; naive_solver lia.
Qed.

Lemma TokInv_credit_nonpos a pid z s : z <= 0 -> TokInv (credit a pid z) s -> TokInv no_credit s.
Proof.
  intros Hz. apply TokInv_weaken. intros a' pid'. unfold credit, no_credit. case_decide; lia.
Qed.

(** Replacing (or adding) a producer, whose outstanding inputs change by at
    most [e a] for each client [a]. *)
Lemma TokInv_set_producer d d' s pid p' (e : string -> Z) :
  TokInv d s -> producer_wf (w_size_for_queues s) pid p' ->
  (forall a, producer_outstanding a p' <= runner_outstanding a pid s + e a) ->
  (forall a pid', d a pid' + (if decide (pid' = pid) then e a else 0) <= d' a pid') ->
  TokInv d' (put_producer pid p' s).
Proof.
  intros [Hc Hp Hr Hlo Hb] Hwf He Hd. split; simpl; auto.
  - intros q p. rewrite dict_get_set. case_decide; [|auto]. subst. intros [= <-]. done.
  - intros Hnd. destruct (Hb Hnd) as [B1 B2].
    assert (forall a pid', outstanding a pid' (put_producer pid p' s)
              <= outstanding a pid' s + (if decide (pid' = pid) then e a else 0)) as Ho.
    { intros a pid'. unfold outstanding. unfold runner_outstanding at 1. simpl.
      rewrite dict_get_set. destruct (decide (pid = pid')) as [->|H1].
      - rewrite decide_True by done. specialize (He a). lia.
      - rewrite decide_False by done. unfold runner_outstanding. lia. }
    split; simpl.
    + intros cid c pid' Hcid. specialize (B1 cid c pid' Hcid).
      specialize (Ho (cl_owner c) pid'). specialize (Hd (cl_owner c) pid').
      destruct (_.[_]); lia.
    + intros a pid' Ha. specialize (B2 a pid' Ha). specialize (Ho a pid').
      specialize (Hd a pid'). lia.
Qed.

(** Replacing the tokens of one client for one producer. *)
Lemma TokInv_set_tokens d d' s cid c pid n :
  TokInv d s -> w_client_store s !! cid = Some c ->
  (NoDup (owners s) -> token_bounds d s ->
   n + outstanding (cl_owner c) pid s <= w_num_tokens_per_producer s + d' (cl_owner c) pid) ->
  (forall a pid', a <> cl_owner c \/ pid' <> pid -> d a pid' <= d' a pid') ->
  TokInv d' (upd_w_client_store
    (alter (upd_cl_tokens_for_producer (fun t => t.[pid <- n])) cid) s).
Proof.
  intros [Hc Hp Hr Hlo Hb] Hcid Hn Hd.
  set (g := upd_cl_tokens_for_producer (fun t => t.[pid <- n])).
  assert (owners (upd_w_client_store (alter g cid) s) = owners s) as Eo.
  { unfold owners. simpl. apply list_eq. intros i.
    rewrite !list_lookup_fmap. destruct (decide (i = cid)) as [->|Hi].
    - rewrite list_lookup_alter_eq, Hcid. done.
    - by rewrite list_lookup_alter_ne. }
  split; simpl; auto.
  - intros a i Ha. destruct (Hc a i Ha) as (c0 & H0 & <-).
    destruct (decide (i = cid)) as [->|Hi].
    + rewrite list_lookup_alter_eq, H0. simpl. eauto.
    + rewrite list_lookup_alter_ne by done. eauto.
  - rewrite Eo. intros Hnd. pose proof (Hb Hnd) as Htb. specialize (Hn Hnd Htb).
    destruct Htb as [B1 B2].
    assert (forall a q, outstanding a q (upd_w_client_store (alter g cid) s) = outstanding a q s)
      as Ho by done.
    split; simpl.
    + intros i c0 q Hi. rewrite Ho. destruct (decide (i = cid)) as [->|Hne].
      * rewrite list_lookup_alter_eq, Hcid in Hi. simpl in Hi. injection Hi as <-. simpl.
        rewrite dict_get_set. case_decide as Hq; [subst q; done|].
        specialize (B1 cid c q Hcid). specialize (Hd (cl_owner c) q ltac:(auto)).
        destruct (_.[_]); lia.
      * rewrite list_lookup_alter_ne in Hi by done.
        assert (cl_owner c0 <> cl_owner c) as Hown.
        { intros E. apply Hne. eapply (NoDup_lookup (owners s)); [done| |];
            unfold owners; rewrite list_lookup_fmap.
          - by rewrite Hi.
          - rewrite Hcid. simpl. by rewrite E. }
        specialize (B1 i c0 q Hi). specialize (Hd (cl_owner c0) q ltac:(auto)).
        destruct (_.[_]); lia.
    + intros a q Ha. rewrite Ho. rewrite Eo in Ha. specialize (B2 a q Ha).
      assert (a <> cl_owner c) as Hne.
      { intros ->. apply Ha. unfold owners. apply list_elem_of_fmap.
        exists c. split; [done|]. eapply list_elem_of_lookup_2; eauto. }
      specialize (Hd a q ltac:(auto)). lia.
Qed.

(** Changing a client object without touching its address or its tokens. *)
Lemma TokInv_upd_client d s cid g :
  (forall c, cl_owner (g c) = cl_owner c /\
             cl_tokens_for_producer (g c) = cl_tokens_for_producer c) ->
  TokInv d s -> TokInv d (upd_w_client_store (alter g cid) s).
Proof.
  intros Hg [Hc Hp Hr Hlo Hb].
  assert (owners (upd_w_client_store (alter g cid) s) = owners s) as Eo.
  { unfold owners. simpl. apply list_eq. intros i.
    rewrite !list_lookup_fmap. destruct (decide (i = cid)) as [->|Hi].
    - rewrite list_lookup_alter_eq. destruct (_ !! cid) as [c|]; [|done]. simpl.
      by rewrite (proj1 (Hg c)).
    - by rewrite list_lookup_alter_ne. }
  split; simpl; auto.
  - intros a i Ha. destruct (Hc a i Ha) as (c0 & H0 & <-).
    destruct (decide (i = cid)) as [->|Hi].
    + rewrite list_lookup_alter_eq, H0. simpl. exists (g c0). by rewrite (proj1 (Hg c0)).
    + rewrite list_lookup_alter_ne by done. eauto.
  - rewrite Eo. intros Hnd. destruct (Hb Hnd) as [B1 B2]. split; simpl.
    + intros i c0 q Hi. destruct (decide (i = cid)) as [->|Hne].
      * rewrite list_lookup_alter_eq in Hi. destruct (_ !! cid) as [c|] eqn:Hcid; [|done].
        simpl in Hi. injection Hi as <-. destruct (Hg c) as [-> ->]. by apply (B1 cid c q).
      * rewrite list_lookup_alter_ne in Hi by done. by apply (B1 i c0 q).
    + intros a q Ha. rewrite Eo in Ha. by apply B2.
Qed.

(** A new client object, stored under its own address. *)
Lemma TokInv_new_client s a ws :
  TokInv no_credit s ->
  TokInv no_credit
    (upd_w_clients (fun d => d.[a <- length (w_client_store s)])
       (upd_w_client_store (fun h => h ++ [mkClient a [] [] ws None]) s)).
Proof.
  intros [Hc Hp Hr Hlo Hb]. split; simpl; auto.
  - intros a' i. rewrite dict_get_set. case_decide; intros Hi.
    + subst. injection Hi as <-. exists (mkClient a' [] [] ws None).
      by rewrite list_lookup_middle.
    + destruct (Hc _ _ Hi) as (c & H1 & H2). exists c. split; [|done].
      by apply lookup_app_l_Some.
  - unfold owners. simpl. rewrite fmap_app. simpl. intros Hnd.
    apply NoDup_app in Hnd as (Hnd & Hfresh & _).
    destruct (Hb Hnd) as [B1 B2].
    assert (a ∉ owners s) as Ha by (intros H; apply (Hfresh a H); by left).
    split; simpl.
    + intros i c q Hi. apply lookup_app_Some in Hi as [Hi|[Hlen Hi]]; [by apply (B1 i c q)|].
      apply list_lookup_singleton_Some in Hi as [_ <-]. simpl. by apply B2.
    + intros a' q. unfold owners. simpl. rewrite fmap_app. intros Hn.
      apply B2. intros H. apply Hn. set_solver.
Qed.

(** Changes of the registry of engines. *)
Lemma TokInv_registry d s g :
  (forall k wid, (g (w_engine_workers s)).[k] = Some wid -> registered_at s k wid) ->
  TokInv d s -> TokInv d (upd_w_engine_workers g s).
Proof.
  intros Hg [Hc Hp Hr Hlo Hb]. split; simpl; auto.
  intros Hnd. destruct (Hb Hnd) as [B1 B2]. by split.
Qed.

Lemma TokInv_del_worker d s k : TokInv d s -> TokInv d (upd_w_engine_workers (dict_del k) s).
Proof.
  intros HI. apply TokInv_registry; [|done].
  intros k' wid Hk%dict_get_del_Some. by apply (ti_registry _ _ HI).
Qed.

Lemma TokInv_set_worker d s ctx wid :
  contexts s !! wid = Some ctx ->
  TokInv d s -> TokInv d (upd_w_engine_workers (fun r => r.[RContext ctx <- wid]) s).
Proof.
  intros Hw HI. apply TokInv_registry; [|done]. intros k' wid'. rewrite dict_get_set.
  case_decide as Hk; [intros [= <-]; subst k'; by exists ctx|]. apply (ti_registry _ _ HI).
Qed.

(** A new engine worker object. *)
Lemma TokInv_new_worker d s w : TokInv d s -> TokInv d (upd_w_workers (fun l => l ++ [w]) s).
Proof.
  intros [Hc Hp Hr Hlo Hb]. split; simpl; auto.
  - intros k wid Hk. destruct (Hr k wid Hk) as (ctx & Hctx & ->). exists ctx. split; [|done].
    unfold contexts. simpl. rewrite fmap_app. by apply lookup_app_l_Some.
  - intros Hnd. destruct (Hb Hnd) as [B1 B2]. by split.
Qed.

(** Removing a client address. *)
Lemma TokInv_del_client d s a : TokInv d s -> TokInv d (upd_w_clients (dict_del a) s).
Proof.
  intros [Hc Hp Hr Hlo Hb]. split; simpl; auto.
  - intros a' i Hi. apply dict_get_del_Some in Hi. auto.
  - intros Hnd. destruct (Hb Hnd) as [B1 B2]. split; auto.
Qed.

(** Forgetting every client address. *)
Lemma TokInv_clear_clients d s : TokInv d s -> TokInv d (upd_w_clients (fun _ => []) s).
Proof.
  intros [Hc Hp Hr Hlo Hb]. split; simpl; auto; [done|].
  intros Hnd. destruct (Hb Hnd) as [B1 B2]. split; auto.
Qed.

(** ** Monotonicity of the elementary changes *)

Lemma evolves_set_tokens s0 s cid pid n :
  evolves s0 s ->
  evolves s0 (upd_w_client_store
    (alter (upd_cl_tokens_for_producer (fun t => t.[pid <- n])) cid) s).
Proof.
  intros H. etransitivity; [exact H|]. split; [done..|]. simpl. intros i c Hi.
  destruct (decide (i = cid)) as [->|Hne].
  - rewrite list_lookup_alter_eq, Hi. simpl. eexists. split; [done|]. split; [done|].
    simpl. intros q Hq. rewrite dict_get_set. case_decide; eauto.
  - rewrite list_lookup_alter_ne by done. exists c. split; [done|reflexivity].
Qed.

Lemma evolves_upd_client s0 s cid g :
  (forall c, cl_owner (g c) = cl_owner c /\
             cl_tokens_for_producer (g c) = cl_tokens_for_producer c) ->
  evolves s0 s -> evolves s0 (upd_w_client_store (alter g cid) s).
Proof.
  intros Hg H. etransitivity; [exact H|]. split; [done..|]. simpl. intros i c Hi.
  destruct (decide (i = cid)) as [->|Hne].
  - rewrite list_lookup_alter_eq, Hi. simpl. eexists. split; [done|].
    destruct (Hg c) as [E1 E2]. split; [done|]. by rewrite E2.
  - rewrite list_lookup_alter_ne by done. exists c. split; [done|reflexivity].
Qed.

Lemma evolves_new_client s0 s c :
  evolves s0 s -> evolves s0 (upd_w_client_store (fun h => h ++ [c]) s).
Proof.
  intros H. etransitivity; [exact H|]. split; [done..|]. simpl. intros i c0 Hi.
  exists c0. split; [by apply lookup_app_l_Some|reflexivity].
Qed.

Lemma evolves_same_store s0 s s' :
  w_num_tokens_per_producer s' = w_num_tokens_per_producer s ->
  w_size_for_queues s' = w_size_for_queues s ->
  lo_maxsize (w_local s') = lo_maxsize (w_local s) ->
  w_client_store s' = w_client_store s -> evolves s0 s -> evolves s0 s'.
Proof. intros E1 E2 E3 E4 [Hn Hq Hm Hs]. split; rewrite ?E1, ?E2, ?E3, ?E4; auto. Qed.

(** ** Changes of a producer *)

Section producer_changes.
Variables (s : World) (pid : string) (p : ProducerInfo).
Hypothesis Hinv : TokInv no_credit s.
Hypothesis Hp : (w_producer_infos s).[pid] = Some p.

Lemma outstanding_producer a : runner_outstanding a pid s = producer_outstanding a p.
Proof. unfold runner_outstanding. by rewrite Hp. Qed.

(** The token of the in-flight input is about to be returned. *)
Lemma TokInv_clear_pending mp :
  truthy (pi_pending_token_return p) = true ->
  pi_latest_input_sent_to_engine p = Some mp ->
  TokInv (credit (md_client_address (mp_metadata mp)) pid (-1))
    (put_producer pid (upd_pi_pending_token_return (fun _ => Some false) p) s).
Proof.
  intros Hpend Hl.
  eapply (TokInv_set_producer _ _ _ _ _
            (fun a => if decide (a = md_client_address (mp_metadata mp)) then -1 else 0)); eauto.
  - destruct (ti_producers _ _ Hinv _ _ Hp). by split.
  - intros a. rewrite outstanding_producer. unfold producer_outstanding, in_flight. simpl.
    rewrite Hl, Hpend. simpl. unfold from_client_at. case_bool_decide; case_decide; subst; lia || congruence.
  - intros a q. apply credit_covers.
Qed.

(** Clearing a flag that is not set. *)
Lemma TokInv_clear_not_pending :
  TokInv no_credit
    (put_producer pid (upd_pi_pending_token_return (fun _ => Some false) p) s).
Proof.
  eapply (TokInv_set_producer _ _ _ _ _ (fun _ => 0)); eauto.
  - destruct (ti_producers _ _ Hinv _ _ Hp). by split.
  - intros a. rewrite outstanding_producer. unfold producer_outstanding, in_flight. simpl.
    destruct (pi_latest_input_sent_to_engine p); [|lia]. destruct (_ && _); lia.
  - intros a q. unfold no_credit. case_decide; lia.
Qed.

(** The head of the queue becomes the in-flight input. *)
Lemma TokInv_dequeue mp q :
  truthy (pi_pending_token_return p) = false ->
  pi_input_queue p = mp :: q ->
  TokInv no_credit
    (put_producer pid (mkProducerInfo (pi_producer_id p) q (pi_size_for_queues p) (Some mp)
                    (pi_target_engines p) (Some true)) s).
Proof.
  intros Hpend Hq.
  eapply (TokInv_set_producer _ _ _ _ _ (fun _ => 0)); eauto.
  - destruct (ti_producers _ _ Hinv _ _ Hp) as [? ? Hlen Hown ? ?].
    rewrite Hq in Hlen, Hown. apply Forall_cons in Hown as [Hmp Hown]. simpl in Hlen.
    split; simpl; [done|done|lia|done| |by eauto]. by intros ? [= <-].
  - intros a. rewrite outstanding_producer. unfold producer_outstanding, in_flight. simpl.
    rewrite Hq, countb_cons, Hpend. simpl.
    destruct (pi_latest_input_sent_to_engine p), (from_client_at a mp); lia.
  - intros a q'. unfold no_credit. case_decide; lia.
Qed.

(** An input joins the queue. *)
Lemma TokInv_enqueue mp :
  of_producer pid mp ->
  Z.of_nat (length (pi_input_queue p)) <> pi_size_for_queues p ->
  TokInv (credit (md_client_address (mp_metadata mp)) pid 1)
    (put_producer pid (upd_pi_input_queue (fun q => q ++ [mp]) p) s).
Proof.
  intros Hmp Hfull.
  eapply (TokInv_set_producer _ _ _ _ _
            (fun a => if decide (a = md_client_address (mp_metadata mp)) then 1 else 0)); eauto.
  - destruct (ti_producers _ _ Hinv _ _ Hp) as [? Hsize Hlen Hown ? ?].
    split; simpl; [done|done| | |done|done].
    + rewrite length_app. simpl. lia.
    + apply Forall_app. by split; [|apply Forall_singleton].
  - intros a. rewrite outstanding_producer. unfold producer_outstanding, in_flight. simpl.
    rewrite countb_app, countb_cons. unfold from_client_at at 2.
    case_bool_decide; case_decide; subst; try congruence; unfold countb at 2; simpl;
      destruct (pi_latest_input_sent_to_engine p); lia.
  - intros a q. apply credit_covers.
Qed.

(** An input becomes the in-flight input without passing by the queue. *)
Lemma TokInv_set_in_flight mp :
  of_producer pid mp ->
  TokInv (credit (md_client_address (mp_metadata mp)) pid 1)
    (put_producer pid (upd_pi_pending_token_return (fun _ => Some true)
                    (upd_pi_latest_input_sent_to_engine (fun _ => Some mp) p)) s).
Proof.
  intros Hmp.
  eapply (TokInv_set_producer _ _ _ _ _
            (fun a => if decide (a = md_client_address (mp_metadata mp)) then 1 else 0)); eauto.
  - destruct (ti_producers _ _ Hinv _ _ Hp). split; simpl; auto.
    by intros ? [= <-].
  - intros a. rewrite outstanding_producer. unfold producer_outstanding.
    assert (in_flight a (upd_pi_pending_token_return (fun _ => Some true)
              (upd_pi_latest_input_sent_to_engine (fun _ => Some mp) p))
            = if decide (a = md_client_address (mp_metadata mp)) then 1 else 0) as ->.
    { unfold in_flight, from_client_at. simpl.
      case_bool_decide; case_decide; subst; congruence. }
    simpl. assert (0 <= in_flight a p); [|lia].
    unfold in_flight. destruct (pi_latest_input_sent_to_engine p); [|lia].
    destruct (_ && _); lia.
  - intros a q. apply credit_covers.
Qed.

(** Changing only the set of target engines. *)
Lemma TokInv_set_targets t :
  TokInv no_credit
    (put_producer pid (upd_pi_target_engines (fun _ => t) p) s).
Proof.
  eapply (TokInv_set_producer _ _ _ _ _ (fun _ => 0)); eauto.
  - destruct (ti_producers _ _ Hinv _ _ Hp). by split.
  - intros a. rewrite outstanding_producer. unfold producer_outstanding, in_flight. simpl. lia.
  - intros a q. unfold no_credit. case_decide; lia.
Qed.
End producer_changes.

(** A producer seen for the first time. *)
Lemma TokInv_new_producer s pid :
  TokInv no_credit s -> (w_producer_infos s).[pid] = None -> 0 <= w_size_for_queues s ->
  TokInv no_credit
    (put_producer pid (mkProducerInfo pid [] (w_size_for_queues s) None None None) s).
Proof.
  intros Hinv Hp Hs. eapply (TokInv_set_producer _ _ _ _ _ (fun _ => 0)); eauto.
  - by split.
  - intros a. unfold runner_outstanding. rewrite Hp. done.
  - intros a q. unfold no_credit. case_decide; lia.
Qed.

(** ** Changes of the local engine's side *)

(** Replacing its state, whose outstanding inputs change by at most [e a pid]
    for each client [a] and producer [pid]. *)
Lemma TokInv_set_local d d' s g (e : string -> string -> Z) :
  TokInv d s -> local_wf (g (w_local s)) ->
  (forall a pid, local_outstanding a pid (g (w_local s)) <=
                 local_outstanding a pid (w_local s) + e a pid) ->
  (forall a pid, d a pid + e a pid <= d' a pid) ->
  TokInv d' (upd_w_local g s).
Proof.
  intros [Hc Hp Hr Hlo Hb] Hwf He Hd. split; simpl; auto. intros Hnd.
  destruct (Hb Hnd) as [B1 B2].
  assert (forall a pid, outstanding a pid (upd_w_local g s) <= outstanding a pid s + e a pid) as Ho.
  { intros a pid. specialize (He a pid). unfold outstanding, runner_outstanding. simpl. lia. }
  split; simpl.
  - intros cid c pid Hcid. specialize (B1 cid c pid Hcid). specialize (Ho (cl_owner c) pid).
    specialize (Hd (cl_owner c) pid). destruct (_.[_]); lia.
  - intros a pid Ha. specialize (B2 a pid Ha). specialize (Ho a pid). specialize (Hd a pid). lia.
Qed.

Lemma local_item_credit a pid x :
  (if local_item a pid x then 1 else 0) = credit x.1.2 (in_producer_id (fc_input x.1.1)) 1 a pid.
Proof.
  unfold local_item, credit. repeat case_bool_decide; case_decide; naive_solver.
Qed.

(** An input joins the queue of the local engine. *)
Lemma TokInv_local_push s x :
  (0 < lo_maxsize (w_local s) ->
   Z.of_nat (length (lo_queue (w_local s))) < lo_maxsize (w_local s)) ->
  TokInv no_credit s ->
  TokInv (credit x.1.2 (in_producer_id (fc_input x.1.1)) 1)
    (upd_w_local (fun l => mkLocalState (lo_queue l ++ [x]) (lo_maxsize l) (lo_current l)) s).
Proof.
  intros Hfull HI. eapply (TokInv_set_local _ _ _ _ _ HI); [| |by intros; apply Z.eq_le_incl].
  { intros Hm. simpl in *. rewrite length_app. simpl. specialize (Hfull Hm). lia. }
  intros a pid. unfold local_outstanding. simpl. rewrite countb_app, countb_cons, local_item_credit.
  unfold countb at 2. simpl. lia.
Qed.

(** The engine takes the next input; one it was working on is forgotten. *)
Lemma TokInv_local_take s x q :
  lo_queue (w_local s) = x :: q -> TokInv no_credit s ->
  TokInv no_credit (upd_w_local (fun l => mkLocalState q (lo_maxsize l) (Some x)) s).
Proof.
  intros Hq HI. eapply (TokInv_set_local _ _ _ _ (fun _ _ => 0) HI); [| |done].
  { intros Hm. simpl in *. pose proof (ti_local _ _ HI Hm) as Hw. rewrite Hq in Hw. simpl in Hw. lia. }
  intros a pid. unfold local_outstanding. simpl. rewrite Hq, countb_cons.
  destruct (lo_current _) as [y|]; [destruct (local_item a pid y)|]; lia.
Qed.

(** The engine is done with its input, whose token is about to be returned. *)
Lemma TokInv_local_done s x :
  lo_current (w_local s) = Some x -> TokInv no_credit s ->
  TokInv (credit x.1.2 (in_producer_id (fc_input x.1.1)) (-1))
    (upd_w_local (fun l => mkLocalState (lo_queue l) (lo_maxsize l) None) s).
Proof.
  intros Hx HI.
  eapply (TokInv_set_local _ _ _ _ (credit x.1.2 (in_producer_id (fc_input x.1.1)) (-1)) HI);
    [exact (ti_local _ _ HI)| |by intros; apply Z.eq_le_incl].
  intros a pid. unfold local_outstanding. simpl. rewrite Hx, local_item_credit.
  unfold credit. case_decide; lia.
Qed.
