(* ===== verification/TokenSafety.v ===== *)
(** * Token accounting: every interleaving

    Every coroutine of the server keeps the invariant of [TokenInv] at every
    await, whatever the other coroutines do meanwhile; so the server never
    counts more tokens for a client than it granted, in any reachable state of
    the event loop. *)

From S2P Require Import Prelude Coro Protocol Config ServerState Trace ResultManager GabrielServer.
From S2P Require Import Dispatch ServerRunner GrpcServer WebsocketServer ZeroMQServer TokenInv.

Abbreviation Inv := (TokInv no_credit).
Abbreviation Safe p Q s0 s := (safe (E := server_sig) Inv evolves p Q s0 s).

Abbreviation J := (at_rest Inv evolves).

(** [p] keeps the invariant. *)
Abbreviation ok p := (keeps (E := server_sig) Inv evolves p).

Section ok_rules.
(** A coroutine that does not touch what the invariant looks at. *)
Lemma ok_preserves {A} (p : srv A) : (forall s, preserves token_view p s) -> ok p.
Proof.
  apply (keeps_preserves _ _ token_view); [by apply TokInv_view | by apply evolves_view].
Qed.

Lemma ok_readonly {A} (p : srv A) : readonly p -> ok p.
Proof. intros Hp. apply ok_preserves. intros s. by apply readonly_preserves. Qed.
End ok_rules.

(** ** Coroutines that leave the accounting alone *)

Section quiet.
Lemma get_worker_pres wid s : preserves token_view (get_worker wid) s.
Proof. unfold get_worker. pres. Qed.
Lemma upd_worker_pres wid g s :
  (forall w, ew_context (g w) = ew_context w) -> preserves token_view (upd_worker wid g) s.
Proof.
  intros Hg. unfold upd_worker. apply preserves_modify. intros s1. unfold token_view. simpl.
  do 2 f_equal. unfold contexts. simpl. apply list_eq. intros i. rewrite !list_lookup_fmap.
  destruct (decide (i = wid)) as [->|Hi].
  - rewrite list_lookup_alter_eq. destruct (_ !! wid) as [w|]; [|done]. simpl. by rewrite Hg.
  - by rewrite list_lookup_alter_ne.
Qed.

Lemma send_payload_pres wid mp s : preserves token_view (send_payload wid mp) s.
Proof.
  unfold send_payload, send_helper, EngineWrite_, PerfCounter_.
  repeat first [apply upd_worker_pres; done | apply get_worker_pres | progress pres].
Qed.

Lemma add_producer_pres wid pid s : preserves token_view (add_producer wid pid) s.
Proof.
  unfold add_producer. repeat first [apply upd_worker_pres; done | apply get_worker_pres | progress pres].
Qed.

Lemma find_target_engines_pres ts wids s : preserves token_view (find_target_engines ts wids) s.
Proof.
  revert s. induction wids as [|wid wids IH]; intros s; cbn -[mbind]; [done|].
  unfold MetricCall_.
  repeat first [apply get_worker_pres | apply IH | progress pres].
Qed.

Lemma engine_ids_of_pres wids s : preserves token_view (engine_ids_of wids) s.
Proof.
  revert s. induction wids as [|wid wids IH]; intros s; cbn -[mbind]; [done|].
  repeat first [apply get_worker_pres | apply IH | progress pres].
Qed.

Lemma drop_removed_targets_pres `{!PyEnv} X s : preserves token_view (drop_removed_targets X) s.
Proof. unfold drop_removed_targets. pres. Qed.

Lemma dispatch_loop_pres pid mp wids b s : preserves token_view (dispatch_loop pid mp wids b) s.
Proof.
  revert b s. induction wids as [|wid wids IH]; intros b s; cbn -[mbind]; [done|].
  repeat first [apply upd_worker_pres; done | apply get_worker_pres | apply add_producer_pres | apply send_payload_pres
               | apply IH | progress pres].
Qed.
End quiet.

(** ** Rules for object access *)

Section access.
Lemma safe_gets {A B} (f : World -> A) (k : A -> srv B) Q s0 s :
  Safe (k (f s)) Q s0 s -> Safe (gets f ≫= k) Q s0 s.
Proof. done. Qed.

Lemma safe_ret {A B} (a : A) (k : A -> srv B) Q s0 s :
  Safe (k a) Q s0 s -> Safe (Ret a ≫= k) Q s0 s.
Proof. done. Qed.

Lemma safe_modify {B} g (k : unit -> srv B) Q s0 s :
  Safe (k tt) Q s0 (g s) -> Safe (modify g ≫= k) Q s0 s.
Proof. done. Qed.

Lemma safe_get_producer {B} pid (k : ProducerInfo -> srv B) Q s0 s :
  (forall p, (w_producer_infos s).[pid] = Some p -> Safe (k p) Q s0 s) ->
  ((w_producer_infos s).[pid] = None -> Q (inr KeyError) s0 s) ->
  Safe (get_producer pid ≫= k) Q s0 s.
Proof. simpl. destruct (_.[_]); simpl; auto. Qed.

Lemma safe_get_client {B} cid (k : Client -> srv B) Q s0 s :
  (forall c, w_client_store s !! cid = Some c -> Safe (k c) Q s0 s) ->
  (w_client_store s !! cid = None -> Q (inr DanglingReference) s0 s) ->
  Safe (get_client cid ≫= k) Q s0 s.
Proof. simpl. destruct (_ !! _); simpl; auto. Qed.

Lemma safe_upd_producer {B} pid g p (k : unit -> srv B) Q s0 s :
  (w_producer_infos s).[pid] = Some p ->
  Safe (k tt) Q s0 (put_producer pid (g p) s) -> Safe (upd_producer pid g ≫= k) Q s0 s.
Proof.
  intros Hp HQ. simpl. unfold upd_w_producer_infos. rewrite Hp. exact HQ.
Qed.

Lemma ok_get_producer pid : ok (get_producer pid).
Proof. intros s0 s H. simpl. by destruct (_.[_]). Qed.
Lemma ok_get_client cid : ok (get_client cid).
Proof. intros s0 s H. simpl. by destruct (_ !! _). Qed.
Lemma ok_get_worker wid : ok (get_worker wid).
Proof. apply ok_preserves, get_worker_pres. Qed.
Lemma ok_upd_worker wid g : (forall w, ew_context (g w) = ew_context w) -> ok (upd_worker wid g).
Proof. intros Hg. apply ok_preserves. intros s. by apply upd_worker_pres. Qed.
Lemma ok_send_payload wid mp : ok (send_payload wid mp).
Proof. apply ok_preserves. intros. apply send_payload_pres. Qed.
Lemma ok_with_lock {A} l (p : srv A) : ok p -> ok (with_lock l p).
Proof.
  intros Hp. apply keeps_bind; [apply keeps_bind; [keeps_a_call | intros; apply keeps_raise]|].
  intros. apply keeps_try_finally; [done | keeps_a_call].
Qed.
Lemma ok_StreamNext n m : ok (StreamNext_ n m).
Proof. apply keeps_bind; [keeps_a_call | intros; apply keeps_raise]. Qed.
Lemma ok_GrpcWrite n m : ok (GrpcWrite_ n m).
Proof. apply keeps_bind; [keeps_a_call | intros; apply keeps_raise]. Qed.
Lemma ok_WsSend n m : ok (WsSend_ n m).
Proof. apply keeps_bind; [keeps_a_call | intros; apply keeps_raise]. Qed.
Lemma ok_ZmqSend n m : ok (ZmqSend_ n m).
Proof. apply keeps_bind; [keeps_a_call | intros; apply keeps_raise]. Qed.
Lemma ok_MetricRemove m : ok (MetricRemove_ m).
Proof. apply keeps_bind; [keeps_a_call | intros; apply keeps_raise]. Qed.
Lemma ok_MetricCall m : ok (MetricCall_ m).
Proof. unfold MetricCall_. keeps_a_call. Qed.
Lemma ok_PerfCounter : ok PerfCounter_.
Proof. unfold PerfCounter_. keeps_a_call. Qed.
Lemma ok_process_result `{!PyEnv} r : ok (process_result r).
Proof. apply ok_readonly, process_result_readonly. Qed.

(** Changes outside of what the invariant looks at. *)
Lemma ok_modify_view g : (forall s, token_view (g s) = token_view s) -> ok (modify g).
Proof. intros Hg. apply ok_preserves. intros s. by apply preserves_modify. Qed.
End access.

#[export] Hint Resolve ok_get_producer ok_get_client ok_get_worker
  ok_send_payload ok_StreamNext ok_GrpcWrite
  ok_WsSend ok_ZmqSend ok_MetricRemove ok_MetricCall ok_PerfCounter ok_process_result : gabriel.

#[export] Hint Extern 1 (ok (upd_worker _ _)) => apply ok_upd_worker; done : gabriel.

(** Structural proof that a coroutine keeps the invariant. *)
Ltac ok_tac :=
  repeat first
    [ progress keeps_tac
    | match goal with
      | |- ok (modify _) => apply ok_modify_view; done
      | |- ok (with_lock _ _) => apply ok_with_lock
      end ].

(** ** The next input of an engine *)

(** Taking the head of the queue, when no token return is pending. *)
Lemma ok_fetch {B} pid (k : option MetadataPayload -> srv B) :
  (forall r, ok (k r)) ->
  ok (get_producer pid ≫= fun p =>
      (if truthy (pi_pending_token_return p) then Ret None else get_input_from_queue pid) ≫= k).
Proof.
  intros Hk s0 s HJ. apply safe_get_producer; [|done]. intros p Hp.
  destruct (truthy (pi_pending_token_return p)) eqn:Hpend; [by apply Hk|].
  apply safe_bind. unfold get_input_from_queue. apply safe_get_producer; [|done].
  intros p' Hp'. assert (p' = p) as -> by congruence. clear Hp'.
  destruct (pi_input_queue p) as [|mp q] eqn:Hq; [by apply Hk|].
  eapply safe_upd_producer; [done|].
  eapply safe_upd_producer; [apply put_producer_get|]. rewrite put_put_producer.
  eapply safe_upd_producer; [apply put_producer_get|]. rewrite put_put_producer.
  simpl. unfold upd_pi_input_queue, upd_pi_pending_token_return,
    upd_pi_latest_input_sent_to_engine. simpl. rewrite Hq. apply Hk. destruct HJ as [HI HG].
  split; [|by apply evolves_put_producer].
  by apply TokInv_dequeue.
Qed.

Lemma ok_send_next_input_loop wid n : ok (send_next_input_loop wid n).
Proof.
  induction n as [|n IH]; cbn -[mbind]; [unfold clear_current_input_metadata; ok_tac|].
  apply keeps_bind; [ok_tac|intros _]. apply keeps_bind; [ok_tac|intros w].
  apply keeps_bind; [ok_tac|intros pid]. apply ok_fetch. intros r. ok_tac.
Qed.

Lemma ok_send_next_input wid : ok (send_next_input wid).
Proof. unfold send_next_input. apply keeps_bind; [ok_tac|]. intros. apply ok_send_next_input_loop. Qed.

#[export] Hint Resolve ok_send_next_input : gabriel.

(** ** Results and engine streams *)

Section results.
Context `{!PyEnv, !Codec ToClient, !Transport, !TransportOk}.

Lemma ok_send_via_transport a b : ok (send_via_transport a b).
Proof. apply ok_readonly. auto with gabriel. Qed.

#[local] Hint Resolve ok_send_via_transport : gabriel.

(** Returning the token the invariant has just set aside. *)
Lemma send_result_return a pid eid r s0 s :
  TokInv (credit a pid (-1)) s -> evolves s0 s ->
  Safe (send_result a pid eid r true) (fun _ s0 s => J s0 s) s0 s.
Proof.
  intros HI HG. assert (J s0 s) as HJ by (split; [eapply (TokInv_credit_nonpos a pid (-1)); [lia|done]|done]).
  unfold send_result. apply safe_gets.
  destruct (_.[a]) as [cid|] eqn:Ha; [|done].
  destruct (ti_clients _ _ HI _ _ Ha) as (c & Hc & Hown).
  apply safe_get_client; [|done]. intros c' Hc'. assert (c' = c) as -> by congruence.
  destruct ((cl_tokens_for_producer c).[pid]) as [n|] eqn:Hn; [|by apply ok_send_via_transport].
  unfold set_tokens, upd_client. apply safe_modify, ok_send_via_transport.
  split; [|by apply evolves_set_tokens].
  eapply TokInv_set_tokens; eauto.
  - intros _ [B _]. specialize (B cid c pid Hc). rewrite Hn, Hown, credit_same in B.
    rewrite Hown. unfold no_credit. lia.
  - intros a' pid' Hne. rewrite Hown in Hne. by rewrite credit_elsewhere.
Qed.

(** Sending without returning a token. *)
Lemma ok_send_result_no_token a pid eid r : ok (send_result a pid eid r false).
Proof. unfold send_result. ok_tac. Qed.

Lemma ok_engines_updated_cb : ok engines_updated_cb.
Proof.
  unfold engines_updated_cb. apply keeps_bind; [ok_tac|intros ids].
  apply keeps_bind; [ok_tac|intros cl]. generalize (length cl) (dict_keys cl). intros n todo.
  induction todo as [|a todo IH]; cbn -[mbind]; ok_tac.
Qed.

#[local] Hint Resolve ok_send_result_no_token ok_engines_updated_cb : gabriel.

(** The returned token is the one of the in-flight input. *)
Lemma settle_pending pid p mp (eid : string) r {B} (k : bool -> srv B) s0 s :
  (w_producer_infos s).[pid] = Some p ->
  truthy (pi_pending_token_return p) = true ->
  pi_latest_input_sent_to_engine p = Some mp ->
  (forall b, ok (k b)) -> J s0 s ->
  Safe (upd_producer pid (upd_pi_pending_token_return (fun _ => Some false)) ≫= fun _ =>
        send_result (md_client_address (mp_metadata mp)) (pi_producer_id p) eid r true ≫= k)
    (fun _ s0 s => J s0 s) s0 s.
Proof.
  intros Hp Hpend Hl Hk [HI HG]. eapply safe_upd_producer; [done|].
  rewrite (pw_id _ _ _ (ti_producers _ _ HI _ _ Hp)).
  apply safe_bind. eapply safe_mono; [|apply send_result_return].
  - intros [b|x] s1 s2 H2; [by apply Hk|done].
  - by apply TokInv_clear_pending.
  - by apply evolves_put_producer.
Qed.

Lemma answer_and_continue_safe wid w m p r s0 s :
  (w_producer_infos s).[md_producer_id m] = Some p -> J s0 s ->
  Safe (answer_and_continue wid w m p r) (fun _ s0 s => J s0 s) s0 s.
Proof.
  intros Hp HJ. unfold answer_and_continue.
  assert (ok ((if ew_all_responses_required w then
                 send_result (md_client_address m) (pi_producer_id p) (ew_engine_id w) r false
                 ≫= fun _ => Ret tt
               else Ret tt) ≫= fun _ => send_next_input wid)) as Hno.
  { ok_tac. }
  destruct (truthy (pi_pending_token_return p)) eqn:Hpend; [|by apply safe_ret, Hno].
  destruct (pi_latest_input_sent_to_engine p) as [mp|] eqn:Hl; [|done].
  apply safe_ret. case_bool_decide as Hm; [subst m|by apply Hno].
  apply settle_pending; auto with gabriel.
Qed.

Lemma ok_handle_from_engine ctx m : ok (handle_from_engine ctx m).
Proof.
  assert (forall wid, ok (handle_result wid m)) as Hr.
  { intros wid. unfold handle_result, calculate_engine_metrics.
    apply keeps_bind; [ok_tac|intros _]. apply keeps_bind; [ok_tac|intros w].
    apply keeps_bind; [ok_tac|intros _]. apply keeps_bind; [ok_tac|intros _].
    destruct (ew_current_input_metadata w) as [md|]; [|ok_tac].
    intros s0 s HJ. apply safe_gets. destruct (_.[_]) as [p|] eqn:Hp; [|done].
    by apply answer_and_continue_safe. }
  unfold handle_from_engine. ok_tac.
Qed.

Lemma ok_settle_current_input w : ok (settle_current_input w).
Proof.
  unfold settle_current_input. destruct (ew_current_input_metadata w) as [md|]; [|ok_tac].
  intros s0 s HJ. apply safe_gets.
  destruct (_.[md_producer_id md]) as [p|] eqn:Hp; [|done].
  destruct (pi_latest_input_sent_to_engine p) as [mp|] eqn:Hl; [|done].
  case_bool_decide as Hmd; [subst md|done].
  destruct (truthy (pi_pending_token_return p)) eqn:Hpend; cbn [andb orb].
  - apply settle_pending; auto with gabriel.
  - destruct (ew_all_responses_required w); [|done].
    eapply safe_upd_producer; [done|]. destruct HJ as [HI HG].
    assert (ok (send_result (md_client_address (mp_metadata mp)) (pi_producer_id p)
              (ew_engine_id w) (disconnected_result (ew_engine_id w) (mp_metadata mp)) false
              ≫= fun _ => Ret tt)) as Hs by ok_tac.
    apply Hs. split; [|by apply evolves_put_producer]. by apply TokInv_clear_not_pending.
Qed.

Lemma ok_del_worker c : ok (modify (upd_w_engine_workers (dict_del c))).
Proof.
  apply keeps_modify; [intros; by apply TokInv_del_worker|].
  intros s0 s HG. by eapply evolves_same_store; [| | | |exact HG].
Qed.

Lemma ok_remove_engine_worker c : ok (remove_engine_worker c).
Proof.
  pose proof ok_settle_current_input. pose proof ok_del_worker.
  unfold remove_engine_worker. ok_tac.
Qed.

Lemma ok_find_context eid items : ok (find_context eid items).
Proof. induction items as [|[c wid] items IH]; cbn -[mbind]; ok_tac. Qed.

(** A new worker object enters the registry under its own context. *)
Lemma ok_register_worker {B} ctx reg (k : unit -> srv B) :
  ok (k tt) ->
  ok (wid ← new_engine_worker ctx reg;
      modify (upd_w_engine_workers (fun d => d.[RContext ctx <- wid])) ≫= k).
Proof.
  intros Hk s0 s [HI HG]. apply safe_bind. simpl. apply Hk. split.
  - apply (TokInv_set_worker _ (upd_w_workers _ s)); [|by apply TokInv_new_worker].
    unfold contexts. simpl. rewrite fmap_app. simpl.
    rewrite <- (length_fmap ew_context). by rewrite list_lookup_middle.
  - by eapply evolves_same_store; [| | | |exact HG].
Qed.

Lemma ok_add_engine_worker ctx reg : ok (add_engine_worker ctx reg).
Proof.
  pose proof ok_find_context. pose proof ok_remove_engine_worker.
  unfold add_engine_worker. cbn zeta. apply keeps_bind; [ok_tac|intros ids].
  apply keeps_bind; [ok_tac|intros _]. apply ok_register_worker. ok_tac.
Qed.

Lemma ok_EngineSession ctx msgs : ok (EngineSession ctx msgs).
Proof.
  pose proof ok_add_engine_worker. pose proof ok_handle_from_engine.
  pose proof ok_remove_engine_worker. unfold EngineSession. ok_tac.
Qed.
End results.

(** ** Inputs *)

(** The object [cid] is the client stored under the address [a]. *)
Definition client_at (cid : nat) (a : string) (s : World) : Prop :=
  exists c, w_client_store s !! cid = Some c /\ cl_owner c = a.

(** ... and it has tokens for the producer. *)
Definition has_tokens (cid : nat) (a pid : string) (s : World) : Prop :=
  exists c, w_client_store s !! cid = Some c /\ cl_owner c = a /\
            is_Some ((cl_tokens_for_producer c).[pid]).

Lemma client_at_stable cid a s s' : client_at cid a s -> evolves s s' -> client_at cid a s'.
Proof.
  intros (c & Hc & <-) [_ _ _ Hs]. destruct (Hs _ _ Hc) as (c' & Hc' & [Ho _]). by exists c'.
Qed.

Lemma has_tokens_stable cid a pid s s' :
  has_tokens cid a pid s -> evolves s s' -> has_tokens cid a pid s'.
Proof.
  intros (c & Hc & <- & Ht) [_ _ _ Hs]. destruct (Hs _ _ Hc) as (c' & Hc' & [Ho Hm]).
  exists c'. split_and!; auto.
Qed.

(** The outcome of handing an input to the engines: when it is accepted, one
    more input of the client is outstanding. *)
Definition accepted (cid : nat) (a pid : string) (o : (StatusCode * string) + exn)
    (s0 s : World) : Prop :=
  match o with
  | inl (SUCCESS, _) =>
      TokInv (credit a pid 1) s /\ evolves s0 s /\ has_tokens cid a pid s
  | _ => J s0 s
  end.

Lemma accepted_J cid a pid o s0 s : J s0 s -> has_tokens cid a pid s -> accepted cid a pid o s0 s.
Proof.
  intros [HI HG] Ht. destruct o as [[[] msg]|x]; try by split.
  split_and!; auto. eapply TokInv_weaken; [|exact HI].
  intros. unfold no_credit, credit. case_decide; lia.
Qed.

(** What the client-facing server relies on of the callback it hands inputs
    to. *)
Class EngineCbOk (cb : FromClient -> string -> Any -> srv (StatusCode * string)) : Prop := {
  engine_cb_safe : forall fc a ci cid s0 s,
    J s0 s -> has_tokens cid a (in_producer_id (fc_input fc)) s ->
    Safe (cb fc a ci) (accepted cid a (in_producer_id (fc_input fc))) s0 s;
}.

Section inputs.
Context `{!PyEnv}.
Variables (cid : nat) (a pid : string).
Abbreviation T := (has_tokens cid a pid).

Lemma safe_quiet {A B} (p : srv A) (k : A -> srv B) Q s0 s :
  (forall s, preserves token_view p s) -> J s0 s -> T s ->
  (forall x s0 s, J s0 s -> T s -> Safe (k x) Q s0 s) ->
  (forall x s0 s, J s0 s -> T s -> Q (inr x) s0 s) ->
  Safe (p ≫= k) Q s0 s.
Proof.
  intros Hp [HI HG] HT Hk Hx. apply safe_bind.
  apply (safe_preserves _ _ token_view) with (P := T);
    eauto using TokInv_view, evolves_view, has_tokens_stable.
  intros [x|x] s1 s2 H1 H2 H3; [apply Hk | apply Hx]; by try split.
Qed.

Lemma put_producer_T p s : T s -> T (put_producer pid p s).
Proof. intros HT. eapply has_tokens_stable; [exact HT|]. by apply evolves_put_producer. Qed.

Lemma accepted_put msg p s0 s :
  TokInv (credit a pid 1) (put_producer pid p s) -> evolves s0 s -> T s ->
  accepted cid a pid (inl (SUCCESS, msg)) s0 (put_producer pid p s).
Proof. intros HI HG HT. split_and!; auto using evolves_put_producer, put_producer_T. Qed.

Lemma add_input_to_queue_safe mp full s0 s :
  md_client_address (mp_metadata mp) = a -> of_producer pid mp -> J s0 s -> T s ->
  Safe (success ← add_input_to_queue pid mp;
        if success : bool then Ret (SUCCESS, "") else Ret (SERVER_DROPPED_FRAME, full))
    (accepted cid a pid) s0 s.
Proof.
  intros Ha Hown HJ HT. apply safe_bind. unfold add_input_to_queue.
  apply safe_get_producer; [|done]. intros p Hp. destruct (Z.eqb_spec (Z.of_nat (length (pi_input_queue p))) (pi_size_for_queues p));
    [done|].
  eapply safe_upd_producer; [done|]. destruct HJ as [HI HG].
  apply safe_get_producer; [|by rewrite put_producer_get].
  intros p' Hp'. simpl. intros _. refine (accepted_put "" _ _ _ _ HG HT).
  subst a. by apply TokInv_enqueue.
Qed.

Lemma set_in_flight_safe mp s0 s :
  md_client_address (mp_metadata mp) = a -> of_producer pid mp -> J s0 s -> T s ->
  Safe (upd_producer pid (upd_pi_latest_input_sent_to_engine (fun _ => Some mp)) ;;
        upd_producer pid (upd_pi_pending_token_return (fun _ => Some true)) ;;
        Ret (SUCCESS, ""))
    (accepted cid a pid) s0 s.
Proof.
  intros Ha Hown HJ HT. destruct ((w_producer_infos s).[pid]) as [p|] eqn:Hp.
  - eapply safe_upd_producer; [done|].
    eapply safe_upd_producer; [apply put_producer_get|]. rewrite put_put_producer.
    destruct HJ as [HI HG]. refine (accepted_put "" _ _ _ _ HG HT).
    subst a. by apply TokInv_set_in_flight.
  - unfold upd_producer. apply safe_modify, safe_modify.
    assert (forall g, upd_w_producer_infos (fun d =>
              match d.[pid] with Some p => d.[pid <- g p] | None => d end) s = s) as Hid.
    { intros g. unfold upd_w_producer_infos. rewrite Hp. by destruct s. }
    rewrite !Hid. by apply (accepted_J cid a pid (inl (SUCCESS, ""))).
Qed.

Lemma set_targets_safe t Q s0 s :
  J s0 s -> T s ->
  (forall s0 s, J s0 s -> T s -> Q (inl tt) s0 s) ->
  Safe (upd_producer pid (upd_pi_target_engines (fun _ => t))) Q s0 s.
Proof.
  intros [HI HG] HT Hk. unfold upd_producer, modify, upd_w_producer_infos. simpl.
  destruct ((w_producer_infos s).[pid]) as [p|] eqn:Hp.
  - apply (Hk _ (put_producer pid (upd_pi_target_engines (fun _ => t) p) s));
      [|by apply put_producer_T].
    split; [by apply TokInv_set_targets | by apply evolves_put_producer].
  - destruct s. by apply Hk.
Qed.

Lemma process_input_safe fc ci s0 s :
  J s0 s -> T s ->
  Safe (process_input_from_client pid fc a ci) (accepted cid a pid) s0 s.
Proof.
  intros HJ HT. unfold process_input_from_client.
  apply safe_quiet; [intros; unfold MetricCall_; pres|done|done| |done]. clear s0 s HJ HT.
  intros _ s0 s HJ HT. apply safe_gets.
  apply safe_quiet; [apply find_target_engines_pres|done|done| |done].
  generalize (dict_values (w_engine_workers s)). clear s0 s HJ HT.
  intros wids X s0 s HJ HT. case_decide.
  { apply safe_quiet; [apply engine_ids_of_pres|done|done| |done]. by intros. }
  apply safe_get_producer; [|by auto]. intros p Hp.
  set (rest := fun _ : unit => all_busy ← dispatch_loop pid _ (set_iter X) true; _).
  assert (forall s0 s, J s0 s -> T s -> Safe (rest tt) (accepted cid a pid) s0 s) as Hrest.
  { intros s1 s2 HJ' HT'. unfold rest.
    apply safe_quiet; [intros; apply dispatch_loop_pres|done|done| |done].
    intros [|] s3 s4 HJ4 HT4; [by apply add_input_to_queue_safe | by apply set_in_flight_safe]. }
  case_decide; [by apply safe_ret, Hrest|].
  apply safe_bind. apply safe_quiet; [apply drop_removed_targets_pres|done|done| |done].
  intros _ s1 s2 HJ2 HT2. by apply set_targets_safe.
Qed.
End inputs.

(** The callback of [_Server]. *)
#[export] Instance send_to_engine_ok `{!PyEnv} : EngineCbOk send_to_engine.
Proof.
  constructor. intros fc a ci cid s0 s HJ HT. unfold send_to_engine.
  set (pid := in_producer_id (fc_input fc)) in *. apply safe_gets.
  assert (forall s0 s, J s0 s -> has_tokens cid a pid s ->
    Safe (get_producer pid ;; process_input_from_client pid fc a ci) (accepted cid a pid) s0 s)
    as Hrest.
  { intros s1 s2 HJ2 HT2. apply safe_get_producer; [|by auto]. intros. by apply process_input_safe. }
  destruct (_.[pid]) as [p|] eqn:Hp; [by apply safe_ret, Hrest|].
  apply safe_bind, safe_gets. unfold new_producer_info.
  destruct (Z.ltb_spec (w_size_for_queues s) 0); [done|].
  destruct HJ as [HI HG]. apply (Hrest _ (put_producer pid _ s)); [|by apply put_producer_T].
  split; [by apply TokInv_new_producer | by apply evolves_put_producer].
Qed.

(** ** The messages of a client *)

Section consumers.
Context `{!PyEnv, !Codec ToClient}.
Context (cb : FromClient -> string -> Any -> srv (StatusCode * string)) `{!EngineCbOk cb}.

Lemma ok_upd_client cid g :
  (forall c, cl_owner (g c) = cl_owner c /\
             cl_tokens_for_producer (g c) = cl_tokens_for_producer c) ->
  ok (upd_client cid g).
Proof.
  intros Hg. apply keeps_modify; [intros; by apply TokInv_upd_client | intros; by apply evolves_upd_client].
Qed.

Lemma consume_token_safe cid a pid s0 s :
  TokInv (credit a pid 1) s -> evolves s0 s -> has_tokens cid a pid s ->
  Safe (consume_token cid pid) (fun _ s0 s => J s0 s) s0 s.
Proof.
  intros HI HG (c & Hc & <- & [n Hn]). unfold consume_token, set_tokens, upd_client. simpl.
  rewrite Hc. simpl. rewrite Hn. simpl. split; [|by apply evolves_set_tokens].
  eapply TokInv_set_tokens; eauto.
  - intros _ [B _]. specialize (B cid c pid Hc). rewrite Hn, credit_same in B.
    unfold no_credit. lia.
  - intros a' pid' Hne. by rewrite credit_elsewhere.
Qed.

(** Granting the tokens of a producer seen for the first time. *)
Lemma grant_tokens_safe cid c pid s0 s :
  J s0 s -> w_client_store s !! cid = Some c -> (cl_tokens_for_producer c).[pid] = None ->
  let s' := upd_w_client_store (alter (upd_cl_tokens_for_producer
              (fun t => t.[pid <- w_num_tokens_per_producer s])) cid) s in
  J s0 s' /\ has_tokens cid (cl_owner c) pid s'.
Proof.
  intros [HI HG] Hc Hn. split; [split; [|by apply evolves_set_tokens]|].
  - eapply TokInv_set_tokens; eauto; [|done]. intros _ [B _]. specialize (B cid c pid Hc).
    rewrite Hn in B. unfold no_credit in *. lia.
  - eexists. simpl. rewrite list_lookup_alter_eq, Hc. split; [done|]. split; [done|].
    simpl. rewrite dict_get_set_eq. eauto.
Qed.

Lemma forward_input_safe cid a fc ci s0 s :
  J s0 s -> client_at cid a s ->
  Safe (forward_input cb cid a fc ci) (accepted cid a (in_producer_id (fc_input fc))) s0 s.
Proof.
  intros HJ (c & Hc & <-). unfold forward_input. set (pid := in_producer_id (fc_input fc)).
  apply safe_get_client; [|done]. intros c' Hc'. assert (c' = c) as -> by congruence.
  apply safe_gets.
  set (rest := fun _ : unit => c ← get_client cid; _).
  assert (forall s, J s0 s -> has_tokens cid (cl_owner c) pid s ->
    Safe (rest tt) (accepted cid (cl_owner c) pid) s0 s) as Hrest.
  { intros s' HJ' HT'. pose proof HT' as (c1 & Hc1 & _ & [n Hn]). unfold rest.
    apply safe_get_client; [|done]. intros c2 Hc2. assert (c2 = c1) as -> by congruence.
    rewrite Hn. apply safe_ret. destruct (n <? 1); [done|]. by apply engine_cb_safe. }
  destruct ((cl_tokens_for_producer c).[pid]) as [n|] eqn:Hn.
  - apply safe_ret, Hrest; [done|]. exists c. eauto.
  - unfold set_tokens, upd_client. apply safe_modify.
    destruct (grant_tokens_safe cid c pid s0 s HJ Hc Hn). by apply Hrest.
Qed.

Lemma consumer_helper_safe cid a fc s0 s :
  J s0 s -> client_at cid a s ->
  Safe (consumer_helper cb cid a fc)
    (fun o s0 s => if is_registration fc then J s0 s
                   else accepted cid a (in_producer_id (fc_input fc)) o s0 s) s0 s.
Proof.
  intros HJ Hat. destruct fc as [|i|info]; cbn [consumer_helper is_registration].
  1,2: apply safe_get_client; [|done]; intros c Hc;
    destruct (cl_client_info c) as [ci|]; [|done]; by apply forward_input_safe.
  assert (ok (upd_client cid (upd_cl_client_info (fun _ => Some info)) ;;
              Ret (SUCCESS, "" : string))) as Hreg.
  { apply keeps_bind; [by apply ok_upd_client|intros; apply keeps_ret]. }
  by apply Hreg.
Qed.

(** What follows [_consumer_helper] in every transport: consume a token for
    an accepted input, answer otherwise. *)
Lemma consumer_helper_bind {B} cid a fc (k : StatusCode * string -> srv B) s0 s :
  J s0 s -> client_at cid a s ->
  (forall msg, is_registration fc = true -> ok (k (SUCCESS, msg))) ->
  (forall st msg, st <> SUCCESS -> ok (k (st, msg))) ->
  (forall msg s0 s, is_registration fc = false ->
     Safe (consume_token cid (in_producer_id (fc_input fc))) (fun _ s0 s => J s0 s) s0 s ->
     Safe (k (SUCCESS, msg)) (fun _ s0 s => J s0 s) s0 s) ->
  Safe (consumer_helper cb cid a fc ≫= k) (fun _ s0 s => J s0 s) s0 s.
Proof.
  intros HJ Hat Hreg Herr Hin. apply safe_bind.
  eapply safe_mono; [|by apply consumer_helper_safe].
  intros [[st msg]|x] s1 s2 Ho; [|by destruct (is_registration fc)].
  destruct (decide (st = SUCCESS)) as [->|Hst].
  - destruct (is_registration fc) eqn:Hr; [by apply Hreg|].
    destruct Ho as (HI & HG & HT). apply Hin; [done|]. by eapply consume_token_safe.
  - apply Herr; [done|]. destruct (is_registration fc); [done|]. by destruct st.
Qed.

Lemma ok_make_registered : ok make_registered.
Proof. unfold make_registered. ok_tac. Qed.
End consumers.

#[export] Hint Resolve ok_make_registered : gabriel.

Lemma ok_keep {A} (p : srv A) (P : World -> Prop) s0 s :
  ok p -> (forall s s', P s -> evolves s s' -> P s') -> J s0 s -> P s ->
  Safe p (fun _ s0 s => J s0 s /\ P s) s0 s.
Proof.
  intros Hp HP [HI HG] HPs.
  eapply safe_mono; [|apply (safe_keep _ _ p P); [done| |done|done]].
  - intros o s1 s2 (H1 & H2 & H3). by split.
  - apply Hp. split; [done|reflexivity].
Qed.

Lemma safe_keep_client {A} (p : srv A) cid a s0 s :
  (forall s0 s, J s0 s -> client_at cid a s -> Safe p (fun _ s0 s => J s0 s) s0 s) ->
  J s0 s -> client_at cid a s ->
  Safe p (fun _ s0 s => J s0 s /\ client_at cid a s) s0 s.
Proof.
  intros Hp [HI HG] Hat.
  eapply safe_mono; [|apply (safe_keep _ _ p (client_at cid a)); [|apply Hp|done|done]].
  - intros o s1 s2 (H1 & H2 & H3). by split.
  - apply client_at_stable.
  - split; [done|reflexivity].
  - done.
Qed.

(** A loop over the messages of a client. *)
Lemma safe_messages {X} next (ms : list X) body cid a s0 s :
  (forall m, ok (next m)) ->
  (forall m s0 s, J s0 s -> client_at cid a s -> Safe (body m) (fun _ s0 s => J s0 s) s0 s) ->
  J s0 s -> client_at cid a s ->
  Safe (async_for next ms body) (fun _ s0 s => J s0 s) s0 s.
Proof.
  intros Hn Hb HJ Hat.
  apply safe_async_for with (L := fun s0 s => J s0 s /\ client_at cid a s).
  - intros m s1 s2 [HJ2 Hat2]. apply ok_keep; auto. apply client_at_stable.
  - intros m s1 s2 [HJ2 Hat2]. eapply safe_mono; [|apply safe_keep_client; [apply Hb|done|done]].
    intros [[]|x] s3 s4 [H3 H4]; [by split | done].
  - by intros o s1 s2 [].
  - done.
Qed.

(** Opening a session: a new client object under the address. *)
Lemma open_session_safe {B} a conn (k : nat -> srv B) Q s0 s :
  J s0 s ->
  (forall cid s0 s, J s0 s -> client_at cid a s -> Safe (k cid) Q s0 s) ->
  Safe (Grpc.open_session a conn ≫= k) Q s0 s.
Proof.
  intros [HI HG] Hk. apply safe_bind. simpl. apply Hk.
  - split.
    + eapply TokInv_view; [|by apply (TokInv_new_client s a conn)]. done.
    + eapply evolves_same_store; [| | | |by apply (evolves_new_client s0 s (mkClient a [] [] conn None))];
        done.
  - eexists. simpl. by rewrite list_lookup_middle.
Qed.

Lemma ok_del_client a : ok (Grpc.del_client a).
Proof.
  unfold Grpc.del_client. apply keeps_bind; [ok_tac|]. intros d. destruct (_.[a]); [|ok_tac].
  apply keeps_modify; [intros; by apply TokInv_del_client|].
  intros s0 s H. by eapply evolves_same_store; [| | | |exact H].
Qed.

Lemma ok_del_write_lock a : ok (Grpc.del_write_lock a).
Proof. unfold Grpc.del_write_lock. ok_tac. Qed.

#[export] Hint Resolve ok_del_client ok_del_write_lock : gabriel.

(** ** gRPC sessions *)

Section grpc.
Context `{!PyEnv, !Codec ToClient}.
Context (cb : FromClient -> string -> Any -> srv (StatusCode * string)) `{!EngineCbOk cb}.

Lemma grpc_handle_safe fc ctx a cid s0 s :
  J s0 s -> client_at cid a s ->
  Safe (Grpc.handle_from_client cb fc ctx a cid) (fun _ s0 s => J s0 s) s0 s.
Proof.
  intros HJ Hat. apply consumer_helper_bind; auto.
  - intros msg Hr. cbn beta iota. rewrite decide_True by done. rewrite Hr. ok_tac.
  - intros st msg Hst. cbn beta iota. rewrite decide_False by done. ok_tac.
  - intros msg s1 s2 Hr Hc. cbn beta iota. rewrite decide_True by done. rewrite Hr.
    do 2 apply safe_bind. eapply safe_mono; [|exact Hc]. by intros [[]|x] s3 s4 H4.
Qed.

Lemma ok_producer_stream ctx msgs a : ok (Grpc.producer_stream cb ctx msgs a).
Proof.
  induction msgs as [|m msgs IH]; cbn -[mbind anext]; [ok_tac|].
  apply keeps_bind; [ok_tac|]. intros [|]; [|ok_tac].
  intros s0 s HJ. apply safe_gets. destruct (_.[a]) as [cid|] eqn:Ha; [|done].
  destruct (ti_clients _ _ (proj1 HJ) _ _ Ha) as (c & Hc & Hown).
  apply safe_get_client; [|done]. intros c' Hc'. apply safe_bind.
  eapply safe_mono; [|apply grpc_handle_safe; [done|by exists c]].
  intros [[]|x] s1 s2 H2; [by apply IH|done].
Qed.

Lemma ok_ClientSession ctx md msgs : ok (Grpc.ClientSession cb ctx md msgs).
Proof.
  unfold Grpc.ClientSession. cbn zeta. destruct (_ && _); [|ok_tac].
  case_decide; [apply ok_producer_stream|].
  intros s0 s HJ. apply open_session_safe; [done|]. clear s0 s HJ.
  intros cid s0 s HJ Hat. apply safe_try_finally.
  eapply safe_mono; [|eapply safe_messages;
    [ok_tac|intros; by apply grpc_handle_safe|done|exact Hat]].
  intros o s1 s2 H2. eapply safe_mono;
    [|apply (keeps_bind _ _ _ _ (ok_del_client _) (fun _ => ok_del_write_lock _)); exact H2].
  by intros [].
Qed.
End grpc.

(** ** WebSocket connections *)

Section websocket.
Context `{!PyEnv, !Codec ToClient, !Codec FromClient}.
Context (cb : FromClient -> string -> Any -> srv (StatusCode * string)) `{!EngineCbOk cb}.

Lemma ok_locked_send a ws b : ok (Ws.locked_send a ws b).
Proof. unfold Ws.locked_send. ok_tac. Qed.

Lemma ws_consume_safe ws a cid raw s0 s :
  J s0 s -> client_at cid a s ->
  Safe (Ws.consume cb ws a cid raw) (fun _ s0 s => J s0 s) s0 s.
Proof.
  pose proof ok_locked_send.
  intros HJ Hat. unfold Ws.consume. destruct (parse raw) as [fc|]; [|done].
  apply safe_ret. apply consumer_helper_bind; auto.
  - intros msg Hr. cbn beta iota. rewrite decide_True by done. rewrite Hr. ok_tac.
  - intros st msg Hst. cbn beta iota. rewrite decide_False by done. ok_tac.
  - intros msg s1 s2 Hr Hc. cbn beta iota. rewrite decide_True by done. by rewrite Hr.
Qed.

Lemma ok_ws_client_handler ws a msgs : ok (Ws.client_handler cb ws a msgs).
Proof.
  intros s0 s HJ. apply open_session_safe; [done|]. clear s0 s HJ.
  intros cid s0 s HJ Hat. apply safe_try_finally, safe_try_except.
  eapply safe_mono; [|eapply safe_messages;
    [ok_tac|intros; by apply ws_consume_safe|done|exact Hat]].
  assert (ok (Grpc.del_client a ;; Grpc.del_write_lock a)) as Hdel by ok_tac.
  assert (forall (o : unit + exn) s0 s, J s0 s ->
    Safe (Grpc.del_client a ;; Grpc.del_write_lock a)
      (fun o' s0 s => match o' with inl _ | _ => J s0 s end) s0 s) as Hfin.
  { intros o s1 s2 H2. eapply safe_mono; [|by apply Hdel]. by intros []. }
  intros [[]|x] s1 s2 H2; [by apply (Hfin (inl tt))|]. destruct x; by apply (Hfin (inl tt)).
Qed.
End websocket.

(** ** ZeroMQ *)

Section zeromq.
Context `{!PyEnv, !Codec ToClient, !Codec FromClient}.
Context (cb : FromClient -> string -> Any -> srv (StatusCode * string)) `{!EngineCbOk cb}.

Lemma ok_dispatch_message a raw : ok (Zmq.dispatch_message a raw).
Proof.
  assert (forall cid, ok (if decide (raw = Zmq.HELLO_MSG) then Ret tt
            else upd_client cid (upd_cl_inputs (fun q => q ++ [raw])))) as Hput.
  { intros cid. case_decide; [ok_tac|]. by apply ok_upd_client. }
  intros s0 s HJ. unfold Zmq.dispatch_message. apply safe_gets.
  destruct (_.[a]) as [cid|]; [by apply safe_ret, Hput|].
  apply safe_bind. simpl. intros _. apply Hput. destruct HJ as [HI HG]. split.
  - by apply (TokInv_new_client s a 0%nat).
  - eapply evolves_same_store; [| | | |by apply (evolves_new_client s0 s (mkClient a [] [] 0 None))];
      done.
Qed.

Lemma ok_zmq_client_handler fuel : ok (Zmq.client_handler fuel).
Proof.
  pose proof ok_dispatch_message.
  induction fuel as [|fuel IH]; cbn -[mbind]; [ok_tac|]. unfold Zmq.client_handler_iter. ok_tac.
Qed.

Lemma zmq_consume_safe a cid raw s0 s :
  J s0 s -> client_at cid a s ->
  Safe (Zmq.consume cb a cid raw) (fun _ s0 s => J s0 s) s0 s.
Proof.
  intros HJ Hat. unfold Zmq.consume. case_decide; [by apply ok_ZmqSend|].
  destruct (parse raw) as [fc|]; [|done].
  apply consumer_helper_bind; auto.
  - intros msg Hr. cbn beta iota. rewrite decide_True by done. rewrite Hr. ok_tac.
  - intros st msg Hst. cbn beta iota. rewrite decide_False by done. ok_tac.
  - intros msg s1 s2 Hr Hc. cbn beta iota. rewrite decide_True by done. by rewrite Hr.
Qed.

Lemma ok_wait_input cid : ok (Zmq.wait_input cid).
Proof.
  unfold Zmq.wait_input. ok_tac. by apply ok_upd_client.
Qed.

Lemma zmq_consumer_loop_safe a cid fuel s0 s :
  J s0 s -> client_at cid a s ->
  Safe (Zmq.consumer_loop cb a cid fuel) (fun _ s0 s => J s0 s) s0 s.
Proof.
  revert s0 s. induction fuel as [|fuel IH]; intros s0 s HJ Hat; [done|].
  cbn -[mbind]. apply safe_gets. destruct (_.[a]); [|done].
  apply safe_bind. eapply safe_mono; [|apply (ok_keep _ (client_at cid a)); [apply ok_wait_input|
    apply client_at_stable|done|done]].
  intros [[raw|]|x] s1 s2 [HJ2 Hat2]; [|by apply ok_del_client|done].
  apply safe_bind. eapply safe_mono; [|apply safe_keep_client; [|exact HJ2|exact Hat2]].
  - intros [[]|x] s3 s4 [HJ4 Hat4]; [by apply IH|done].
  - intros. by apply zmq_consume_safe.
Qed.

Lemma ok_zmq_consumer a fuel : ok (Zmq.consumer cb a fuel).
Proof.
  intros s0 s HJ. unfold Zmq.consumer. apply safe_bind, safe_gets.
  destruct (_.[a]) as [cid|] eqn:Ha; [|done].
  apply zmq_consumer_loop_safe; [done|]. by apply (ti_clients _ _ (proj1 HJ)).
Qed.
End zeromq.

(** ** The whole server *)

(** ** Starting and stopping *)

Section lifecycle.
Context `{!PyEnv}.

Lemma ok_sinks_cleanup : ok sinks_cleanup.
Proof. apply ok_readonly, sinks_cleanup_readonly. Qed.

#[local] Hint Resolve ok_sinks_cleanup : gabriel.

Lemma ok_grpc_start rf tls n li : ok (Grpc.start_grpc_server rf tls n li).
Proof. unfold Grpc.start_grpc_server, BindPort_, ServerStart_. ok_tac. Qed.

#[local] Hint Resolve ok_grpc_start : gabriel.

Lemma ok_grpc_launch rf tls n li : ok (Grpc.launch rf tls n li).
Proof.
  unfold Grpc.launch, Grpc.shutdown, Grpc.mark_started, ServerStart_, ServerStop_, ServeForever_.
  ok_tac.
Qed.

Lemma ok_grpc_close : ok Grpc.close_server_socket.
Proof.
  assert (ok (modify (upd_w_clients (fun _ => [])))) as Hc.
  { apply keeps_modify; [intros; by apply TokInv_clear_clients|].
    intros s0 s HG. by eapply evolves_same_store; [| | | |exact HG]. }
  unfold Grpc.close_server_socket, ServerStop_. ok_tac.
Qed.

Lemma ok_grpc_recreate rf tls n li : ok (Grpc.recreate_server_socket rf tls n li).
Proof. apply ok_grpc_start. Qed.

Lemma ok_ws_launch li : ok (Ws.launch li).
Proof. unfold Ws.launch, ServerStart_, ServerStop_, ServeForever_. ok_tac. Qed.

Lemma ok_zmq_launch li : ok (Zmq.launch li).
Proof. unfold Zmq.launch, SockBind_, CtxTerm_, ServeForever_. ok_tac. Qed.

Lemma ok_zmq_close : ok Zmq.close_server_socket.
Proof. unfold Zmq.close_server_socket. ok_tac. Qed.

Lemma ok_zmq_recreate li : ok (Zmq.recreate_server_socket li).
Proof. unfold Zmq.recreate_server_socket, SockOpen_, SockBind_. ok_tac. Qed.

(** What the application does with the result manager. *)
Inductive sink_task : srv unit -> Prop :=
| sink_register k : sink_task (register_result_sink k)
| sink_unregister k : sink_task (unregister_result_sink k).

Lemma ok_sink_task p : sink_task p -> ok p.
Proof. intros []; unfold register_result_sink, unregister_result_sink; ok_tac. Qed.
End lifecycle.

#[export] Hint Resolve ok_grpc_launch ok_grpc_close ok_grpc_recreate ok_ws_launch ok_zmq_launch
  ok_zmq_close ok_zmq_recreate ok_sink_task : gabriel.

(** The state of a server that has just been constructed. *)
Definition initial_world (num_tokens size_for_queues : Z) : World :=
  mkWorld [] ∅ [] size_for_queues [] num_tokens [] [] [] 0 ∅ false false false no_local.

(** A server with no client and no engine. *)
Lemma fresh_inv ids q n m :
  Inv (mkWorld [] ids [] q [] n [] [] [] 0 ∅ false false false (mkLocalState [] m None)).
Proof.
  split; simpl; [done..| |].
  - intros Hm. simpl in *. lia.
  - intros _. split; [by intros|]. intros a pid _. reflexivity.
Qed.

Lemma reachable_tokens spawnable s0 c :
  (forall p, spawnable p -> ok p) -> Inv s0 -> reachable spawnable s0 c ->
  Inv (p_state c) /\ evolves s0 (p_state c).
Proof.
  intros Hsp HI. apply (reachable_inv Inv evolves); [|done].
  intros p s Hp HI'. eapply safe_mono; [|apply (Hsp p Hp)].
  - intros o s1 s2 H2. exact H2.
  - split; [done|reflexivity].
Qed.

Section system.
Context `{!PyEnv, !Codec ToClient, !Codec FromClient}.

(** The coroutines the environment may start, for each client transport:
    one per engine stream, those of the transport, among them the start and
    the shutdown of the server, and those that add and remove result sinks. *)
Inductive grpc_task : srv unit -> Prop :=
| grpc_engine ctx msgs :
    grpc_task (@EngineSession _ _ Grpc.grpc_transport ctx msgs)
| grpc_client ctx metadata msgs :
    grpc_task (Grpc.ClientSession send_to_engine ctx metadata msgs)
| grpc_launch rf tls n li : grpc_task (Grpc.launch rf tls n li)
| grpc_close : grpc_task Grpc.close_server_socket
| grpc_recreate rf tls n li : grpc_task (Grpc.recreate_server_socket rf tls n li)
| grpc_sink p : sink_task p -> grpc_task p.

Inductive ws_task : srv unit -> Prop :=
| ws_engine ctx msgs :
    ws_task (@EngineSession _ _ Ws.ws_transport ctx msgs)
| ws_client ws address msgs :
    ws_task (Ws.client_handler send_to_engine ws address msgs)
| ws_launch li : ws_task (Ws.launch li)
| ws_sink p : sink_task p -> ws_task p.

Inductive zmq_task : srv unit -> Prop :=
| zmq_engine ctx msgs :
    zmq_task (@EngineSession _ _ Zmq.zmq_transport ctx msgs)
| zmq_handler fuel : zmq_task (Zmq.client_handler fuel)
| zmq_client address fuel : zmq_task (Zmq.consumer send_to_engine address fuel)
| zmq_launch li : zmq_task (Zmq.launch li)
| zmq_close : zmq_task Zmq.close_server_socket
| zmq_recreate li : zmq_task (Zmq.recreate_server_socket li)
| zmq_sink p : sink_task p -> zmq_task p.

Definition server_task (p : srv unit) : Prop := grpc_task p \/ ws_task p \/ zmq_task p.

Lemma server_task_ok p : server_task p -> ok p.
Proof.
  pose proof Grpc.grpc_transport_ok. pose proof Ws.ws_transport_ok.
  pose proof Zmq.zmq_transport_ok.
  intros [Hp|[Hp|Hp]]; destruct Hp; auto using ok_EngineSession, ok_zmq_client_handler with gabriel.
  - apply ok_ClientSession, _.
  - apply ok_ws_client_handler, _.
  - apply ok_zmq_consumer, _.
Qed.

Lemma reachable_ok n q c :
  reachable server_task (initial_world n q) c ->
  Inv (p_state c) /\ evolves (initial_world n q) (p_state c).
Proof. apply reachable_tokens; [exact server_task_ok|apply fresh_inv]. Qed.

(** C3.  In every reachable state of the event loop, for every client and
    producer, the tokens the server counts for the client, plus the inputs
    of the client that wait in the queue of the producer, plus the in-flight
    input if its token is still to be returned to the client, do not exceed
    the number of tokens granted per producer; provided no client address
    was used by two sessions. *)
Theorem tokens_never_exceed_grant n q c cid cl pid t :
  reachable server_task (initial_world n q) c ->
  NoDup (owners (p_state c)) ->
  w_client_store (p_state c) !! cid = Some cl ->
  (cl_tokens_for_producer cl).[pid] = Some t ->
  t + outstanding (cl_owner cl) pid (p_state c) <= n.
Proof.
  intros Hr Hnd Hcl Ht. destruct (reachable_ok _ _ _ Hr) as [HI HG].
  destruct (ti_bounds _ _ HI Hnd) as [B _]. specialize (B cid cl pid Hcl).
  rewrite Ht in B. rewrite (ev_num _ _ HG) in B. unfold no_credit in B. simpl in B. lia.
Qed.

(** C4.  In every reachable state of the event loop, the queue of a producer
    holds at most as many inputs as the configured capacity, all of them
    inputs of that producer, as is the in-flight input; and there is an
    in-flight input whenever its token is still to be returned, so the
    attribute access on it when a result arrives cannot fail. *)
Theorem queues_within_capacity n q c pid p :
  reachable server_task (initial_world n q) c ->
  (w_producer_infos (p_state c)).[pid] = Some p ->
  Z.of_nat (length (pi_input_queue p)) <= q /\
  Forall (of_producer pid) (pi_input_queue p) /\
  (forall mp, pi_latest_input_sent_to_engine p = Some mp -> of_producer pid mp) /\
  (truthy (pi_pending_token_return p) = true -> is_Some (pi_latest_input_sent_to_engine p)).
Proof.
  intros Hr Hp. destruct (reachable_ok _ _ _ Hr) as [HI HG].
  destruct (ti_producers _ _ HI _ _ Hp) as [_ _ Hlen Hown Hlat Hpend].
  rewrite (ev_size _ _ HG) in Hlen. by split_and!.
Qed.

(** C5.  In every reachable state of the event loop, every entry of the
    registry of engines is keyed by the stream context of the live worker
    object it leads to, and every entry of the registry of clients leads to
    a live client object opened under that address.  In particular no key of
    the registry of engines is a worker object, so the branch of
    [process_input_from_client] that drops removed target engines, which
    looks worker objects up, is never taken. *)
Theorem registries_are_consistent n q c :
  reachable server_task (initial_world n q) c ->
  (forall k wid, (w_engine_workers (p_state c)).[k] = Some wid ->
     exists w, w_workers (p_state c) !! wid = Some w /\ k = RContext (ew_context w)) /\
  (forall a cid, (w_clients (p_state c)).[a] = Some cid ->
     exists cl, w_client_store (p_state c) !! cid = Some cl /\ cl_owner cl = a) /\
  (forall wid, (w_engine_workers (p_state c)).[RWorker wid] = None).
Proof.
  intros Hr. destruct (reachable_ok _ _ _ Hr) as [HI _].
  assert (forall k wid, (w_engine_workers (p_state c)).[k] = Some wid ->
     exists w, w_workers (p_state c) !! wid = Some w /\ k = RContext (ew_context w)) as Hreg.
  { intros k wid Hk. destruct (ti_registry _ _ HI _ _ Hk) as (ctx & Hctx & ->).
    unfold contexts in Hctx. rewrite list_lookup_fmap in Hctx.
    destruct (_ !! wid) as [w|]; [|done]. injection Hctx as <-. eauto. }
  split_and!; [done|by apply (ti_clients _ _ HI)|].
  intros wid. destruct (_.[_]) as [wid'|] eqn:Hk; [|done].
  by destruct (Hreg _ _ Hk) as (w & _ & ?).
Qed.
End system.
