(* ===== verification/Fairness.v ===== *)
(** * Fairness of the rotation

    Turns of an engine are the segments of the event loop in which
    [_EngineWorker.send_next_input] runs, up to the await of the write to the
    engine.  Between two turns the event loop runs everything else of the server,
    interleaved at every await: the sessions of the clients on the three
    transports, the sessions of the other engines, the rest of the turn, and what
    the engine's own session does with a result.  None of this moves a producer
    ahead of another in the rotation of the engine, so a producer that keeps
    offering an input is served after at most as many turns as there are producers
    ahead of it. *)

From S2P Require Import Prelude Coro Protocol ServerState Trace Instances ResultManager GabrielServer Dispatch.
From S2P Require Import DispatchSpec ServerRunner RegistrySpec GrpcServer WebsocketServer ZeroMQServer.

Section fairness.
Context `{!PyEnv, !Codec ToClient, !Codec FromClient}.

(** The worker, the stream context of its engine, and a producer. *)
Variables (wid ctx : nat) (q : string).

(** ** What the rest of the server does to the rotation *)

(** Every entry of the registry that leads to the worker is keyed by the stream
    context of its engine, and the worker exists. *)
Definition registered (s : World) : Prop :=
  is_Some (w_workers s !! wid) /\
  forall k, (w_engine_workers s).[k] = Some wid -> k = RContext ctx.

(** Producers only join the rotation, at its end. *)
Definition grows (s s' : World) : Prop :=
  forall w, w_workers s !! wid = Some w ->
    exists w' extra, w_workers s' !! wid = Some w' /\ ew_producers w' = ew_producers w ++ extra.

#[export] Instance grows_preorder : PreOrder grows.
Proof.
  split.
  - intros s w Hw. exists w, []. by rewrite app_nil_r.
  - intros s1 s2 s3 H12 H23 w Hw. destruct (H12 w Hw) as (w2 & e2 & Hw2 & E2).
    destruct (H23 w2 Hw2) as (w3 & e3 & Hw3 & E3).
    exists w3, (e2 ++ e3). split; [done|]. by rewrite E3, E2, (assoc_L (++)).
Qed.

Abbreviation fair p := (keeps (E := server_sig) registered grows p).

Definition engine_view (s : World) := (w_workers s, w_engine_workers s).

Lemma fair_preserves {A} (p : srv A) : (forall s, preserves engine_view p s) -> fair p.
Proof.
  apply (keeps_preserves _ _ engine_view); unfold engine_view, registered, grows.
  - intros s s' [= -> ->]. done.
  - intros s0 s s' [= -> _]. done.
Qed.

Lemma fair_readonly {A} (p : srv A) : readonly p -> fair p.
Proof. intros Hp. apply fair_preserves. intros s. by apply readonly_preserves. Qed.

Lemma fair_modify g : (forall s, engine_view (g s) = engine_view s) -> fair (modify g).
Proof. intros Hg. apply fair_preserves. intros s. by apply preserves_modify. Qed.

(** Another worker, or a change of this one that lets producers join only. *)
Lemma fair_upd_worker wid' g :
  (wid' = wid -> forall w, exists extra, ew_producers (g w) = ew_producers w ++ extra) ->
  fair (upd_worker wid' g).
Proof.
  intros Hg s0 s [[HI HR] HG]. simpl. split.
  - split; [|done]. simpl. destruct HI as [w Hw]. destruct (decide (wid' = wid)) as [->|Hne].
    + rewrite list_lookup_alter_eq, Hw. by eauto.
    + rewrite list_lookup_alter_ne, Hw by done. by eauto.
  - etransitivity; [exact HG|]. intros w Hw. simpl. destruct (decide (wid' = wid)) as [->|Hne].
    + destruct (Hg eq_refl w) as [extra E]. exists (g w), extra.
      by rewrite list_lookup_alter_eq, Hw.
    + exists w, []. by rewrite list_lookup_alter_ne, app_nil_r.
Qed.

Lemma fair_set_worker wid' g :
  (forall w, ew_producers (g w) = ew_producers w) -> fair (upd_worker wid' g).
Proof. intros Hg. apply fair_upd_worker. intros _ w. exists []. by rewrite Hg, app_nil_r. Qed.

Lemma fair_with_lock {A} l (p : srv A) : fair p -> fair (with_lock l p).
Proof.
  intros Hp. apply keeps_bind; [apply keeps_bind; [keeps_a_call | intros; apply keeps_raise]|].
  intros. apply keeps_try_finally; [done | keeps_a_call].
Qed.

Lemma fair_del_worker c : fair (modify (upd_w_engine_workers (dict_del c))).
Proof.
  apply keeps_modify; [|done]. intros s [HI HR]. split; [done|]. simpl. intros k Hk. apply HR.
  by eapply dict_get_del_Some.
Qed.

(** Structural proof that a coroutine lets producers join the rotation only. *)
Ltac fair_tac :=
  repeat first
    [ progress keeps_tac
    | match goal with
      | |- fair (modify _) => apply fair_modify; done
      | |- fair (upd_worker _ _) => apply fair_set_worker; done
      | |- fair (with_lock _ _) => apply fair_with_lock
      end ].

(** *** Engines *)

Lemma fair_get_worker w : fair (get_worker w).
Proof. apply fair_preserves. intros. unfold get_worker. pres. Qed.
Lemma fair_get_producer p : fair (get_producer p).
Proof. apply fair_preserves. intros. unfold get_producer. pres. Qed.
Lemma fair_get_client c : fair (get_client c).
Proof. apply fair_preserves. intros. unfold get_client. pres. Qed.
Lemma fair_upd_producer p g : fair (upd_producer p g).
Proof. by apply fair_modify. Qed.
Lemma fair_upd_client c g : fair (upd_client c g).
Proof. by apply fair_modify. Qed.

#[local] Hint Resolve fair_get_worker fair_get_producer fair_get_client fair_upd_producer
  fair_upd_client fair_del_worker : gabriel.

Lemma fair_PerfCounter : fair PerfCounter_.
Proof. unfold PerfCounter_. keeps_a_call. Qed.
Lemma fair_MetricCall m : fair (MetricCall_ m).
Proof. unfold MetricCall_. keeps_a_call. Qed.
Lemma fair_MetricRemove m : fair (MetricRemove_ m).
Proof. unfold MetricRemove_. fair_tac. Qed.
Lemma fair_StreamNext n m : fair (StreamNext_ n m).
Proof. unfold StreamNext_. fair_tac. Qed.

#[local] Hint Resolve fair_PerfCounter fair_MetricCall fair_MetricRemove fair_StreamNext : gabriel.

Lemma fair_send_payload wid' mp : fair (send_payload wid' mp).
Proof. unfold send_payload, send_helper, EngineWrite_. fair_tac. Qed.

Lemma fair_add_producer wid' pid : fair (add_producer wid' pid).
Proof.
  unfold add_producer. apply keeps_bind; [fair_tac|]. intros w. case_decide; [fair_tac|].
  apply fair_upd_worker. intros _ w'. by exists [pid].
Qed.

#[local] Hint Resolve fair_send_payload fair_add_producer : gabriel.

Lemma fair_get_input_from_queue pid : fair (get_input_from_queue pid).
Proof. unfold get_input_from_queue. fair_tac. Qed.

#[local] Hint Resolve fair_get_input_from_queue : gabriel.

(** A turn of another engine. *)
Lemma fair_send_next_input wid' : wid' <> wid -> fair (send_next_input wid').
Proof.
  intros Hne. unfold send_next_input. apply keeps_bind; [fair_tac|]. intros w.
  generalize (length (ew_producers w)). intros n. induction n as [|n IH]; cbn [send_next_input_loop].
  - unfold clear_current_input_metadata. fair_tac.
  - apply keeps_bind; [by apply fair_upd_worker|]. intros _. fair_tac.
Qed.

Section any_transport.
Context `{!Transport, !TransportOk}.

Lemma fair_send_via_transport a b : fair (send_via_transport a b).
Proof. apply fair_readonly. auto with gabriel. Qed.

#[local] Hint Resolve fair_send_via_transport : gabriel.

Lemma fair_send_result a pid eid r b : fair (send_result a pid eid r b).
Proof. unfold send_result, set_tokens. fair_tac. Qed.

Lemma fair_process_result r : fair (process_result r).
Proof. apply fair_readonly, process_result_readonly. Qed.

Lemma fair_engines_updated_cb : fair engines_updated_cb.
Proof. apply fair_readonly, engines_updated_cb_readonly. Qed.

#[local] Hint Resolve fair_send_result fair_process_result fair_engines_updated_cb : gabriel.

Lemma fair_handle_result wid' m : wid' <> wid -> fair (handle_result wid' m).
Proof.
  intros Hne. pose proof (fair_send_next_input wid' Hne).
  unfold handle_result, calculate_engine_metrics, answer_and_continue. fair_tac.
Qed.

(** A message of another engine: the registry does not lead to this worker. *)
Lemma fair_handle_from_engine ctx' m : ctx' <> ctx -> fair (handle_from_engine ctx' m).
Proof.
  intros Hne s0 s HJ. unfold handle_from_engine. change (safe ?I ?G (gets ?f ≫= ?k) ?Q s0 s)
    with (safe I G (k (f s)) Q s0 s). cbv beta.
  destruct ((w_engine_workers s).[RContext ctx']) as [wid'|] eqn:Hw; [|done].
  assert (wid' <> wid) as Hne'.
  { intros ->. destruct HJ as [[_ HR] _]. apply HR in Hw. congruence. }
  destruct m; try done; by apply fair_handle_result.
Qed.

Lemma fair_settle_current_input w : fair (settle_current_input w).
Proof. unfold settle_current_input. fair_tac. Qed.

Lemma fair_remove_engine_worker c : fair (remove_engine_worker c).
Proof. pose proof fair_settle_current_input. unfold remove_engine_worker. fair_tac. Qed.

Lemma fair_find_context eid items : fair (find_context eid items).
Proof. induction items as [|[c w] items IH]; cbn -[mbind]; fair_tac. Qed.

(** A new worker is another worker. *)
Lemma fair_register_worker {B} ctx' reg (k : unit -> srv B) :
  fair (k tt) ->
  fair (wid' ← new_engine_worker ctx' reg;
        modify (upd_w_engine_workers (fun d => d.[RContext ctx' <- wid'])) ≫= k).
Proof.
  intros Hk s0 s [[HI HR] HG]. apply safe_bind. simpl. pose proof HI as [w Hw].
  assert (forall l, (w_workers s ++ l) !! wid = Some w) as Hw'.
  { intros l. by apply lookup_app_l_Some. }
  apply Hk. split.
  - split; [simpl; rewrite Hw'; by eauto|]. simpl. intros c. rewrite dict_get_set.
    case_decide; [|apply HR]. intros [= E]. apply lookup_lt_Some in Hw. lia.
  - etransitivity; [exact HG|]. intros w0 Hw0. simplify_eq. exists w, []. by rewrite app_nil_r; simpl.
Qed.

Lemma fair_add_engine_worker ctx' reg : fair (add_engine_worker ctx' reg).
Proof.
  pose proof fair_find_context. pose proof fair_remove_engine_worker.
  unfold add_engine_worker. cbn zeta. apply keeps_bind; [fair_tac|intros ids].
  apply keeps_bind; [fair_tac|intros _]. apply fair_register_worker. fair_tac.
Qed.

Lemma fair_EngineSession ctx' msgs : ctx' <> ctx -> fair (EngineSession ctx' msgs).
Proof.
  intros Hne. pose proof fair_add_engine_worker. pose proof (fun m => fair_handle_from_engine ctx' m Hne).
  pose proof fair_remove_engine_worker. unfold EngineSession. fair_tac.
Qed.

(** The engine's own session between two turns: the metrics of a result, the
    sinks, and the answer to the client. *)
Inductive own_task : srv unit -> Prop :=
| own_metrics : own_task (calculate_engine_metrics wid)
| own_counter m : own_task (MetricCall_ m)
| own_sinks r : own_task (process_result r)
| own_flag pid : own_task (upd_producer pid (upd_pi_pending_token_return (fun _ => Some false)))
| own_answer a pid eid r b : own_task (send_result a pid eid r b ;; Ret tt)
| own_removal : own_task (remove_engine_worker (RContext ctx)).

Lemma fair_own_task p : own_task p -> fair p.
Proof.
  pose proof fair_remove_engine_worker. intros []; unfold calculate_engine_metrics; fair_tac.
Qed.
End any_transport.

(** *** Clients *)

Lemma fair_find_target_engines ts wids : fair (find_target_engines ts wids).
Proof. induction wids as [|w wids IH]; cbn -[mbind]; fair_tac. Qed.

Lemma fair_engine_ids_of wids : fair (engine_ids_of wids).
Proof. induction wids as [|w wids IH]; cbn -[mbind]; fair_tac. Qed.

Lemma fair_dispatch_loop pid mp wids b : fair (dispatch_loop pid mp wids b).
Proof. revert b. induction wids as [|w wids IH]; intros b; cbn -[mbind]; fair_tac. Qed.

#[local] Hint Resolve fair_find_target_engines fair_engine_ids_of fair_dispatch_loop : gabriel.

Lemma fair_send_to_engine fc a info : fair (send_to_engine fc a info).
Proof.
  unfold send_to_engine, process_input_from_client, add_input_to_queue, drop_removed_targets. fair_tac.
Qed.

#[local] Hint Resolve fair_send_to_engine : gabriel.

Lemma fair_consumer_helper cid a fc : fair (consumer_helper send_to_engine cid a fc).
Proof. unfold consumer_helper, forward_input, set_tokens. fair_tac. Qed.

Lemma fair_consume_token cid pid : fair (consume_token cid pid).
Proof. unfold consume_token, set_tokens. fair_tac. Qed.

Lemma fair_make_registered : fair make_registered.
Proof. unfold make_registered. fair_tac. Qed.

#[local] Hint Resolve fair_consumer_helper fair_consume_token fair_make_registered : gabriel.

Lemma fair_new_client a conn : fair (new_client a conn).
Proof. unfold new_client. fair_tac. Qed.

#[local] Hint Resolve fair_new_client : gabriel.

Lemma fair_grpc_handle fc c a cid : fair (Grpc.handle_from_client send_to_engine fc c a cid).
Proof. unfold Grpc.handle_from_client, GrpcWrite_. fair_tac. Qed.

#[local] Hint Resolve fair_grpc_handle : gabriel.

Lemma fair_ClientSession c md msgs : fair (Grpc.ClientSession send_to_engine c md msgs).
Proof.
  assert (forall a, fair (Grpc.producer_stream send_to_engine c msgs a)) as Hp.
  { intros a. induction msgs as [|m ms IH]; cbn -[mbind anext]; fair_tac. }
  unfold Grpc.ClientSession, Grpc.open_session, Grpc.consumer, Grpc.del_client, Grpc.del_write_lock. fair_tac.
Qed.

Lemma fair_ws_client_handler ws a msgs : fair (Ws.client_handler send_to_engine ws a msgs).
Proof.
  unfold Ws.client_handler, Ws.consumer, Ws.consume, Ws.locked_send, WsSend_, Grpc.open_session, Grpc.del_client,
    Grpc.del_write_lock. fair_tac.
Qed.

Lemma fair_zmq_client_handler fuel : fair (Zmq.client_handler fuel).
Proof.
  induction fuel as [|fuel IH]; cbn -[mbind]; [fair_tac|].
  unfold Zmq.client_handler_iter, Zmq.dispatch_message. fair_tac.
Qed.

Lemma fair_zmq_consumer a fuel : fair (Zmq.consumer send_to_engine a fuel).
Proof.
  unfold Zmq.consumer. apply keeps_bind; [fair_tac|]. intros cid.
  induction fuel as [|fuel IH]; cbn -[mbind]; [fair_tac|].
  unfold Zmq.wait_input, Zmq.consume, ZmqSend_, Grpc.del_client. fair_tac.
Qed.

(** *** The server as a whole *)

Lemma fair_sinks_cleanup : fair sinks_cleanup.
Proof. apply fair_readonly, sinks_cleanup_readonly. Qed.

#[local] Hint Resolve fair_sinks_cleanup : gabriel.

(** The coroutines of the server but the session of this engine: the clients of
    each transport, the other engines, the start and the shutdown, and the sinks
    the application adds and removes. *)
Inductive other_task : srv unit -> Prop :=
| other_engine (T : Transport) ctx' msgs :
    @TransportOk T -> ctx' <> ctx -> other_task (@EngineSession _ _ T ctx' msgs)
| other_own (T : Transport) p : @TransportOk T -> @own_task T p -> other_task p
| other_grpc_client c md msgs : other_task (Grpc.ClientSession send_to_engine c md msgs)
| other_ws_client ws a msgs : other_task (Ws.client_handler send_to_engine ws a msgs)
| other_zmq_handler fuel : other_task (Zmq.client_handler fuel)
| other_zmq_client a fuel : other_task (Zmq.consumer send_to_engine a fuel)
| other_grpc_launch rf tls n li : other_task (Grpc.launch rf tls n li)
| other_grpc_close : other_task Grpc.close_server_socket
| other_grpc_recreate rf tls n li : other_task (Grpc.recreate_server_socket rf tls n li)
| other_ws_launch li : other_task (Ws.launch li)
| other_zmq_launch li : other_task (Zmq.launch li)
| other_zmq_close : other_task Zmq.close_server_socket
| other_zmq_recreate li : other_task (Zmq.recreate_server_socket li)
| other_sink k : other_task (register_result_sink k)
| other_unsink k : other_task (unregister_result_sink k).

Lemma fair_other_task p : other_task p -> fair p.
Proof.
  intros []; eauto using fair_EngineSession, fair_own_task, fair_ClientSession, fair_ws_client_handler,
    fair_zmq_client_handler, fair_zmq_consumer;
  unfold Grpc.launch, Grpc.close_server_socket, Grpc.recreate_server_socket, Grpc.start_grpc_server,
    Grpc.shutdown, Grpc.mark_started, Ws.launch, Zmq.launch, Zmq.close_server_socket,
    Zmq.recreate_server_socket, register_result_sink, unregister_result_sink,
    BindPort_, SockOpen_, SockBind_, CtxTerm_, ServerStart_, ServerStop_, ServeForever_; fair_tac.
Qed.

(** ** Turns *)

(** The rest of a turn, after the write to the engine has returned or raised. *)
Definition rest_of_turn (r : unit + exn) : srv unit :=
  raise r ;; t ← PerfCounter_; upd_worker wid (upd_ew_last_payload_send_time (fun _ => t)).

Lemma segment_send_payload env w mp s h :
  w_workers s !! wid = Some w ->
  exists k w1, ew_producers w1 = ew_producers w /\
    ew_current_input_metadata w1 = Some (mp_metadata mp) /\ (forall r, k r = rest_of_turn r) /\
    run_segment env (send_payload wid mp) s h =
      (Vis (E := server_sig) (EngineWrite (ew_context w) (frame_of mp)) k, put_worker wid w1 s, h).
Proof.
  intros Hw. eexists _, (upd_ew_latest_input_processed _ (upd_ew_current_input_metadata _ w)).
  split_and!; cycle 3.
  { unfold send_payload. cbn zeta.
    rewrite (ex_upd_worker (fun p s => run_segment env p s h) ltac:(done) ltac:(done) wid _ w) by done.
    erewrite (ex_upd_worker (fun p s => run_segment env p s h) ltac:(done) ltac:(done))
      by (by eapply put_worker_get).
    rewrite put_put_worker. unfold send_helper.
    erewrite (ex_get_worker (fun p s => run_segment env p s h) ltac:(done))
      by (by eapply put_worker_get).
    reflexivity. }
  all: done.
Qed.

(** A turn of the engine: [send_next_input] up to its first await, in any
    environment; [p] is what is left of it. *)
Definition turn (s : World) (p : srv unit) (s' : World) : Prop :=
  exists env h h', run_segment env (send_next_input wid) s h = (p, s', h').

(** [q] offers an input to the engine, whose rotation holds known producers. *)
Definition eligible (w : EngineWorker) (s : World) : Prop :=
  w_workers s !! wid = Some w /\ producers_known w s /\ registered s /\
  is_Some (offer (w_producer_infos s) w q).

(** The turn from [s] to [s1] that left [p] serves [q]: the input that [q]
    offered is the one the engine processes and the one that is being written,
    and [q] is at the front of the rotation. *)
Definition served (w : EngineWorker) (s : World) (p : srv unit) (s1 : World) : Prop :=
  exists mp b k w1, offer (w_producer_infos s) w q = Some (mp, b) /\
    p = Vis (E := server_sig) (EngineWrite (ew_context w) (frame_of mp)) k /\
    w_workers s1 !! wid = Some w1 /\ ew_current_input_metadata w1 = Some (mp_metadata mp) /\
    head (ew_producers w1) = Some q.

(** Between two turns the event loop runs what is left of the first one and any
    of the other coroutines of the server, interleaved in any way. *)
Definition between (p : srv unit) (s s' : World) : Prop :=
  exists c, reachable (fun p' => other_task p' \/ resume p p') s c /\ p_state c = s'.

(** [n] turns in a row at which [q] offers an input and is not served. *)
Inductive passed_over : nat -> World -> Prop :=
| passed_over_O s : passed_over 0 s
| passed_over_S n w s p s1 s2 :
    eligible w s -> turn s p s1 -> ~ served w s p s1 -> between p s1 s2 ->
    passed_over n s2 -> passed_over (S n) s.

(** A turn writes the offer of some producer, which moves to the front. *)
Lemma turn_serves w pre r post mp b s p s1 :
  w_workers s !! wid = Some w -> producers_known w s -> registered s ->
  visits w = pre ++ r :: post -> Forall (offers_nothing (w_producer_infos s) w) pre ->
  offer (w_producer_infos s) w r = Some (mp, b) -> turn s p s1 ->
  exists w1 k, w_workers s1 !! wid = Some w1 /\ ew_producers w1 = r :: post ++ pre /\
    ew_current_input_metadata w1 = Some (mp_metadata mp) /\
    registered s1 /\ (forall x, k x = rest_of_turn x) /\
    p = Vis (E := server_sig) (EngineWrite (ew_context w) (frame_of mp)) k.
Proof.
  intros Hw Hk [_ HR] Hv Hpre Ho (env & h & h' & Ht).
  rewrite (ex_serve (fun p s => run_segment env p s h) ltac:(done) ltac:(done) wid w pre r post mp b s) in Ht
    by done.
  destruct (segment_send_payload env (set_rotation (r :: post ++ pre) w) mp
              (put_worker wid (set_rotation (r :: post ++ pre) w) (serve r mp b s)) h)
    as (k & w1 & Hw1 & Hc1 & Hrest & E); [eapply put_worker_get; by rewrite serve_workers|].
  rewrite E, put_put_worker in Ht. injection Ht as <- <- <-.
  assert (w_workers (put_worker wid w1 (serve r mp b s)) !! wid = Some w1) as Hs1.
  { eapply put_worker_get. by rewrite serve_workers. }
  exists w1, k. split_and!; [done|done|done| |done|done]. split; [by eauto|].
  intros c Hc. apply HR. revert Hc. unfold serve. simpl. destruct b; [|done]. by destruct (_.[r]).
Qed.

(** What is left of the turn leaves the rotation alone, like everything else. *)
Lemma between_grows (e : sev) (k : sresp e -> srv unit) s s' :
  suspends server_sig e = true -> (forall x, fair (k x)) ->
  registered s -> between (Vis (E := server_sig) e k) s s' -> grows s s'.
Proof.
  intros He Hk HR (c & Hc & <-).
  eapply (reachable_inv registered grows); [|exact HR|exact Hc].
  intros p' s1 Hp' HR1. assert (fair p') as Hf.
  { destruct Hp' as [Hp'|Hres]; [by apply fair_other_task|].
    apply resume_inv in Hres. rewrite He in Hres. by destruct Hres as [r ->]. }
  eapply safe_mono; [|apply Hf; split; [exact HR1|reflexivity]]. by intros o s2 s3 [].
Qed.

Lemma turn_closer w pre post s p s1 s2 :
  eligible w s -> visits w = pre ++ q :: post -> turn s p s1 -> ~ served w s p s1 -> between p s1 s2 ->
  exists w2 r pre' post', w_workers s2 !! wid = Some w2 /\
    ew_producers w2 = r :: pre' ++ q :: post' /\ (length pre' < length pre)%nat.
Proof.
  intros (Hw & Hk & HR & [[mq bq] Hq]) Hv Ht Hns Hb.
  destruct (first_without (offers_nothing (w_producer_infos s) w) pre)
    as [Hno|(pre1 & r & pre2 & -> & Hno & Hr)].
  - destruct Hns. destruct (turn_serves w pre q post mq bq s p s1) 
      as (w1 & k & Hw1 & Hp1 & Hc1 & _ & _ & ->); [done..|].
    exists mq, bq, k, w1. by rewrite Hp1.
  - unfold offers_nothing in Hr.
    destruct (offer (w_producer_infos s) w r) as [[mp b]|] eqn:Ho; [|done].
    rewrite <- (assoc_L (++)) in Hv.
    destruct (turn_serves w pre1 r (pre2 ++ q :: post) mp b s p s1)
      as (w1 & k & Hw1 & Hp1 & _ & HR1 & Hrest & ->); [done..|].
    assert (grows s1 s2) as HG.
    { eapply between_grows; [| |done|done]; [done|]. intros x. rewrite Hrest.
      unfold rest_of_turn. fair_tac. }
    destruct (HG w1 Hw1) as (w2 & extra & Hw2 & Hp2).
    exists w2, r, pre2, (post ++ pre1 ++ extra). split_and!; [done| |].
    + rewrite Hp2, Hp1. simpl. by rewrite <- !(assoc_L (++)).
    + rewrite length_app. simpl. lia.
Qed.

End fairness.

(** ** A concrete engine

    The engine "e" of [DispatchSpec.Demo] is given the input of "a"; the producer
    "p" was passed over once, and one producer was ahead of it.  Between the turns
    the write to the engine returns, and a client registers and sends an input of
    a new producer "z", which joins the rotation. *)
Section demo.
Import Concrete.

Definition demo_turn := run_segment calm (send_next_input 0) Demo.world [].

Definition demo_input : FromClient :=
  FromClient_input (mkInput 1 "z" ["e"] (mkInputFrame TEXT (StringPayload "x"))).
Definition demo_client : srv unit :=
  Grpc.ClientSession send_to_engine 7
    [(Grpc.SESSION_ID_METADATA_KEY, "s"); (Grpc.STREAM_ROLE_METADATA_KEY, Grpc.STREAM_ROLE_CONTROL)]
    [FromClient_registration default_Any; demo_input].

Definition demo_between : list action :=
  [Spawn demo_client; Spawn (rest_of_turn 0 (inl tt)); Tick 0; Tick 0; Tick 1; Tick 0; Tick 0; Tick 0].
Definition demo_next : World := p_state (play calm demo_turn.1.2 demo_between).1.

Lemma demo_rotation : ew_producers <$> w_workers demo_next !! 0%nat = Some ["a"; "p"; "x"; "z"].
Proof. vm_compute. reflexivity. Qed.

Lemma demo_resume : resume demo_turn.1.1 (rest_of_turn 0 (inl tt)).
Proof.
  change demo_turn.1.1 with (Vis (E := server_sig) (EngineWrite 1 (frame_of (Demo.mp 1 "a"))) (rest_of_turn 0)).
  by apply (resume_answer (E := server_sig) (EngineWrite 1 (frame_of (Demo.mp 1 "a"))) (rest_of_turn 0) (inl tt)).
Qed.

Lemma demo_turn_eq : turn 0 Demo.world demo_turn.1.1 demo_turn.1.2.
Proof. exists calm, [], demo_turn.2. unfold demo_turn. by destruct (run_segment _ _ _ _) as [[? ?] ?]. Qed.

Lemma demo_other_turn w : ~ served 0 "p" w Demo.world demo_turn.1.1 demo_turn.1.2.
Proof.
  assert (forall w1, w_workers demo_turn.1.2 !! 0%nat = Some w1 -> head (ew_producers w1) = Some "a") as H.
  { assert ((fun w => head (ew_producers w)) <$> w_workers demo_turn.1.2 !! 0%nat = Some (Some "a")) as E
      by (vm_compute; reflexivity).
    intros w1 Hw1. rewrite Hw1 in E. simpl in E. congruence. }
  intros (m & b & k & w1 & _ & _ & Hw1 & _ & Hh). apply H in Hw1. congruence.
Qed.

Lemma demo_between_ok : between 0 1 demo_turn.1.1 demo_turn.1.2 demo_next.
Proof.
  unfold between, demo_next. generalize demo_turn.1.2. intros s.
  exists (play calm s demo_between).1. split; [|reflexivity].
  apply play_reachable. unfold demo_between.
  repeat (apply Forall_cons; split); try exact I; try apply Forall_nil_2.
  - left. constructor.
  - right. exact demo_resume.
Qed.

Lemma demo_eligible : eligible 0 1 "p" Demo.worker Demo.world.
Proof.
  split_and!; [done|exact Demo.known|split; [by eauto|]|by eexists].
  intros c. simpl. by case_decide.
Qed.

Lemma demo_passed_over : passed_over 0 1 "p" 1 Demo.world.
Proof.
  exact (passed_over_S 0 1 "p" 0 Demo.worker Demo.world demo_turn.1.1 demo_turn.1.2 demo_next
    demo_eligible demo_turn_eq (demo_other_turn _) demo_between_ok (passed_over_O _ _ _ _)).
Qed.

End demo.
