(* ===== verification/ServerCredits.v ===== *)
(** * The tokens of a session, at the server

    For one session of a client and one of its producers: every coroutine of the
    server, whatever clients and engines do, returns at most the tokens of the
    inputs it has received from the session, and consumes no more.  The logic is
    that of [Credits]; what is counted is the tokens the server keeps for the
    producer, the inputs that arrive from the session, and the responses that
    return a token.  A gRPC session has streams, one of which takes the
    responses; a WebSocket client has one connection; a ZeroMQ client has its
    address, and a queue of messages that have arrived and are yet to be taken
    up.  The part that does not depend on the transport is proved against
    [send_pays], what sending a message costs, which each transport
    satisfies. *)

From S2P Require Import Prelude Coro Credits Protocol ServerState Trace ResultManager GabrielServer.
From S2P Require Import Dispatch Metrics ServerRunner GrpcServer WebsocketServer ZeroMQServer SessionSpec TokenInv TokenSafety.

(** ** Messages of clients *)

Section messages.
Context `{!Codec ToClient, !Codec FromClient}.

(** Where a message goes or comes from: a gRPC stream or a WebSocket connection,
    or the address of a ZeroMQ client. *)
Inductive channel : Type := Stream (c : nat) | Peer (a : string).

(** On a ZeroMQ socket, some byte strings are not messages. *)
Definition zmq_to_client (b : bytes) : option ToClient :=
  if decide (b = Zmq.HEARTBEAT) then None else parse b.

Definition zmq_from_client (b : bytes) : option FromClient :=
  if decide (b = Zmq.HELLO_MSG \/ b = Zmq.HEARTBEAT) then None else parse b.

(** The message that a call sends, and where to. *)
Definition sent_to (e : sev) : option (channel * ToClient) :=
  match e with
  | GrpcWrite c m => Some (Stream c, m)
  | WsSend c b => pair (Stream c) <$> parse b
  | ZmqSend a b => pair (Peer a) <$> zmq_to_client b
  | _ => None
  end.

Definition from_client_of (m : incoming) : option FromClient :=
  match m with
  | client_message m => Some m
  | raw_message b => parse b
  | engine_message _ => None
  end.

(** The message that the answer of a call brings, and where it comes from. *)
Definition arrived (e : sev) : sresp e -> option (channel * FromClient) :=
  match e with
  | StreamNext c (Some m) => fun r =>
      match r with inl _ => pair (Stream c) <$> from_client_of m | inr _ => None end
  | ZmqRecv => fun r =>
      match r with inl (a, b) => pair (Peer a) <$> zmq_from_client b | inr _ => None end
  | _ => fun _ => None
  end.
End messages.

Section tariff.
Context `{!Codec ToClient, !Codec FromClient}.
(** The session, the context of its control stream, the contexts of all its
    streams, the producer, and the number of tokens granted. *)
Variables (sid : string) (ctx : nat) (mine : nat -> bool) (pid : string) (num : Z).

(** The channel that messages of the session arrive on, and the one on which the
    server answers. *)
Definition of_session (ch : channel) : bool :=
  match ch with Stream c => mine c | Peer a => bool_decide (a = sid) end.

Definition to_control (ch : channel) : bool :=
  match ch with Stream c => bool_decide (c = ctx) | Peer a => bool_decide (a = sid) end.

(** The tokens the server counts for the producer; a producer that it has not
    seen has them all. *)
Definition share (cl : Client) : Z :=
  if decide (cl_owner cl = sid) then default num ((cl_tokens_for_producer cl).[pid]) - num else 0.

Definition tokens_at_server (s : World) : Z := num + total (share <$> w_client_store s).

(** The inputs of the producer that wait in the queue of a ZeroMQ client. *)
Definition is_input (b : bytes) : Z :=
  match zmq_from_client b with Some m => one (input_of pid m) | None => 0 end.

Definition inbox (cl : Client) : Z :=
  if decide (cl_owner cl = sid) then total (is_input <$> cl_inputs cl) else 0.

Definition queued_at_server (s : World) : Z := total (inbox <$> w_client_store s).

(** The tokens for which the input is yet to be taken. *)
Definition free_tokens (s : World) : Z := tokens_at_server s - queued_at_server s.

Definition write_cost (e : sev) : Z :=
  match sent_to e with Some (ch, m) => one (to_control ch && returns_to pid m) | None => 0 end.

Definition input_gain (e : sev) (r : sresp e) : Z :=
  match arrived e r with Some (ch, m) => one (of_session ch && input_of pid m) | None => 0 end.

Definition write_guard (e : sev) (_ : World) : Prop :=
  match sent_to e with Some (_, m) => grants num m | None => True end.

Definition server_tariff : tariff World server_sig :=
  Tariff (E := server_sig) free_tokens write_cost input_gain (fun _ _ => True) write_guard
    (fun s => NoDup (owners s)).

(** The number of tokens, that the control stream belongs to the session, and
    that the hello of a ZeroMQ client is not queued; with the invariant of the
    server. *)
Record store_inv (s : World) : Prop := {
  st_num : w_num_tokens_per_producer s = num;
  st_ctx : forall cid cl, w_client_store s !! cid = Some cl -> cl_websocket cl = ctx -> cl_owner cl = sid;
  st_inbox : forall cid cl, w_client_store s !! cid = Some cl -> Zmq.HELLO_MSG ∉ cl_inputs cl;
}.

Definition SInv (s : World) : Prop := Inv s /\ store_inv s.

Abbreviation Pays p Q c s0 s := (pays server_tariff SInv evolves p Q c s0 s).
Abbreviation thrifty p := (frugal server_tariff SInv evolves p).
Abbreviation R := (rest SInv evolves).

Lemma R_J s0 s : R s0 s -> J s0 s.
Proof. intros [[H _] HG]. by split. Qed.

Lemma J_R s0 s : J s0 s -> store_inv s -> R s0 s.
Proof. intros [HI HG] HS. by split. Qed.

(** ** Coroutines that leave the tokens and the clients alone *)

Definition client_core (cl : Client) :=
  (cl_owner cl, cl_websocket cl, cl_tokens_for_producer cl, cl_inputs cl).

Definition store_view (s : World) :=
  (client_core <$> w_client_store s, w_num_tokens_per_producer s).

Definition is_write : ev server_sig -> bool :=
  fun e : sev => match e with GrpcWrite _ _ | WsSend _ _ | ZmqSend _ _ => true | _ => false end.

Lemma tokens_view s s' : store_view s' = store_view s -> free_tokens s' = free_tokens s.
Proof.
  unfold store_view, free_tokens, tokens_at_server, queued_at_server. intros [= Hs _].
  assert (forall l : list Client, share <$> l =
    (fun v => if decide (v.1.1.1 = sid) then default num (v.1.2.[pid]) - num else 0) <$> (client_core <$> l)) as Hsh.
  { intros l. rewrite <- list_fmap_compose. done. }
  assert (forall l : list Client, inbox <$> l =
    (fun v => if decide (v.1.1.1 = sid) then total (is_input <$> v.2) else 0) <$> (client_core <$> l)) as Hin.
  { intros l. rewrite <- list_fmap_compose. done. }
  by rewrite !Hsh, !Hin, Hs.
Qed.

Lemma store_inv_view s s' : store_view s' = store_view s -> store_inv s -> store_inv s'.
Proof.
  unfold store_view. intros [= Hs Hn] [H2 H3 H4].
  assert (forall cid cl, w_client_store s' !! cid = Some cl ->
    exists cl0, w_client_store s !! cid = Some cl0 /\ client_core cl0 = client_core cl) as Hcl.
  { intros cid cl Hcl. assert ((client_core <$> w_client_store s) !! cid = Some (client_core cl)) as Hv.
    { rewrite <- Hs, list_lookup_fmap, Hcl. done. }
    rewrite list_lookup_fmap in Hv. destruct (w_client_store s !! cid) as [cl0|]; [|done].
    injection Hv as Hv. exists cl0. split; [done|]. unfold client_core. congruence. }
  split; [congruence|..]; intros cid cl [cl0 [H0 [= Ho Hw _ Hi]]]%Hcl.
  - rewrite <- Ho, <- Hw. eauto.
  - rewrite <- Hi. eauto.
Qed.

Lemma SInv_view s s' : store_view s' = store_view s -> SInv s -> Inv s' -> SInv s'.
Proof. intros Hv [_ HS] HI. split; [done|]. by eapply store_inv_view. Qed.

Lemma free_calls (e : ev server_sig) : is_write e = false ->
  cost server_tariff e = 0 /\ (forall s, guard server_tariff e s) /\ forall r, 0 <= gain server_tariff e r.
Proof.
  intros He. split_and!.
  - by destruct e.
  - by destruct e.
  - intros r. simpl. unfold input_gain. destruct (arrived e r) as [[c m]|]; [apply one_bounds|done].
Qed.

Lemma thrifty_ok {A} (p : srv A) :
  ok p -> (forall s, preserves store_view p s) -> avoids is_write p -> thrifty p.
Proof.
  apply (frugal_keeps server_tariff SInv evolves store_view Inv is_write).
  - apply tokens_view.
  - by intros s [].
  - apply SInv_view.
  - apply free_calls.
Qed.

(** Such a coroutine, by its structure. *)
Ltac quiet :=
  apply thrifty_ok; [solve [auto with gabriel | ok_tac]|intros ?; solve [pres]|solve [avoid]].

Lemma thrifty_StreamNext n m : thrifty (StreamNext_ n m).
Proof. unfold StreamNext_. quiet. Qed.
Lemma thrifty_MetricCall m : thrifty (MetricCall_ m).
Proof. unfold MetricCall_. quiet. Qed.
Lemma thrifty_MetricRemove m : thrifty (MetricRemove_ m).
Proof. unfold MetricRemove_. quiet. Qed.
Lemma thrifty_PerfCounter : thrifty PerfCounter_.
Proof. unfold PerfCounter_. quiet. Qed.
Lemma thrifty_get_worker wid : thrifty (get_worker wid).
Proof. unfold get_worker. frugal_tac. Qed.
Lemma thrifty_get_producer p : thrifty (get_producer p).
Proof. unfold get_producer. frugal_tac. Qed.
Lemma thrifty_get_client cid : thrifty (get_client cid).
Proof. unfold get_client. frugal_tac. Qed.

Lemma thrifty_send_next_input wid : thrifty (send_next_input wid).
Proof.
  apply thrifty_ok; [auto with gabriel|intros s|].
  - unfold send_next_input. apply preserves_bind; [unfold get_worker; pres|]. intros w s1.
    generalize (length (ew_producers w)). clear. intros n. revert s1.
    induction n as [|n IH]; intros s; cbn -[mbind];
      unfold clear_current_input_metadata, upd_worker, get_worker, get_producer, get_input_from_queue,
        send_payload, send_helper, upd_producer, upd_worker, EngineWrite_, PerfCounter_, get_worker, get_producer;
      repeat first [apply IH|progress pres].
  - unfold send_next_input. apply avoids_bind; [unfold get_worker; avoid|]. intros w.
    generalize (length (ew_producers w)). intros n.
    induction n as [|n IH]; cbn -[mbind];
      unfold clear_current_input_metadata, upd_worker, get_worker, get_producer, get_input_from_queue,
        send_payload, send_helper, upd_producer, upd_worker, EngineWrite_, PerfCounter_, get_worker, get_producer;
      repeat first [apply IH|progress avoid].
Qed.

Lemma thrifty_find_context eid items : thrifty (find_context eid items).
Proof.
  pose proof thrifty_get_worker.
  induction items as [|[c wid] items IH]; cbn -[mbind]; frugal_tac.
Qed.

#[local] Hint Resolve thrifty_StreamNext thrifty_MetricCall thrifty_MetricRemove thrifty_PerfCounter
  thrifty_get_worker thrifty_get_producer thrifty_get_client thrifty_send_next_input
  thrifty_find_context : gabriel.
(** ** Tokens of the client object *)

(** What a change of a client object does to the quantity. *)
Lemma free_tokens_alter cid cl g s :
  w_client_store s !! cid = Some cl ->
  free_tokens (upd_w_client_store (alter g cid) s) =
  free_tokens s + (share (g cl) - share cl) - (inbox (g cl) - inbox cl).
Proof.
  intros Hcl. unfold free_tokens, tokens_at_server, queued_at_server. simpl.
  rewrite (alter_lookup_insert _ _ _ _ Hcl), !list_fmap_insert.
  rewrite (total_insert (share <$> _) cid (share cl)) by (rewrite list_lookup_fmap, Hcl; done).
  rewrite (total_insert (inbox <$> _) cid (inbox cl)) by (rewrite list_lookup_fmap, Hcl; done). lia.
Qed.

Lemma tokens_set cid cl p n s :
  w_client_store s !! cid = Some cl ->
  free_tokens (upd_w_client_store (alter (upd_cl_tokens_for_producer (fun d => d.[p <- n])) cid) s) =
  free_tokens s +
    (if decide (cl_owner cl = sid /\ p = pid) then n - default num ((cl_tokens_for_producer cl).[p]) else 0).
Proof.
  intros Hcl. rewrite (free_tokens_alter _ _ _ _ Hcl).
  unfold share, inbox. simpl. destruct (decide (cl_owner cl = sid)) as [Ho|Ho].
  - destruct (decide (p = pid)) as [->|Hp].
    + rewrite decide_True, dict_get_set_eq by done. simpl. lia.
    + rewrite decide_False by naive_solver. rewrite dict_get_set_ne by done. lia.
  - rewrite decide_False by naive_solver. lia.
Qed.

(** A client object that stays with its connection. *)
Lemma store_inv_alter g cid s :
  (forall cl, cl_owner (g cl) = cl_owner cl /\ cl_websocket (g cl) = cl_websocket cl) ->
  (forall cl, w_client_store s !! cid = Some cl -> Zmq.HELLO_MSG ∉ cl_inputs cl -> Zmq.HELLO_MSG ∉ cl_inputs (g cl)) ->
  store_inv s -> store_inv (upd_w_client_store (alter g cid) s).
Proof.
  intros Hg Hi [Hn Hx Hh].
  assert (forall c cl, alter g cid (w_client_store s) !! c = Some cl ->
    w_client_store s !! c = Some cl \/ exists cl0, c = cid /\ w_client_store s !! cid = Some cl0 /\ cl = g cl0) as Hcl.
  { intros c cl. destruct (decide (c = cid)) as [->|Hc]; [|rewrite list_lookup_alter_ne by done; auto].
    rewrite list_lookup_alter_eq. destruct (w_client_store s !! cid) as [cl0|] eqn:H0; [|done].
    simpl. intros [= <-]. right. eauto. }
  split; [done|..]; intros c cl [H0|(cl0 & -> & H0 & ->)]%Hcl; eauto.
  destruct (Hg cl0) as [-> ->]. eauto.
Qed.

Lemma store_inv_set_tokens cid p n s :
  store_inv s -> store_inv (upd_w_client_store (alter (upd_cl_tokens_for_producer (fun d => d.[p <- n])) cid) s).
Proof. by apply store_inv_alter. Qed.

Lemma get_client_pays {B} cid cl (k : Client -> srv B) Q z s0 s :
  w_client_store s !! cid = Some cl ->
  Pays (k cl) Q z s0 s -> Pays (get_client cid ≫= k) Q z s0 s.
Proof. intros Hcl Hk. simpl. by rewrite Hcl. Qed.

(** ** Sending to a client *)

(** A program that runs under a lock. *)
Lemma locked_pays l (p : srv unit) b z s0 s :
  (NoDup (owners s) -> forall s0 s, R s0 s -> Pays p (saved SInv evolves b) z s0 s) ->
  R s0 s -> 0 <= b <= z ->
  Pays (with_lock l p) (saved SInv evolves b) z s0 s.
Proof.
  intros Hp [HI HG] Hb. unfold with_lock. apply pays_bind. cbn. intros Hk.
  rewrite Z.sub_0_r, Z.add_0_r. split_and!; [done|done|lia|done|].
  intros r s1 _ HI1 _ HG1. assert (R s1 s1) as HR by by split.
  destruct r as [[]|x]; cbn; [|by split; [lia|]].
  apply pays_try_finally. eapply pays_mono; [|by apply Hp]. intros o z1 s2 s3 [H1 H2].
  cbn. intros _. by split.
Qed.

(** Writing a message: at its price. *)
Lemma write_pays c m b z s0 s :
  grants num m -> 0 <= b -> b + one (bool_decide (c = ctx) && returns_to pid m) <= z -> R s0 s ->
  Pays (GrpcWrite_ c m) (saved SInv evolves b) z s0 s.
Proof.
  intros Hg Hb Hz [HI HG]. cbn. unfold write_cost. cbn. intros _. split_and!; [done|done|lia|done|].
  intros [[]|x] s1 _ HI1 _ HG1; cbn; rewrite Z.add_0_r; (split; [lia|by split]).
Qed.

Lemma ws_write_pays c m b z s0 s :
  grants num m -> 0 <= b -> b + one (bool_decide (c = ctx) && returns_to pid m) <= z -> R s0 s ->
  Pays (WsSend_ c (serialize m)) (saved SInv evolves b) z s0 s.
Proof.
  intros Hg Hb Hz [HI HG]. cbn. unfold write_cost, write_guard. cbn. rewrite parse_serialize. cbn.
  intros _. split_and!; [done|done|lia|done|].
  intros [[]|x] s1 _ HI1 _ HG1; cbn; rewrite Z.add_0_r; (split; [lia|by split]).
Qed.

(** The price of sending a message to an address: that of a write to the client
    that is entered under it. *)
Definition affords (a : string) (m : ToClient) (b z : Z) (s : World) : Prop :=
  NoDup (owners s) ->
  (forall cid cl, (w_clients s).[a] = Some cid -> w_client_store s !! cid = Some cl ->
     b + one (bool_decide (cl_websocket cl = ctx) && returns_to pid m) <= z) /\
  b + one (bool_decide (a = sid) && returns_to pid m) <= z.

Definition send_pays (send : string -> bytes -> srv bool) : Prop :=
  forall a m b z s0 s, grants num m -> 0 <= b <= z -> R s0 s -> affords a m b z s ->
  Pays (send a (serialize m)) (saved SInv evolves b) z s0 s.

(** A transport that looks up the client and its lock, and writes under the
    lock. *)
Lemma found_pays {A} a m (send : nat -> nat -> srv unit) (h : exn -> srv A) (v : A) cid l b z s0 s :
  grants num m -> 0 <= b <= z -> R s0 s -> affords a m b z s -> (w_clients s).[a] = Some cid ->
  (forall c s0 s, b + one (bool_decide (c = ctx) && returns_to pid m) <= z -> R s0 s ->
     Pays (send c l) (saved SInv evolves b) z s0 s) ->
  (forall x, thrifty (h x)) ->
  Pays (c ← get_client cid; try_except (with_lock l (send (cl_websocket c) l) ;; Ret v) h)
    (saved SInv evolves b) z s0 s.
Proof.
  intros Hg Hb HR Ha Hcid Hsend Hh. destruct (w_client_store s !! cid) as [cl|] eqn:Hcl.
  2: { cbn. rewrite Hcl. split; [lia|done]. }
  apply (get_client_pays _ _ _ _ _ _ _ Hcl), pays_try_except, pays_bind. eapply pays_mono; [|apply (locked_pays l _ b)].
  - intros [[]|x] z1 s1 s2 [H1 H2]; [by split|]. by apply frugal_from; [|lia|..].
  - intros Hk s1 s2 HR'. apply Hsend; [by eapply (proj1 (Ha Hk))|done].
  - done.
  - done.
Qed.

Lemma grpc_send_pays : send_pays Grpc.grpc_send_via_transport.
Proof.
  intros a m b z s0 s Hg Hb HR Ha. unfold Grpc.grpc_send_via_transport. do 2 apply pays_gets.
  destruct ((w_clients s).[a]) as [cid|] eqn:Hcid; [|by split; [lia|]].
  destruct ((w_write_locks s).[a]) as [l|]; [|by split; [lia|]].
  rewrite parse_serialize. apply pays_ret.
  apply (found_pays a m (fun c _ => GrpcWrite_ c m)); [done..| |].
  - intros c s1 s2 Hz HR'. by apply write_pays; [|lia|..].
  - intros x. frugal_tac.
Qed.

Lemma ws_send_pays : send_pays Ws.ws_send_via_transport.
Proof.
  intros a m b z s0 s Hg Hb HR Ha. unfold Ws.ws_send_via_transport. do 2 apply pays_gets.
  destruct ((w_clients s).[a]) as [cid|] eqn:Hcid; [|by split; [lia|]].
  destruct ((w_write_locks s).[a]) as [l|]; [|by split; [lia|]].
  apply (found_pays a m (fun c _ => WsSend_ c (serialize m))); [done..| |].
  - intros c s1 s2 Hz HR'. by apply ws_write_pays; [|lia|..].
  - intros x. frugal_tac.
Qed.

Section transport.
Context `{!PyEnv, !Transport}.
Hypothesis send_via_pays : send_pays send_via_transport.

Lemma thrifty_send_via a m :
  grants num m -> returns_to pid m = false -> thrifty (send_via_transport a (serialize m)).
Proof.
  intros Hg Hm c s0 s Hc HR. apply send_via_pays; [done|lia|done|].
  intros _. rewrite Hm, andb_false_r. simpl. split; [|lia]. intros cid cl _ _. rewrite andb_false_r. simpl. lia.
Qed.

Lemma thrifty_engines_updated_cb : thrifty engines_updated_cb.
Proof.
  unfold engines_updated_cb. apply frugal_bind; [frugal_tac|intros ids].
  apply frugal_bind; [frugal_tac|intros cl]. generalize (length cl) (dict_keys cl). intros n todo.
  induction todo as [|a todo IH]; cbn -[mbind]; frugal_tac.
  by apply thrifty_send_via.
Qed.

#[local] Hint Resolve thrifty_engines_updated_cb : gabriel.

(** A result that returns no token. *)
Lemma thrifty_send_result_no_token a p eid r : thrifty (send_result a p eid r false).
Proof.
  unfold send_result. frugal_tac. all: by apply thrifty_send_via.
Qed.

(** A result that returns the token of an input that has just been settled. *)
Lemma send_result_pays a p eid r b z s0 s :
  TokInv (credit a p (-1)) s -> SInv s -> evolves s0 s -> 0 <= b <= z ->
  Pays (send_result a p eid r true) (saved SInv evolves b) z s0 s.
Proof.
  intros HT HI HG Hb. unfold send_result. apply pays_gets.
  destruct ((w_clients s).[a]) as [cid|] eqn:Ha; [|by split; [lia|split]].
  destruct (ti_clients _ _ HT _ _ Ha) as (cl & Hcl & Hown). apply (get_client_pays _ _ _ _ _ _ _ Hcl).
  destruct ((cl_tokens_for_producer cl).[p]) as [n|] eqn:Hn.
  - unfold set_tokens, upd_client. apply pays_modify. cbn [amount server_tariff].
    rewrite (tokens_set _ _ _ _ _ Hcl), Hn. change (default num (Some n)) with n.
    assert (R s0 (upd_w_client_store (alter (upd_cl_tokens_for_producer (fun d => d.[p <- n + 1])) cid) s)) as HR.
    { split; [|by apply evolves_set_tokens]. split; [|apply store_inv_set_tokens, HI].
      eapply TokInv_set_tokens; eauto.
      - intros _ [B _]. specialize (B cid cl p Hcl). rewrite Hn, Hown, credit_same in B.
        rewrite Hown. unfold no_credit. lia.
      - intros a' p' Hne. rewrite Hown in Hne. by rewrite credit_elsewhere. }
    apply send_via_pays; [done|case_decide; lia|done|].
    assert (forall ch, (ch = true -> cl_owner cl = sid) -> b + one (ch && bool_decide (p = pid)) <=
        z + (free_tokens s + (if decide (cl_owner cl = sid /\ p = pid) then n + 1 - n else 0) - free_tokens s))
      as Hprice.
    { intros ch Hch. pose proof (one_bounds (ch && bool_decide (p = pid))).
      destruct (decide (cl_owner cl = sid /\ p = pid)) as [Hd|Hd]; [lia|].
      destruct ch; simpl; [|lia]. case_bool_decide; simpl; [|lia]. exfalso. apply Hd. auto. }
    intros _. split; [|apply Hprice; rewrite Hown; apply bool_decide_eq_true_1].
    intros cid' cl' Ha' Hcl'. simpl in Ha'. rewrite Ha in Ha'. injection Ha' as <-.
    pose proof (st_ctx _ (proj2 (proj1 HR)) _ _ Hcl') as Hx. simpl in Hcl'. rewrite list_lookup_alter_eq, Hcl in Hcl'.
    injection Hcl' as <-. apply Hprice. intros Hc%bool_decide_eq_true_1. by apply Hx.
  - apply pays_ret, send_via_pays; [done|lia|by split|].
    intros Hnd. exfalso.
    destruct (ti_bounds _ _ HT Hnd) as [B _]. specialize (B cid cl p Hcl).
    rewrite Hn, Hown, credit_same in B. pose proof (outstanding_nonneg a p s). lia.
Qed.

#[local] Hint Resolve thrifty_send_result_no_token : gabriel.

(** ** Engines *)

Lemma upd_producer_pays {B} q g p (k : unit -> srv B) Q z s0 s :
  (w_producer_infos s).[q] = Some p ->
  Pays (k tt) Q z s0 (put_producer q (g p) s) -> Pays (upd_producer q g ≫= k) Q z s0 s.
Proof.
  intros Hp Hk. unfold upd_producer. apply pays_modify. unfold upd_w_producer_infos. rewrite Hp.
  change (Pays (k tt) Q (z + (free_tokens s - free_tokens s)) s0 (put_producer q (g p) s)).
  by rewrite Z.sub_diag, Z.add_0_r.
Qed.

Lemma SInv_put_producer q p s : Inv (put_producer q p s) -> SInv s -> SInv (put_producer q p s).
Proof. intros HI HS. by apply (SInv_view s). Qed.

Lemma settle_pending_pays q p mp (eid : string) r {B} (k : bool -> srv B) z s0 s :
  (w_producer_infos s).[q] = Some p ->
  truthy (pi_pending_token_return p) = true ->
  pi_latest_input_sent_to_engine p = Some mp ->
  (forall b, thrifty (k b)) -> R s0 s -> 0 <= z ->
  Pays (upd_producer q (upd_pi_pending_token_return (fun _ => Some false)) ≫= fun _ =>
        send_result (md_client_address (mp_metadata mp)) (pi_producer_id p) eid r true ≫= k)
    (saved SInv evolves z) z s0 s.
Proof.
  intros Hp Hpend Hl Hk [HI HG] Hz. eapply upd_producer_pays; [done|].
  pose proof (proj1 HI) as HT. rewrite (pw_id _ _ _ (ti_producers _ _ HT _ _ Hp)).
  pose proof (TokInv_clear_pending s q p HT Hp mp Hpend Hl) as HT'.
  apply pays_bind. eapply pays_mono; [|apply (send_result_pays _ _ _ _ z)].
  - intros [b|x] z1 s1 s2 [H1 H2]; [by apply frugal_from|done].
  - exact HT'.
  - apply SInv_put_producer; [|done]. eapply TokInv_credit_nonpos; [|exact HT']. lia.
  - by apply evolves_put_producer.
  - lia.
Qed.

Lemma answer_and_continue_pays wid w m p r z s0 s :
  (w_producer_infos s).[md_producer_id m] = Some p -> R s0 s -> 0 <= z ->
  Pays (answer_and_continue wid w m p r) (saved SInv evolves z) z s0 s.
Proof.
  intros Hp HR Hz. unfold answer_and_continue.
  assert (thrifty ((if ew_all_responses_required w then
                 send_result (md_client_address m) (pi_producer_id p) (ew_engine_id w) r false
                 ≫= fun _ => Ret tt
               else Ret tt) ≫= fun _ => send_next_input wid)) as Hno.
  { frugal_tac. }
  destruct (truthy (pi_pending_token_return p)) eqn:Hpend; [|by apply pays_ret, Hno].
  destruct (pi_latest_input_sent_to_engine p) as [mp|] eqn:Hl; [|by split; [simpl; lia|]].
  apply pays_ret. case_bool_decide as Hm; [subst m|by apply Hno].
  apply settle_pending_pays; auto with gabriel.
Qed.

Lemma thrifty_for_sinks n todo body :
  (forall k, thrifty (body k)) -> thrifty (for_sinks n todo body).
Proof. intros Hb. induction todo as [|k todo IH]; cbn -[mbind]; frugal_tac. Qed.

Lemma thrifty_process_result r : thrifty (process_result r).
Proof.
  unfold process_result. case_decide; [|frugal_tac]. apply frugal_bind; [frugal_tac|intros sinks].
  apply thrifty_for_sinks. intros k. quiet.
Qed.

#[local] Hint Resolve thrifty_process_result : gabriel.

Lemma thrifty_handle_from_engine c m : thrifty (handle_from_engine c m).
Proof.
  assert (forall wid, thrifty (handle_result wid m)) as Hr.
  { intros wid. unfold handle_result, calculate_engine_metrics.
    apply frugal_bind; [frugal_tac|intros _]. apply frugal_bind; [frugal_tac|intros w].
    apply frugal_bind; [frugal_tac|intros _]. apply frugal_bind; [frugal_tac|intros _].
    destruct (ew_current_input_metadata w) as [md|]; [|frugal_tac].
    intros z s0 s Hz HR. apply pays_gets. destruct (_.[_]) as [p|] eqn:Hp; [|by split].
    by apply answer_and_continue_pays. }
  unfold handle_from_engine. frugal_tac.
Qed.

Lemma thrifty_settle_current_input w : thrifty (settle_current_input w).
Proof.
  unfold settle_current_input. destruct (ew_current_input_metadata w) as [md|]; [|frugal_tac].
  intros z s0 s Hz HR. apply pays_gets.
  destruct (_.[md_producer_id md]) as [p|] eqn:Hp; [|by split].
  destruct (pi_latest_input_sent_to_engine p) as [mp|] eqn:Hl; [|by split].
  case_bool_decide as Hmd; [subst md|by split].
  destruct (truthy (pi_pending_token_return p)) eqn:Hpend; cbn [andb orb].
  - apply settle_pending_pays; auto with gabriel.
  - destruct (ew_all_responses_required w); [|by split].
    eapply upd_producer_pays; [done|]. destruct HR as [HI HG].
    assert (thrifty (send_result (md_client_address (mp_metadata mp)) (pi_producer_id p)
              (ew_engine_id w) (disconnected_result (ew_engine_id w) (mp_metadata mp)) false
              ≫= fun _ => Ret tt)) as Hs by frugal_tac.
    apply Hs; [done|]. split; [|by apply evolves_put_producer].
    apply SInv_put_producer; [|done]. by apply TokInv_clear_not_pending; [apply HI|..].
Qed.

#[local] Hint Resolve thrifty_handle_from_engine thrifty_settle_current_input : gabriel.

Lemma thrifty_modify g :
  ok (modify g) -> (forall s, store_view (g s) = store_view s) -> thrifty (modify g).
Proof. intros Hok Hg. apply thrifty_ok; [done|intros; by apply preserves_modify|done]. Qed.

Lemma thrifty_engine_ids g : thrifty (modify (upd_w_engine_ids g)).
Proof. apply thrifty_modify; [ok_tac|done]. Qed.
Lemma thrifty_del_worker c : thrifty (modify (upd_w_engine_workers (dict_del c))).
Proof. apply thrifty_modify; [apply ok_del_worker|done]. Qed.

#[local] Hint Resolve thrifty_engine_ids thrifty_del_worker : gabriel.

Lemma thrifty_remove_engine_worker c : thrifty (remove_engine_worker c).
Proof. unfold remove_engine_worker. frugal_tac. Qed.

#[local] Hint Resolve thrifty_remove_engine_worker : gabriel.

Lemma thrifty_add_engine_worker c reg : thrifty (add_engine_worker c reg).
Proof.
  unfold add_engine_worker. cbn zeta. apply frugal_bind; [frugal_tac|intros ids].
  apply frugal_bind; [frugal_tac|intros _].
  intros z s0 s Hz HR.
  assert (thrifty (wid ← new_engine_worker c reg;
            modify (upd_w_engine_workers (fun d => d.[RContext c <- wid])))) as Hreg.
  { apply thrifty_ok.
    - intros s1 s2 H2. apply (ok_register_worker c reg Ret); [apply keeps_ret|exact H2].
    - intros s1. unfold new_engine_worker. pres.
    - unfold new_engine_worker. avoid. }
  assert (thrifty ((wid ← new_engine_worker c reg;
            modify (upd_w_engine_workers (fun d => d.[RContext c <- wid]))) ≫= fun _ =>
            modify (upd_w_engine_ids (fun X => {[reg_engine_id reg]} ∪ X)) ;; engines_updated_cb)) as Hall.
  { frugal_tac. }
  exact (Hall z s0 s Hz HR).
Qed.

#[local] Hint Resolve thrifty_add_engine_worker : gabriel.

Lemma thrifty_EngineSession c msgs : thrifty (EngineSession c msgs).
Proof. unfold EngineSession. frugal_tac. Qed.
End transport.

(** ** Messages of a client *)

Section clients.
Context `{!PyEnv}.

Lemma send_to_engine_store fc a info s : preserves store_view (send_to_engine fc a info) s.
Proof.
  apply (preserves_compose SessionSpec.client_view
    (fun v => (client_core <$> v.1.1.2, v.2)) (send_to_engine fc a info)), engine_cb_preserves.
Qed.

Lemma send_to_engine_avoids fc a info : avoids is_write (send_to_engine fc a info).
Proof.
  unfold send_to_engine, get_producer. cbn zeta. do 3 (apply avoids_bind; [avoid|intros ?]).
  destruct (dispatch_avoids is_write (in_producer_id (fc_input fc)) fc a info) as (rest & -> & Hrest); [done..|].
  by apply avoids_bind.
Qed.

(** The outcome of an input, with the credit it arrived with. *)
Definition taken_input (cid : nat) (a p : string) (b : Z) (o : (StatusCode * string) + exn)
    (z : Z) (s0 s : World) : Prop :=
  b <= z /\ accepted cid a p o s0 s /\ store_inv s.

Lemma R_taken cid a p b (o : (StatusCode * string) + exn) z s0 s :
  (forall msg, o <> inl (SUCCESS, msg)) -> b <= z -> R s0 s -> taken_input cid a p b o z s0 s.
Proof.
  intros Ho Hb HR. split_and!; [done| |apply HR].
  destruct o as [[[] msg]|x]; try by apply R_J. by destruct (Ho msg).
Qed.

Lemma forward_input_pays cid a fc info b z s0 s :
  R s0 s -> client_at cid a s -> 0 <= b <= z ->
  Pays (forward_input send_to_engine cid a fc info)
    (taken_input cid a (in_producer_id (fc_input fc)) b) z s0 s.
Proof.
  intros HR (c & Hc & <-) Hb. unfold forward_input. set (p := in_producer_id (fc_input fc)).
  apply (get_client_pays _ _ _ _ _ _ _ Hc). apply pays_gets.
  set (rest := fun _ : unit => c ← get_client cid; _).
  assert (forall s, R s0 s -> has_tokens cid (cl_owner c) p s ->
    Pays (rest tt) (taken_input cid (cl_owner c) p b) z s0 s) as Hrest.
  { intros s' HR' HT'. pose proof HT' as (c1 & Hc1 & _ & [n Hn]). unfold rest.
    apply (get_client_pays _ _ _ _ _ _ _ Hc1). rewrite Hn. apply pays_ret.
    destruct (n <? 1); [by apply R_taken; [|lia|]|].
    eapply pays_mono; [|eapply (pays_safe server_tariff SInv evolves store_view Inv is_write
        tokens_view ltac:(by intros ? []) SInv_view free_calls _ _ b);
      [apply engine_cb_safe; [by apply R_J|exact HT']|apply send_to_engine_store
      |apply send_to_engine_avoids|lia|lia|apply HR'|done]].
    intros o z1 s1 s2 (H1 & H2 & s3 & [_ H3] & H4). split_and!; [done|done|by eapply store_inv_view]. }
  destruct ((cl_tokens_for_producer c).[p]) as [n|] eqn:Hn.
  - apply pays_ret, Hrest; [done|]. exists c. eauto.
  - unfold set_tokens, upd_client. apply pays_modify. cbn [amount server_tariff].
    rewrite (tokens_set _ _ _ _ _ Hc), Hn. change (default num None) with num.
    rewrite (st_num _ (proj2 (proj1 HR))).
    replace (z + _) with z by (case_decide; lia).
    destruct (grant_tokens_safe cid c p s0 s (R_J _ _ HR) Hc Hn) as [[HI HG] HT].
    rewrite (st_num _ (proj2 (proj1 HR))) in *. apply Hrest; [|done].
    split; [|done]. split; [done|]. apply store_inv_set_tokens, HR.
Qed.

Lemma consume_token_pays cid a p b z s0 s :
  TokInv (credit a p 1) s -> store_inv s -> evolves s0 s -> has_tokens cid a p s ->
  0 <= b <= z -> (a = sid -> p = pid -> b + 1 <= z) ->
  Pays (consume_token cid p) (saved SInv evolves b) z s0 s.
Proof.
  intros HT HS HG Htok Hb Hz.
  pose proof (consume_token_safe cid a p s0 s HT HG Htok) as Hsafe.
  destruct Htok as (c & Hc & <- & [n Hn]). unfold consume_token, set_tokens, upd_client in *.
  simpl in Hsafe |- *. rewrite Hc in *. simpl in Hsafe |- *. rewrite Hn in *. simpl in Hsafe |- *.
  rewrite (tokens_set _ _ _ _ _ Hc), Hn. change (default num (Some n)) with n.
  split; [case_decide as Hd; [destruct Hd; specialize (Hz ltac:(done) ltac:(done))|]; lia|].
  destruct Hsafe as [HI HG']. split; [|done].
  split; [done|]. by apply store_inv_set_tokens.
Qed.

(** Consuming the token of an input that has been handed on. *)
Lemma taken_pays cid a p msg b z0 z s0 s :
  taken_input cid a p z0 (inl (SUCCESS, msg)) z s0 s -> 0 <= b <= z0 ->
  (a = sid -> p = pid -> b + 1 <= z0) ->
  Pays (consume_token cid p) (saved SInv evolves b) z s0 s.
Proof.
  intros (H1 & (HI & HG & HT) & HS) Hb Hp. eapply (consume_token_pays _ a); [done..|lia|].
  intros Ha Hq. specialize (Hp Ha Hq). lia.
Qed.

Lemma refused_R cid a p z0 st msg z s0 s :
  st <> SUCCESS -> taken_input cid a p z0 (inl (st, msg)) z s0 s -> R s0 s.
Proof. intros Hst (H1 & Ho & HS). apply J_R; [by destruct st|done]. Qed.

(** The input of a client, up to the answer. *)
Lemma helper_pays fc a cid z s0 s :
  is_registration fc = false -> R s0 s -> client_at cid a s -> 0 <= z ->
  Pays (consumer_helper send_to_engine cid a fc)
    (taken_input cid a (in_producer_id (fc_input fc)) z) z s0 s.
Proof.
  intros Hfc HR Hat Hz. destruct fc as [|i|info]; cbn [consumer_helper]; [| |done].
  all: destruct Hat as (cl & Hcl & <-); apply (get_client_pays _ _ _ _ _ _ _ Hcl).
  all: destruct (cl_client_info cl) as [ci|]; [|by apply R_taken; [|lia|]].
  all: apply forward_input_pays; [done|by exists cl|lia].
Qed.

(** The registration of a client, up to the answer. *)
Lemma register_pays {B} info cid a (k : StatusCode * string -> srv B) Q z s0 s :
  R s0 s -> 0 <= z ->
  (forall z1 s0 s, z <= z1 -> R s0 s -> Pays (k (SUCCESS, "")) Q z1 s0 s) ->
  (forall x z1 s0 s, z <= z1 -> R s0 s -> Q (inr x) z1 s0 s) ->
  Pays (consumer_helper send_to_engine cid a (FromClient_registration info) ≫= k) Q z s0 s.
Proof.
  intros HR Hz Hk HQ. cbn [consumer_helper].
  assert (thrifty (upd_client cid (upd_cl_client_info (fun _ => Some info)))) as Hup.
  { unfold upd_client. apply thrifty_modify; [by apply ok_upd_client|].
    intros s1. unfold store_view. simpl. f_equal. apply list_eq. intros i. rewrite !list_lookup_fmap.
    destruct (decide (i = cid)) as [->|Hi]; [|by rewrite list_lookup_alter_ne].
    rewrite list_lookup_alter_eq. by destruct (w_client_store s1 !! cid). }
  do 2 apply pays_bind. eapply pays_mono; [|by apply (frugal_from _ _ _ _ z); [exact Hup|lia|lia|]].
  intros [[]|x] z1 s1 s2 [H1 H2]; cbn [pays]; auto.
Qed.

(** An answer costs the token that it returns. *)
Lemma answer_price fc c a b z st msg :
  0 <= b <= z -> (in_producer_id (fc_input fc) = pid -> a = sid \/ to_control c = true -> b + 1 <= z) ->
  b + one (to_control c && returns_to pid (make_error_response fc st msg)) <= z.
Proof.
  intros Hb Hz. simpl. destruct (to_control c),
    (bool_decide_reflect (in_producer_id (fc_input fc) = pid)); simpl; try lia. auto.
Qed.

(** A message of a client, with the answers of the transport: to a registration,
    to an input that has been handed on, and to one that has not. *)
Lemma handled_pays fc c a cid (k : StatusCode * string -> srv unit) b z s0 s :
  R s0 s -> client_at cid a s -> 0 <= b <= z ->
  (input_of pid fc = true -> a = sid \/ to_control c = true -> b + 1 <= z) ->
  (is_registration fc = true -> forall z s0 s, b <= z -> R s0 s ->
     Pays (k (SUCCESS, "")) (saved SInv evolves b) z s0 s) ->
  (is_registration fc = false -> forall msg z s0 s,
     Pays (consume_token cid (in_producer_id (fc_input fc))) (saved SInv evolves b) z s0 s ->
     Pays (k (SUCCESS, msg)) (saved SInv evolves b) z s0 s) ->
  (forall st msg z s0 s, st <> SUCCESS -> R s0 s -> 0 <= b <= z ->
     b + one (to_control c && returns_to pid (make_error_response fc st msg)) <= z ->
     Pays (k (st, msg)) (saved SInv evolves b) z s0 s) ->
  Pays (consumer_helper send_to_engine cid a fc ≫= k) (saved SInv evolves b) z s0 s.
Proof.
  intros HR Hat Hb Hz Hreg Hin Herr. destruct (is_registration fc) eqn:Hr.
  - destruct fc as [|i|info]; [done|done|]. apply register_pays; [done|lia| |by intros; split; [lia|]].
    intros z1 s1 s2 H1. apply Hreg; [done|lia].
  - assert (in_producer_id (fc_input fc) = pid -> a = sid \/ to_control c = true -> b + 1 <= z) as Hp.
    { intros Hp. apply Hz. unfold input_of. rewrite Hr. simpl. by apply bool_decide_eq_true. }
    apply pays_bind. eapply pays_mono; [|apply (helper_pays fc a cid z); [done..|lia]]. clear s0 s HR Hat.
    intros [[st msg]|x] z1 s0 s Ht; [|destruct Ht as (H1 & Ho & HS); split; [lia|by apply J_R]].
    destruct (decide (st = SUCCESS)) as [->|Hst].
    + apply Hin; [done|]. apply (taken_pays _ _ _ _ b _ _ _ _ Ht); [done|by auto].
    + pose proof (refused_R _ _ _ _ _ _ _ _ _ Hst Ht) as HR. destruct Ht as [H1 _].
      apply Herr; [done|done|lia|]. apply (answer_price fc c a); [lia|].
      intros H2 H3. specialize (Hp H2 H3). lia.
Qed.

(** The acknowledgement of a registration. *)
Lemma registered_pays {B} (k : ToClient -> srv B) Q z s0 s :
  R s0 s -> (forall x, Q (inr x) z s0 s) ->
  (forall m, grants num m -> returns_to pid m = false -> Pays (k m) Q z s0 s) ->
  Pays (make_registered ≫= k) Q z s0 s.
Proof.
  intros HR HQ Hk. unfold make_registered. apply pays_bind, pays_gets.
  destruct (in_int32 _); [|by apply HQ]. apply Hk; [|done]. apply (st_num _ (proj2 (proj1 HR))).
Qed.

(** What the next message of the stream [c] brings. *)
Definition brings (c : nat) (m : option incoming) : Z :=
  match m ≫= from_client_of with Some fc => one (mine c && input_of pid fc) | None => 0 end.

Lemma next_pays c m (P : World -> Prop) b z s0 s :
  (forall s s', P s -> evolves s s' -> P s') -> R s0 s -> P s -> 0 <= b <= z ->
  Pays (anext (StreamNext_ c m)) (fun o z' s0 s =>
    saved SInv evolves b o z' s0 s /\ P s /\ (o = inl true -> b + brings c m <= z')) z s0 s.
Proof.
  intros HP [HI HG] HPs Hb. unfold anext, StreamNext_. simpl. intros _. rewrite Z.sub_0_r.
  split_and!; [done|done|lia|done|]. intros r s1 _ HI1 _ HG1.
  assert (P s1) by eauto. assert (R s1 s1) by by split.
  assert (0 <= brings c m) as Hpos.
  { unfold brings. destruct (m ≫= from_client_of); [apply one_bounds|done]. }
  destruct r as [[]|x]; simpl.
  - assert (input_gain (StreamNext c m) (inl tt) = brings c m) as ->.
    { unfold input_gain, brings. destruct m as [m|]; simpl; [|done]. by destruct (from_client_of m). }
    split_and!; [split; [lia|done]|done|by intros; lia].
  - assert (input_gain (StreamNext c m) (inr x) = 0) as -> by (unfold input_gain; by destruct m).
    rewrite Z.add_0_r; destruct x; simpl; (split_and!; [split; [lia|done]|done|done]).
Qed.

(** A handler of messages, with answers on [ch], that can pay for the answer to an
    input, once it has come. *)
Definition handles (handler : FromClient -> srv unit) (ch : channel) (a : string) (cid : nat) : Prop :=
  forall fc b z s0 s, R s0 s -> client_at cid a s -> 0 <= b <= z ->
  (input_of pid fc = true -> a = sid \/ to_control ch = true -> b + 1 <= z) ->
  Pays (handler fc) (saved SInv evolves b) z s0 s.

(** A message for the client [cid] of the session [a], whose unit has come. *)
Lemma message_pays handler fc ch (own : bool) a cid b z s0 s :
  handles handler ch a cid ->
  (a = sid -> own = true) -> (to_control ch = true -> a = sid) ->
  R s0 s -> client_at cid a s -> 0 <= b -> b + one (own && input_of pid fc) <= z ->
  Pays (handler fc) (fun o z' s0 s => saved SInv evolves b o z' s0 s /\ client_at cid a s) z s0 s.
Proof.
  intros Hh Hm Hc [HI HG] Hat Hb Hz. pose proof (one_bounds (own && input_of pid fc)).
  apply pays_keep; [by apply _|apply client_at_stable| |done|done].
  apply Hh; [by split|done|lia|]. intros Hin Ha.
  assert (a = sid) as Ha' by (destruct Ha; auto). rewrite Hin, (Hm Ha') in Hz. simpl in Hz. lia.
Qed.

(** The loop over the messages of the control stream. *)
Lemma messages_pay {X} (incoming_of : X -> incoming) (body : X -> srv unit) handler c msgs a cid b z s0 s :
  (forall x, match from_client_of (incoming_of x) with
             | Some fc => body x = handler fc
             | None => exists e, body x = Throw e
             end) ->
  handles handler (Stream c) a cid ->
  (a = sid -> mine c = true) -> (c = ctx -> a = sid) ->
  R s0 s -> client_at cid a s -> 0 <= b <= z ->
  Pays (async_for (fun m => StreamNext_ c (incoming_of <$> m)) msgs body) (saved SInv evolves b) z s0 s.
Proof.
  intros Hbody Hh Hm Hc. revert z s0 s.
  induction msgs as [|m msgs IH]; intros z s0 s HR Hat Hb;
    (apply pays_bind; eapply pays_mono; [|apply (next_pays c _ (client_at cid a) b); [apply client_at_stable|done..]]).
  - by intros [[]|x] z1 s1 s2 (H1 & _).
  - intros [[]|x] z1 s1 s2 (H1 & H2 & H3); [|done..]. specialize (H3 eq_refl).
    apply pays_bind. pose proof (Hbody m) as Hx. unfold brings in H3. simpl in H3.
    destruct (from_client_of (incoming_of m)) as [fc|]; [rewrite Hx|by destruct Hx as [e ->]].
    eapply pays_mono; [|apply (message_pays handler fc (Stream c) (mine c) a cid b);
      [done|done|by intros ?%bool_decide_eq_true_1; auto|apply H1|done|lia|done]].
    intros [[]|x] z2 s3 s4 [H4 H5]; [|done]. apply IH; [apply H4|done|].
    destruct H4. lia.
Qed.

(** ** gRPC streams *)

Lemma answer_pays a c m b z s0 s :
  grants num m -> 0 <= b <= z -> b + one (bool_decide (c = ctx) && returns_to pid m) <= z -> R s0 s ->
  Pays (write_lock ← gets (fun s => (w_write_locks s).[a]);
        match write_lock with None => Ret tt | Some l => with_lock l (GrpcWrite_ c m) end)
    (saved SInv evolves b) z s0 s.
Proof.
  intros Hg Hb Hz HR. apply pays_gets. destruct (_.[a]) as [l|]; [|by split; [lia|]].
  apply locked_pays; [|done|done]. intros _ s1 s2 HR'. by apply write_pays; [|lia|..].
Qed.

Lemma grpc_handles c a cid :
  handles (fun fc => Grpc.handle_from_client send_to_engine fc c a cid) (Stream c) a cid.
Proof.
  intros fc b z s0 s HR Hat Hb Hz. apply (handled_pays fc (Stream c) a cid); [done..| | |]; clear s0 s HR Hat.
  - intros Hr z1 s0 s H1 HR. cbn beta iota. rewrite decide_True, Hr by done. apply pays_bind.
    apply registered_pays; [done|by intros; split; [lia|]|]. intros m Hg Hm. apply (answer_pays a c m); [done|lia| |done].
    rewrite Hm, andb_false_r. simpl. lia.
  - intros Hr msg z1 s0 s Hc. cbn beta iota. rewrite decide_True, Hr by done. do 2 apply pays_bind.
    eapply pays_mono; [|exact Hc]. by intros [[]|x] z2 s1 s2 H2.
  - intros st msg z1 s0 s Hst HR H1 H2. cbn beta iota. rewrite decide_False by done.
    destruct (StatusCode_Name st); [|by split; [lia|]].
    by apply (answer_pays a c (make_error_response fc st msg)).
Qed.

Lemma consumer_pays c msgs a cid b z s0 s :
  (a = sid -> mine c = true) -> (c = ctx -> a = sid) ->
  R s0 s -> client_at cid a s -> 0 <= b <= z ->
  Pays (Grpc.consumer send_to_engine c msgs a cid) (saved SInv evolves b) z s0 s.
Proof. by apply (messages_pay client_message _ _ c msgs a cid b z s0 s ltac:(done)), grpc_handles. Qed.

Lemma producer_stream_pays c msgs a b z s0 s :
  (a = sid -> mine c = true) -> R s0 s -> 0 <= b <= z ->
  Pays (Grpc.producer_stream send_to_engine c msgs a) (saved SInv evolves b) z s0 s.
Proof.
  intros Hm. revert z s0 s.
  induction msgs as [|m msgs IH]; intros z s0 s HR Hb;
    (apply pays_bind; eapply pays_mono; [|apply (next_pays c _ (fun _ => True) b); done]).
  - by intros [[]|x] z1 s1 s2 (H1 & _).
  - intros [[]|x] z1 s1 s2 (H1 & _ & H3); [|done..]. apply pays_gets.
    destruct (_.[a]) as [cid|] eqn:Ha; [|done]. destruct H1 as [H1 HR1].
    destruct (ti_clients _ _ (proj1 (proj1 HR1)) _ _ Ha) as (cl & Hcl & Hown).
    apply (get_client_pays _ _ _ _ _ _ _ Hcl), pays_bind.
    eapply pays_mono; [|apply (message_pays _ m (Stream (cl_websocket cl)) (mine c) a cid b _ _ _ (grpc_handles _ a cid))].
    + intros [[]|x] z2 s3 s4 [[H4 H6] H5]; [|done]. apply IH; [done|lia].
    + done.
    + intros Hws%bool_decide_eq_true_1. rewrite <- Hown. by apply (st_ctx _ (proj2 (proj1 HR1)) _ _ Hcl).
    + done.
    + by exists cl.
    + lia.
    + by apply H3.
Qed.

(** A new client has all its tokens, and no input waits. *)
Lemma new_client_state a c s0 s :
  (c = ctx -> a = sid) -> R s0 s ->
  let s' := upd_w_clients (fun d => d.[a <- length (w_client_store s)])
              (upd_w_client_store (fun h => h ++ [mkClient a [] [] c None]) s) in
  free_tokens s' = free_tokens s /\ store_inv s'.
Proof.
  intros Hc HR s'. split.
  - unfold free_tokens, tokens_at_server, queued_at_server. simpl. rewrite !fmap_app, !total_app. simpl.
    unfold share at 2, inbox at 2. simpl. unfold total at 2 4. simpl.
    change (total []) with 0. destruct (decide (a = sid)); lia.
  - destruct HR as [[_ [Hn Hx Hh]] _]. split; [done|..]; intros cid cl Hcl; simpl in Hcl;
      (apply lookup_app_Some in Hcl as [Hcl|[_ Hcl]]; [by eauto|]);
      apply list_lookup_singleton_Some in Hcl as [_ <-]; simpl; [done|apply not_elem_of_nil].
Qed.

Lemma open_session_pays {B} a c (k : nat -> srv B) Q z s0 s :
  (c = ctx -> a = sid) -> R s0 s ->
  (forall cid s0 s, R s0 s -> client_at cid a s -> Pays (k cid) Q z s0 s) ->
  Pays (Grpc.open_session a c ≫= k) Q z s0 s.
Proof.
  intros Hc HR Hk. pose proof (R_J _ _ HR) as HJ. destruct (new_client_state a c s0 s Hc HR) as [Ht HS].
  unfold Grpc.open_session, new_client. simpl.
  replace (z + _ + _ + _ + _) with z.
  - pose proof (open_session_safe a c (fun cid => Ret cid)
      (fun o s0 s => match o with inl cid => J s0 s /\ client_at cid a s | _ => True end) s0 s HJ) as Hs.
    simpl in Hs. destruct Hs as [HJ' Hat]; [by intros|].
    apply Hk; [|done]. apply J_R; [done|]. destruct HS as [Hn Hx Hh]. split; [done|exact Hx|exact Hh].
  - unfold free_tokens, tokens_at_server, queued_at_server in *. simpl in *. lia.
Qed.

Lemma thrifty_del_client a : thrifty (Grpc.del_client a).
Proof.
  apply thrifty_ok; [apply ok_del_client|intros s; unfold Grpc.del_client; pres|].
  unfold Grpc.del_client. avoid.
Qed.

Lemma thrifty_del_write_lock a : thrifty (Grpc.del_write_lock a).
Proof.
  apply thrifty_ok; [apply ok_del_write_lock|intros s; unfold Grpc.del_write_lock; pres|].
  unfold Grpc.del_write_lock. avoid.
Qed.

Lemma thrifty_close_session a : thrifty (Grpc.del_client a ;; Grpc.del_write_lock a).
Proof. apply frugal_bind; [apply thrifty_del_client|intros; apply thrifty_del_write_lock]. Qed.

(** The session that the metadata of a stream names. *)
Definition session_of (metadata : list (string * string)) : string :=
  default "" ((Grpc.dict_of metadata).[Grpc.SESSION_ID_METADATA_KEY]).

Lemma thrifty_ClientSession c metadata msgs :
  (session_of metadata = sid -> mine c = true) -> (c = ctx -> session_of metadata = sid) ->
  thrifty (Grpc.ClientSession send_to_engine c metadata msgs).
Proof.
  intros Hm Hc. unfold Grpc.ClientSession. cbn zeta. destruct (_ && _); [|frugal_tac; quiet].
  case_decide; intros z s0 s Hz HR.
  - by apply producer_stream_pays.
  - apply open_session_pays; [done|done|]. clear s0 s HR. intros cid s0 s HR Hat.
    apply pays_try_finally. eapply pays_mono; [|by apply (consumer_pays _ _ _ _ z)].
    intros o z1 s1 s2 [H1 H2]. eapply pays_mono; [|apply (frugal_from _ _ _ _ z); [|done|done|exact H2]].
    + by intros [] z2 s3 s4 H4.
    + apply thrifty_close_session.
Qed.

(** ** WebSocket connections *)

Lemma locked_send_pays a c m b z s0 s :
  grants num m -> 0 <= b <= z -> b + one (bool_decide (c = ctx) && returns_to pid m) <= z -> R s0 s ->
  Pays (Ws.locked_send a c (serialize m)) (saved SInv evolves b) z s0 s.
Proof.
  intros Hg Hb Hz HR. unfold Ws.locked_send. apply pays_bind, pays_gets.
  destruct (_.[a]) as [l|]; cbn [of_option pays]; [|by split; [lia|]].
  apply locked_pays; [|done|done]. intros _ s1 s2 HR'. by apply ws_write_pays; [|lia|..].
Qed.

(** The body of the loop of [WebsocketServer._consumer], for a message that has
    been parsed. *)
Definition ws_handle (c : nat) (a : string) (cid : nat) (fc : FromClient) : srv unit :=
  Ret fc ≫= fun from_client =>
  consumer_helper send_to_engine cid a from_client ≫= fun '(st, msg) =>
  if decide (st = SUCCESS) then
    if is_registration from_client then m ← make_registered; Ws.locked_send a c (serialize m)
    else consume_token cid (in_producer_id (fc_input from_client))
  else Ws.locked_send a c (serialize (make_error_response from_client st msg)).

Lemma ws_consume_handle c a cid raw :
  match from_client_of (raw_message raw) with
  | Some fc => Ws.consume send_to_engine c a cid raw = ws_handle c a cid fc
  | None => exists e, Ws.consume send_to_engine c a cid raw = Throw e
  end.
Proof. unfold Ws.consume. simpl. destruct (parse raw); [done|by eexists]. Qed.

Lemma ws_handles c a cid : handles (ws_handle c a cid) (Stream c) a cid.
Proof.
  intros fc b z s0 s HR Hat Hb Hz. unfold ws_handle. apply pays_ret.
  apply (handled_pays fc (Stream c) a cid); [done..| | |]; clear s0 s HR Hat.
  - intros Hr z1 s0 s H1 HR. cbn beta iota. rewrite decide_True, Hr by done.
    apply registered_pays; [done|by intros; split; [lia|]|]. intros m Hg Hm. apply (locked_send_pays a c m); [done|lia| |done].
    rewrite Hm, andb_false_r. simpl. lia.
  - intros Hr msg z1 s0 s Hc. cbn beta iota. by rewrite decide_True, Hr by done.
  - intros st msg z1 s0 s Hst HR H1 H2. cbn beta iota. rewrite decide_False by done.
    by apply (locked_send_pays a c (make_error_response fc st msg)).
Qed.

Lemma thrifty_client_handler c a msgs :
  (a = sid -> mine c = true) -> (c = ctx -> a = sid) ->
  thrifty (Ws.client_handler send_to_engine c a msgs).
Proof.
  intros Hm Hc z s0 s Hz HR. apply open_session_pays; [done|done|]. clear s0 s HR. intros cid s0 s HR Hat.
  apply pays_try_finally, pays_try_except. eapply pays_mono; [|eapply (messages_pay raw_message _ _ c msgs a cid z);
    [apply ws_consume_handle|apply ws_handles|done|done|done|done|lia]].
  assert (forall (o : unit + exn) z1 s0 s, z <= z1 -> R s0 s ->
    Pays (Grpc.del_client a ;; Grpc.del_write_lock a)
      (fun o' z' s0 s => match o' with inl _ | _ => saved SInv evolves z o z' s0 s end) z1 s0 s) as Hfin.
  { intros o z1 s1 s2 H1 H2. eapply pays_mono; [|by apply (frugal_from _ _ _ _ z); [apply thrifty_close_session|..]].
    by intros []. }
  intros [[]|x] z1 s1 s2 [H1 H2]; [by apply (Hfin (inl tt))|]. destruct x; by apply (Hfin (inl tt)).
Qed.

(** ** ZeroMQ *)

Lemma zmq_write_pays a b m bal z s0 s :
  (forall m', zmq_to_client b = Some m' -> m' = m) -> grants num m -> 0 <= bal ->
  bal + one (bool_decide (a = sid) && returns_to pid m) <= z -> R s0 s ->
  Pays (ZmqSend_ a b) (saved SInv evolves bal) z s0 s.
Proof.
  intros Hm Hg Hb Hz [HI HG]. pose proof (one_bounds (bool_decide (a = sid) && returns_to pid m)).
  assert (write_cost (ZmqSend a b) <= one (bool_decide (a = sid) && returns_to pid m) /\
          0 <= write_cost (ZmqSend a b) /\ write_guard (ZmqSend a b) s) as (H1 & H2 & H3).
  { unfold write_cost, write_guard. simpl. destruct (zmq_to_client b) as [m'|]; simpl; [|by split_and!; [lia|..]].
    rewrite (Hm m' eq_refl). split_and!; [lia|apply one_bounds|done]. }
  simpl. intros _. split_and!; [done|done|lia|done|].
  intros [[]|x] s1 _ HI1 _ HG1; cbn; rewrite Z.add_0_r; (split; [lia|by split]).
Qed.

Lemma zmq_serialized m m' : zmq_to_client (serialize m) = Some m' -> m' = m.
Proof. unfold zmq_to_client. case_decide; [done|]. rewrite parse_serialize. by intros [= ->]. Qed.

Lemma zmq_send_pays : send_pays Zmq.zmq_send_via_transport.
Proof.
  intros a m b z s0 s Hg Hb HR Ha. unfold Zmq.zmq_send_via_transport. apply pays_gets.
  destruct (w_simulate_disconnection s); [by split; [lia|]|].
  destruct HR as [HI HG]. assert (R s s) by (split; [done|reflexivity]).
  intros Hk. destruct (Ha Hk) as [_ Hz].
  pose proof (zmq_write_pays a (serialize m) m b z s0 s (zmq_serialized m) Hg ltac:(lia) Hz ltac:(by split)) as Hp.
  assert (Pays (ZmqSend_ a (serialize m) ;; Ret true) (saved SInv evolves b) z s0 s) as Hall.
  { apply pays_bind. eapply pays_mono; [|exact Hp]. by intros [[]|x] z1 s1 s2 H1. }
  by apply Hall.
Qed.

(** What [ZeroMQServer._consumer] does with a message that it has parsed. *)
Definition zmq_handle (a : string) (cid : nat) (fc : FromClient) : srv unit :=
  consumer_helper send_to_engine cid a fc ≫= fun '(st, msg) =>
  if decide (st = SUCCESS) then
    if is_registration fc then m ← make_registered; ZmqSend_ a (serialize m)
    else consume_token cid (in_producer_id (fc_input fc))
  else
    of_option (ValueError "Enum has no name defined for value") (StatusCode_Name st) ;;
    ZmqSend_ a (serialize (make_error_response fc st msg)).

Lemma zmq_handles a cid : handles (zmq_handle a cid) (Peer a) a cid.
Proof.
  intros fc b z s0 s HR Hat Hb Hz. unfold zmq_handle.
  apply (handled_pays fc (Peer a) a cid); [done..| | |]; clear s0 s HR Hat.
  - intros Hr z1 s0 s H1 HR. cbn beta iota. rewrite decide_True, Hr by done.
    apply registered_pays; [done|by intros; split; [lia|]|]. intros m Hg Hm.
    apply (zmq_write_pays a _ m); [apply zmq_serialized|done|lia| |done].
    rewrite Hm, andb_false_r. simpl. lia.
  - intros Hr msg z1 s0 s Hc. cbn beta iota. by rewrite decide_True, Hr by done.
  - intros st msg z1 s0 s Hst HR H1 H2. cbn beta iota. rewrite decide_False by done.
    destruct (StatusCode_Name st); [|by split; [lia|]]. apply pays_ret.
    apply (zmq_write_pays a _ (make_error_response fc st msg)); [apply zmq_serialized|done|lia|exact H2|done].
Qed.

(** A message taken from the queue, with the credit of the input that it is. *)
Lemma zmq_consume_pays a cid raw b z s0 s :
  R s0 s -> client_at cid a s -> raw <> Zmq.HELLO_MSG -> 0 <= b ->
  b + one (bool_decide (a = sid)) * is_input raw <= z ->
  Pays (Zmq.consume send_to_engine a cid raw)
    (fun o z' s0 s => saved SInv evolves b o z' s0 s /\ client_at cid a s) z s0 s.
Proof.
  intros HR Hat Hraw Hb Hz. unfold is_input, zmq_from_client in Hz. unfold Zmq.consume.
  destruct (decide (raw = Zmq.HEARTBEAT)) as [->|Hheart].
  - rewrite decide_True in Hz by auto. apply pays_keep; [apply _|apply client_at_stable| |apply HR|done].
    apply (zmq_write_pays a _ ToClient_unset); [done|done|lia| |split; [apply HR|reflexivity]].
    rewrite andb_false_r. simpl. lia.
  - rewrite decide_False in Hz by tauto. destruct (parse raw) as [fc|]; [|by split; [split; [lia|]|]].
    apply (message_pays (zmq_handle a cid) fc (Peer a) (bool_decide (a = sid)) a cid b);
      [apply zmq_handles|apply bool_decide_eq_true_2|apply bool_decide_eq_true_1|done|done|done|].
    destruct (bool_decide (a = sid)); simpl in *; lia.
Qed.

(** The queue of a client, with a message more or less. *)
Lemma inbox_set cid cl g s :
  w_client_store s !! cid = Some cl ->
  free_tokens (upd_w_client_store (alter (upd_cl_inputs g) cid) s) =
  free_tokens s - one (bool_decide (cl_owner cl = sid)) * (total (is_input <$> g (cl_inputs cl)) - total (is_input <$> cl_inputs cl)).
Proof.
  intros Hcl. rewrite (free_tokens_alter _ _ _ _ Hcl). unfold share, inbox. simpl.
  destruct (decide (cl_owner cl = sid)).
  - rewrite bool_decide_true by done. simpl. lia.
  - rewrite bool_decide_false by done. simpl. lia.
Qed.

Lemma R_set_inbox cid cl g s0 s :
  R s0 s -> w_client_store s !! cid = Some cl -> Zmq.HELLO_MSG ∉ g (cl_inputs cl) ->
  R s0 (upd_w_client_store (alter (upd_cl_inputs g) cid) s).
Proof.
  intros HR Hcl Hg. assert (ok (upd_client cid (upd_cl_inputs g))) as Hok by by apply ok_upd_client.
  destruct (Hok s0 s (R_J _ _ HR)) as [HI HG]. split; [|done]. split; [done|].
  apply store_inv_alter; [done| |apply HR]. intros cl0 H0 _. simpl. by rewrite Hcl in H0; injection H0 as <-.
Qed.

Lemma is_input_nonneg raw : 0 <= is_input raw.
Proof. unfold is_input. destruct (zmq_from_client raw); [apply one_bounds|done]. Qed.

Lemma wait_input_pays cid a b z s0 s :
  R s0 s -> client_at cid a s -> 0 <= b <= z ->
  Pays (Zmq.wait_input cid) (fun o z' s0 s => saved SInv evolves b o z' s0 s /\ client_at cid a s /\
    forall raw, o = inl (Some raw) -> raw <> Zmq.HELLO_MSG /\ b + one (bool_decide (a = sid)) * is_input raw <= z') z s0 s.
Proof.
  intros [HI HG] Hat Hb. unfold Zmq.wait_input. apply pays_bind. cbn. intros _.
  rewrite Z.sub_0_r, Z.add_0_r. split_and!; [done|done|lia|done|]. intros r s1 _ HI1 _ HG1.
  assert (R s1 s1) as HR by by split. assert (client_at cid a s1) as Hat1 by (by eapply client_at_stable).
  destruct r as [[]|x].
  - pose proof Hat1 as (cl & Hcl & Hown). apply (get_client_pays _ _ _ _ _ _ _ Hcl).
    destruct (cl_inputs cl) as [|raw l] eqn:Hl; [by split; [split; [lia|]|]|].
    cbn [amount server_tariff pays]. rewrite (inbox_set _ _ _ _ Hcl), Hl, Hown.
    change (drop 1 (raw :: l)) with (drop 0 l). rewrite drop_0, fmap_cons.
    change (total (is_input raw :: (is_input <$> l))) with (is_input raw + total (is_input <$> l)).
    pose proof (is_input_nonneg raw). pose proof (one_bounds (bool_decide (a = sid))).
    assert (Zmq.HELLO_MSG ∉ raw :: l) as [Hraw Hrest]%not_elem_of_cons
      by (rewrite <- Hl; by apply (st_inbox _ (proj2 (proj1 HR)) cid)).
    split_and!.
    + split; [nia|]. eapply R_set_inbox; [done|exact Hcl|]. by rewrite Hl.
    + exists (upd_cl_inputs (drop 1) cl). simpl. by rewrite list_lookup_alter_eq, Hcl.
    + intros raw' [= <-]. split; [done|]. nia.
  - destruct x; (split; [split; [lia|done]|by split]).
Qed.

Lemma zmq_consumer_loop_pays a cid fuel b z s0 s :
  R s0 s -> client_at cid a s -> 0 <= b <= z ->
  Pays (Zmq.consumer_loop send_to_engine a cid fuel) (saved SInv evolves b) z s0 s.
Proof.
  revert z s0 s. induction fuel as [|fuel IH]; intros z s0 s HR Hat Hb; [by split; [lia|]|].
  cbn [Zmq.consumer_loop]. apply pays_gets. destruct (_.[a]); [|by split; [lia|]].
  apply pays_bind. eapply pays_mono; [|by apply (wait_input_pays cid a b)]. clear s0 s HR Hat.
  intros [[raw|]|x] z1 s0 s ([H1 HR] & Hat & Hraw); [| |by split].
  - destruct (Hraw raw eq_refl) as [Hne Hz]. apply pays_bind.
    eapply pays_mono; [|by apply (zmq_consume_pays a cid raw b); [..|lia|]].
    intros [[]|x] z2 s1 s2 [[H2 HR2] Hat2]; [by apply IH; [..|lia]|by split].
  - apply frugal_from; [apply thrifty_del_client|lia|lia|done].
Qed.

Lemma thrifty_zmq_consumer a fuel : thrifty (Zmq.consumer send_to_engine a fuel).
Proof.
  intros z s0 s Hz HR. unfold Zmq.consumer. apply pays_bind, pays_gets.
  destruct (_.[a]) as [cid|] eqn:Ha; cbn [of_option pays]; [|by split].
  apply zmq_consumer_loop_pays; [done|by apply (ti_clients _ _ (proj1 (proj1 HR)))|lia].
Qed.

(** A message of a client is queued, with its unit. *)
Lemma enqueue_pays a cid raw b z s0 s :
  R s0 s -> client_at cid a s -> 0 <= b -> b + one (bool_decide (a = sid)) * is_input raw <= z ->
  Pays (if decide (raw = Zmq.HELLO_MSG) then Ret tt else upd_client cid (upd_cl_inputs (fun q => q ++ [raw])))
    (saved SInv evolves b) z s0 s.
Proof.
  intros HR (cl & Hcl & Hown) Hb Hz. pose proof (is_input_nonneg raw). pose proof (one_bounds (bool_decide (a = sid))).
  destruct (decide (raw = Zmq.HELLO_MSG)) as [->|Hraw]; [by split; [nia|]|].
  unfold upd_client. cbn [modify pays amount server_tariff].
  rewrite (inbox_set _ _ _ _ Hcl), Hown, fmap_app, total_app.
  change (total (is_input <$> [raw])) with (is_input raw + 0). split; [nia|].
  eapply R_set_inbox; [done|exact Hcl|]. apply not_elem_of_app. split; [by apply (st_inbox _ (proj2 (proj1 HR)) cid)|].
  apply not_elem_of_cons. split; [done|apply not_elem_of_nil].
Qed.

Lemma dispatch_message_pays a raw b z s0 s :
  ctx <> 0%nat -> R s0 s -> 0 <= b -> b + one (bool_decide (a = sid)) * is_input raw <= z ->
  Pays (Zmq.dispatch_message a raw) (saved SInv evolves b) z s0 s.
Proof.
  intros Hctx HR Hb Hz. unfold Zmq.dispatch_message. apply pays_gets.
  destruct (_.[a]) as [cid|] eqn:Ha.
  - apply pays_ret. apply (enqueue_pays a); [done|by apply (ti_clients _ _ (proj1 (proj1 HR)))|done|done].
  - destruct (new_client_state a 0%nat s0 s ltac:(done) HR) as [Ht HS].
    unfold new_client. cbn -[upd_client]. intros _.
    replace (z + _ + _) with z by (unfold free_tokens, tokens_at_server, queued_at_server in *; simpl in *; lia).
    apply (enqueue_pays a); [|eexists; simpl; by rewrite list_lookup_middle|done|done].
    split; [split; [|exact HS]|]; destruct HR as [[HI _] HG].
    + by apply (TokInv_new_client s a 0%nat).
    + eapply evolves_same_store; [| | | |by apply (evolves_new_client s0 s (mkClient a [] [] 0 None))]; done.
Qed.

Lemma thrifty_zmq_client_handler fuel : ctx <> 0%nat -> thrifty (Zmq.client_handler fuel).
Proof.
  intros Hctx. induction fuel as [|fuel IH]; [cbn -[mbind]; frugal_tac|]. cbn [Zmq.client_handler].
  apply frugal_bind; [frugal_tac|intros []; [|frugal_tac]]. apply frugal_bind; [|done].
  unfold Zmq.client_handler_iter. apply frugal_bind; [frugal_tac|intros []; [quiet|]].
  intros z s0 s Hz [HI HG]. apply pays_bind. cbn. intros _. rewrite Z.sub_0_r.
  split_and!; [done|done|lia|done|]. intros r s1 _ HI1 _ HG1. assert (R s1 s1) as HR by by split.
  destruct r as [[a raw]|x].
  - apply dispatch_message_pays; [done|done|done|]. unfold input_gain, is_input. simpl.
    destruct (zmq_from_client raw); simpl; [|lia]. destruct (bool_decide (a = sid)); simpl; lia.
  - rewrite Z.add_0_r. destruct x; try by split. cbn. destruct (w_simulate_disconnection s1); by split.
Qed.

(** ** The coroutines of the server *)

(** The transports that [System] knows. *)
Inductive wire : Type := over_grpc | over_websocket | over_zeromq.

(** The coroutines of a gRPC server ([grpc_task]), of a WebSocket server
    ([ws_task]), where the streams that name the session are those of [mine], and
    of a ZeroMQ server ([zmq_task]); the session of a WebSocket or ZeroMQ client
    is named by its address. *)
Inductive session_task : wire -> srv unit -> Prop :=
| st_engine c msgs : session_task over_grpc (@EngineSession _ _ Grpc.grpc_transport c msgs)
| st_client c metadata msgs :
    mine c = bool_decide (session_of metadata = sid) ->
    session_task over_grpc (Grpc.ClientSession send_to_engine c metadata msgs)
| st_launch rf tls n li : session_task over_grpc (Grpc.launch rf tls n li)
| st_close : session_task over_grpc Grpc.close_server_socket
| st_recreate rf tls n li : session_task over_grpc (Grpc.recreate_server_socket rf tls n li)
| st_sink w p : sink_task p -> session_task w p
| st_ws_engine c msgs : session_task over_websocket (@EngineSession _ _ Ws.ws_transport c msgs)
| st_ws_client c address msgs :
    mine c = bool_decide (address = sid) ->
    session_task over_websocket (Ws.client_handler send_to_engine c address msgs)
| st_ws_launch li : session_task over_websocket (Ws.launch li)
| st_zmq_engine c msgs : session_task over_zeromq (@EngineSession _ _ Zmq.zmq_transport c msgs)
| st_zmq_handler fuel : session_task over_zeromq (Zmq.client_handler fuel)
| st_zmq_client address fuel : session_task over_zeromq (Zmq.consumer send_to_engine address fuel)
| st_zmq_launch li : session_task over_zeromq (Zmq.launch li)
| st_zmq_close : session_task over_zeromq Zmq.close_server_socket
| st_zmq_recreate li : session_task over_zeromq (Zmq.recreate_server_socket li).

(** The control stream is one of the session; a ZeroMQ server has no streams,
    and gives its clients the number 0 in place of one. *)
Definition control_of (w : wire) : Prop :=
  match w with over_zeromq => ctx <> 0%nat | _ => mine ctx = true end.

Lemma session_task_server w p : session_task w p -> server_task p.
Proof.
  destruct 1; [left; constructor..| | | | | | | | |]; [assumption| | | | | | | | |].
  1-3: right; left; constructor.
  all: right; right; constructor.
Qed.

Lemma thrifty_sinks_cleanup : thrifty sinks_cleanup.
Proof.
  unfold sinks_cleanup. apply frugal_bind; [frugal_tac|intros sinks].
  apply thrifty_for_sinks. intros k. quiet.
Qed.

Lemma thrifty_start_grpc_server rf tls n li : thrifty (Grpc.start_grpc_server rf tls n li).
Proof. unfold Grpc.start_grpc_server, ServerStart_, BindPort_. quiet. Qed.

Lemma thrifty_ServerStop : thrifty ServerStop_.
Proof. unfold ServerStop_. quiet. Qed.
Lemma thrifty_ServeForever : thrifty ServeForever_.
Proof. unfold ServeForever_. quiet. Qed.
Lemma thrifty_is_running b : thrifty (modify (upd_w_is_running (fun _ => b))).
Proof. quiet. Qed.
Lemma thrifty_start_event b : thrifty (modify (upd_w_start_event (fun _ => b))).
Proof. quiet. Qed.

#[local] Hint Resolve thrifty_ServerStop thrifty_ServeForever thrifty_is_running thrifty_start_event : gabriel.

Lemma thrifty_launch rf tls n li : thrifty (Grpc.launch rf tls n li).
Proof.
  pose proof thrifty_sinks_cleanup. pose proof thrifty_start_grpc_server.
  unfold Grpc.launch, Grpc.mark_started, Grpc.shutdown. frugal_tac.
Qed.

Lemma thrifty_ws_launch li : thrifty (Ws.launch li).
Proof.
  assert (forall x, thrifty (ServerStart_ x)) by (intros; unfold ServerStart_; quiet).
  unfold Ws.launch. frugal_tac.
Qed.

Lemma thrifty_zmq_launch li : thrifty (Zmq.launch li).
Proof.
  pose proof thrifty_sinks_cleanup.
  assert (forall x, thrifty (SockBind_ x)) by (intros; unfold SockBind_; quiet).
  assert (forall l, thrifty ((call (E := server_sig) (CancelTasks l) : srv (unit + exn)) ≫= raise)) by (intros; quiet).
  assert (thrifty (call (E := server_sig) SockClose)) by quiet.
  assert (thrifty CtxTerm_) by (unfold CtxTerm_; quiet).
  unfold Zmq.launch. frugal_tac.
Qed.

Lemma thrifty_session_task w p : control_of w -> session_task w p -> thrifty p.
Proof.
  assert (forall c b a, mine c = bool_decide (a = sid) -> b = a -> (b = sid -> mine c = true)) as Hin.
  { intros c b a Hm -> Hs. rewrite Hm. by apply bool_decide_eq_true. }
  assert (forall c a, mine ctx = true -> mine c = bool_decide (a = sid) -> (c = ctx -> a = sid)) as Hctl.
  { intros c a Hctx Hm ->. rewrite Hctx in Hm. by apply (bool_decide_eq_true_1 _ (eq_sym Hm)). }
  intros Hctx Hp. destruct Hp as [c msgs|c metadata msgs Hm|rf tls n li| |rf tls n li|w p Hp|c msgs|c a msgs Hm|li
                                 |c msgs|fuel|a fuel|li| |li]; cbn [control_of] in Hctx.
  - apply thrifty_EngineSession, grpc_send_pays.
  - apply thrifty_ClientSession; eauto.
  - apply thrifty_launch.
  - apply thrifty_ok; [auto with gabriel|intros s|]; unfold Grpc.close_server_socket, ServerStop_;
      [pres|avoid].
  - apply thrifty_start_grpc_server.
  - apply thrifty_ok; [auto with gabriel|intros s|]; destruct Hp;
      unfold register_result_sink, unregister_result_sink; first [pres|avoid].
  - apply thrifty_EngineSession, ws_send_pays.
  - apply thrifty_client_handler; eauto.
  - apply thrifty_ws_launch.
  - apply thrifty_EngineSession, zmq_send_pays.
  - by apply thrifty_zmq_client_handler.
  - apply thrifty_zmq_consumer.
  - apply thrifty_zmq_launch.
  - unfold Zmq.close_server_socket. quiet.
  - unfold Zmq.recreate_server_socket, SockOpen_, SockBind_. quiet.
Qed.
End clients.
End tariff.
