(* ===== verification/Scenario.v ===== *)
(** * Concrete runs of the server

    Schedules of the event loop with concrete clients and engines. *)

From S2P Require Import Prelude Coro Protocol ServerState Trace Instances ResultManager.
From S2P Require Import GabrielServer Dispatch DispatchSpec InputSpec ServerRunner ResultSpec.
From S2P Require Import RegistrySpec GrpcServer SessionSpec WebsocketServer ZeroMQServer.
From S2P Require Import TokenInv TokenSafety.

Import Concrete.

(** The control stream of the session "s". *)
Definition control_md : list (string * string) :=
  [("session-id", "s"); ("stream-role", "control")].

Definition reg : FromClient := FromClient_registration (mkAny "info" "").

Definition input (frame : Z) (pid : string) (targets : list string) : FromClient :=
  FromClient_input (mkInput frame pid targets (mkInputFrame TEXT (StringPayload "x"))).

Definition engine_session := @EngineSession py codec_ToClient Grpc.grpc_transport.
Definition client_session := @Grpc.ClientSession py send_to_engine.

(** A client of the gRPC transport registers and sends two inputs of the
    producer "p"; the engine "e" processes the first. *)
Definition two_inputs : list (action (St := World) (E := server_sig)) :=
  [ Spawn (engine_session 1 [FromEngine_register (mkRegister "e" false)]);
    Spawn (client_session 2 control_md [reg; input 1 "p" ["e"]; input 2 "p" ["e"]]);
    Tick 0; Tick 1; Tick 1; Tick 1; Tick 1; Tick 1; Tick 1; Tick 1 ].

Definition after_two_inputs : pool World server_sig :=
  (play calm (initial_world 2 5) two_inputs).1.

(** The schedules start coroutines of the gRPC server only. *)
Ltac schedule_reachable :=
  apply play_reachable;
  repeat (apply Forall_cons; split); try exact I; try apply Forall_nil_2;
  first [solve [constructor] | left; constructor].

Lemma after_two_inputs_reachable : reachable server_task (initial_world 2 5) after_two_inputs.
Proof. schedule_reachable. Qed.

(** The client has spent its two tokens: one input is in flight, the other
    waits in the queue. *)
Lemma tokens_never_exceed_grant_witness :
  exists cl, w_client_store (p_state after_two_inputs) !! 0%nat = Some cl /\
    (cl_tokens_for_producer cl).["p"] = Some 0 /\
    outstanding "s" "p" (p_state after_two_inputs) = 2 /\
    0 + outstanding (cl_owner cl) "p" (p_state after_two_inputs) <= 2.
Proof.
  eexists. split; [vm_compute; reflexivity|]. split; [reflexivity|]. split; [vm_compute; reflexivity|].
  apply (tokens_never_exceed_grant 2 5 after_two_inputs 0%nat _ "p").
  - exact after_two_inputs_reachable.
  - vm_compute. apply NoDup_singleton.
  - vm_compute. reflexivity.
  - reflexivity.
Defined.

Lemma queues_within_capacity_witness :
  exists p, (w_producer_infos (p_state after_two_inputs)).["p"] = Some p /\
    length (pi_input_queue p) = 1%nat /\
    Z.of_nat (length (pi_input_queue p)) <= 5.
Proof.
  eexists. split; [vm_compute; reflexivity|]. split; [reflexivity|].
  apply (queues_within_capacity 2 5 after_two_inputs "p").
  - exact after_two_inputs_reachable.
  - vm_compute. reflexivity.
Defined.

Lemma registries_are_consistent_witness :
  (w_engine_workers (p_state after_two_inputs)).[RContext 1] = Some 0%nat /\
  (w_engine_workers (p_state after_two_inputs)).[RWorker 0] = None.
Proof.
  split; [vm_compute; reflexivity|].
  apply (registries_are_consistent 2 5 after_two_inputs after_two_inputs_reachable).
Defined.

(** ** One engine, one client *)

Module OneEngine.
#[export] Existing Instance Grpc.grpc_transport.
#[export] Existing Instance Grpc.grpc_transport_ok.

Definition worker : EngineWorker :=
  mkEngineWorker 1 "e" false 0 (Some (Demo.md 1 "p")) 5 ["p"] [("p", Demo.md 1 "p")].
(** The in-flight input awaits its token. *)
Definition producer : ProducerInfo :=
  mkProducerInfo "p" [] 5 (Some (Demo.mp 1 "p")) (Some {[0%nat]}) (Some true).
Definition client : Client := mkClient "s" [("p", 1)] [] 7 (Some default_Any).
Definition world : World :=
  mkWorld [(RContext 1, 0%nat)] {["e"]} [("p", producer)] 5 [worker] 2 [("s", 0%nat)] [client]
    [("s", 0%nat)] 1 {[3%nat; 4%nat]} true true false no_local.

Lemma sessions_live : clients_live world.
Proof.
  intros a cid. simpl. case_decide; [|done]. intros [= <-]. by eexists.
Qed.

Lemma sinks : sinks_raise_Exceptions calm.
Proof. by intros h k r. Qed.

Lemma reg_inv : RegInv world.
Proof.
  split.
  - vm_compute. apply NoDup_singleton.
  - intros k wid. simpl. case_decide; [|done]. intros [= <-]. by eexists.
  - intros k1 k2 w1 w2 eid. simpl. repeat case_decide; simplify_eq; done.
  - intros eid. simpl. rewrite elem_of_singleton. split.
    + intros ->. exists (RContext 1), 0%nat. by split.
    + intros (k & wid & Hk & Hid). case_decide; [|done]. injection Hk as <-.
      vm_compute in Hid. congruence.
Qed.
End OneEngine.

Import OneEngine.

Definition success : Result := mkResult (mkStatus SUCCESS "") (StringResult "y") "e" 0.

Lemma sinks_get_every_success_witness :
  exists h', run (E := server_sig) calm (process_result success) OneEngine.world [] =
      (inl tt, OneEngine.world, h') /\
    sink_calls h' ≡ₚ [(3%nat, success); (4%nat, success)].
Proof.
  destruct (sinks_get_every_success calm success OneEngine.world [] OneEngine.sinks)
    as (h' & E & Hh).
  exists h'. split; [exact E|]. rewrite Hh.
  apply (bool_decide_unpack _). vm_compute. exact I.
Defined.

(** The token comes back with the first result, after the two sinks got it. *)
Lemma result_returns_token_once_witness :
  result_answer OneEngine.worker (Demo.md 1 "p") OneEngine.producer = Answer true /\
  exists t calls, map projT1 calls = sink_requests (set_frame_id 1 success) OneEngine.world /\
  length calls = 2%nat /\
  run (E := server_sig) calm (handle_from_engine 1 (FromEngine_result success)) OneEngine.world [] =
    match send_answer calm (Answer true) (Demo.md 1 "p") OneEngine.producer (set_frame_id 1 success)
            (answered (Answer true) (Demo.md 1 "p") OneEngine.producer OneEngine.world)
            ([existT PerfCounter t;
              existT (MetricCall (ENGINE_LATENCY_observe "e" (t - 0))) tt;
              existT (MetricCall (ENGINE_INPUTS_PROCESSED_TOTAL_inc "e")) tt] ++ calls) with
    | (inl _, s2, h1) => run (E := server_sig) calm (send_next_input 0) s2 h1
    | (inr x, s2, h1) => (inr x, s2, h1)
    end.
Proof.
  split; [vm_compute; reflexivity|].
  destruct (result_returns_token_once calm 1 0 OneEngine.worker (Demo.md 1 "p") OneEngine.producer
              (FromEngine_result success) OneEngine.world []) as (t & calls & Hc & E);
    [exact OneEngine.sinks|exact OneEngine.sessions_live|reflexivity..|by eexists|discriminate|].
  exists t, calls. split; [exact Hc|]. split; [|exact E].
  rewrite <- (length_map projT1), Hc. vm_compute. reflexivity.
Defined.

Lemma disconnection_returns_token_once_witness :
  (run (E := server_sig) calm (settle_current_input OneEngine.worker) OneEngine.world []).1.2 =
  answered (Answer true) (Demo.md 1 "p") OneEngine.producer OneEngine.world.
Proof.
  rewrite (disconnection_returns_token_once calm OneEngine.worker (Demo.md 1 "p")
             OneEngine.producer OneEngine.world [] OneEngine.sessions_live eq_refl eq_refl).
  vm_compute. reflexivity.
Defined.

(** A second stream registers the engine id "e". *)
Lemma registration_replaces_engine_witness :
  let '(o, s', h') := run (E := server_sig) calm (add_engine_worker 2 (mkRegister "e" false))
                        OneEngine.world [] in
  o = inl tt /\ exists wid, (w_engine_workers s').[RContext 2] = Some wid /\ id_at s' wid = Some "e".
Proof.
  destruct (run (E := server_sig) calm _ OneEngine.world []) as [[o s'] h'] eqn:E.
  assert (o = inl tt) as Ho by (vm_compute in E; congruence).
  split; [exact Ho|].
  apply (registration_replaces_engine calm 2 (mkRegister "e" false) OneEngine.world [] o s' h'
           OneEngine.reg_inv eq_refl E). exact Ho.
Defined.

Lemma removal_unregisters_engine_witness :
  let '(o, s', h') := run (E := server_sig) calm (remove_engine_worker (RContext 1))
                        OneEngine.world [] in
  o = inl tt /\ w_engine_workers s' = [].
Proof.
  destruct (run (E := server_sig) calm _ OneEngine.world []) as [[o s'] h'] eqn:E.
  assert (o = inl tt) as Ho by (vm_compute in E; congruence).
  split; [exact Ho|].
  apply (removal_unregisters_engine calm (RContext 1) 0 "e" OneEngine.world [] o s' h'
           OneEngine.reg_inv eq_refl eq_refl E). exact Ho.
Defined.

Lemma calm_clients : clients_reachable calm.
Proof. by split. Qed.

(** The client spends its last token; a further input is refused. *)
Lemma input_costs_one_token_witness :
  exists s' h', run (E := server_sig) calm
      (Grpc.handle_from_client send_to_engine (input 2 "p" ["e"]) 7 "s" 0) OneEngine.world [] =
      (inl tt, s', h') /\
    w_client_store s' = [mkClient "s" [("p", 0)] [] 7 (Some default_Any)].
Proof.
  destruct (run (E := server_sig) calm (send_to_engine (input 2 "p" ["e"]) "s" default_Any)
              OneEngine.world []) as [[o s2] h2] eqn:E.
  assert (o = inl (SUCCESS, "")) as -> by (vm_compute in E; congruence).
  assert (w_client_store s2 = w_client_store OneEngine.world) as Hs
    by (vm_compute in E; injection E as <- <-; reflexivity).
  exists (put_client 0 (spend "p" 1 OneEngine.client) s2), h2. split.
  - apply (input_costs_one_token send_to_engine calm calm_clients (input 2 "p" ["e"]) 7 "s" 0
             OneEngine.client 0 default_Any OneEngine.world [] eq_refl eq_refl eq_refl eq_refl)
      with (st := SUCCESS) (msg := ""); [done| |done].
    rewrite <- E. vm_compute. reflexivity.
  - simpl. by rewrite Hs.
Defined.

Lemma engine_update_reaches_every_session_witness :
  exists h', run (E := server_sig) calm engines_updated_cb OneEngine.world [] =
      (inl tt, OneEngine.world, h') /\
    grpc_writes h' = [(7%nat, ToClient_engine_ids_update ["e"])].
Proof.
  destruct (engine_update_reaches_every_session calm calm_clients OneEngine.world [])
    as (h' & E & Hh).
  - intros a Ha. vm_compute in Ha. apply list_elem_of_singleton in Ha as ->.
    exists 0%nat, OneEngine.client, 0%nat. by vm_compute.
  - exists h'. split; [exact E|]. rewrite Hh. vm_compute. reflexivity.
Defined.

Lemma session_closes_what_it_opened_witness :
  let '(o, s', h') := run (E := server_sig) calm
      (client_session 2 control_md [reg; input 1 "p" ["e"]]) (initial_world 2 5) [] in
  w_clients s' = [] /\ w_write_locks s' = [].
Proof.
  destruct (run (E := server_sig) calm _ _ []) as [[o s'] h'] eqn:E.
  exact (session_closes_what_it_opened send_to_engine calm 2 control_md _ _ _ _ _ _ E).
Defined.
