(* ===== verification/TransportSpec.v ===== *)
(** * The three transports answer alike

    [GrpcServer._handle_from_client], [WebsocketServer._consumer] and
    [ZeroMQServer._consumer] against one specification: the change of the
    state and the response, if any, that a message of a client leads to. *)

From S2P Require Import Prelude Coro Protocol ServerState Trace Instances GabrielServer.
From S2P Require Import Dispatch InputSpec ServerRunner ResultSpec GrpcServer SessionSpec.
From S2P Require Import WebsocketServer ZeroMQServer Scenario.

(** No send to a client fails, and no lock is cancelled. *)
Record transports_reachable (env : history server_sig -> forall e : sev, sresp e) : Prop := {
  tr_clients : clients_reachable env;
  tr_ws : forall h ws b, env h (WsSend ws b) = inl tt;
  tr_zmq : forall h a b, env h (ZmqSend a b) = inl tt;
}.

Section respond.
Context `{!PyEnv, !Codec ToClient, !Codec FromClient}.
Context (cb : FromClient -> string -> Any -> srv (StatusCode * string)).
Context (env : history server_sig -> forall e : sev, sresp e).
Hypothesis Henv : transports_reachable env.
Abbreviation exec := (run (E := server_sig) env).

(** What a transport does with a message [fc] of the client [cid], apart from
    sending the response: a registration is acknowledged, an accepted input
    costs a token and has no response, and a refused one is answered with the
    status. *)
Definition respond (cid : nat) (a : string) (fc : FromClient) : srv (option ToClient) :=
  '(st, msg) ← consumer_helper cb cid a fc;
  if decide (st = SUCCESS) then
    if is_registration fc then m ← make_registered; Ret (Some m)
    else consume_token cid (in_producer_id (fc_input fc)) ;; Ret None
  else
    of_option (ValueError "Enum has no name defined for value") (StatusCode_Name st) ;;
    Ret (Some (make_error_response fc st msg)).

(** The events of a send under the lock [l]. *)
Definition locked (l : nat) (x : { e : sev & sresp e }) : history server_sig :=
  [existT (LockAcquire l) (inl tt); x; existT (LockRelease l) tt].

(** A response, sent or not, then nothing more. *)
Definition then_send (send : ToClient -> srv unit) (o : option ToClient) : srv unit :=
  match o with None => Ret tt | Some m => send m end.

Lemma exec_locked_send l ws b s h :
  exec (with_lock l (WsSend_ ws b)) s h =
  (inl tt, s, h ++ locked l (existT (WsSend ws b) (inl tt))).
Proof.
  destruct Henv as [[_ Hl] Hw _]. unfold with_lock, WsSend_, locked.
  rewrite exec_assoc, (exec_call env (LockAcquire l)), Hl. cbn [raise].
  rewrite exec_ret, run_try_finally, (exec_call env (WsSend ws b)), Hw. cbn [raise run call].
  rewrite <- !(assoc_L (++)). simpl. by destruct (env _ (LockRelease l)).
Qed.

Lemma exec_zmq_send a b s h :
  exec (ZmqSend_ a b) s h = (inl tt, s, h ++ [existT (ZmqSend a b) (inl tt)]).
Proof.
  unfold ZmqSend_. rewrite (exec_call env (ZmqSend a b)), (tr_zmq _ Henv). done.
Qed.

(** The gRPC handler is [respond] and then the response under the lock. *)
Lemma grpc_respond fc ctx a cid s h :
  exec (Grpc.handle_from_client cb fc ctx a cid) s h =
  exec (respond cid a fc ≫= then_send (fun m =>
    write_lock ← gets (fun s => (w_write_locks s).[a]);
    match write_lock with None => Ret tt | Some l => with_lock l (GrpcWrite_ ctx m) end)) s h.
Proof.
  unfold Grpc.handle_from_client, respond. rewrite exec_assoc, !run_bind.
  by destruct (exec (consumer_helper cb cid a fc) s h) as [[[[st msg]|x] s1] h1].
Qed.

(** The WebSocket handler does not look the name of the status up. *)
Lemma ws_respond fc ws a cid o s h s1 h1 :
  exec (respond cid a fc) s h = (inl o, s1, h1) ->
  exec (Ws.consume cb ws a cid (serialize fc)) s h =
  exec (then_send (fun m => Ws.locked_send a ws (serialize m)) o) s1 h1.
Proof.
  unfold Ws.consume, respond. rewrite parse_serialize. cbn [of_option]. rewrite exec_ret, !run_bind.
  destruct (exec (consumer_helper cb cid a fc) s h) as [[[[st msg]|x] s2] h2]; [|done].
  destruct (decide (st = SUCCESS)); [destruct (is_registration fc)|].
  - rewrite !run_bind. destruct (exec make_registered s2 h2) as [[[m|x] s3] h3]; [|done].
    cbn [run]. by intros [= <- <- <-].
  - rewrite run_bind, exec_eta, run_bind.
    destruct (exec (consume_token _ _) s2 h2) as [[[[]|x] s3] h3]; [|done].
    cbn [run]. by intros [= <- <- <-].
  - rewrite run_bind. destruct (StatusCode_Name st); [|done]. cbn [of_option run].
    by intros [= <- <- <-].
Qed.

Lemma zmq_respond fc a cid o s h s1 h1 :
  serialize fc <> Zmq.HEARTBEAT -> exec (respond cid a fc) s h = (inl o, s1, h1) ->
  exec (Zmq.consume cb a cid (serialize fc)) s h =
  exec (then_send (fun m => ZmqSend_ a (serialize m)) o) s1 h1.
Proof.
  intros Hb. unfold Zmq.consume, respond. rewrite decide_False by done. rewrite parse_serialize.
  rewrite !run_bind.
  destruct (exec (consumer_helper cb cid a fc) s h) as [[[[st msg]|x] s2] h2]; [|done].
  destruct (decide (st = SUCCESS)); [destruct (is_registration fc)|].
  - rewrite !run_bind. destruct (exec make_registered s2 h2) as [[[m|x] s3] h3]; [|done].
    cbn [run]. by intros [= <- <- <-].
  - rewrite run_bind, exec_eta, run_bind.
    destruct (exec (consume_token _ _) s2 h2) as [[[[]|x] s3] h3]; [|done].
    cbn [run]. by intros [= <- <- <-].
  - rewrite !run_bind. destruct (StatusCode_Name st); [|done]. cbn [of_option run].
    by intros [= <- <- <-].
Qed.

(** C17.  The three transports treat a message of a client alike.  Whatever
    the response is, they leave the same state, and send that response exactly
    once to the client, or nothing when there is none: gRPC and WebSocket
    under the write lock of the session, ZeroMQ on its socket.  On ZeroMQ the
    message must not be empty, which is a heartbeat there. *)
Theorem transports_answer_alike fc a cid ctx ws l o s h s1 h1 :
  exec (respond cid a fc) s h = (inl o, s1, h1) -> (w_write_locks s1).[a] = Some l ->
  let sent (f : ToClient -> history server_sig) := h1 ++ from_option f [] o in
  exec (Grpc.handle_from_client cb fc ctx a cid) s h =
    (inl tt, s1, sent (fun m => locked l (existT (GrpcWrite ctx m) (inl tt)))) /\
  exec (Ws.consume cb ws a cid (serialize fc)) s h =
    (inl tt, s1, sent (fun m => locked l (existT (WsSend ws (serialize m)) (inl tt)))) /\
  (serialize fc <> Zmq.HEARTBEAT ->
   exec (Zmq.consume cb a cid (serialize fc)) s h =
     (inl tt, s1, sent (fun m => [existT (ZmqSend a (serialize m)) (inl tt)]))).
Proof.
  intros E Hl sent. subst sent. split_and!.
  - rewrite grpc_respond, run_bind, E. destruct o as [m|]; simpl; [|by rewrite app_nil_r].
    rewrite Hl. apply exec_locked_write, Henv.
  - rewrite (ws_respond _ _ _ _ _ _ _ _ _ E). destruct o as [m|]; simpl; [|by rewrite app_nil_r].
    rewrite Hl. cbn [of_option]. apply exec_locked_send.
  - intros Hb. rewrite (zmq_respond _ _ _ _ _ _ _ _ Hb E).
    destruct o as [m|]; simpl; [|by rewrite app_nil_r]. apply exec_zmq_send.
Qed.
End respond.

(** ** A concrete run *)

Import Concrete.

Lemma calm_transports : transports_reachable calm.
Proof. split; [apply calm_clients|done|done]. Qed.

(** An input that targets no connected engine is refused on each transport. *)
Lemma transports_answer_alike_witness :
  let fc := input 2 "p" ["f"] in
  exists m s1 h1,
    run (E := server_sig) calm (respond send_to_engine 0 "s" fc) OneEngine.world [] =
      (inl (Some m), s1, h1) /\
    run (E := server_sig) calm (Grpc.handle_from_client send_to_engine fc 7 "s" 0)
      OneEngine.world [] =
      (inl tt, s1, h1 ++ locked 0 (existT (GrpcWrite 7 m) (inl tt))) /\
    run (E := server_sig) calm (Zmq.consume send_to_engine "s" 0 (serialize fc))
      OneEngine.world [] =
      (inl tt, s1, h1 ++ [existT (ZmqSend "s" (serialize m)) (inl tt)]).
Proof.
  destruct (run (E := server_sig) calm (respond send_to_engine 0 "s" (input 2 "p" ["f"]))
              OneEngine.world []) as [[o s1] h1] eqn:E.
  assert (exists m, o = inl (Some m) /\ (w_write_locks s1).["s"] = Some 0%nat) as (m & -> & Hl)
    by (vm_compute in E; injection E as <- <- <-; by eexists).
  destruct (transports_answer_alike send_to_engine calm calm_transports (input 2 "p" ["f"]) "s" 0
              7 7 0 (Some m) OneEngine.world [] s1 h1 E Hl) as (G & _ & Z).
  exists m, s1, h1. split; [done|]. split; [exact G|]. apply Z. vm_compute. discriminate.
Defined.
