(* ===== verification/Races.v ===== *)
(** * Schedules that lose a token, an engine, or a target

    Reachable states of the event loop, each by a concrete schedule, in which
    the server does not do what its comments say. *)

From S2P Require Import Prelude Coro Protocol ServerState Trace Instances GabrielServer.
From S2P Require Import Dispatch InputSpec ServerRunner GrpcServer TokenInv TokenSafety.
From S2P Require Import Scenario.

Import Concrete.

Definition finished : FromEngine := FromEngine_result success.

(** Two engines; the first input targets "e2", the second "e1". *)
Definition two_engines : list (action (St := World) (E := server_sig)) :=
  [ Spawn (engine_session 1 [FromEngine_register (mkRegister "e1" false); finished]);
    Spawn (engine_session 2 [FromEngine_register (mkRegister "e2" false); finished; finished]);
    Spawn (client_session 3 control_md [reg; input 1 "p" ["e2"]; input 2 "p" ["e1"]]);
    Tick 0; Tick 1;                                   (* both engines register *)
    Tick 2; Tick 2; Tick 2; Tick 2;                   (* the client registers *)
    Tick 2; Tick 2;                                   (* the first input goes to "e2" *)
    Tick 2; Tick 2 ].                                 (* the second input goes to "e1" *)

(** "e2" finishes the first input. *)
Definition e2_finishes := two_engines ++ [Tick 1].

(** ... and then both engines finish the second. *)
Definition all_finish := e2_finishes ++ [Tick 1; Tick 1; Tick 1; Tick 1; Tick 0].

(** The engine "e" is processing the in-flight input of the client when a
    second stream registers the same engine id; while the client is being told
    that the first one is gone, the first stream closes. *)
Definition engine_replaced : list (action (St := World) (E := server_sig)) :=
  [ Spawn (engine_session 1 [FromEngine_register (mkRegister "e" false)]);
    Spawn (engine_session 2 [FromEngine_register (mkRegister "e" false)]);
    Spawn (client_session 3 control_md [reg; input 1 "p" ["e"]]);
    Tick 0;                                           (* the first stream registers *)
    Tick 2; Tick 2; Tick 2; Tick 2; Tick 2; Tick 2;   (* the client sends its input *)
    Tick 1;                                           (* the second stream registers *)
    Tick 0;                                           (* the first stream closes *)
    Tick 1; Tick 1 ].                                 (* the second stream goes on *)

Definition after (l : list (action (St := World) (E := server_sig))) : pool World server_sig :=
  (play calm (initial_world 2 5) l).1.

(** There is a reachable state of the server with the gRPC transport in
    which an engine is processing an input that does not target it: the client
    changed the targets of the producer, and the engine is still in rotation
    for the producer, because removed target engines are looked up under the
    wrong kind of key and the coroutine that would remove them is never
    awaited. *)
Theorem input_reaches_untargeted_engine :
  exists c wid w m, reachable grpc_task (initial_world 2 5) c /\
    w_workers (p_state c) !! wid = Some w /\
    ew_current_input_metadata w = Some m /\ ew_engine_id w ∉ md_target_engine_ids m.
Proof.
  exists (after e2_finishes), 1%nat. do 2 eexists. split; [schedule_reachable|].
  split; [vm_compute; reflexivity|]. split; [reflexivity|].
  apply (bool_decide_unpack _). vm_compute. exact I.
Qed.

(** There is a reachable state of the server with the gRPC transport in
    which the client has fewer tokens than it was granted although none of its
    inputs is queued or in flight and every engine is idle: the token of an
    input that was in flight when a later input went to an idle engine is never
    returned. *)
Theorem token_of_overwritten_input_is_lost :
  exists c cl, reachable grpc_task (initial_world 2 5) c /\
    w_client_store (p_state c) !! 0%nat = Some cl /\
    (w_clients (p_state c)).["s"] = Some 0%nat /\
    (cl_tokens_for_producer cl).["p"] = Some 1 /\
    outstanding "s" "p" (p_state c) = 0 /\
    Forall (fun w => ew_current_input_metadata w = None) (w_workers (p_state c)).
Proof.
  exists (after all_finish). eexists. split; [schedule_reachable|].
  split; [vm_compute; reflexivity|]. split; [vm_compute; reflexivity|].
  split; [reflexivity|]. split; [vm_compute; reflexivity|].
  vm_compute. repeat constructor.
Qed.

(** There is a reachable state of the server with the gRPC transport in
    which the coroutine that registers an engine has died of a [KeyError] and
    no engine is registered, although the engine is connected: removing an
    engine awaits the client between reading and changing the registry, and the
    removal can be done twice. *)
Theorem concurrent_removal_loses_engine :
  exists c, reachable grpc_task (initial_world 2 5) c /\
    p_tasks c !! 1%nat = Some (Throw KeyError) /\
    w_engine_workers (p_state c) = [] /\ w_engine_ids (p_state c) = ∅.
Proof.
  exists (after engine_replaced). split; [schedule_reachable|].
  split; [vm_compute; reflexivity|]. split; vm_compute; reflexivity.
Qed.
