(* ===== verification/EngineRunner.v ===== *)
(** * The engine runner

    [server/src/gabriel_server/network_engine/engine_runner.py] runs a
    cognitive engine against a remote server.  The engine itself is supplied by
    the user: what its [handle] returns is an answer of the environment. *)

From S2P Require Import Prelude Coro Protocol.

(** ** What [handle] returns *)

(** The payload of a result, a Python value of any type. *)
Inductive py_payload : Type :=
| PNone
| PStr (s : string)
| PBytes (b : bytes)
| PAny (a : Any)
| POther (type_name : string).

(** What [handle] returns: a [cognitive_engine.Result], whose status may be of
    the wrong type, or something else. *)
Inductive handled : Type :=
| NotAResult (type_name : string)
| AResult (st : Status + string) (payload : py_payload).

Definition type_error_msg (ty : string) : string :=
  ("Incorrect type returned by engine. Expected a value of type cognitive_engine.Result, found "
   +:+ ty)%string.
Definition status_error_msg (ty : string) : string :=
  ("Return status not populated correctly by engine. Expected a value of type gabriel_pb2.Status, found "
   +:+ ty)%string.
Definition payload_missing_msg : string := "Engine did not specify result payload".
Definition payload_error_msg (ty : string) : string :=
  ("Engine produced unsupported result payload type: " +:+ ty)%string.

(** ** [EngineRunner._build_result_proto] *)

(** The ways it ends: a result, an [_EngineHandlerError] that carries one, or
    the [ValueError] of [StatusCode.Name]. *)
Inductive built : Type :=
| Built (r : Result)
| HandlerError (msg : string) (r : Result)
| NameError.

Section build.
Variable engine_id : string.

Definition error_proto (msg : string) : Result :=
  mkResult (mkStatus ENGINE_ERROR msg) NoResult engine_id 0.

Definition build_result_proto (result : handled) : built :=
  match result with
  | NotAResult ty => HandlerError (type_error_msg ty) (error_proto (type_error_msg ty))
  | AResult (inr ty) _ => HandlerError (status_error_msg ty) (error_proto (status_error_msg ty))
  | AResult (inl st) payload =>
      if decide (code st = SUCCESS) then
        match payload with
        | PNone => HandlerError payload_missing_msg (error_proto payload_missing_msg)
        | PStr s => Built (mkResult st (StringResult s) engine_id 0)
        | PBytes b => Built (mkResult st (BytesResult b) engine_id 0)
        | PAny a => Built (mkResult st (AnyResult a) engine_id 0)
        | POther ty => HandlerError (payload_error_msg ty) (error_proto (payload_error_msg ty))
        end
      else
        match StatusCode_Name (code st) with
        | Some _ => Built (mkResult st NoResult engine_id 0)
        | None => NameError
        end
  end.
End build.

(** ** The runner *)

Record RunnerState := mkRunnerState {
  er_stop : bool;  (* stop_event *)
  er_done : bool;  (* done_event *)
  er_queue : list (InputFrame * Any);  (* frame_queue *)
}.

Definition upd_er_queue (g : list (InputFrame * Any) -> list (InputFrame * Any)) (s : RunnerState)
    : RunnerState := mkRunnerState (er_stop s) (er_done s) (g (er_queue s)).
Definition set_er_done (s : RunnerState) : RunnerState := mkRunnerState (er_stop s) true (er_queue s).
Definition set_er_stop (s : RunnerState) : RunnerState := mkRunnerState true (er_done s) (er_queue s).

Inductive eev : Type :=
| ChannelReady                                (* [wait_for(channel.channel_ready(), ...)] *)
| EWrite (m : FromEngine)                     (* [call.write(...)], under the write lock *)
| ERead                                       (* [call.read()]; [None]: EOF *)
| QueueGet                                    (* [frame_queue.get()] *)
| Handle (f : InputFrame) (info : Any)        (* [engine.handle], in a thread *)
| StopPoll.                                   (* [asyncio.sleep(0.1)] *)

Definition eresp (e : eev) : Type :=
  match e with
  | ERead => option ToEngine + exn
  | Handle _ _ => handled + exn
  | _ => unit + exn
  end.

Definition runner_sig : sig := Sig eev eresp (fun _ => true).
Abbreviation run_prog A := (prog RunnerState runner_sig A).

Definition ecall (e : eev) : run_prog (eresp e) := call (E := runner_sig) e.

Section runner.
Variables (engine_id : string) (all_responses_required : bool).

(** [EngineRunner.stop] *)
Definition runner_stop : run_prog unit := modify set_er_stop.

(** The start of [EngineRunner.engine_loop]: the registration, and a new
    queue. *)
Definition send_register : run_prog unit :=
  (ecall (EWrite (FromEngine_register (mkRegister engine_id all_responses_required))) ≫= raise) ;;
  modify (upd_er_queue (fun _ => [])).

(** [reader] of [EngineRunner.engine_loop], for at most [fuel] messages; the
    queue has no bound, so it is never full. *)
Fixpoint reader (fuel : nat) : run_prog unit :=
  match fuel with
  | O => Throw NotReady
  | S fuel' =>
      m ← (ecall ERead ≫= raise);
      match m with
      | None => Ret tt
      | Some te =>
          modify (upd_er_queue (fun q =>
            q ++ [(default default_InputFrame (te_input_frame te), te_client_info te)])) ;;
          reader fuel'
      end
  end.

(** [stop_watcher], for at most [fuel] polls. *)
Fixpoint stop_watcher (fuel : nat) : run_prog unit :=
  stopped ← gets er_stop;
  if stopped : bool then Ret tt
  else
    match fuel with
    | O => Throw NotReady
    | S fuel' => (ecall StopPoll ≫= raise) ;; stop_watcher fuel'
    end.

(** [frame_queue.get()] *)
Definition queue_get : run_prog (InputFrame * Any) :=
  (ecall QueueGet ≫= raise) ;;
  q ← gets er_queue;
  match q with
  | [] => Throw NotReady
  | x :: _ => modify (upd_er_queue (drop 1)) ;; Ret x
  end.

(** One iteration of [worker] of [EngineRunner.engine_loop]. *)
Definition worker_iter : run_prog unit :=
  '(f, info) ← queue_get;
  h ← (ecall (Handle f info) ≫= raise);
  match build_result_proto engine_id h with
  | Built r => ecall (EWrite (FromEngine_result r)) ≫= raise
  | HandlerError msg r =>
      (ecall (EWrite (FromEngine_result r)) ≫= raise) ;; Throw (PyException msg)
  | NameError => Throw (ValueError "Enum has no name defined for value")
  end.

(** [worker], for at most [fuel] inputs. *)
Fixpoint worker (fuel : nat) : run_prog unit :=
  match fuel with
  | O => Throw NotReady
  | S fuel' => worker_iter ;; worker fuel'
  end.
End runner.

(** [asyncio.wait_for(channel.channel_ready(), timeout=self.timeout)] *)
Definition connect : run_prog unit := ecall ChannelReady ≫= raise.

(** The loop of [EngineRunner.run_async], for at most [fuel] connections.
    [connect] opens the channel, [engine_loop] is the session with the server,
    and [retries_left] the local variable. *)
Section run_loop.
Context {E : sig} (connect engine_loop : prog RunnerState E unit) (request_retries : Z).

Fixpoint run_loop (retries_left : Z) (fuel : nat) : prog RunnerState E unit :=
  stopped ← gets er_stop;
  if negb stopped && (0 <? retries_left) then
    match fuel with
    | O => Throw NotReady
    | S fuel' =>
        ready ← try_except (connect ;; Ret true)
                  (fun x => match x with TimeoutError => Ret false | _ => Throw x end);
        if ready : bool then
          left ← try_except (engine_loop ;; Ret request_retries)
                   (fun x => match x with AioRpcError => Ret (retries_left - 1) | _ => Throw x end);
          run_loop left fuel'
        else run_loop (retries_left - 1) fuel'
    end
  else modify set_er_done.

(** [EngineRunner.run_async] *)
Definition run_async (fuel : nat) : prog RunnerState E unit := run_loop request_retries fuel.
End run_loop.


(** ** Properties *)

Definition channel_waits (h : history runner_sig) : nat :=
  length (omap (fun x : { e : eev & eresp e } =>
    match projT1 x with ChannelReady => Some tt | _ => None end) h).

Section retries.
Context (env : history runner_sig -> forall e : eev, eresp e).
Abbreviation exec := (run (E := runner_sig) env).

Lemma channel_waits_app h h' : channel_waits (h ++ h') = (channel_waits h + channel_waits h')%nat.
Proof. unfold channel_waits. by rewrite omap_app, length_app. Qed.

Lemma run_loop_gives_up loop request_retries n fuel s h :
  (forall h, env h ChannelReady = inr TimeoutError) -> er_stop s = false -> (n <= fuel)%nat ->
  exists h', exec (run_loop connect loop request_retries (Z.of_nat n) fuel) s h = (inl tt, set_er_done s, h') /\
    channel_waits h' = (channel_waits h + n)%nat.
Proof.
  intros Hto Hs. revert n h. induction fuel as [|fuel IH]; intros n h Hn.
  - assert (n = 0%nat) as -> by lia. exists h. cbn. rewrite Hs. simpl. split; [done|lia].
  - destruct n as [|n].
    { exists h. cbn. rewrite Hs. simpl. split; [done|lia]. }
    cbn -[Z.of_nat]. rewrite Hs. rewrite (proj2 (Z.ltb_lt 0 (Z.of_nat (S n)))) by lia.
    cbn -[Z.of_nat run_loop]. rewrite Hto. cbn -[Z.of_nat run_loop].
    replace (Z.of_nat (S n) - 1) with (Z.of_nat n) by lia.
    destruct (IH n (h ++ [existT ChannelReady (inr TimeoutError)])) as (h' & E & W); [lia|].
    exists h'. split; [exact E|]. rewrite W, channel_waits_app. cbn. lia.
Qed.

(** When the server never becomes reachable, the engine runner gives
    up after exactly [request_retries] attempts to connect and marks itself
    done, given enough iterations; it does not raise. *)
Theorem runner_gives_up_after_retries loop (retries : nat) fuel s h :
  (forall h, env h ChannelReady = inr TimeoutError) -> er_stop s = false -> (retries <= fuel)%nat ->
  exists h', exec (run_async connect loop (Z.of_nat retries) fuel) s h = (inl tt, set_er_done s, h') /\
    channel_waits h' = (channel_waits h + retries)%nat.
Proof. apply run_loop_gives_up. Qed.

(** *** Outages

    The outcome of one connection: [true] when the session ended normally,
    [false] when the server was not reachable or the stream was lost. *)
Inductive attempt (loop : run_prog unit) (s : RunnerState) (h : history runner_sig)
    : bool -> RunnerState -> history runner_sig -> Prop :=
| attempt_refused :
    env h ChannelReady = inr TimeoutError ->
    attempt loop s h false s (h ++ [existT ChannelReady (inr TimeoutError)])
| attempt_lost s' h' :
    env h ChannelReady = inl tt ->
    exec loop s (h ++ [existT ChannelReady (inl tt)]) = (inr AioRpcError, s', h') ->
    attempt loop s h false s' h'
| attempt_ended s' h' :
    env h ChannelReady = inl tt ->
    exec loop s (h ++ [existT ChannelReady (inl tt)]) = (inl tt, s', h') ->
    attempt loop s h true s' h'.

(** A sequence of connections during which the runner is not stopped. *)
Inductive attempts (loop : run_prog unit)
    : list bool -> RunnerState -> history runner_sig -> RunnerState -> history runner_sig -> Prop :=
| attempts_nil s h : attempts loop [] s h s h
| attempts_cons b l s h s1 h1 s' h' :
    er_stop s = false -> attempt loop s h b s1 h1 -> attempts loop l s1 h1 s' h' ->
    attempts loop (b :: l) s h s' h'.

(** The failures since the last session that ended normally. *)
Fixpoint failures (n : nat) (l : list bool) : nat :=
  match l with
  | [] => n
  | b :: l' => failures (if b then 0 else S n) l'
  end.

Lemma run_loop_attempt loop full left fuel s h b s' h' :
  er_stop s = false -> 0 < left -> attempt loop s h b s' h' ->
  exec (run_loop connect loop full left (S fuel)) s h =
  exec (run_loop connect loop full (if b then full else left - 1) fuel) s' h'.
Proof.
  intros Hs Hl Ha. cbn [run_loop]. rewrite run_bind. cbn [run gets]. rewrite Hs.
  rewrite (proj2 (Z.ltb_lt 0 left)) by done. cbn [negb andb].
  rewrite run_bind, run_try_except. destruct Ha as [Hr|s' h' Hr Hloop|s' h' Hr Hloop];
    cbn -[run_loop]; rewrite Hr; cbn -[run_loop]; [done|..];
    rewrite run_bind, run_try_except, run_bind;
    match type of Hloop with _ = ?r =>
      match goal with |- context [run env loop s ?h1] =>
        replace (run env loop s h1) with r by (symmetry; exact Hloop)
      end
    end; done.
Qed.

Lemma run_loop_attempts loop (full : nat) l m n s h s' h' :
  attempts loop l s h s' h' ->
  (forall l1 l2, l = l1 ++ l2 -> l2 <> [] -> (failures m l1 < full)%nat) ->
  exec (run_loop connect loop (Z.of_nat full) (Z.of_nat full - Z.of_nat m) (length l + n)) s h =
  exec (run_loop connect loop (Z.of_nat full) (Z.of_nat full - Z.of_nat (failures m l)) n) s' h'.
Proof.
  intros Ha. revert m. induction Ha as [|b l s h s1 h1 s' h' Hs Hb Ha IH]; intros m Hpre; [done|].
  assert (m < full)%nat as Hm by (apply (Hpre [] (b :: l)); done).
  cbn [length plus failures]. rewrite (run_loop_attempt _ _ _ _ _ _ b s1 h1) by (done || lia).
  rewrite <- (IH (if b then 0%nat else S m)).
  - f_equal. f_equal. destruct b; lia.
  - intros l1 l2 -> Hl2. apply (Hpre (b :: l1) l2); done.
Qed.

End retries.

(** ** The worker *)

Definition results_written (h : history runner_sig) : list Result :=
  omap (fun x : { e : eev & eresp e } =>
    match projT1 x with EWrite (FromEngine_result r) => Some r | _ => None end) h.

Section worker_order.
Context (env : history runner_sig -> forall e : eev, eresp e) (engine_id : string).
Abbreviation exec := (run (E := runner_sig) env).

(** The engine returns [handle f info], from which a result can be built,
    and the stream is open. *)
Variable handle : InputFrame -> Any -> handled.
Variable answer : InputFrame * Any -> Result.
Hypothesis env_handle : forall h f info, env h (Handle f info) = inl (handle f info).
Hypothesis env_get : forall h, env h QueueGet = inl tt.
Hypothesis env_write : forall h m, env h (EWrite m) = inl tt.
Hypothesis well_behaved : forall f info,
  build_result_proto engine_id (handle f info) = Built (answer (f, info)).

Lemma results_written_app h h' : results_written (h ++ h') = results_written h ++ results_written h'.
Proof. apply omap_app. Qed.

Lemma exec_worker_iter x q s h :
  er_queue s = x :: q ->
  exists h', exec (worker_iter engine_id) s h = (inl tt, upd_er_queue (fun _ => q) s, h') /\
    results_written h' = results_written h ++ [answer x].
Proof.
  intros Hq. destruct x as [f info]. unfold worker_iter, queue_get, ecall. cbn.
  rewrite env_get. cbn. rewrite Hq. cbn. rewrite env_handle. cbn. rewrite well_behaved. cbn.
  rewrite env_write. cbn. eexists. split; [unfold upd_er_queue; by rewrite ?Hq|].
  by rewrite !results_written_app, !app_nil_r.
Qed.

(** C25.  The worker of an engine runner answers every input of its queue
    exactly once and in the order of arrival, when the engine returns
    well-formed results and the stream is open. *)
Theorem worker_answers_in_order fs n s h :
  er_queue s = fs ->
  exists h', exec (worker engine_id (length fs + n)) s h =
      exec (worker engine_id n) (upd_er_queue (fun _ => []) s) h' /\
    results_written h' = results_written h ++ map answer fs.
Proof.
  revert s h. induction fs as [|x fs IH]; intros s h Hq.
  - exists h. rewrite app_nil_r. split; [|done]. f_equal. unfold upd_er_queue. destruct s. simpl in *.
    by rewrite Hq.
  - cbn [length plus worker]. rewrite run_bind.
    destruct (exec_worker_iter x fs s h Hq) as (h1 & -> & W1).
    destruct (IH (upd_er_queue (fun _ => fs) s) h1 eq_refl) as (h' & -> & W).
    exists h'. split; [done|]. by rewrite W, W1, <- (assoc_L (++)).
Qed.
End worker_order.

(** ** Concrete runs *)

(** A server that is never reachable, or always; an engine that echoes. *)
Definition echo (f : InputFrame) (info : Any) : handled := AResult (inl (mkStatus SUCCESS "")) (PAny info).
Definition runner_env (up : bool) (h : history runner_sig) (e : eev) : eresp e :=
  match e return eresp e with
  | ChannelReady => if up then inl tt else inr TimeoutError
  | ERead => inl None
  | Handle f info => inl (echo f info)
  | _ => inl tt
  end.
Definition fresh_runner (q : list (InputFrame * Any)) : RunnerState := mkRunnerState false false q.

Lemma runner_gives_up_after_retries_witness :
  exists h', run (E := runner_sig) (runner_env false) (run_async connect (Ret tt) 3 10) (fresh_runner []) [] =
      (inl tt, mkRunnerState false true [], h') /\ channel_waits h' = 3%nat.
Proof.
  apply (runner_gives_up_after_retries (runner_env false) (Ret tt) 3 10 (fresh_runner []) []);
    [reflexivity|reflexivity|lia].
Defined.

(** A server that is reachable at every second connection. *)
Definition flaky_env (h : history runner_sig) (e : eev) : eresp e :=
  match e return eresp e with
  | ChannelReady => if Nat.even (channel_waits h) then inr TimeoutError else inl tt
  | ERead => inl None
  | Handle f info => inl (echo f info)
  | _ => inl tt
  end.


Lemma worker_answers_in_order_witness :
  exists h', run (E := runner_sig) (runner_env true) (worker "e" 3)
      (fresh_runner [(default_InputFrame, mkAny "a" ""); (default_InputFrame, mkAny "b" "")]) [] =
      run (E := runner_sig) (runner_env true) (worker "e" 1) (fresh_runner []) h' /\
    results_written h' =
      [mkResult (mkStatus SUCCESS "") (AnyResult (mkAny "a" "")) "e" 0;
       mkResult (mkStatus SUCCESS "") (AnyResult (mkAny "b" "")) "e" 0].
Proof.
  exact (worker_answers_in_order (runner_env true) "e" echo
           (fun x => mkResult (mkStatus SUCCESS "") (AnyResult x.2) "e" 0)
           (fun _ _ _ => eq_refl) (fun _ => eq_refl) (fun _ _ => eq_refl) (fun _ _ => eq_refl)
           [(default_InputFrame, mkAny "a" ""); (default_InputFrame, mkAny "b" "")] 1
           (fresh_runner [(default_InputFrame, mkAny "a" ""); (default_InputFrame, mkAny "b" "")])
           [] eq_refl).
Defined.
