(* ===== verification/EngineSession.v ===== *)
(** * The session of an engine runner

    [EngineRunner.engine_loop] of
    [server/src/gabriel_server/network_engine/engine_runner.py]: the runner
    registers its engine, starts a reader, a worker and a watcher of the stop
    event, waits for the first of them to end, and cancels the others.  The
    three coroutines are those of [EngineRunner]. *)

From S2P Require Import Prelude Coro Tasks TaskLogic SessionLogic Protocol Config EngineRunner.

#[export] Instance runner_interrupt : Interrupt runner_sig := fun e : eev =>
  match e return option (eresp e) with
  | ERead => Some (inr CancelledError)
  | Handle _ _ => Some (inr CancelledError)
  | _ => Some (inr CancelledError)
  end.

Abbreviation esup A := (prog RunnerState (task_sig RunnerState runner_sig) A).

Definition KEEPALIVE_TIME_MS : Z := 10000.
Definition KEEPALIVE_TIMEOUT_MS : Z := 5000.
Definition KEEPALIVE_MIN_PING_INTERVAL_MS : Z := 5000.

(** The options of the channel of [EngineRunner.run_async]. *)
Definition runner_channel_options : list (string * Z) :=
  [("grpc.keepalive_time_ms", KEEPALIVE_TIME_MS);
   ("grpc.keepalive_timeout_ms", KEEPALIVE_TIMEOUT_MS);
   ("grpc.keepalive_permit_without_calls", 1);
   ("grpc.http2.min_ping_interval_without_data_ms", KEEPALIVE_MIN_PING_INTERVAL_MS);
   ("grpc.http2.max_pings_without_data", 0)].

(** [EngineRunner.__init__]: the credentials of its channel, which is secure if
    there are any, and its state. *)
Definition new_engine_runner (read_file : string -> bytes + exn)
    (tls_ca_cert tls_client_cert tls_client_key : option string)
    : (option ChannelCredentials * RunnerState) + exn :=
  match build_channel_credentials read_file tls_ca_cert tls_client_cert tls_client_key with
  | inl credentials => inl (credentials, mkRunnerState false false [])
  | inr x => inr x
  end.

Section engine_loop.
Variables (engine_id : string) (all_responses_required : bool).

(** [task.exception()] *)
Definition task_exception (t : nat) : esup (option exn) :=
  call (E := task_sig RunnerState runner_sig) (TException t).

(** [for task in done: ...], which raises the exception of a task that
    failed, the watcher apart. *)
Definition raise_failures (stop_task : nat) (done : list nat) : esup unit :=
  for_each done (fun t =>
    if decide (t = stop_task) then Ret tt
    else
      exc ← task_exception t;
      match exc with Some x => Throw x | None => Ret tt end).

(** [EngineRunner.engine_loop].  The [finally] clause runs with [pending] as
    [wait] left it, or with all the tasks when the wait was cancelled. *)
Definition engine_loop (fuel : nat) : esup unit :=
  lift (send_register engine_id all_responses_required) ;;
  tasks ← create_tasks [reader fuel; worker engine_id fuel; stop_watcher fuel];
  waited ← try_except (done ← wait_first tasks; Ret (inl done)) (fun x => Ret (inr x));
  let pending := match waited with
                 | inl done => filter (fun t => t ∉ done) tasks
                 | inr _ => tasks
                 end in
  (cancel_tasks pending ≫= fun _ => gather_all pending) ;;
  match waited with
  | inl done => raise_failures (nth 2 tasks 0%nat) done
  | inr x => Throw x
  end.

(** [EngineRunner.run_async] with its sessions. *)
Definition runner_run_async (request_retries : Z) (fuel : nat) : esup unit :=
  run_async (lift connect) (engine_loop fuel) request_retries fuel.
End engine_loop.

(** ** Properties *)

Section engine_session.
Variables (engine_id : string) (all_responses_required : bool).

Lemma reader_cancellable fuel : cancellable (reader fuel).
Proof. induction fuel; cbn -[mbind]; unfold ecall; cancels. Qed.

Lemma stop_watcher_cancellable fuel : cancellable (stop_watcher fuel).
Proof. induction fuel; cbn -[mbind]; unfold ecall; cancels. Qed.

Lemma worker_cancellable fuel : cancellable (worker engine_id fuel).
Proof. induction fuel; cbn -[mbind]; unfold worker_iter, queue_get, ecall; cancels. Qed.

(** Nothing is required of the state. *)
Definition anything (_ : RunnerState) : Prop := True.
Definition anyhow (_ _ : RunnerState) : Prop := True.

#[local] Instance anyhow_preorder : PreOrder anyhow.
Proof. by split. Qed.

Lemma safe_anything {A} (p : run_prog A) Q s0 s :
  (forall o s0 s, Q o s0 s : Prop) -> safe (E := runner_sig) anything anyhow p Q s0 s.
Proof. intros HQ. revert s0 s. induction p; simpl; intros; auto. by split_and!. Qed.

Definition always (_ : exn) : bool := true.

Abbreviation esafe p :=
  (tsafe (E := runner_sig) anything anyhow true (own_calls always) p).

Lemma task_anything p : cancellable p -> task_safe (E := runner_sig) anything anyhow true p.
Proof. intros Hc. split; [|done]. intros s _. apply safe_anything. by split. Qed.

Lemma session_tasks fuel :
  Forall (task_safe (E := runner_sig) anything anyhow true)
    [reader fuel; worker engine_id fuel; stop_watcher fuel].
Proof.
  repeat constructor; try (intros; apply safe_anything; done);
    auto using reader_cancellable, worker_cancellable, stop_watcher_cancellable.
Qed.

(** How a session with the tasks [reader], [worker] and [watcher] ends. *)
Definition session_end (reader worker watcher : nat) (o : unit + exn)
    (c : tasks RunnerState runner_sig) : Prop :=
  match o with
  | inl _ =>
      forall t, t ∈ [reader; worker] ->
        is_done t c = true /\ (exception_of t c = None \/ exception_of t c = Some CancelledError)
  | inr x =>
      x = CancelledError \/ exists t, t ∈ [reader; worker] /\ exception_of t c = Some x
  end.

Lemma raise_failures_safe reader worker watcher dn s0 c :
  watcher ∉ [reader; worker] -> (forall t, t ∈ dn -> t ∈ [reader; worker; watcher]) ->
  (forall t, t ∈ [reader; worker] -> is_done t c = true) ->
  (forall t, t ∈ [reader; worker] ->
     t ∈ dn \/ exception_of t c = None \/ exception_of t c = Some CancelledError) ->
  esafe (raise_failures watcher dn)
    (fun o s0' c' => c' = c /\ session_end reader worker watcher o c) s0 c.
Proof.
  intros Hw Hdn Hd Hx. unfold raise_failures.
  revert Hdn Hx. induction dn as [|t l IH]; intros Hdn Hx.
  { split; [done|]. intros t Ht. split; [auto|]. destruct (Hx t Ht) as [H|H]; [|exact H].
    by apply not_elem_of_nil in H. }
  assert (forall t', t' ∈ l -> t' ∈ [reader; worker; watcher]) as Hl by (intros; apply Hdn; by right).
  assert (t ∈ [reader; worker] -> exception_of t c = None -> forall t', t' ∈ [reader; worker] ->
    t' ∈ l \/ exception_of t' c = None \/ exception_of t' c = Some CancelledError) as Hnone.
  { intros _ Ht t' Ht'. destruct (Hx t' Ht') as [[->|]%elem_of_cons|]; auto. }
  apply tsafe_bind. case_decide as Ew.
  - subst t. apply IH; [done|]. intros t Ht.
    destruct (Hx t Ht) as [[->|]%elem_of_cons|]; auto. done.
  - cbn. assert (t ∈ [reader; worker]) as Hrw by (specialize (Hdn t); set_solver).
    destruct (exception_of t c) as [x|] eqn:Ex; [split; [done|]; right; by eauto|]. by apply IH; auto.
Qed.

(** The session failed before it had tasks, or it ended with them. *)
Definition loop_end (n : nat) (o : unit + exn) (c : tasks RunnerState runner_sig) : Prop :=
  (length (k_tasks c) = n /\ exists x, o = inr x) \/ session_end n (S n) (S (S n)) o c.

Lemma session_end_evolves b r w s o (c c' : tasks RunnerState runner_sig) :
  evolves b c c' -> session_end r w s o c -> session_end r w s o c'.
Proof.
  intros He. destruct o as [[]|x]; simpl.
  - intros Hend t Ht. destruct (Hend t Ht) as [Hd [Hx|Hx]].
    + destruct (returned_evolves _ _ _ _ He Hd Hx). auto.
    + split; [by eapply is_done_evolves|]. right. by eapply exception_evolves.
  - intros [->|(t & Hin & Hx)]; [by left|right]. exists t. split; [done|]. by eapply exception_evolves.
Qed.

Lemma engine_loop_safe fuel s0 c :
  calm always c ->
  esafe (engine_loop engine_id all_responses_required fuel)
    (fun o s0' c' => calm always c' /\ loop_end (length (k_tasks c)) o c') s0 c.
Proof.
  intros Hc. unfold engine_loop. apply tsafe_bind.
  eapply tsafe_mono; [|eapply (lift_safe _ _ _ _ _ (fun _ _ _ => True)); [by apply safe_anything|done]].
  intros [[]|x] s1 c1 (_ & He1 & Hc1); [|split; [done|]; left; rewrite (ev_length _ _ _ He1); by eauto].
  rewrite <- (ev_length _ _ _ He1). clear He1 c Hc. set (n := length (k_tasks c1)).
  apply tsafe_bind, tsafe_create_tasks; [apply session_tasks|].
  set (ps := [reader fuel; worker engine_id fuel; stop_watcher fuel]).
  change (length ps) with 3%nat. fold n.
  assert (covers always (seq n 3) (add_tasks ps c1)) as Hcov by (by apply covers_add).
  assert (Forall (fun t => (t < length (k_tasks (add_tasks ps c1)))%nat) (seq n 3)) as Hlt.
  { eapply seq_below; [done|]. by rewrite add_tasks_length. }
  apply tsafe_bind, tsafe_try_except, tsafe_bind.
  eapply tsafe_mono; [|by apply wait_first_safe]. intros o s2 c2 (-> & _ & He2 & Ho).
  assert (Forall (fun t => (t < length (k_tasks c2))%nat) (seq n 3)) as Hlt2 by (by rewrite (ev_length _ _ _ He2)).
  destruct o as [dn|x]; apply tsafe_bind.
  - destruct Ho as (Hne & Hdn & Hpend).
    eapply tsafe_mono; [|apply (cancel_pending_safe (E := runner_sig) anything anyhow true always (seq n 3) dn);
      [by split|done|by intros t [_ ?]%Hdn|by intros t [_ ?]%list_elem_of_filter]].
    intros o s3 c3 (Ho & _ & He3 & Hd & Hcan).
    assert (all_done (seq n 3) c3) as Hall.
    { apply Forall_forall. intros t Ht. destruct (decide (t ∈ dn)) as [Hin|Hin].
      - eapply is_done_evolves; [exact He3|]. by apply Hdn.
      - eapply all_done_elem; [exact Hd|]. by apply list_elem_of_filter. }
    assert (calm always c3) by (eapply covers_done; [exact Hcov|by etransitivity|done]).
    destruct Ho as [->| ->]; [|split; [done|]; right; by left].
    assert (forall t, t ∈ [n; S n] -> t ∈ seq n 3) as Hrw by (cbn [seq]; set_solver).
    eapply tsafe_mono; [|apply (raise_failures_safe n (S n) (S (S n)) dn)].
    + intros o s4 c4 [-> Hend]. split; [done|]. by right.
    + rewrite !elem_of_cons, elem_of_nil. lia.
    + intros t Ht. by apply Hdn.
    + intros t Ht. eapply all_done_elem; [exact Hall|auto].
    + intros t Ht%Hrw. destruct (decide (t ∈ dn)) as [Hin|Hin]; [by left|]. right; right.
      apply Hcan; auto. by apply list_elem_of_filter.
  - subst x. eapply tsafe_mono; [|by apply tsafe_cancel_and_gather].
    intros o s3 c3 (Ho & _ & _ & He3 & Hd).
    assert (calm always c3) by (eapply covers_done; [exact Hcov|by etransitivity|done]).
    destruct Ho as [->| ->]; (split; [done|]); right; by left.
Qed.

Lemma run_loop_safe fuel retries left n s0 c :
  calm always c ->
  esafe (run_loop (lift connect) (engine_loop engine_id all_responses_required fuel) retries left n)
    (fun _ s0' c' => calm always c') s0 c.
Proof.
  revert left s0 c. induction n as [|n IH]; intros left s0 c Hc; cbn [run_loop]; apply tsafe_gets;
    (destruct (negb _ && _); [|by apply (calm_evolves _ true c); [apply evolves_set_state|]]); [done|].
  apply tsafe_bind, tsafe_try_except, tsafe_bind.
  eapply tsafe_mono; [|eapply (lift_safe _ _ _ _ _ (fun _ _ _ => True)); [by apply safe_anything|done]].
  intros [[]|x] s1 c1 (_ & _ & Hc1); [|destruct x; try done; by apply IH].
  apply tsafe_bind, tsafe_try_except, tsafe_bind.
  eapply tsafe_mono; [|by apply engine_loop_safe].
  intros [[]|x] s2 c2 [Hc2 _]; [by apply IH|]. destruct x; try done; by apply IH.
Qed.

(** Other threads may stop the runner. *)
Inductive runner_app : run_prog unit -> Prop :=
| runner_app_stop : runner_app runner_stop.

Lemma runner_sys_ok (R : unit + exn -> tasks RunnerState runner_sig -> Prop) s m y :
  (forall o c c', evolves true c c' -> R o c -> R o c') ->
  esafe m (fun o s0 c => calm always c /\ R o c) s (Tasks s [] [] false) ->
  sys_reachable runner_app s m y ->
  sys_ok (E := runner_sig) anything anyhow true (own_calls always) (fun o c => calm always c /\ R o c) y.
Proof.
  intros HR Hm. apply (supervised_ok (E := runner_sig) anything anyhow true always); eauto.
  - intros p [] s0 s1 _. by apply safe_anything.
  - done.
  - eapply tsafe_mono; [|exact Hm]. intros o s1 c1 H1. by split.
Qed.

Lemma always_orderly (c : tasks RunnerState runner_sig) : orderly_tasks always c.
Proof. done. Qed.

(** C29. A session of the engine runner ends as it should: when [engine_loop] has
    returned or raised, none of its tasks is left; it returns only if neither
    the reader nor the worker failed, each of them having returned or been
    cancelled by the clean-up; and what it raises is its own cancellation, the
    failure of the registration (when there are no tasks yet), or what the
    reader or the worker raised, which the retry loop of the runner looks at. *)
Theorem engine_session_ends fuel s m c :
  sys_reachable runner_app s (engine_loop engine_id all_responses_required fuel) (m, c) ->
  on_its_own m = true ->
  (forall t, (t < length (k_tasks c))%nat -> is_done t c = true) /\
  (m = Ret tt -> forall t, t ∈ [0; 1]%nat ->
     is_done t c = true /\ (exception_of t c = None \/ exception_of t c = Some CancelledError)) /\
  (forall x, m = Throw x -> k_tasks c = [] \/ x = CancelledError \/
     exists t, t ∈ [0; 1]%nat /\ exception_of t c = Some x).
Proof.
  intros Hy Hm. eapply (runner_sys_ok (loop_end 0)) in Hy.
  - split_and!.
    + intros t Ht. eapply calm_done; [|apply always_orderly|done].
      by apply (sys_ok_calm (E := runner_sig) anything anyhow true always _ m _ (fun o c H => proj1 H) Hy).
    + intros ->. destruct (sys_ok_end (E := runner_sig) anything anyhow true (own_calls always) _ (inl tt) _ _ eq_refl Hy) as [[_ [[_ [x Hx]]|Hend]] _]; [done|].
      exact Hend.
    + intros x ->. destruct (sys_ok_end (E := runner_sig) anything anyhow true (own_calls always) _ (inr x) _ _ eq_refl Hy) as [[_ [[Hn _]|Hend]] _].
      * left. by apply nil_length_inv.
      * right. exact Hend.
  - intros o c1 c2 He [[Hl Hx]|Hend]; [left|right; by eapply session_end_evolves].
    by rewrite (ev_length _ _ _ He).
  - apply engine_loop_safe. by apply calm_nil.
Qed.

(** The same of [run_async]: while the runner waits for the server, and when
    it has given up, no task of a former session is left. *)
Theorem runner_leaves_no_task fuel retries s m c t :
  sys_reachable runner_app s (runner_run_async engine_id all_responses_required retries fuel) (m, c) ->
  on_its_own m = true -> (t < length (k_tasks c))%nat -> is_done t c = true.
Proof.
  intros Hy Hm Ht. eapply (runner_sys_ok (fun _ _ => True)) in Hy; [|done|].
  - eapply calm_done; [|apply always_orderly|done].
    by apply (sys_ok_calm (E := runner_sig) anything anyhow true always _ m _ (fun o c H => proj1 H) Hy).
  - eapply tsafe_mono; [|apply run_loop_safe; by apply calm_nil]. by intros.
Qed.
End engine_session.

(** ** Concrete sessions

    The reader ends, and the others are cancelled: the server closes the
    stream, or the stream breaks. *)
Definition broken_env (h : history runner_sig) (e : eev) : eresp e :=
  match e return eresp e with
  | ERead => inr AioRpcError
  | e => runner_env true h e
  end.

Definition reader_ends (env : history runner_sig -> forall e : eev, eresp e)
    : esup unit * tasks RunnerState runner_sig :=
  (sys_play (E := runner_sig) env (fresh_runner []) (engine_loop "e" false 5)
     (replicate 6 SMain ++ [STask 0; STask 0] ++ replicate 3 SMain ++ [STask 1; STask 2]
      ++ replicate 3 SMain)).1.

Definition closed_session : esup unit * tasks RunnerState runner_sig := reader_ends (runner_env true).
Definition broken_session : esup unit * tasks RunnerState runner_sig := reader_ends broken_env.

Lemma engine_session_ends_witness :
  (closed_session.1 = Ret tt /\
   forall t, t ∈ [0; 1]%nat -> is_done t closed_session.2 = true /\
     (exception_of t closed_session.2 = None \/ exception_of t closed_session.2 = Some CancelledError)) /\
  (broken_session.1 = Throw AioRpcError /\ k_tasks broken_session.2 <> [] /\
   exists t, t ∈ [0; 1]%nat /\ exception_of t broken_session.2 = Some AioRpcError).
Proof.
  assert (closed_session.1 = Ret tt) as Ec by (vm_compute; reflexivity).
  assert (broken_session.1 = Throw AioRpcError) as Eb by (vm_compute; reflexivity).
  assert (k_tasks broken_session.2 <> []) as Hn by (vm_compute; discriminate).
  split; split; [exact Ec| |exact Eb|split; [exact Hn|]].
  - apply (engine_session_ends "e" false 5 (fresh_runner []) closed_session.1 closed_session.2);
      [|by rewrite Ec|exact Ec].
    rewrite <- surjective_pairing. apply sys_play_reachable.
  - destruct (engine_session_ends "e" false 5 (fresh_runner []) broken_session.1 broken_session.2)
      as (_ & _ & Hx); [|by rewrite Eb|].
    + rewrite <- surjective_pairing. apply sys_play_reachable.
    + destruct (Hx AioRpcError Eb) as [H|[H|H]]; [by destruct Hn|discriminate H|exact H].
Defined.
