(* ===== verification/LocalServer.v ===== *)
(** * The local engine

    [server/src/gabriel_server/local_engine.py]: an engine in a process of its
    own behind a pipe ([LocalEngine._run_engine]), and the server that feeds it
    from one input queue ([_LocalServer]). *)

From S2P Require Import Prelude Coro Protocol ServerState GabrielServer EngineRunner.

(** ** The engine's process *)

Section process.
Context `{!Codec FromClient, !Codec Any, !Codec Result}.
Variables (engine_id : string) (handle : InputFrame -> Any -> handled).

(** The [result_proto] of an input with the frame id [frame], after
    [result_proto.status] is set to an error. *)
Definition local_error (frame : Z) (error_msg : string) : Result :=
  mkResult (mkStatus ENGINE_ERROR error_msg) NoResult engine_id frame.

(** The result [LocalEngine._run_engine] sends for what [handle] returned; its
    checks and messages are a copy of those of [EngineRunner], written apart
    from them. *)
Definition run_engine_result (frame : Z) (result : handled) : Result :=
  match result with
  | NotAResult ty =>
      local_error frame
        ("Incorrect type returned by engine. Expected a value of type cognitive_engine.Result, found "
         +:+ ty)%string
  | AResult (inr ty) _ =>
      local_error frame
        ("Return status not populated correctly by engine. Expected a value of type gabriel_pb2.Status, found "
         +:+ ty)%string
  | AResult (inl st) payload =>
      if decide (code st <> SUCCESS) then mkResult st NoResult engine_id frame
      else
        match payload with
        | PNone => local_error frame "Engine did not specify result payload"
        | PStr s => mkResult st (StringResult s) engine_id frame
        | PBytes b => mkResult st (BytesResult b) engine_id frame
        | PAny a => mkResult st (AnyResult a) engine_id frame
        | POther ty =>
            local_error frame ("Engine produced unsupported result payload type: " +:+ ty)%string
        end
  end.

(** One iteration of [LocalEngine._run_engine]: the two messages it receives
    on the pipe, and the one it sends back. *)
Definition run_engine_iter (from_client_bytes client_info_bytes : bytes) : bytes + exn :=
  match parse from_client_bytes with
  | None => inr DecodeError
  | Some from_client =>
      let client_info := if truthy_str (Some client_info_bytes)
                         then parse client_info_bytes else Some default_Any in
      match client_info with
      | None => inr DecodeError
      | Some client_info =>
          let input := fc_input from_client in
          let result := handle (in_input_frame input) client_info in
          inl (serialize (run_engine_result (in_frame_id input) result))
      end
  end.
End process.

(** ** The server *)

Section local_server.
Context `{!PyEnv, !Codec ToClient, !Codec FromClient, !Codec Any, !Codec Result, !Transport}.

(** [_input_queue.full()]: a queue of capacity zero or less has no bound. *)
Definition queue_full (l : LocalState) : bool :=
  (0 <? lo_maxsize l) && (lo_maxsize l <=? Z.of_nat (length (lo_queue l))).

Definition push_input (x : FromClient * string * Any) (l : LocalState) : LocalState :=
  mkLocalState (lo_queue l ++ [x]) (lo_maxsize l) (lo_current l).

(** [_LocalServer._send_to_engine] *)
Definition local_send_to_engine (from_client : FromClient) (address : string) (client_info : Any)
    : srv (StatusCode * string) :=
  l ← gets w_local;
  if queue_full l then Ret (SERVER_DROPPED_FRAME, "Input queue is full, dropping input")
  else
    modify (upd_w_local (push_input (from_client, address, client_info))) ;;
    Ret (SUCCESS, "").

Definition take_next (q : list (FromClient * string * Any)) (x : FromClient * string * Any)
    (l : LocalState) : LocalState := mkLocalState q (lo_maxsize l) (Some x).

(** [await self._input_queue.get()] *)
Definition local_queue_get : srv (FromClient * string * Any) :=
  ((call (E := server_sig) LocalQueueGet : srv (unit + exn)) ≫= raise) ;;
  l ← gets w_local;
  match lo_queue l with
  | [] => Throw NotReady
  | x :: q => modify (upd_w_local (take_next q x)) ;; Ret x
  end.

Definition PipeSend_ (b : bytes) : srv unit :=
  (call (E := server_sig) (PipeSend b) : srv (unit + exn)) ≫= raise.
Definition ResultReady_ : srv unit :=
  (call (E := server_sig) ResultReady : srv (unit + exn)) ≫= raise.
Definition PipeRecv_ : srv bytes :=
  (call (E := server_sig) PipeRecv : srv (bytes + exn)) ≫= raise.

Definition finish_current (l : LocalState) : LocalState :=
  mkLocalState (lo_queue l) (lo_maxsize l) None.

(** The exchange with the engine: the input goes out, the result comes back. *)
Definition exchange (from_client : FromClient) (client_info : Any) : srv Result :=
  PipeSend_ (serialize from_client) ;;
  PipeSend_ (serialize client_info) ;;
  ResultReady_ ;;
  data ← PipeRecv_;
  of_option DecodeError (parse data).

(** The body of the loop of [_LocalServer._engine_comm].  The input the engine
    works on is the value of local variables; see [lo_current]. *)
Definition engine_comm_iter (engine_id : string) : srv unit :=
  '(from_client, _, client_info) ← local_queue_get;
  result ← exchange from_client client_info;
  current ← gets (fun s => lo_current (w_local s));
  match current with
  | None => Throw NotReady
  | Some (from_client, address, _) =>
      modify (upd_w_local finish_current) ;;
      send_result address (in_producer_id (fc_input from_client)) engine_id result true ;;
      Ret tt
  end.

Fixpoint engine_comm_loop (engine_id : string) (fuel : nat) : srv unit :=
  running ← gets w_is_running;
  if running : bool then
    match fuel with
    | O => Throw NotReady
    | S fuel' => engine_comm_iter engine_id ;; engine_comm_loop engine_id fuel'
    end
  else Ret tt.

(** [_LocalServer._engine_comm], for at most [fuel] inputs, after
    [wait_for_start]. *)
Definition engine_comm (engine_id : string) (fuel : nat) : srv unit :=
  ((call (E := server_sig) StartWait : srv (unit + exn)) ≫= raise) ;;
  started ← gets w_start_event;
  if started : bool then engine_comm_loop engine_id fuel else Throw NotReady.
End local_server.

(** The state of a local server that has just been constructed. *)
Definition initial_local (num_tokens maxsize : Z) (engine_id : string) : World :=
  mkWorld [] {[engine_id]} [] 0 [] num_tokens [] [] [] 0 ∅ false false false
    (mkLocalState [] maxsize None).

(** ** Two runners, one report *)

(** What [handle] may not return: something else than a result, a status of the
    wrong type, or a success without a payload of one of the three types. *)
Definition malformed (h : handled) : bool :=
  match h with
  | NotAResult _ | AResult (inr _) _ => true
  | AResult (inl st) payload =>
      bool_decide (code st = SUCCESS) &&
      match payload with PNone | POther _ => true | _ => false end
  end.

(** The payload that reaches the client. *)
Definition carried (st : Status) (payload : py_payload) : ResultPayload :=
  if decide (code st = SUCCESS) then
    match payload with
    | PStr s => StringResult s
    | PBytes b => BytesResult b
    | PAny a => AnyResult a
    | PNone | POther _ => NoResult
    end
  else NoResult.

(** C24.  What an engine returns is reported alike by the engine runner and by
    the local engine, whose code is a copy.  A malformed value, among them a
    [SUCCESS] without a payload, which the README of the server allows, is
    reported as an [ENGINE_ERROR] with the same message, the id of the engine
    and no payload, and the engine runner then raises; anything else is reported
    with its status, the id of the engine and, on [SUCCESS] only, its payload.
    The local engine fills in the frame id of the input, the engine runner leaves
    it to the server; and the engine runner has no result for an error status
    whose code has no name. *)
Theorem runners_report_the_same_result engine_id frame h :
  (malformed h = true -> exists msg,
     build_result_proto engine_id h =
       HandlerError msg (mkResult (mkStatus ENGINE_ERROR msg) NoResult engine_id 0) /\
     run_engine_result engine_id frame h =
       mkResult (mkStatus ENGINE_ERROR msg) NoResult engine_id frame) /\
  (malformed h = false -> exists st payload, h = AResult (inl st) payload /\
     build_result_proto engine_id h =
       (if decide (code st = SUCCESS \/ is_Some (StatusCode_Name (code st)))
        then Built (mkResult st (carried st payload) engine_id 0) else NameError) /\
     run_engine_result engine_id frame h = mkResult st (carried st payload) engine_id frame).
Proof.
  unfold carried. destruct h as [ty|[st|ty] p]; cbn [malformed]; [by split; eauto| |by split; eauto].
  unfold build_result_proto, run_engine_result. split.
  - intros [Hs%bool_decide_eq_true Hp]%andb_true_iff.
    rewrite !(decide_True (P := code st = SUCCESS)), decide_False by (done || intros H; by apply H).
    destruct p; try done; by eexists.
  - intros Hm. exists st, p. split; [done|]. destruct (decide (code st = SUCCESS)) as [Hs|Hs].
    + rewrite (decide_True (P := _ \/ _)) by (by left).
      rewrite (decide_False (P := code st <> SUCCESS)) by (intros H; by apply H).
      rewrite bool_decide_eq_true_2 in Hm by done. by destruct p.
    + rewrite (decide_True (P := code st <> SUCCESS)) by done. split; [|done].
      destruct (StatusCode_Name (code st)) eqn:En.
      * by rewrite decide_True by eauto.
      * rewrite decide_False; [done|]. by intros [?|[? ?]].
Qed.

(** An engine that reports success and no payload. *)
Lemma runners_report_the_same_result_witness :
  exists msg,
    build_result_proto "e" (AResult (inl (mkStatus SUCCESS "")) PNone) =
      HandlerError msg (mkResult (mkStatus ENGINE_ERROR msg) NoResult "e" 0) /\
    run_engine_result "e" 7 (AResult (inl (mkStatus SUCCESS "")) PNone) =
      mkResult (mkStatus ENGINE_ERROR msg) NoResult "e" 7.
Proof. apply (runners_report_the_same_result "e" 7 (AResult (inl (mkStatus SUCCESS "")) PNone)). reflexivity. Defined.
