(* ===== verification/LocalSpec.v ===== *)
(** * The local engine: tokens, and the answers of the engine

    The local server meets the interfaces the client-facing server is proved
    against ([EngineCb], [EngineCbOk]), so that tokens are accounted for in
    every interleaving; and every queued input is answered in turn with the
    result of the engine for it. *)

From S2P Require Import Prelude Coro Protocol Config ServerState Trace Instances GabrielServer.
From S2P Require Import Dispatch InputSpec ServerRunner ResultSpec GrpcServer SessionSpec.
From S2P Require Import WebsocketServer ZeroMQServer TokenInv TokenSafety EngineRunner LocalServer.

(** ** The interfaces *)

#[export] Instance local_send_to_engine_cb : EngineCb local_send_to_engine.
Proof. constructor. intros fc a ci s. unfold local_send_to_engine. pres. Qed.

Lemma evolves_upd_local s0 s g :
  (forall l, lo_maxsize (g l) = lo_maxsize l) -> evolves s0 s -> evolves s0 (upd_w_local g s).
Proof. intros Hg HG. eapply evolves_same_store; [| | | |exact HG]; simpl; auto. Qed.

#[export] Instance local_send_to_engine_ok : EngineCbOk local_send_to_engine.
Proof.
  constructor. intros fc a ci cid s0 s [HI HG] HT. unfold local_send_to_engine. apply safe_gets.
  destruct (queue_full (w_local s)) eqn:Hf; [by split|]. apply safe_modify. simpl. split_and!.
  - apply (TokInv_local_push s (fc, a, ci)); [|done]. unfold queue_full in Hf.
    intros Hm. rewrite (proj2 (Z.ltb_lt _ _) Hm) in Hf. simpl in Hf. lia.
  - by apply evolves_upd_local.
  - exact HT.
Qed.

Section comm.
Context `{!PyEnv, !Codec ToClient, !Codec FromClient, !Codec Any, !Codec Result}.
Context `{!Transport, !TransportOk}.

(** The body of the loop, after the exchange with the engine: the token of the
    current input is returned. *)
Lemma ok_answer_current eid r :
  ok (current ← gets (fun s => lo_current (w_local s));
      match current with
      | None => Throw NotReady
      | Some (fc, a, _) =>
          modify (upd_w_local finish_current) ;;
          send_result a (in_producer_id (fc_input fc)) eid r true ;; Ret tt
      end).
Proof.
  intros s0 s [HI HG]. apply safe_gets. destruct (lo_current _) as [[[fc a] ci]|] eqn:Hx; [|by split].
  apply safe_modify, safe_bind. eapply safe_mono; [|apply send_result_return].
  - by intros [b|x] s1 s2 H2.
  - exact (TokInv_local_done s (fc, a, ci) Hx HI).
  - by apply evolves_upd_local.
Qed.

Lemma ok_local_queue_get : ok local_queue_get.
Proof.
  unfold local_queue_get. apply keeps_bind; [ok_tac|intros _]. intros s0 s [HI HG].
  apply safe_gets. destruct (lo_queue _) as [|x q] eqn:Hq; [by split|]. apply safe_modify.
  split; [by apply TokInv_local_take|by apply evolves_upd_local].
Qed.

Lemma ok_engine_comm eid fuel : ok (engine_comm eid fuel).
Proof.
  assert (ok (engine_comm_iter eid)) as Hi.
  { unfold engine_comm_iter. apply keeps_bind; [apply ok_local_queue_get|]. intros [[fc a] ci].
    apply keeps_bind; [|intros r; apply ok_answer_current].
    unfold exchange, PipeSend_, ResultReady_, PipeRecv_. ok_tac. }
  unfold engine_comm. apply keeps_bind; [ok_tac|intros _]. apply keeps_bind; [ok_tac|].
  intros [|]; [|ok_tac]. induction fuel as [|fuel IH]; cbn -[mbind]; ok_tac.
Qed.
End comm.

Section local_system.
Context `{!PyEnv, !Codec ToClient, !Codec FromClient, !Codec Any, !Codec Result}.

(** The coroutines of a local server, with either of its transports. *)
Inductive local_task (engine_id : string) : srv unit -> Prop :=
| local_ws_comm fuel : local_task engine_id (@engine_comm _ _ _ _ Ws.ws_transport engine_id fuel)
| local_ws_client ws address msgs :
    local_task engine_id (Ws.client_handler local_send_to_engine ws address msgs)
| local_zmq_comm fuel : local_task engine_id (@engine_comm _ _ _ _ Zmq.zmq_transport engine_id fuel)
| local_zmq_handler fuel : local_task engine_id (Zmq.client_handler fuel)
| local_zmq_client address fuel :
    local_task engine_id (Zmq.consumer local_send_to_engine address fuel)
| local_ws_launch li : local_task engine_id (Ws.launch li)
| local_zmq_launch li : local_task engine_id (Zmq.launch li).

Lemma local_task_ok eid p : local_task eid p -> ok p.
Proof.
  pose proof Ws.ws_transport_ok. pose proof Zmq.zmq_transport_ok.
  destruct 1; auto using ok_engine_comm, ok_zmq_client_handler with gabriel.
  - apply ok_ws_client_handler, _.
  - apply ok_zmq_consumer, _.
Qed.

(** C18.  The server of a local engine.  In every reachable state of its event
    loop, the tokens it counts for a client, plus the inputs of the client
    that wait in the queue, plus the one the engine works on, do not exceed the
    tokens granted per producer, provided no client address was used by two
    sessions; and a queue with a capacity never exceeds it. *)
Theorem local_server_within_bounds n q eid c :
  reachable (local_task eid) (initial_local n q eid) c ->
  (0 < q -> Z.of_nat (length (lo_queue (w_local (p_state c)))) <= q) /\
  (NoDup (owners (p_state c)) -> forall cid cl pid t,
     w_client_store (p_state c) !! cid = Some cl -> (cl_tokens_for_producer cl).[pid] = Some t ->
     t + outstanding (cl_owner cl) pid (p_state c) <= n).
Proof.
  intros Hr. apply reachable_tokens in Hr as [HI HG]; [|apply local_task_ok|apply fresh_inv].
  pose proof (ev_maxsize _ _ HG) as Hm. simpl in Hm. split.
  - intros Hq. pose proof (ti_local _ _ HI) as Hl. unfold local_wf in Hl. rewrite Hm in Hl. auto.
  - intros Hnd cid cl pid t Hcl Ht. destruct (ti_bounds _ _ HI Hnd) as [B _].
    specialize (B cid cl pid Hcl). rewrite Ht, (ev_num _ _ HG) in B. unfold no_credit in B.
    simpl in B. lia.
Qed.
End local_system.

(** ** The answers of the engine *)

(** The transports of [_LocalServer]: WebSocket, unless it is to use ZeroMQ. *)
Inductive served_over := OverWebsocket | OverZeroMQ.

Section transports.
Context `{!PyEnv, !Codec ToClient, !Codec FromClient}.

Definition transport_of (l : served_over) : Transport :=
  match l with OverWebsocket => Ws.ws_transport | OverZeroMQ => Zmq.zmq_transport end.

(** Where a message goes: to a WebSocket connection, or to a ZeroMQ peer. *)
Definition sent_to (x : { e : sev & sresp e }) : option ((nat + string) * bytes) :=
  match projT1 x with
  | WsSend ws b => Some (inl ws, b)
  | ZmqSend a b => Some (inr a, b)
  | _ => None
  end.

(** The messages sent to clients, on either transport. *)
Definition server_sends (h : history server_sig) : list ((nat + string) * bytes) := omap sent_to h.

(** Where the client with the address [a] is reached, if it is connected: its
    connection, or its own address unless a disconnection is simulated. *)
Definition route (l : served_over) (s : World) (a : string) : option (nat + string) :=
  cid ← (w_clients s).[a];
  match l with
  | OverWebsocket =>
      _ ← (w_write_locks s).[a]; inl ∘ cl_websocket <$> w_client_store s !! cid
  | OverZeroMQ => if w_simulate_disconnection s then None else Some (inr a)
  end.
End transports.

Section answers.
Context `{!PyEnv, !Codec ToClient, !Codec FromClient, !Codec Any, !Codec Result}.
Context (env : history server_sig -> forall e : sev, sresp e).
Variables (l : served_over) (engine_id : string) (handle : InputFrame -> Any -> handled).
Abbreviation exec := (run (E := server_sig) env).
Abbreviation comm_iter := (@engine_comm_iter _ _ _ _ (transport_of l) engine_id).
Abbreviation comm_loop := (@engine_comm_loop _ _ _ _ (transport_of l) engine_id).

(** The pipe leads to the process of the engine, and no send fails. *)
Record pipe_to_engine : Prop := {
  pe_send : forall h b, env h (PipeSend b) = inl tt;
  pe_ready : forall h, env h ResultReady = inl tt;
  pe_recv : forall h b1 b2,
    env (((h ++ [existT (PipeSend b1) (inl tt)]) ++ [existT (PipeSend b2) (inl tt)])
         ++ [existT ResultReady (inl tt)]) PipeRecv = run_engine_iter engine_id handle b1 b2;
  pe_get : forall h, env h LocalQueueGet = inl tt;
  pe_zmq : forall h a b, env h (ZmqSend a b) = inl tt;
  pe_ws : forall h ws b, env h (WsSend ws b) = inl tt;
  pe_lock : forall h n, env h (LockAcquire n) = inl tt;
}.
Hypothesis Hpipe : pipe_to_engine.

(** Only the empty message serialises to nothing. *)
Hypothesis Any_empty : forall ci : Any, serialize ci = "" -> ci = default_Any.

Abbreviation item := (FromClient * string * Any)%type.
Definition item_producer (x : item) : string := in_producer_id (fc_input x.1.1).

(** What the engine has to say about an input. *)
Definition item_result (x : item) : Result :=
  let input := fc_input x.1.1 in
  run_engine_result engine_id (in_frame_id input) (handle (in_input_frame input) x.2).

(** The answer to a client that is still connected. *)
Definition item_answer (s : World) (x : item) : option ((nat + string) * bytes) :=
  to ← route l s x.1.2; Some (to, wrapped (item_producer x) (item_result x) true).

(** The input is done: it left the queue, and its token is returned. *)
Definition item_done (s : World) (x : item) : World :=
  credit_token x.1.2 (item_producer x)
    (upd_w_local (fun l => mkLocalState (drop 1 (lo_queue l)) (lo_maxsize l) None) s).

Lemma exec_exchange {B} x (k : Result -> srv B) s h :
  exists h', exec (exchange x.1.1 x.2 ≫= k) s h = exec (k (item_result x)) s h' /\
    server_sends h' = server_sends h.
Proof.
  unfold exchange, PipeSend_, ResultReady_, PipeRecv_. destruct x as [[fc a] ci]. simpl.
  rewrite (pe_send Hpipe). simpl. rewrite (pe_send Hpipe). simpl. rewrite (pe_ready Hpipe). simpl.
  rewrite (pe_recv Hpipe). unfold run_engine_iter. rewrite parse_serialize.
  assert ((if truthy_str (Some (serialize ci)) then parse (serialize ci) else Some default_Any)
          = Some ci) as ->.
  { destruct (truthy_str _) eqn:Et; [by rewrite parse_serialize|]. f_equal. symmetry.
    apply Any_empty. unfold truthy_str in Et. by destruct (serialize ci). }
  simpl. rewrite parse_serialize. simpl. eexists. split; [done|].
  unfold server_sends. by rewrite !omap_app, !app_nil_r.
Qed.

(** The fields [credit_token] and the queue operations leave alone. *)
Definition link_view (s : World) := (w_clients s, w_is_running s).

Lemma item_done_view s x : link_view (item_done s x) = link_view s.
Proof.
  unfold item_done, credit_token. simpl. destruct (_.[x.1.2]) as [cid|]; [|done].
  destruct (_ !! cid) as [c|]; [|done]. by destruct (_.[item_producer x]).
Qed.

Lemma item_done_queue s x :
  w_local (item_done s x) = mkLocalState (drop 1 (lo_queue (w_local s))) (lo_maxsize (w_local s)) None.
Proof.
  unfold item_done, credit_token. simpl. destruct (_.[x.1.2]) as [cid|]; [|done].
  destruct (_ !! cid) as [c|]; [|done]. by destruct (_.[item_producer x]).
Qed.

Lemma item_done_live s x : clients_live s -> clients_live (item_done s x).
Proof.
  intros Hl a cid. unfold item_done, credit_token. simpl.
  destruct (_.[x.1.2]) as [cid'|]; [|apply Hl]. destruct (_ !! cid') as [c|] eqn:Hc; [|apply Hl].
  destruct (_.[item_producer x]); [|apply Hl]. simpl. intros Ha.
  destruct (decide (cid = cid')) as [->|Hne].
  - rewrite list_lookup_insert_eq; [done|]. by eapply lookup_lt_Some.
  - rewrite list_lookup_insert_ne by done. by apply (Hl a).
Qed.

Lemma item_done_route s x a : route l (item_done s x) a = route l s a.
Proof.
  unfold item_done, credit_token. simpl. destruct (_.[x.1.2]) as [cid|]; [|done].
  destruct (_ !! cid) as [c|] eqn:Hc; [|done]. destruct (_.[item_producer x]); [|done].
  unfold route. simpl. destruct ((w_clients s).[a]) as [cid'|]; [|done]. destruct l; [|done]. simpl.
  destruct ((w_write_locks s).[a]); [|done]. simpl. destruct (decide (cid' = cid)) as [->|Hne].
  - rewrite list_lookup_insert_eq by (by eapply lookup_lt_Some). by rewrite Hc.
  - by rewrite list_lookup_insert_ne.
Qed.

(** Sending to a client that is registered. *)
Lemma exec_transport_send a cid b s h :
  (w_clients s).[a] = Some cid -> is_Some (w_client_store s !! cid) ->
  exists o h', exec (@send_via_transport (transport_of l) a b) s h = (inl o, s, h') /\
    server_sends h' = server_sends h ++ option_list (to ← route l s a; Some (to, b)).
Proof.
  intros Ha [c Hc]. unfold route, server_sends. rewrite Ha. cbn [mbind option_bind].
  destruct l; cbn [transport_of send_via_transport Ws.ws_transport Zmq.zmq_transport].
  - unfold Ws.ws_send_via_transport. rewrite exec_gets, Ha, exec_gets.
    destruct ((w_write_locks s).[a]) as [n|]; [|by exists false, h; rewrite app_nil_r].
    erewrite exec_get_client by done. rewrite Hc. unfold with_lock, WsSend_.
    cbn. rewrite (pe_lock Hpipe). cbn. rewrite (pe_ws Hpipe). cbn.
    eexists _, _. split; [done|]. by rewrite !omap_app, !app_nil_r.
  - unfold Zmq.zmq_send_via_transport. rewrite exec_gets.
    destruct (w_simulate_disconnection s); [by exists false, h; rewrite app_nil_r|].
    unfold ZmqSend_. cbn. rewrite (pe_zmq Hpipe). cbn. eexists _, _. split; [done|]. by rewrite omap_app.
Qed.

Lemma exec_comm_iter x q s h :
  lo_queue (w_local s) = x :: q -> clients_live s ->
  exists h', exec comm_iter s h = (inl tt, item_done s x, h') /\
    server_sends h' = server_sends h ++ option_list (item_answer s x).
Proof.
  intros Hq Hl. unfold engine_comm_iter. rewrite run_bind.
  assert (exec local_queue_get s h =
    (inl x, upd_w_local (take_next q x) s, h ++ [existT LocalQueueGet (inl tt)])) as ->.
  { unfold local_queue_get. cbn. rewrite (pe_get Hpipe). cbn. by rewrite Hq. }
  destruct x as [[fc a] ci]. cbn beta iota.
  destruct (exec_exchange (fc, a, ci) (fun result =>
    current ← gets (fun s => lo_current (w_local s));
    match current with
    | None => Throw NotReady
    | Some (from_client, address, _) =>
        modify (upd_w_local finish_current) ;;
        @send_result _ (transport_of l) address (in_producer_id (fc_input from_client)) engine_id result true ;;
        Ret tt
    end) (upd_w_local (take_next q (fc, a, ci)) s) (h ++ [existT LocalQueueGet (inl tt)]))
    as (h1 & E & W). cbn [fst snd] in E. rewrite E. clear E.
  rewrite exec_gets. cbn [w_local upd_w_local take_next lo_current]. rewrite exec_modify, run_bind.
  rewrite exec_send_result by exact Hl.
  assert (upd_w_local finish_current (upd_w_local (take_next q (fc, a, ci)) s) =
    upd_w_local (fun l => mkLocalState (drop 1 (lo_queue l)) (lo_maxsize l) None) s) as ->.
  { unfold upd_w_local, finish_current, take_next. simpl. by rewrite Hq. }
  assert (server_sends h1 = server_sends h) as W'.
  { rewrite W. unfold server_sends. by rewrite omap_app, app_nil_r. }
  unfold item_answer. cbn [fst snd w_clients upd_w_local].
  pose proof (item_done_view s (fc, a, ci)) as [= Ec _].
  destruct ((w_clients s).[a]) as [cid|] eqn:Ha.
  - match goal with |- context [run env (@send_via_transport ?T ?a ?b) ?s1 ?h1] =>
      change (run env (@send_via_transport T a b) s1 h1) with
        (run env (@send_via_transport T a (wrapped (item_producer (fc, a, ci)) (item_result (fc, a, ci)) true))
           (item_done s (fc, a, ci)) h1) end.
    destruct (exec_transport_send a cid (wrapped (item_producer (fc, a, ci)) (item_result (fc, a, ci)) true)
                (item_done s (fc, a, ci)) h1) as (o & h' & -> & W2).
    { by rewrite Ec. }
    { apply (item_done_live s (fc, a, ci) Hl a). by rewrite Ec. }
    exists h'. split; [done|]. by rewrite W2, W', item_done_route.
  - exists h1. rewrite W'. unfold route. rewrite Ha. split; [|by rewrite app_nil_r].
    unfold item_done, credit_token. simpl. by rewrite Ha.
Qed.

End answers.

(** ** Concrete runs *)

Module LocalDemo.
Import Concrete.

Definition registration : FromClient := FromClient_registration (mkAny "info" "").
Definition frame (n : Z) : FromClient :=
  FromClient_input (mkInput n "p" ["e"] (mkInputFrame TEXT (StringPayload "x"))).

Definition is_zmq_recv (x : { e : sev & sresp e }) : bool :=
  match projT1 x with ZmqRecv => true | _ => false end.

(** A ZeroMQ client "c" registers and sends two inputs; the engine echoes the
    information of the client. *)
Definition linked (h : history server_sig) (e : sev) : sresp e :=
  match e return sresp e with
  | ZmqRecv =>
      match List.filter is_zmq_recv h with
      | [] => inl ("c", serialize registration)
      | [_] => inl ("c", serialize (frame 1))
      | [_; _] => inl ("c", serialize (frame 2))
      | _ => inr ZMQError
      end
  | PipeRecv =>
      match reverse h with
      | existT ResultReady _ :: existT (PipeSend b2) _ :: existT (PipeSend b1) _ :: _ =>
          run_engine_iter "e" echo b1 b2
      | _ => inr EOFError
      end
  | e' => calm h e'
  end.

Lemma linked_pipe : pipe_to_engine linked "e" echo.
Proof.
  split; try done. intros h b1 b2. cbn [linked]. by rewrite !reverse_snoc.
Qed.

Lemma Any_nonempty (ci : Any) : serialize ci = "" -> ci = default_Any.
Proof.
  intros He. pose proof (parse_serialize ci) as Hp. rewrite He in Hp. vm_compute in Hp. done.
Qed.

(** The server starts, the client registers and sends its inputs, and its
    consumer hands them over. *)
Definition local_frames : list (action (St := World) (E := server_sig)) :=
  [ Spawn (Zmq.launch (mkListen (Port 9099) None false)); Spawn (Zmq.client_handler 9); Tick 0; Tick 1; Tick 1; Tick 1; Tick 1;
    Spawn (Zmq.consumer local_send_to_engine "c" 9);
    Tick 2; Tick 2; Tick 2; Tick 2; Tick 2 ].

Definition after_local_frames : pool World server_sig :=
  (play linked (initial_local 2 5 "e") local_frames).1.

Lemma after_local_frames_reachable : reachable (local_task "e") (initial_local 2 5 "e") after_local_frames.
Proof.
  apply play_reachable.
  repeat (apply Forall_cons; split); try exact I; try apply Forall_nil_2; constructor.
Qed.

Lemma after_local_frames_live : clients_live (p_state after_local_frames).
Proof.
  destruct (reachable_tokens (local_task "e") (initial_local 2 5 "e") after_local_frames) as [HI _];
    [apply local_task_ok|apply fresh_inv|apply after_local_frames_reachable|].
  intros a cid Ha. destruct (ti_clients _ _ HI _ _ Ha) as (c & -> & _). eauto.
Qed.

(** The same client over WebSocket: "c" has the connection 4 and a lock for its
    writes. *)
Definition rewire (s : World) : World :=
  upd_w_write_locks (fun _ => [("c", 0%nat)])
    (upd_w_client_store (map (fun c => mkClient (cl_owner c) (cl_tokens_for_producer c) (cl_inputs c) 4
                                         (cl_client_info c))) s).
Definition over_websocket : World := rewire (p_state after_local_frames).

Lemma rewire_live s : clients_live s -> clients_live (rewire s).
Proof.
  intros Hl a cid Ha. destruct (Hl a cid Ha) as [c Hc]. unfold rewire. simpl.
  rewrite list_lookup_fmap, Hc. by eauto.
Qed.

Lemma over_websocket_live : clients_live over_websocket.
Proof. exact (rewire_live _ after_local_frames_live). Qed.
End LocalDemo.

Import Concrete.

(** The client has spent its two tokens, and both inputs wait. *)
Lemma local_server_within_bounds_witness :
  let s := p_state LocalDemo.after_local_frames in
  length (lo_queue (w_local s)) = 2%nat /\ Z.of_nat (length (lo_queue (w_local s))) <= 5 /\
  exists cl, w_client_store s !! 0%nat = Some cl /\ (cl_tokens_for_producer cl).["p"] = Some 0 /\
    outstanding "c" "p" s = 2 /\ 0 + outstanding (cl_owner cl) "p" s <= 2.
Proof.
  destruct (local_server_within_bounds 2 5 "e" LocalDemo.after_local_frames
              LocalDemo.after_local_frames_reachable) as [Hq Ht].
  split; [vm_compute; reflexivity|]. split; [apply Hq; lia|].
  eexists. split; [vm_compute; reflexivity|]. split; [reflexivity|].
  split; [vm_compute; reflexivity|]. eapply Ht with (cid := 0%nat).
  - vm_compute. apply NoDup_singleton.
  - vm_compute. reflexivity.
  - reflexivity.
Defined.

