(* ===== verification/ServerLaunch.v ===== *)
(** * Running a server

    How the server process is started and shut down: [ServerRunner.run_async]
    and [_Server.launch_async] of
    [server/src/gabriel_server/network_engine/server_runner.py], and
    [LocalEngine.run_async] and [_LocalServer.launch_async] of
    [server/src/gabriel_server/local_engine.py].  The client transports are the
    coroutines of [GrpcServer], [WebsocketServer] and [ZeroMQServer]. *)

From S2P Require Import Prelude Coro Tasks TaskLogic SessionLogic Resources.
From S2P Require Import Protocol Config ServerState ResultManager GabrielServer.
From S2P Require Import GrpcServer WebsocketServer ZeroMQServer LocalServer TokenSafety Instances.

(** An awaited call of the server that is cancelled raises. *)
#[export] Instance server_interrupt : Interrupt server_sig := fun e : sev =>
  match e return option (sresp e) with
  | PerfCounter | MetricCall _ | LockRelease _ | CreateTask _ | SockClose => None
  | GrpcAbort _ => Some CancelledError
  | ZmqRecv | PipeRecv => Some (inr CancelledError)
  | _ => Some (inr CancelledError)
  end.

Abbreviation ssup A := (prog World (task_sig World server_sig) A).

Definition EngineServerStart_ : srv unit :=
  (call (E := server_sig) EngineServerStart : srv (unit + exn)) ≫= raise.
Definition EngineServerStop_ : srv unit :=
  (call (E := server_sig) EngineServerStop : srv (unit + exn)) ≫= raise.
Definition MetricsStart_ (port : Z) : srv unit :=
  (call (E := server_sig) (MetricsStart port) : srv (unit + exn)) ≫= raise.
Definition MetricsStop_ : srv unit :=
  (call (E := server_sig) MetricsStop : srv (unit + exn)) ≫= raise.
Definition ProcessStart_ : srv unit :=
  (call (E := server_sig) ProcessStart : srv (unit + exn)) ≫= raise.
Definition ProcessTerminate_ : srv unit :=
  (call (E := server_sig) ProcessTerminate : srv (unit + exn)) ≫= raise.
Definition ProcessJoin_ : srv unit :=
  (call (E := server_sig) ProcessJoin : srv (unit + exn)) ≫= raise.

(** ** The arguments *)

(** [server_runner.Transport] *)
Inductive ClientTransport : Type := ZEROMQ | WEBSOCKET | GRPC.

#[export] Instance ClientTransport_eq_dec : EqDecision ClientTransport.
Proof. solve_decision. Defined.

(** The attributes of [ServerRunner]. *)
Record ServerRunner := mkServerRunner {
  sr_client_endpoint : endpoint;
  sr_engine_endpoint : endpoint;
  sr_num_tokens : Z;
  sr_input_queue_maxsize : Z;
  sr_message_max_size : option Z;
  sr_client_transport : ClientTransport;
  sr_prometheus_port : Z;
  sr_use_client_ipc : bool;
  sr_use_engine_ipc : bool;
  sr_tls : TlsPaths;
  sr_http2_stream_window_bytes : option Z;
}.

(** The options of [main.py] that do not decide the endpoints, with their
    defaults. *)
Record options := mkOptions {
  o_tokens : Z;
  o_queue : Z;
  o_transport : ClientTransport;
  o_prometheus_port : Z;
  o_tls : TlsPaths;
  o_http2_stream_window_bytes : option Z;
}.

Definition default_options : options :=
  mkOptions DEFAULT_NUM_TOKENS INPUT_QUEUE_MAXLEN GRPC 8000 no_tls None.

(** [main], up to the call of [server_runner.run()] *)
Definition main (a : args) (o : options) : ServerRunner + exn :=
  match main_endpoints a with
  | inr x => inr x
  | inl ((client_endpoint, use_client_ipc), (engine_endpoint, use_engine_ipc)) =>
      inl (mkServerRunner client_endpoint engine_endpoint (o_tokens o) (o_queue o) None
             (o_transport o) (o_prometheus_port o) use_client_ipc use_engine_ipc
             (o_tls o) (o_http2_stream_window_bytes o))
  end.

(** [_Server.__init__]: the state it leaves, with that of the client transport it
    chooses. *)
Definition new_server (r : ServerRunner) : World :=
  initial_world (sr_num_tokens r) (sr_input_queue_maxsize r).

Definition ENGINE_KEEPALIVE_MIN_PING_INTERVAL_MS : Z := 5000.
Definition ENGINE_KEEPALIVE_TIME_MS : Z := 10000.
Definition ENGINE_KEEPALIVE_TIMEOUT_MS : Z := 5000.

(** The options of the engine-facing server. *)
Definition engine_server_options (message_max_size : option Z) : list (string * Z) :=
  [("grpc.http2.min_ping_interval_without_data_ms", ENGINE_KEEPALIVE_MIN_PING_INTERVAL_MS);
   ("grpc.http2.max_pings_without_data", 0);
   ("grpc.keepalive_time_ms", ENGINE_KEEPALIVE_TIME_MS);
   ("grpc.keepalive_timeout_ms", ENGINE_KEEPALIVE_TIMEOUT_MS);
   ("grpc.keepalive_permit_without_calls", 1)]
  ++ from_option (fun n => [("grpc.max_send_message_length", n);
                            ("grpc.max_receive_message_length", n)]) [] message_max_size.

(** What the constructor of the client transport does outside of the process: the
    ZeroMQ server opens a context and a socket, which can raise; the other two
    set attributes only. *)
Definition construct_transport (t : ClientTransport) : srv unit :=
  match t with ZEROMQ => SockOpen_ | WEBSOCKET | GRPC => Ret tt end.

(** ** The server runner *)

(** [task.done()] *)
Definition task_done (t : nat) : ssup bool :=
  call (E := task_sig World server_sig) (TDone t).

Definition task_cancel (t : nat) : ssup unit :=
  call (E := task_sig World server_sig) (TCancel t).

(** [await self.server.wait_for_start()] *)
Definition wait_for_start : srv unit :=
  ((call (E := server_sig) StartWait : srv (unit + exn)) ≫= raise) ;;
  started ← gets w_start_event;
  if started : bool then Ret tt else Throw NotReady.

Fixpoint log_loop (fuel : nat) : srv unit :=
  running ← gets w_is_running;
  if running : bool then
    match fuel with
    | O => Throw NotReady
    | S fuel' =>
        ((call (E := server_sig) Sleep : srv (unit + exn)) ≫= raise) ;;
        log_loop fuel'
    end
  else Ret tt.

(** [log_connected_engines], for at most [fuel] log lines *)
Definition log_connected_engines (fuel : nat) : srv unit :=
  wait_for_start ;; log_loop fuel.

Section server.
Context `{!PyEnv}.
Variable read_file : string -> bytes + exn.

(** [self.server.launch_async(...)], of the transport that was chosen. *)
Definition client_server_launch (r : ServerRunner) : srv unit :=
  let li := mkListen (sr_client_endpoint r) (sr_message_max_size r) (sr_use_client_ipc r) in
  match sr_client_transport r with
  | ZEROMQ => Zmq.launch li
  | WEBSOCKET => Ws.launch li
  | GRPC => Grpc.launch read_file (sr_tls r) (sr_http2_stream_window_bytes r) li
  end.

(** The [try] statement of [_Server.launch_async]: a cancellation of the
    [gather] has already reached the tasks; after any other exception, those
    that are not done are cancelled.  Both wait for the end of all tasks. *)
Definition await_tasks (tasks : list nat) : ssup unit :=
  try_except (gather tasks)
    (fun x => match x with
              | CancelledError => gather_all tasks ;; Throw x
              | _ =>
                  for_each tasks (fun t =>
                    done ← task_done t; if done : bool then Ret tt else task_cancel t) ;;
                  gather_all tasks ;;
                  Throw x
              end).

(** [_Server.launch_async] *)
Definition server_launch_async (r : ServerRunner) (fuel : nat) : ssup unit :=
  let options := engine_server_options (sr_message_max_size r) in
  let target := grpc_target (sr_engine_endpoint r) (sr_use_engine_ipc r) in
  credentials ← lift (raise (build_server_credentials read_file (tls_cert (sr_tls r))
                               (tls_key (sr_tls r)) (tls_client_ca_cert (sr_tls r))));
  lift (BindPort_ options target (bool_decide (credentials <> None))) ;;
  lift EngineServerStart_ ;;
  server_task ← create_task (client_server_launch r);
  log_engines_task ← create_task (log_connected_engines fuel);
  try_finally (await_tasks [log_engines_task; server_task]) (lift EngineServerStop_).

(** [ServerRunner.run_async]; the constructor runs before the [try]. *)
Definition server_run_async (r : ServerRunner) (fuel : nat) : ssup unit :=
  lift (MetricsStart_ (sr_prometheus_port r)) ;;
  lift (construct_transport (sr_client_transport r)) ;;
  Put (new_server r) (Ret tt) ;;
  try_finally (server_launch_async r fuel) (lift MetricsStop_).
End server.

(** ** The local engine *)

(** The attributes of [LocalEngine]. *)
Record LocalEngine := mkLocalEngine {
  le_input_queue_maxsize : Z;
  le_port : Z;
  le_num_tokens : Z;
  le_engine_id : string;
  le_message_max_size : option Z;
  le_use_zeromq : bool;
  le_ipc_path : option string;
}.

Section local.
Context `{!PyEnv, !Codec ToClient, !Codec FromClient, !Codec Any, !Codec Result}.

(** [port_or_path] and [use_ipc], as [LocalEngine.run_async] passes them. *)
Definition local_listen (l : LocalEngine) : Listen :=
  mkListen (if truthy_str (le_ipc_path l) then Path (default "" (le_ipc_path l)) else Port (le_port l))
    (le_message_max_size l) (bool_decide (le_ipc_path l <> None)).

Definition local_transport (l : LocalEngine) : Transport :=
  if le_use_zeromq l then Zmq.zmq_transport else Ws.ws_transport.

(** [_LocalServer.launch_async] *)
Definition local_launch_async (l : LocalEngine) (fuel : nat) : ssup unit :=
  comm_task ← create_task (@engine_comm _ _ _ _ (local_transport l) (le_engine_id l) fuel);
  server_task ← create_task (if le_use_zeromq l then Zmq.launch (local_listen l)
                             else Ws.launch (local_listen l));
  gather [comm_task; server_task].

(** [LocalEngine.run_async] *)
Definition local_run_async (l : LocalEngine) (fuel : nat) : ssup unit :=
  lift (construct_transport (if le_use_zeromq l then ZEROMQ else WEBSOCKET)) ;;
  Put (initial_local (le_num_tokens l) (le_input_queue_maxsize l) (le_engine_id l)) (Ret tt) ;;
  lift ProcessStart_ ;;
  try_except (local_launch_async l fuel)
    (fun x => match x with
              | CancelledError | KeyboardInterrupt =>
                  lift ProcessTerminate_ ;; lift ProcessJoin_ ;; Throw x
              | _ => Throw x
              end) ;;
  Throw (PyException "Server stopped").
End local.

(** ** Shutdown *)

Section shutdown.
Context `{!PyEnv}.
Variable read_file : string -> bytes + exn.

(** Nothing is required of the state, which the streams of clients and
    engines change while the server runs. *)
Definition any_state (_ : World) : Prop := True.
Definition any_change (_ _ : World) : Prop := True.

#[local] Instance any_change_preorder : PreOrder any_change.
Proof. by split. Qed.

Definition any_exn (_ : exn) : bool := true.

Abbreviation lsafe p := (tsafe (E := server_sig) any_state any_change false (own_calls any_exn) p).

Lemma safe_any {A} (p : srv A) Q s0 s :
  (forall o s0 s, Q o s0 s : Prop) -> safe (E := server_sig) any_state any_change p Q s0 s.
Proof.
  intros HQ. revert s0 s. induction p as [| | | |e k IH]; simpl; intros; auto.
  destruct (ssuspends e); [by split_and!|auto].
Qed.

Lemma task_any p : task_safe (E := server_sig) any_state any_change false p.
Proof. split; [|done]. intros s _. apply safe_any. intros. split; done. Qed.

Lemma lift_any {A} (p : srv A) s0 c :
  calm any_exn c -> lsafe (lift p) (fun _ s0' c' => evolves false c c' /\ calm any_exn c') s0 c.
Proof.
  intros Hc. eapply tsafe_mono;
    [|eapply (lift_safe (E := server_sig) any_state any_change false any_exn _ (fun _ _ _ => True));
      [by apply safe_any|done]].
  intros o s1 c1 (_ & He & Hc1). by split.
Qed.

(** [gather_all] returns when all the tasks are done. *)
Lemma gather_all_any ts s0 c :
  lsafe (gather_all ts) (fun _ s0' c' => evolves false c c' /\ all_done ts c') s0 c.
Proof.
  cbn. split_and!; [done|done|done|]. intros c' r (He & _ & _) [Hd].
  assert (evolves false c (set_cancel false c')) by (etransitivity; [exact He|apply evolves_set_cancel]).
  by destruct (k_cancel c').
Qed.

(** [for task in tasks: if not task.done(): task.cancel()] *)
Lemma cancel_running_any ts s0 c :
  lsafe (for_each ts (fun t => done ← task_done t; if done : bool then Ret tt else task_cancel t))
    (fun o s0' c' => o = inl tt /\ evolves false c c') s0 c.
Proof.
  revert c. induction ts as [|t ts IH]; intros c; [by split|].
  apply tsafe_bind. cbn -[for_each cancel]. destruct (is_done t c); cbn -[for_each cancel].
  - apply IH.
  - eapply tsafe_mono; [|apply IH]. intros o s1 c1 [-> He]. split; [done|].
    etransitivity; [apply evolves_cancel|exact He].
Qed.

(** Whatever way [await_tasks] ends, its tasks are done. *)
Lemma await_tasks_any ts s0 c :
  lsafe (await_tasks ts) (fun _ s0' c' => evolves false c c' /\ all_done ts c') s0 c.
Proof.
  unfold await_tasks. apply tsafe_try_except.
  eapply tsafe_mono; [|by apply (tsafe_gather any_state any_change false (own_calls any_exn))].
  intros [[]|x] s1 c1 (-> & _ & He & Hx); [by destruct Hx|].
  assert (forall s c2, evolves false c1 c2 ->
    lsafe (gather_all ts ≫= fun _ => Throw x : ssup unit)
      (fun _ s0' c' => evolves false c c' /\ all_done ts c') s c2) as Hg.
  { intros s c2 He2. apply tsafe_bind. eapply tsafe_mono; [|apply gather_all_any].
    intros o s3 c3 [He3 Hd]. assert (evolves false c c3) by (by do 2 (etransitivity; [eassumption|])).
    by destruct o. }
  assert (lsafe (for_each ts (fun t => done ← task_done t; if done : bool then Ret tt else task_cancel t)
                 ≫= fun _ => gather_all ts ≫= fun _ => Throw x : ssup unit)
            (fun _ s0' c' => evolves false c c' /\ all_done ts c') (k_state c1) c1) as Hcancel.
  { apply tsafe_bind. eapply tsafe_mono; [|apply cancel_running_any].
    intros o s2 c2 [-> He2]. by apply Hg. }
  destruct x; try exact Hcancel. by apply Hg.
Qed.

(** The tasks of a supervisor that has ended or waits for something else are
    done. *)
Abbreviation quiet := (fun (_ : unit + exn) (_ : World) (c : tasks World server_sig) => calm any_exn c).

Lemma server_launch_any r fuel s0 c :
  k_tasks c = [] -> lsafe (server_launch_async read_file r fuel) quiet s0 c.
Proof.
  intros Hn. unfold server_launch_async.
  assert (forall (p : srv unit) (k : ssup unit) s c, k_tasks c = [] ->
    (forall s c, k_tasks c = [] -> lsafe k quiet s c) -> lsafe (lift p ;; k) quiet s c) as Hstep.
  { intros p k s c0 H0 Hk. apply tsafe_bind.
    eapply tsafe_mono; [|apply lift_any; by apply calm_nil].
    intros [[]|x] s1 c1 [He Hc1]; [|done]. apply Hk. by eapply nil_evolves. }
  apply tsafe_bind. destruct (build_server_credentials _ _ _ _) as [cr|x]; [|by apply calm_nil].
  apply Hstep; [done|]. clear s0 c Hn. intros s0 c Hn. apply Hstep; [done|].
  clear s0 c Hn. intros s0 c Hn. cbn -[try_finally await_tasks lift]. split; [apply task_any|].
  cbn -[try_finally await_tasks lift]. split; [apply task_any|]. rewrite Hn. simpl length.
  apply tsafe_try_finally. eapply tsafe_mono; [|apply await_tasks_any].
  intros o s1 c1 [He Hd].
  assert (calm any_exn c1) as Hc1.
  { eapply covers_done; [|exact He|exact Hd]. apply covers_all. simpl. rewrite Hn. simpl.
    intros t Ht. assert (t = 0 \/ t = 1)%nat as [->| ->] by lia; set_solver. }
  eapply tsafe_mono; [|by apply lift_any]. intros [[]|x] s2 c2 [_ H2]; by destruct o.
Qed.

Lemma server_run_any r fuel s0 c :
  k_tasks c = [] -> lsafe (server_run_async read_file r fuel) quiet s0 c.
Proof.
  intros Hn. unfold server_run_async. apply tsafe_bind.
  eapply tsafe_mono; [|apply lift_any; by apply calm_nil].
  intros [[]|x] s1 c1 [He Hc1]; [|done]. apply (nil_evolves _ _ _ He) in Hn. clear He Hc1 c. rename c1 into c.
  apply tsafe_bind. eapply tsafe_mono; [|apply lift_any; by apply calm_nil].
  intros [[]|x] s2 c1 [He Hc1]; [|done]. apply tsafe_bind. cbn -[try_finally server_launch_async lift].
  apply tsafe_try_finally. eapply tsafe_mono; [|apply server_launch_any; exact (nil_evolves _ _ _ He Hn)].
  intros o s3 c2 Hc2. eapply tsafe_mono; [|by apply lift_any].
  intros [[]|x] s4 c3 [_ H3]; by destruct o.
Qed.

(** What else happens in the process: the streams of clients and engines may
    change its state in any way. *)
Definition any_coroutine (_ : srv unit) : Prop := True.

(** C30. The server shuts down in order: whenever [ServerRunner.run_async] has
    ended, or awaits a call of its own such as the stop of the engine-facing
    server or of the metrics endpoint, the tasks of the client transport and of
    the log are done; whatever they do, wherever the runner is cancelled, and
    whatever clients and engines do meanwhile. *)
Theorem server_tasks_end_first r fuel s m c t :
  sys_reachable any_coroutine s (server_run_async read_file r fuel) (m, c) ->
  on_its_own m = true -> (t < length (k_tasks c))%nat -> is_done t c = true.
Proof.
  intros Hy Hm Ht.
  eapply (supervised_ok (E := server_sig) any_state any_change false any_exn _ (fun _ _ => True)) in Hy; auto.
  - eapply calm_done; [|by intros ???|done].
    by apply (sys_ok_calm (E := server_sig) any_state any_change false any_exn _ m _ (fun o c H => proj1 H) Hy).
  - intros p _ s0 s1 _. by apply safe_any.
  - done.
  - eapply tsafe_mono; [|by apply server_run_any]. intros o s1 c1 H1. by split_and!.
Qed.
End shutdown.

(** ** What is held *)

(** What became of a resource: it is not held, it is held, or the call that
    was to acquire it raised. *)
Inductive standing := Free | Held | Refused.

(** The resources of the process outside of it.  [run_async] has the metrics
    endpoint and the engine-facing server, with its port; [launch_async] of a
    transport has the client-facing server, with its port, or the socket of the
    ZeroMQ server, which the constructor opens; a local engine has a process. *)
Record held := mkHeld {
  h_metrics : standing;
  h_port : standing;
  h_server : standing;
  h_socket : standing;
  h_process : standing;
}.

Definition nothing : held := mkHeld Free Free Free Free Free.

Definition acquired (r : unit + exn) : standing := match r with inl _ => Held | inr _ => Refused end.

(** Stopping a server gives up its port, closing a socket what it is bound to;
    the stop of a server is the last that can be done, whatever it raises. *)
Definition holds (e : ev server_sig) : resp server_sig e -> held -> held :=
  match e return sresp e -> held -> held with
  | MetricsStart _ => fun r h => mkHeld (acquired r) (h_port h) (h_server h) (h_socket h) (h_process h)
  | MetricsStop => fun _ h => mkHeld Free (h_port h) (h_server h) (h_socket h) (h_process h)
  | BindPort _ _ _ | SockBind _ => fun r h =>
      mkHeld (h_metrics h) (acquired r) (h_server h) (h_socket h) (h_process h)
  | EngineServerStart | ServerStart _ => fun r h =>
      mkHeld (h_metrics h) (h_port h) (acquired r) (h_socket h) (h_process h)
  | EngineServerStop | ServerStop => fun _ h =>
      mkHeld (h_metrics h) Free Free (h_socket h) (h_process h)
  | SockOpen => fun r h => mkHeld (h_metrics h) (h_port h) (h_server h) (acquired r) (h_process h)
  | SockClose => fun _ h => mkHeld (h_metrics h) Free (h_server h) Free (h_process h)
  | ProcessStart => fun r h => mkHeld (h_metrics h) (h_port h) (h_server h) (h_socket h) (acquired r)
  | ProcessTerminate => fun _ h => mkHeld (h_metrics h) (h_port h) (h_server h) (h_socket h) Free
  | _ => fun _ h => h
  end.

(** What [run_async] leaves: the metrics endpoint is up exactly if the constructor
    raised after it was started; the engine-facing server is down, and its port
    is taken exactly if the server did not start after the port was bound. *)
Definition run_leaves (h : held) : Prop :=
  (h_metrics h = Held <-> h_socket h = Refused) /\
  h_server h <> Held /\
  (h_port h = Held <-> h_server h = Refused).

(** What [launch_async] of a transport leaves.  A gRPC or WebSocket server is
    down; the port of the former is taken exactly if the server did not start
    after the port was bound.  A ZeroMQ socket is not bound, and is open exactly
    if binding it raised. *)
Definition launch_leaves (t : ClientTransport) (h : held) : Prop :=
  match t with
  | GRPC => h_server h <> Held /\ (h_port h = Held <-> h_server h = Refused)
  | WEBSOCKET => h_server h <> Held
  | ZEROMQ => h_port h <> Held /\ (h_socket h = Held <-> h_port h = Refused)
  end.

Section release.
Context `{!PyEnv}.
Variable read_file : string -> bytes + exn.

Lemma sinks_cleanup_uninvolved : uninvolved holds sinks_cleanup.
Proof.
  apply uninvolved_bind; [done|]. intros sinks. generalize (size sinks) (set_iter sinks).
  intros n todo. induction todo as [|k todo IH]; intros s; simpl; (destruct (decide _); [|done]); [done|].
  split; [done|]. intros [[]|x]; [exact IH|done].
Qed.

(** After the start, [body] runs, and the stop is in a [finally] clause. *)
Lemma along_guarded (body stop : srv unit) (P : held -> Prop) h :
  uninvolved holds body -> along holds stop (fun _ h' => P h') h ->
  along holds (try_finally body stop) (fun _ h' => P h') h.
Proof.
  intros Hb Hs. apply along_try_finally, along_uninvolved; [done|]. intros o.
  eapply along_mono; [|exact Hs]. by intros [] ?.
Qed.

(** The state of the resources when a transport is launched. *)
Definition launchable (t : ClientTransport) : held :=
  mkHeld Free Free Free (match t with ZEROMQ => Held | _ => Free end) Free.

Lemma releases_grpc tls n li :
  along holds (Grpc.launch read_file tls n li) (fun _ h => launch_leaves GRPC h) (launchable GRPC).
Proof.
  unfold Grpc.launch, Grpc.start_grpc_server. apply along_bind, along_bind.
  destruct (build_server_credentials _ _ _ _) as [cr|x]; [|by repeat split]. apply along_bind.
  intros [[]|x]; [|by repeat split]. intros [[]|x]; [|by repeat split].
  apply along_bind, along_modify. intros s2.
  apply (along_guarded _ _ (launch_leaves GRPC)); [split; [done|]; by intros [[]|]|].
  intros [[]|x]; [|by repeat split].
  intros s3. apply along_uninvolved; [apply sinks_cleanup_uninvolved|]. by repeat split.
Qed.

Lemma releases_ws li :
  along holds (Ws.launch li) (fun _ h => launch_leaves WEBSOCKET h) (launchable WEBSOCKET).
Proof.
  unfold Ws.launch. apply along_bind. intros [[]|x]; [|done]. apply along_modify.
  apply (along_guarded _ _ (launch_leaves WEBSOCKET)); [intros s2; split; [done|]; by intros [[]|]|].
  by intros s2 [[]|x].
Qed.

Lemma releases_zmq li :
  along holds (Zmq.launch li) (fun _ h => launch_leaves ZEROMQ h) (launchable ZEROMQ).
Proof.
  unfold Zmq.launch. apply along_bind. intros [[]|x]; [|by repeat split]. apply along_modify, along_modify.
  apply (along_guarded _ _ (launch_leaves ZEROMQ)).
  - apply uninvolved_try_except; [split; [done|]; by intros [[]|]|]. intros []; try done.
    intros s3. split; [done|]. by intros [[]|].
  - intros a [[]|x]; [|by repeat split].
    apply along_uninvolved; [apply sinks_cleanup_uninvolved|]. by repeat split.
Qed.

(** A supervisor waits for its tasks. *)
Lemma await_tasks_uninvolved ts : uninvolved (own_next holds) (await_tasks ts).
Proof.
  assert (forall ts x, uninvolved (own_next holds) (gather_all ts ≫= fun _ => Throw x : ssup unit)) as Hg.
  { intros ts' x. split; [done|]. by intros [[]|]. }
  assert (forall x, uninvolved (own_next holds)
    (for_each ts (fun t => done ← task_done t; if done : bool then Ret tt else task_cancel t)
     ≫= fun _ => gather_all ts ≫= fun _ => Throw x : ssup unit)) as Hc.
  { intros x. apply uninvolved_bind; [|by intros _]. apply uninvolved_for_each. intros t.
    split; [done|]. by intros []. }
  apply uninvolved_try_except; [split; [done|]; by intros [[]|]|].
  intros x. destruct x; first [apply Hg | apply Hc].
Qed.

(** From the start of [launch_async] to its end: the metrics endpoint is left to
    the caller, and the socket to the transport. *)
Lemma server_launch_releases r fuel h :
  h_port h = Free -> h_server h = Free ->
  along (own_next holds) (server_launch_async read_file r fuel)
    (fun _ h' => h_metrics h' = h_metrics h /\ h_socket h' = h_socket h /\ h_server h' <> Held /\
                 (h_port h' = Held <-> h_server h' = Refused)) h.
Proof.
  intros Hp Hs. unfold server_launch_async. apply along_bind.
  destruct (build_server_credentials _ _ _ _) as [cr|x]; [|cbn; rewrite Hp, Hs; by repeat split].
  intros [[]|x]; [|cbn; rewrite Hs; by repeat split]. intros [[]|x]; [|by repeat split]. intros t1 t2.
  apply along_try_finally, along_uninvolved; [apply await_tasks_uninvolved|].
  intros o [[]|x]; destruct o; by repeat split.
Qed.

End release.
Section local_process.
Context `{!PyEnv, !Codec ToClient, !Codec FromClient, !Codec Any, !Codec Result}.

(** [LocalEngine.run_async] never returns; when it is cancelled or
    interrupted after it was started, the process of the engine has been
    terminated. *)
Theorem cancelled_local_engine_ends_its_process (l : LocalEngine) (fuel : nat) :
  along (own_next holds) (local_run_async l fuel)
    (fun o h => match o with
                | inl _ => False
                | inr CancelledError | inr KeyboardInterrupt => h_process h <> Held
                | inr _ => True
                end) nothing.
Proof.
  unfold local_run_async.
  assert (forall k, along (own_next holds) (lift ProcessStart_ ;;
    try_except (local_launch_async l fuel)
      (fun x => match x with
                | CancelledError | KeyboardInterrupt =>
                    lift ProcessTerminate_ ;; lift ProcessJoin_ ;; Throw x
                | _ => Throw x
                end) ;;
    Throw (PyException "Server stopped") : ssup unit)
    (fun o h => match o with
                | inl _ => False
                | inr CancelledError | inr KeyboardInterrupt => h_process h <> Held
                | inr _ => True
                end) (mkHeld Free Free Free k Free)) as Hrest.
  { intros k. apply along_bind. intros [[]|x]; [|by destruct x]. apply along_bind, along_try_except.
    assert (forall x, along (own_next holds) (lift ProcessTerminate_ ;; lift ProcessJoin_ ;; Throw x : ssup unit)
      (fun o h => match o with inl _ => False | inr _ => h_process h = Free end)
      (mkHeld Free Free Free k Held)) as Hstop.
    { intros x [[]|]; [|done]. intros [[]|]; done. }
    apply along_uninvolved; [do 2 (split; [done|intros ?]); split; [done|]; by intros [[]|]|].
    intros [[]|x]; [done|].
    destruct x; try done; (eapply along_mono; [|apply Hstop]); intros [[]|y] h Hy; simpl in *; try done;
      destruct y; by rewrite ?Hy. }
  destruct (le_use_zeromq l); [intros [[]|x]; [apply Hrest|by destruct x]|apply (Hrest Free)].
Qed.
End local_process.

(** ** Concrete runs *)

Section runs.
Import Concrete.

(** Everything succeeds, except that the address of the client-facing server
    is in use. *)
Definition port_in_use (h : history server_sig) (e : sev) : sresp e :=
  match e return sresp e with
  | ServerStart _ => inr (RuntimeError "address already in use")
  | e => Concrete.calm h e
  end.

Definition sample_runner : ServerRunner :=
  mkServerRunner (Port 9099) (Port 5555) 2 60 None WEBSOCKET 8000 false false no_tls None.

(** The client transport fails to start, the log task is cancelled, and the
    engine-facing server and the metrics endpoint are stopped. *)
Definition failed_start : ssup unit * tasks World server_sig * history server_sig :=
  sys_play port_in_use (new_server sample_runner)
    (server_run_async (fun p => inl p) sample_runner 3)
    (replicate 9 SMain ++ [STask 0] ++ replicate 12 SMain ++ [STask 1] ++ replicate 6 SMain).

Lemma server_tasks_end_first_witness :
  failed_start.1.1 = Throw (RuntimeError "address already in use") /\
  exception_of 1 failed_start.1.2 = Some CancelledError /\ is_done 1 failed_start.1.2 = true.
Proof.
  split; [vm_compute; reflexivity|]. split; [vm_compute; reflexivity|].
  apply (server_tasks_end_first (fun p => inl p) sample_runner 3 (new_server sample_runner)
           failed_start.1.1 failed_start.1.2 1).
  - rewrite <- surjective_pairing. apply sys_play_reachable.
  - vm_compute. reflexivity.
  - vm_compute. lia.
Defined.

Definition sample_local : LocalEngine := mkLocalEngine 60 9098 2 "local_engine" None false None.

(** A local engine whose server fails to start. *)
Definition failed_local : ssup unit * tasks World server_sig * history server_sig :=
  sys_play port_in_use (initial_local 2 60 "local_engine") (local_run_async sample_local 3)
    (replicate 5 SMain ++ [STask 1] ++ replicate 3 SMain).

(** When the server of a local engine fails, [run_async] raises with the
    engine's process still running (it was started and never terminated) and
    with the task that talks to the engine still pending. *)
Theorem failed_local_server_leaves_its_process :
  sys_reachable any_coroutine (initial_local 2 60 "local_engine") (local_run_async sample_local 3)
    failed_local.1 /\
  failed_local.1.1 = Throw (RuntimeError "address already in use") /\
  foldl (fun h er => holds (projT1 er) (projT2 er) h) nothing failed_local.2
    = mkHeld Free Free Refused Free Held /\
  is_done 0 failed_local.1.2 = false.
Proof. split; [apply sys_play_reachable|]. split_and!; vm_compute; reflexivity. Qed.

(** The task of the server is cancelled while it serves. *)
Definition cancelled_server (h : history server_sig) (e : sev) : sresp e :=
  match e return sresp e with
  | ServeForever => inr CancelledError
  | e => Concrete.calm h e
  end.

(** The sinks a transport cleans up when it is shut down. *)
Definition cleaned_up (p : srv unit) (sinks : gset nat) : list nat :=
  omap (fun er => match projT1 er with SinkCleanup k => Some k | _ => None end)
    (run (E := server_sig) cancelled_server p (upd_w_sinks (fun _ => sinks) (new_server sample_runner)) []).2.

(** The gRPC and ZeroMQ servers clean up the result sinks when they shut
    down; the WebSocket server does not. *)
Theorem websocket_server_keeps_its_sinks :
  let li := mkListen (Port 9099) None false in
  cleaned_up (Grpc.launch (fun p => inl p) no_tls None li) {[7%nat]} = [7%nat] /\
  cleaned_up (Zmq.launch li) {[7%nat]} = [7%nat] /\
  cleaned_up (Ws.launch li) {[7%nat]} = [].
Proof. split_and!; vm_compute; reflexivity. Qed.
End runs.
