(* ===== verification/Construct.v ===== *)
(** * The construction of a server

    The constructors of [server/src/gabriel_server/]: [GabrielServer.__init__]
    and those of its three subclasses, the table of the transports and
    [_Server.__init__], which uses it.  [TokenSafety.initial_world], where every
    run of the server starts, is what they construct. *)

From S2P Require Import Prelude Coro Protocol Config ServerState ServerLaunch TokenInv TokenSafety.

(** [GabrielServer.__init__]; the attributes of the other objects are left. *)
Definition new_gabriel_server (num_tokens_per_producer : Z) (engine_ids : gset string) (w : World) : World :=
  mkWorld (w_engine_workers w) engine_ids (w_producer_infos w) (w_size_for_queues w) (w_workers w)
    num_tokens_per_producer [] (w_client_store w) (w_write_locks w) (w_next_lock w) ∅ false false
    (w_simulate_disconnection w) (w_local w).

(** [GrpcServer.__init__] *)
Definition new_grpc_server (num : Z) (engine_ids : gset string) (w : World) : World :=
  upd_w_write_locks (fun _ => []) (upd_w_is_running (fun _ => false) (new_gabriel_server num engine_ids w)).

(** [WebsocketServer.__init__] *)
Definition new_websocket_server (num : Z) (engine_ids : gset string) (w : World) : World :=
  upd_w_write_locks (fun _ => []) (new_gabriel_server num engine_ids w).

(** [ZeroMQServer.__init__] *)
Definition new_zeromq_server (num : Z) (engine_ids : gset string) (w : World) : World :=
  upd_w_simulate_disconnection (fun _ => false)
    (upd_w_is_running (fun _ => false) (new_gabriel_server num engine_ids w)).

(** [_TRANSPORT_CLASSES] *)
Definition TRANSPORT_CLASSES (t : ClientTransport) : Z -> gset string -> World -> World :=
  match t with
  | ZEROMQ => new_zeromq_server
  | WEBSOCKET => new_websocket_server
  | GRPC => new_grpc_server
  end.

(** [_Server.__init__], for objects [w] of which no attribute is set yet. *)
Definition new_server_state (num size_for_queues : Z) (client_transport : ClientTransport) (w : World) : World :=
  let w := mkWorld [] ∅ [] size_for_queues (w_workers w) (w_num_tokens_per_producer w) (w_clients w)
             (w_client_store w) (w_write_locks w) (w_next_lock w) (w_sinks w) (w_is_running w)
             (w_start_event w) (w_simulate_disconnection w) (w_local w) in
  TRANSPORT_CLASSES client_transport num (w_engine_ids w) w.

(** The memory before the objects are constructed. *)
Definition unset_world : World :=
  mkWorld [] ∅ [] 0 [] 0 [] [] [] 0 ∅ false false false no_local.

(** Whatever the transport, the server of a runner starts in [new_server]: with
    no clients and no engines, its invariant holds. *)
Theorem constructed_server r :
  new_server_state (sr_num_tokens r) (sr_input_queue_maxsize r) (sr_client_transport r) unset_world
    = new_server r /\
  Inv (new_server r).
Proof.
  split; [|apply fresh_inv]. unfold new_server_state. by destruct (sr_client_transport r).
Qed.

(** [GrpcServer.is_running] and [ZeroMQServer.is_running] *)
Definition server_is_running : srv bool := gets w_is_running.

(** [handle_task_result], of [zeromq_server.py]: what the callback of a task
    raises, given how the task has ended. *)
Definition handle_task_result (t : unit + exn) : unit + exn :=
  match t with inr CancelledError => inl tt | _ => t end.
