(* ===== verification/Models.v ===== *)
(** * The tables of the database

    [server/src/gabriel_server/models.py]: the columns of [engine_results].  The
    database is a parameter only in so far as a column of a type holds the values
    of that type: a [String(n)] holds [n] characters, an [Integer] 32 bits and a
    [BigInteger] 64 bits, as in PostgreSQL, which [db.py] connects to. *)

From S2P Require Import Prelude Coro Protocol.

Inductive column_type : Type :=
| Integer
| BigInteger
| StringOf (length : Z)
| DateTime.

Record column := mkColumn {
  col_name : string;
  col_type : column_type;
  col_primary_key : bool;
  col_nullable : bool;
  col_server_default : option string;
}.

(** [EngineResult] *)
Definition EngineResult : list column :=
  [mkColumn "id" Integer true false None;
   mkColumn "engine_id" (StringOf 64) false false None;
   mkColumn "frame_id" Integer false false None;
   mkColumn "bucket" (StringOf 255) false false None;
   mkColumn "object_key" (StringOf 1024) false false None;
   mkColumn "content_type" (StringOf 128) false true None;
   mkColumn "size_bytes" BigInteger false true None;
   mkColumn "created_at" DateTime false false (Some "now")].

Definition EngineResult_tablename : string := "engine_results".
Definition EngineResult_index : string * list string :=
  ("ix_engine_results_engine_frame", ["engine_id"; "frame_id"]).

Inductive value : Type :=
| VNull
| VInt (n : Z)
| VStr (s : string)
| VTime (t : Z).

(** A value fits into a column. *)
Definition fits (c : column) (v : value) : bool :=
  match v, col_type c with
  | VNull, _ => col_nullable c
  | VInt n, Integer => in_int32 n
  | VInt n, BigInteger => in_int64 n
  | VStr s, StringOf n => Z.of_nat (String.length s) <=? n
  | VTime _, DateTime => true
  | _, _ => false
  end.

Definition column_of (name : string) : option column :=
  head (filter (fun c => col_name c = name) EngineResult).

(** The column for frame ids holds those of 32 bits only; the protocol gives
    frame ids 64 bits ([in_int64], which a client checks). *)
Theorem frame_ids_may_not_fit :
  exists c, column_of "frame_id" = Some c /\ (forall n, fits c (VInt n) = in_int32 n) /\
    exists n, in_int64 n = true /\ fits c (VInt n) = false.
Proof.
  eexists. split; [vm_compute; reflexivity|]. split; [done|]. by exists (2 ^ 31).
Qed.

(** The index is on columns of the table, and no two columns have a name. *)
Theorem table_well_formed :
  NoDup (map col_name EngineResult) /\
  Forall (fun n => is_Some (column_of n)) EngineResult_index.2 /\
  length (filter (fun c => col_primary_key c = true) EngineResult) = 1%nat.
Proof.
  split_and!; [|by repeat constructor; eexists|done].
  repeat constructor; cbn; set_solver by done.
Qed.
