(* ===== verification/ClientState.v ===== *)
(** * State of a client process

    The objects of [python-client/src/gabriel_client/]: the client itself, its
    [InputProducer]s (shared with the threads of the application) and its
    [_TokenPool]s (held by the [_tokens] dictionary and by the running producer
    handlers), and the external calls its coroutines make. *)

From S2P Require Import Prelude Coro Protocol.

(** [InputProducer] *)
Record InputProducer := mkInputProducer {
  ip_running : bool;  (* threading.Event *)
  ip_target_engine_ids : gset string;
  ip_producer_name : option string;
  ip_producer_id : string;
}.

(** [_TokenPool]; the semaphore is an [asyncio.BoundedSemaphore] at first, and
    a plain [asyncio.Semaphore] after [reset_tokens]. *)
Record TokenPool := mkTokenPool {
  tp_max_tokens : Z;
  tp_sem_value : Z;
  tp_sem_bounded : bool;
  tp_sem : nat;  (* identity of the semaphore, among those of the pool *)
  tp_producer_id : string;
}.

(** [GabrielClient] with the attributes of its subclasses. *)
Record ClientState := mkClientState {
  c_running : bool;
  c_registered_event : bool;
  c_reregistration_needed : bool;
  c_input_producers : gset nat;
  c_num_tokens_per_producer : option Z;
  c_tokens : dict string nat;
  c_pending_results : dict (string * Z) Z;
  c_client_info : option Any;
  c_engine_ids : option (list string);
  c_connected : bool;
  c_session_id : option string;
  c_pending_heartbeat : bool;
  c_last_heartbeat_time : Z;
  c_schedule_heartbeat : bool;
  c_producer_tasks : gset nat;  (* ZeroMQ producer handlers whose producer_task is set *)
  c_pools : list TokenPool;  (* store of the _TokenPool objects *)
  c_producers : list InputProducer;  (* store of the InputProducer objects *)
}.

(** ** Field updates *)

Definition upd_c_running (g : bool -> bool) (c : ClientState) : ClientState :=
  mkClientState (g (c_running c)) (c_registered_event c) (c_reregistration_needed c) (c_input_producers c) (c_num_tokens_per_producer c) (c_tokens c) (c_pending_results c) (c_client_info c) (c_engine_ids c) (c_connected c) (c_session_id c) (c_pending_heartbeat c) (c_last_heartbeat_time c) (c_schedule_heartbeat c) (c_producer_tasks c) (c_pools c) (c_producers c).
Definition upd_c_registered_event (g : bool -> bool) (c : ClientState) : ClientState :=
  mkClientState (c_running c) (g (c_registered_event c)) (c_reregistration_needed c) (c_input_producers c) (c_num_tokens_per_producer c) (c_tokens c) (c_pending_results c) (c_client_info c) (c_engine_ids c) (c_connected c) (c_session_id c) (c_pending_heartbeat c) (c_last_heartbeat_time c) (c_schedule_heartbeat c) (c_producer_tasks c) (c_pools c) (c_producers c).
Definition upd_c_reregistration_needed (g : bool -> bool) (c : ClientState) : ClientState :=
  mkClientState (c_running c) (c_registered_event c) (g (c_reregistration_needed c)) (c_input_producers c) (c_num_tokens_per_producer c) (c_tokens c) (c_pending_results c) (c_client_info c) (c_engine_ids c) (c_connected c) (c_session_id c) (c_pending_heartbeat c) (c_last_heartbeat_time c) (c_schedule_heartbeat c) (c_producer_tasks c) (c_pools c) (c_producers c).
Definition upd_c_input_producers (g : gset nat -> gset nat) (c : ClientState) : ClientState :=
  mkClientState (c_running c) (c_registered_event c) (c_reregistration_needed c) (g (c_input_producers c)) (c_num_tokens_per_producer c) (c_tokens c) (c_pending_results c) (c_client_info c) (c_engine_ids c) (c_connected c) (c_session_id c) (c_pending_heartbeat c) (c_last_heartbeat_time c) (c_schedule_heartbeat c) (c_producer_tasks c) (c_pools c) (c_producers c).
Definition upd_c_num_tokens_per_producer (g : option Z -> option Z) (c : ClientState) : ClientState :=
  mkClientState (c_running c) (c_registered_event c) (c_reregistration_needed c) (c_input_producers c) (g (c_num_tokens_per_producer c)) (c_tokens c) (c_pending_results c) (c_client_info c) (c_engine_ids c) (c_connected c) (c_session_id c) (c_pending_heartbeat c) (c_last_heartbeat_time c) (c_schedule_heartbeat c) (c_producer_tasks c) (c_pools c) (c_producers c).
Definition upd_c_tokens (g : dict string nat -> dict string nat) (c : ClientState) : ClientState :=
  mkClientState (c_running c) (c_registered_event c) (c_reregistration_needed c) (c_input_producers c) (c_num_tokens_per_producer c) (g (c_tokens c)) (c_pending_results c) (c_client_info c) (c_engine_ids c) (c_connected c) (c_session_id c) (c_pending_heartbeat c) (c_last_heartbeat_time c) (c_schedule_heartbeat c) (c_producer_tasks c) (c_pools c) (c_producers c).
Definition upd_c_pending_results (g : dict (string * Z) Z -> dict (string * Z) Z) (c : ClientState) : ClientState :=
  mkClientState (c_running c) (c_registered_event c) (c_reregistration_needed c) (c_input_producers c) (c_num_tokens_per_producer c) (c_tokens c) (g (c_pending_results c)) (c_client_info c) (c_engine_ids c) (c_connected c) (c_session_id c) (c_pending_heartbeat c) (c_last_heartbeat_time c) (c_schedule_heartbeat c) (c_producer_tasks c) (c_pools c) (c_producers c).
Definition upd_c_client_info (g : option Any -> option Any) (c : ClientState) : ClientState :=
  mkClientState (c_running c) (c_registered_event c) (c_reregistration_needed c) (c_input_producers c) (c_num_tokens_per_producer c) (c_tokens c) (c_pending_results c) (g (c_client_info c)) (c_engine_ids c) (c_connected c) (c_session_id c) (c_pending_heartbeat c) (c_last_heartbeat_time c) (c_schedule_heartbeat c) (c_producer_tasks c) (c_pools c) (c_producers c).
Definition upd_c_engine_ids (g : option (list string) -> option (list string)) (c : ClientState) : ClientState :=
  mkClientState (c_running c) (c_registered_event c) (c_reregistration_needed c) (c_input_producers c) (c_num_tokens_per_producer c) (c_tokens c) (c_pending_results c) (c_client_info c) (g (c_engine_ids c)) (c_connected c) (c_session_id c) (c_pending_heartbeat c) (c_last_heartbeat_time c) (c_schedule_heartbeat c) (c_producer_tasks c) (c_pools c) (c_producers c).
Definition upd_c_connected (g : bool -> bool) (c : ClientState) : ClientState :=
  mkClientState (c_running c) (c_registered_event c) (c_reregistration_needed c) (c_input_producers c) (c_num_tokens_per_producer c) (c_tokens c) (c_pending_results c) (c_client_info c) (c_engine_ids c) (g (c_connected c)) (c_session_id c) (c_pending_heartbeat c) (c_last_heartbeat_time c) (c_schedule_heartbeat c) (c_producer_tasks c) (c_pools c) (c_producers c).
Definition upd_c_session_id (g : option string -> option string) (c : ClientState) : ClientState :=
  mkClientState (c_running c) (c_registered_event c) (c_reregistration_needed c) (c_input_producers c) (c_num_tokens_per_producer c) (c_tokens c) (c_pending_results c) (c_client_info c) (c_engine_ids c) (c_connected c) (g (c_session_id c)) (c_pending_heartbeat c) (c_last_heartbeat_time c) (c_schedule_heartbeat c) (c_producer_tasks c) (c_pools c) (c_producers c).
Definition upd_c_pending_heartbeat (g : bool -> bool) (c : ClientState) : ClientState :=
  mkClientState (c_running c) (c_registered_event c) (c_reregistration_needed c) (c_input_producers c) (c_num_tokens_per_producer c) (c_tokens c) (c_pending_results c) (c_client_info c) (c_engine_ids c) (c_connected c) (c_session_id c) (g (c_pending_heartbeat c)) (c_last_heartbeat_time c) (c_schedule_heartbeat c) (c_producer_tasks c) (c_pools c) (c_producers c).
Definition upd_c_last_heartbeat_time (g : Z -> Z) (c : ClientState) : ClientState :=
  mkClientState (c_running c) (c_registered_event c) (c_reregistration_needed c) (c_input_producers c) (c_num_tokens_per_producer c) (c_tokens c) (c_pending_results c) (c_client_info c) (c_engine_ids c) (c_connected c) (c_session_id c) (c_pending_heartbeat c) (g (c_last_heartbeat_time c)) (c_schedule_heartbeat c) (c_producer_tasks c) (c_pools c) (c_producers c).
Definition upd_c_schedule_heartbeat (g : bool -> bool) (c : ClientState) : ClientState :=
  mkClientState (c_running c) (c_registered_event c) (c_reregistration_needed c) (c_input_producers c) (c_num_tokens_per_producer c) (c_tokens c) (c_pending_results c) (c_client_info c) (c_engine_ids c) (c_connected c) (c_session_id c) (c_pending_heartbeat c) (c_last_heartbeat_time c) (g (c_schedule_heartbeat c)) (c_producer_tasks c) (c_pools c) (c_producers c).
Definition upd_c_producer_tasks (g : gset nat -> gset nat) (c : ClientState) : ClientState :=
  mkClientState (c_running c) (c_registered_event c) (c_reregistration_needed c) (c_input_producers c) (c_num_tokens_per_producer c) (c_tokens c) (c_pending_results c) (c_client_info c) (c_engine_ids c) (c_connected c) (c_session_id c) (c_pending_heartbeat c) (c_last_heartbeat_time c) (c_schedule_heartbeat c) (g (c_producer_tasks c)) (c_pools c) (c_producers c).
Definition upd_c_pools (g : list TokenPool -> list TokenPool) (c : ClientState) : ClientState :=
  mkClientState (c_running c) (c_registered_event c) (c_reregistration_needed c) (c_input_producers c) (c_num_tokens_per_producer c) (c_tokens c) (c_pending_results c) (c_client_info c) (c_engine_ids c) (c_connected c) (c_session_id c) (c_pending_heartbeat c) (c_last_heartbeat_time c) (c_schedule_heartbeat c) (c_producer_tasks c) (g (c_pools c)) (c_producers c).
Definition upd_c_producers (g : list InputProducer -> list InputProducer) (c : ClientState) : ClientState :=
  mkClientState (c_running c) (c_registered_event c) (c_reregistration_needed c) (c_input_producers c) (c_num_tokens_per_producer c) (c_tokens c) (c_pending_results c) (c_client_info c) (c_engine_ids c) (c_connected c) (c_session_id c) (c_pending_heartbeat c) (c_last_heartbeat_time c) (c_schedule_heartbeat c) (c_producer_tasks c) (c_pools c) (g (c_producers c)).

(** ** External calls *)

Inductive cev : Type :=
| CallRead                                    (* [_call.read()], on the control stream *)
| CallWrite (call : nat) (m : FromClient)     (* [call.write(...)] *)
| OpenCall (metadata : list (string * string)) (* [_stub.ClientSession(metadata=...)] *)
| Uuid4                                       (* [str(uuid.uuid4())] *)
| CWsRecv                                     (* [_websocket.recv()] *)
| CWsSend (b : bytes)                         (* [_websocket.send(...)] *)
| SockPoll                                    (* [_sock.poll(...)]: whether a message is there *)
| SockRecv                                    (* [_sock.recv()] *)
| SockSend (b : bytes)                        (* [_sock.send(...)] *)
| SockReconnect                               (* close the socket and connect a new one *)
| WaitRegistered                              (* [wait_for(event.wait(), timeout=...)] *)
| WaitReregistration
| WaitConnected
| WaitHeartbeat
| SemWait (pool : nat)                        (* a waiter of a semaphore *)
| Produce (producer : nat)                    (* the coroutine of the application *)
| WaitForRunning (producer : nat)             (* [producer._wait_for_running()] *)
| ConsumeResult (r : Result)                  (* [self.consumer(result)] *)
| Monotonic                                   (* [time.monotonic()] *)
| WallClock                                   (* [time.time()] *)
| TaskCancel (producer : nat)                 (* [producer_task.cancel()] *)
| YieldLoop                                   (* [asyncio.sleep(0)] *)
| CMetric (name producer_id : string) (v : Z)  (* a Prometheus metric *)
| OpenChannel (secure : bool)                 (* [grpc.aio.secure_channel], [insecure_channel] *)
| CloseChannel                                (* [_channel.close()] *)
| CSleep                                      (* [asyncio.sleep(...)], before reconnecting *)
| WsConnect                                   (* entering [websockets.connect(...)] *)
| WsClose                                     (* leaving it *)
| SockConnect                                 (* [_sock.connect(...)] *)
| SockTerm.                                   (* [_sock.close()] and [_ctx.term()] *)

Definition cresp (e : cev) : Type :=
  match e with
  | CallRead => option ToClient + exn         (* [None]: [grpc.aio.EOF] *)
  | OpenCall _ => nat
  | Uuid4 => string
  | CWsRecv | SockRecv => bytes + exn
  | SockPoll => bool + exn
  | Produce _ => option InputFrame + exn
  | Monotonic | WallClock => Z
  | CloseChannel | CSleep | WsClose => bool   (* [false]: cancelled *)
  | SockReconnect | TaskCancel _ | CMetric _ _ _ | OpenChannel _ | SockTerm => unit
  | _ => unit + exn
  end.

Definition csuspends (e : cev) : bool :=
  match e with
  | OpenCall _ | Uuid4 | SockReconnect | ConsumeResult _ | Monotonic | WallClock | TaskCancel _
  | CMetric _ _ _ | OpenChannel _ | SockConnect | SockTerm => false
  | _ => true
  end.

Definition client_sig : sig := Sig cev cresp csuspends.

(** Coroutines of the client process. *)
Abbreviation clt A := (prog ClientState client_sig A).

Definition ccall (e : cev) : clt (cresp e) := call (E := client_sig) e.

(** ** Object access *)

Definition get_pool (t : nat) : clt TokenPool :=
  gets (fun s => c_pools s !! t) ≫= of_option DanglingReference.

Definition put_pool (t : nat) (p : TokenPool) : clt unit :=
  modify (upd_c_pools (fun l => <[t := p]> l)).

Definition get_input_producer (i : nat) : clt InputProducer :=
  gets (fun s => c_producers s !! i) ≫= of_option DanglingReference.

Definition put_input_producer (i : nat) (p : InputProducer) : clt unit :=
  modify (upd_c_producers (fun l => <[i := p]> l)).

(** ** [InputProducer] *)

Section input_producer.
(** [InputProducer.__init__]; [uuid] is the fresh identifier. *)
Definition new_input_producer (target_engine_ids : list string) (producer_name : option string)
    (uuid : string) : InputProducer :=
  mkInputProducer true (list_to_set target_engine_ids) producer_name
    (if truthy_str producer_name then (default "" producer_name +:+ "-" +:+ uuid)%string else uuid).

(** [InputProducer.produce] *)
Definition produce (i : nat) : clt (option InputFrame) :=
  p ← get_input_producer i;
  if ip_running p then ccall (Produce i) ≫= raise
  else Throw (PyException "Producer called when not running").

(** [InputProducer.resume] *)
Definition resume_producer (i : nat) : clt unit :=
  p ← get_input_producer i;
  if ip_running p then Throw (PyException "Producer already started")
  else put_input_producer i
    (mkInputProducer true (ip_target_engine_ids p) (ip_producer_name p) (ip_producer_id p)).

(** [InputProducer.stop] *)
Definition stop_producer (i : nat) : clt unit :=
  p ← get_input_producer i;
  put_input_producer i
    (mkInputProducer false (ip_target_engine_ids p) (ip_producer_name p) (ip_producer_id p)).

Definition set_targets (i : nat) (g : gset string -> gset string) : clt unit :=
  p ← get_input_producer i;
  put_input_producer i
    (mkInputProducer (ip_running p) (g (ip_target_engine_ids p)) (ip_producer_name p)
       (ip_producer_id p)).

(** [InputProducer.change_target_engines] *)
Definition change_target_engines (i : nat) (ids : list string) : clt unit :=
  set_targets i (fun _ => list_to_set ids).

(** [InputProducer.add_target_engine] *)
Definition add_target_engine (i : nat) (id : string) : clt unit :=
  set_targets i (fun X => {[id]} ∪ X).

(** [InputProducer.remove_target_engine] *)
Definition remove_target_engine (i : nat) (id : string) : clt bool :=
  p ← get_input_producer i;
  if decide (id ∈ ip_target_engine_ids p) then
    set_targets i (fun X => X ∖ {[id]}) ;; Ret true
  else Ret false.

(** [InputProducer.is_running] *)
Definition is_running (i : nat) : clt bool :=
  p ← get_input_producer i; Ret (ip_running p).

(** [InputProducer.get_target_engines] *)
Definition get_target_engines (i : nat) : clt (gset string) :=
  p ← get_input_producer i; Ret (ip_target_engine_ids p).
End input_producer.

(** ** [_TokenPool] *)

Section token_pool.
Definition PRODUCER_TOKEN_COUNT (pid : string) (v : Z) : clt unit :=
  ccall (CMetric "gabriel_producer_token_count" pid v).

(** [_TokenPool.__init__]; a semaphore refuses a negative value. *)
Definition new_token_pool (num_tokens : Z) (pid : string) : clt nat :=
  if num_tokens <? 0 then Throw (ValueError "Semaphore initial value must be >= 0")
  else
    t ← gets (fun s => length (c_pools s));
    modify (upd_c_pools (fun l => l ++ [mkTokenPool num_tokens num_tokens true 0 pid])) ;;
    PRODUCER_TOKEN_COUNT pid num_tokens ;;
    Ret t.

Definition set_value (v : Z) (p : TokenPool) : TokenPool :=
  mkTokenPool (tp_max_tokens p) v (tp_sem_bounded p) (tp_sem p) (tp_producer_id p).

(** [_sem.release()]: a bounded semaphore refuses to grow past its initial
    value. *)
Definition sem_release (t : nat) : clt unit :=
  p ← get_pool t;
  if tp_sem_bounded p && (tp_max_tokens p <=? tp_sem_value p)
  then Throw (ValueError "BoundedSemaphore released too many times")
  else put_pool t (set_value (tp_sem_value p + 1) p).

(** [_TokenPool.return_token] *)
Definition return_token (t : nat) : clt unit :=
  p ← get_pool t;
  ccall (CMetric "gabriel_producer_token_count_inc" (tp_producer_id p) 1) ;;
  sem_release t.

(** [await _sem.acquire()]: at once when there is a token, or else when one
    is returned to this semaphore. *)
Definition sem_acquire (t : nat) : clt unit :=
  p ← get_pool t;
  if 0 <? tp_sem_value p then put_pool t (set_value (tp_sem_value p - 1) p)
  else
    (ccall (SemWait t) ≫= raise) ;;
    p' ← get_pool t;
    if bool_decide (tp_sem p' = tp_sem p) && (0 <? tp_sem_value p')
    then put_pool t (set_value (tp_sem_value p' - 1) p')
    else Throw NotReady.

(** [_TokenPool.get_token] *)
Definition get_token (t : nat) : clt unit :=
  sem_acquire t ;;
  p ← get_pool t;
  PRODUCER_TOKEN_COUNT (tp_producer_id p) (tp_sem_value p).

(** [_TokenPool.reset_tokens]: a new semaphore, which is not bounded. *)
Definition reset_tokens (t : nat) : clt unit :=
  p ← get_pool t;
  put_pool t (mkTokenPool (tp_max_tokens p) (tp_max_tokens p) false (S (tp_sem p))
                (tp_producer_id p)) ;;
  PRODUCER_TOKEN_COUNT (tp_producer_id p) (tp_max_tokens p).

(** [_TokenPool.get_remaining_tokens] *)
Definition get_remaining_tokens (t : nat) : clt Z :=
  p ← get_pool t; Ret (tp_sem_value p).
End token_pool.
