(* ===== verification/GabrielClient.v ===== *)
(** * The client, whatever its transport

    [GabrielClient] of [python-client/src/gabriel_client/gabriel_client.py],
    and the parts of its subclasses that the transports have in common. *)

From S2P Require Import Prelude Coro Protocol ClientState.

Section gabriel_client.
Context `{!PyEnv}.

(** [GabrielClient.stop] *)
Definition stop : clt unit := modify (upd_c_running (fun _ => false)).

(** The events a coroutine waits for with a timeout. *)
Inductive event : Type := Registered_event | Reregistration_needed | Connected.

Definition is_set (e : event) (s : ClientState) : bool :=
  match e with
  | Registered_event => c_registered_event s
  | Reregistration_needed => c_reregistration_needed s
  | Connected => c_connected s
  end.

(** [asyncio.wait_for(event.wait(), timeout=...)] *)
Definition wait_event (e : event) : clt unit :=
  match e with
  | Registered_event => ccall WaitRegistered ≫= raise
  | Reregistration_needed => ccall WaitReregistration ≫= raise
  | Connected => ccall WaitConnected ≫= raise
  end.

(** [GabrielClient._wait_while_running], for at most [fuel] timeouts. *)
Fixpoint wait_while_running (e : event) (fuel : nat) : clt bool :=
  s ← gets id;
  if c_running s && negb (is_set e s) then
    match fuel with
    | O => Throw NotReady
    | S fuel' =>
        try_except (wait_event e)
          (fun x => match x with TimeoutError => Ret tt | _ => Throw x end) ;;
        wait_while_running e fuel'
    end
  else Ret (c_running s).

(** [GabrielClient._build_registration_message]; an unset [client_info]
    reads as the empty message. *)
Definition build_registration_message : clt FromClient :=
  info ← gets c_client_info;
  Ret (FromClient_registration (default default_Any info)).

(** The wait for the acknowledgement, which resends the message at each
    timeout. *)
Fixpoint await_registered (send : FromClient -> clt unit) (message : FromClient) (fuel : nat)
    : clt unit :=
  s ← gets id;
  if c_running s && negb (c_registered_event s) then
    match fuel with
    | O => Throw NotReady
    | S fuel' =>
        try_except (wait_event Registered_event)
          (fun x => match x with TimeoutError => send message | _ => Throw x end) ;;
        await_registered send message fuel'
    end
  else Ret tt.

(** [GabrielClient._registration_handler], for at most [fuel] registrations
    of at most [fuel] timeouts each. *)
Fixpoint registration_handler (send : FromClient -> clt unit) (fuel0 fuel : nat) : clt unit :=
  running ← gets c_running;
  if running : bool then
    match fuel with
    | O => Throw NotReady
    | S fuel' =>
        message ← build_registration_message;
        send message ;;
        await_registered send message fuel0 ;;
        running ← gets c_running;
        if running : bool then
          again ← wait_while_running Reregistration_needed fuel0;
          if again : bool then
            modify (upd_c_reregistration_needed (fun _ => false)) ;;
            modify (upd_c_registered_event (fun _ => false)) ;;
            registration_handler send fuel0 fuel'
          else Ret tt
        else Ret tt
    end
  else Ret tt.

(** [GabrielClient._record_send_metrics] *)
Definition record_send_metrics (from_client : FromClient) : clt unit :=
  let producer_id := in_producer_id (fc_input from_client) in
  ccall (CMetric "gabriel_producer_inputs_sent_total" producer_id 1) ;;
  let frame_id := in_frame_id (fc_input from_client) in
  t ← ccall Monotonic;
  modify (upd_c_pending_results (fun d => d.[(producer_id, frame_id) <- t])).

(** [GabrielClient._record_response_latency] *)
Definition record_response_latency (w : ResultWrapper) : clt unit :=
  let key := (rw_producer_id w, frame_id (rw_result w)) in
  d ← gets c_pending_results;
  match d.[key] with
  | None => Ret tt
  | Some send_time =>
      modify (upd_c_pending_results (dict_del key)) ;;
      t ← ccall Monotonic;
      ccall (CMetric "gabriel_client_input_processing_latency_seconds" (rw_producer_id w)
               (t - send_time))
  end.

(** [self._tokens[producer_id].return_token()] *)
Definition return_token_of (producer_id : string) : clt unit :=
  t ← (gets (fun s => (c_tokens s).[producer_id]) ≫= of_option KeyError);
  return_token t.

(** [GrpcClient._process_response].  The branches for a dropped frame and for
    the other errors log only; the latter look the name of the status up. *)
Definition process_response (w : ResultWrapper) : clt unit :=
  let result := rw_result w in
  (match code (status result) with
   | SUCCESS =>
       record_response_latency w ;;
       ccall (ConsumeResult result) ≫= raise
   | NO_ENGINE_FOR_INPUT => Throw (PyException ("No engine for input: " +:+ message (status result)))
   | SERVER_DROPPED_FRAME => Ret tt
   | c =>
       of_option (ValueError "Enum has no name defined for value") (StatusCode_Name c) ;;
       Ret tt
   end) ;;
  if rw_return_token w then return_token_of (rw_producer_id w) else Ret tt.

(** The part of [_process_registered] that the three clients share. *)
Definition process_registered (r : Registered) : clt unit :=
  modify (upd_c_num_tokens_per_producer (fun _ => Some (num_tokens_per_producer r))) ;;
  modify (upd_c_engine_ids (fun _ => Some (registered_engine_ids r))).

(** The message of [_producer_handler] for the frame [frame_id], after the
    check that the target engines are connected. *)
Definition build_input (i : nat) (frame_id : Z) (input_frame : InputFrame) : clt FromClient :=
  if in_int64 frame_id then
    p ← get_input_producer i;
    target_engines ← get_target_engines i;
    engine_ids ← (gets c_engine_ids ≫= of_option AttributeError);
    if decide (target_engines ⊆ list_to_set engine_ids) then
      targets ← get_target_engines i;
      Ret (FromClient_input (mkInput frame_id (ip_producer_id p) (set_iter targets) input_frame))
    else Throw (ValueError "Attempt to target engines that are not connected to the server")
  else Throw (ValueError "Value out of range").

(** [_TokenPool(self._num_tokens_per_producer, producer_id)], entered in
    [_tokens]. *)
Definition open_pool (pid : string) : clt nat :=
  num ← (gets c_num_tokens_per_producer ≫= of_option TypeError);
  t ← new_token_pool num pid;
  modify (upd_c_tokens (fun d => d.[pid <- t])) ;;
  Ret t.
End gabriel_client.
