(* ===== verification/GrpcClient.v ===== *)
(** * The gRPC client

    [python-client/src/gabriel_client/grpc_client.py]. *)

From S2P Require Import Prelude Coro Protocol ClientState GabrielClient.

Module GrpcC.

Definition SESSION_ID_METADATA_KEY : string := "session-id".
Definition STREAM_ROLE_METADATA_KEY : string := "stream-role".
Definition STREAM_ROLE_CONTROL : string := "control".
Definition STREAM_ROLE_PRODUCER : string := "producer".

Definition DEFAULT_KEEPALIVE_TIME_MS : Z := 10000.
Definition DEFAULT_KEEPALIVE_TIMEOUT_MS : Z := 5000.

Definition DEFAULT_CHANNEL_OPTIONS : list (string * Z) :=
  [("grpc.keepalive_time_ms", DEFAULT_KEEPALIVE_TIME_MS);
   ("grpc.keepalive_timeout_ms", DEFAULT_KEEPALIVE_TIMEOUT_MS);
   ("grpc.keepalive_permit_without_calls", 1)].

(** [d.update(dict(items))] *)
Definition dict_update (d items : dict string Z) : dict string Z :=
  foldl (fun d kv => d.[kv.1 <- kv.2]) d items.

(** [_merge_channel_options] *)
Definition merge_channel_options (channel_options : option (list (string * Z)))
    : list (string * Z) :=
  let merged := dict_update [] DEFAULT_CHANNEL_OPTIONS in
  match channel_options with
  | None => merged
  | Some l => dict_update merged (dict_update [] l)
  end.

Section grpc_client.
Context `{!PyEnv, !Codec InputFrame}.

(** The start of [GrpcClient._run_session]: the reset of the state, the
    channel ([secure]: the client has credentials) and the control stream. *)
Definition open_control (secure : bool) : clt nat :=
  modify (upd_c_registered_event (fun _ => false)) ;;
  modify (upd_c_connected (fun _ => false)) ;;
  modify (upd_c_tokens (fun _ => [])) ;;
  modify (upd_c_engine_ids (fun _ => Some [])) ;;
  ccall (OpenChannel secure) ;;
  session_id ← ccall Uuid4;
  modify (upd_c_session_id (fun _ => Some session_id)) ;;
  ccall (OpenCall [(SESSION_ID_METADATA_KEY, session_id);
                   (STREAM_ROLE_METADATA_KEY, STREAM_ROLE_CONTROL)]).

(** [GrpcClient._process_registered] *)
Definition grpc_process_registered (r : Registered) : clt unit :=
  process_registered r ;;
  modify (upd_c_connected (fun _ => true)) ;;
  modify (upd_c_registered_event (fun _ => true)).

(** What [GrpcClient._consumer_handler] does with one message. *)
Definition grpc_dispatch (m : ToClient) : clt unit :=
  match m with
  | ToClient_registered r => grpc_process_registered r
  | ToClient_result_wrapper w => process_response w
  | ToClient_engine_ids_update ids => modify (upd_c_engine_ids (fun _ => Some ids))
  | ToClient_unset => Throw (PyException "Empty to_client message")
  end.

(** [GrpcClient._consumer_handler], for at most [fuel] messages. *)
Fixpoint grpc_consumer_handler (fuel : nat) : clt unit :=
  running ← gets c_running;
  if running : bool then
    match fuel with
    | O => Throw NotReady
    | S fuel' =>
        r ← ccall CallRead;
        match r with
        | inr AioRpcError | inl None =>
            modify (upd_c_connected (fun _ => false)) ;; Throw DisconnectedError
        | inr x => Throw x
        | inl (Some m) => grpc_dispatch m ;; grpc_consumer_handler fuel'
        end
    end
  else Ret tt.

(** [GrpcClient._send_to_server] *)
Definition grpc_send_to_server (m : FromClient) (stream : nat) : clt unit :=
  record_send_metrics m ;;
  ccall (CallWrite stream m) ≫= raise.

(** A failed write is a disconnection. *)
Definition disconnected (x : exn) : clt unit :=
  match x with
  | AioRpcError | InvalidStateError => Throw DisconnectedError
  | _ => Throw x
  end.

(** [GrpcClient._send_registration] *)
Definition send_registration (control : nat) (m : FromClient) : clt unit :=
  try_except (ccall (CallWrite control m) ≫= raise) disconnected.

(** The part of the loop of [GrpcClient._producer_handler] that follows the
    wait for a token; the result is the id of the next frame. *)
Definition grpc_send_frame (i t stream : nat) (frame_id : Z) : clt Z :=
  input_frame ← produce i;
  match input_frame with
  | None => return_token t ;; Ret frame_id
  | Some f =>
      if truthy_str (Some (serialize f)) then
        m ← build_input i frame_id f;
        try_except (grpc_send_to_server m stream) disconnected ;;
        Ret (frame_id + 1)
      else return_token t ;; Ret frame_id
  end.

(** The loop of [GrpcClient._producer_handler], for at most [fuel]
    iterations. *)
Fixpoint grpc_producer_loop (i t stream : nat) (frame_id : Z) (fuel : nat) : clt unit :=
  s ← gets id;
  if c_running s && set_mem i (c_input_producers s) then
    match fuel with
    | O => Throw NotReady
    | S fuel' =>
        running ← is_running i;
        (if running : bool then Ret tt else ccall (WaitForRunning i) ≫= raise) ;;
        get_token t ;;
        next ← grpc_send_frame i t stream frame_id;
        grpc_producer_loop i t stream next fuel'
    end
  else Ret tt.

(** [GrpcClient._producer_handler] *)
Definition grpc_producer_handler (i : nat) (fuel : nat) : clt unit :=
  ok ← wait_while_running Registered_event fuel;
  if ok : bool then
    session_id ← gets c_session_id;
    stream ← ccall (OpenCall [(SESSION_ID_METADATA_KEY, default "" session_id);
                              (STREAM_ROLE_METADATA_KEY, STREAM_ROLE_PRODUCER)]);
    p ← get_input_producer i;
    t ← open_pool (ip_producer_id p);
    grpc_producer_loop i t stream 1 fuel
  else Ret tt.
End grpc_client.

End GrpcC.
