(* ===== verification/WebsocketClient.v ===== *)
(** * The WebSocket client

    [python-client/src/gabriel_client/websocket_client.py]. *)

From S2P Require Import Prelude Coro Protocol ClientState GabrielClient.

Module WsC.

Section websocket_client.
Context `{!PyEnv, !Codec ToClient, !Codec FromClient}.

(** [WebsocketClient._process_registered] *)
Definition ws_process_registered (r : Registered) : clt unit :=
  process_registered r ;;
  modify (upd_c_registered_event (fun _ => true)).

(** [WebsocketClient._process_response] *)
Definition ws_process_response (w : ResultWrapper) : clt unit :=
  let result := rw_result w in
  (match code (status result) with
   | SUCCESS =>
       record_response_latency w ;;
       ccall (ConsumeResult result) ≫= raise
   | NO_ENGINE_FOR_INPUT => Throw (PyException "No engine for input")
   | c =>
       of_option (ValueError "Enum has no name defined for value") (StatusCode_Name c) ;;
       Ret tt
   end) ;;
  if rw_return_token w then return_token_of (rw_producer_id w) else Ret tt.

(** It differs from that of the gRPC client in the text of an exception. *)
Lemma ws_process_response_eq w :
  code (status (rw_result w)) <> NO_ENGINE_FOR_INPUT -> ws_process_response w = process_response w.
Proof. unfold ws_process_response, process_response. by destruct (code (status (rw_result w))). Qed.

(** What [WebsocketClient._consumer_handler] does with one message. *)
Definition ws_dispatch (m : ToClient) : clt unit :=
  match m with
  | ToClient_registered r => ws_process_registered r
  | ToClient_result_wrapper w => ws_process_response w
  | ToClient_engine_ids_update ids => modify (upd_c_engine_ids (fun _ => Some ids))
  | ToClient_unset => Throw (PyException "Empty to_client message")
  end.

(** [WebsocketClient._consumer_handler], for at most [fuel] messages. *)
Fixpoint ws_consumer_handler (fuel : nat) : clt unit :=
  running ← gets c_running;
  if running : bool then
    match fuel with
    | O => Throw NotReady
    | S fuel' =>
        r ← ccall CWsRecv;
        match r with
        | inr ConnectionClosed => Ret tt
        | inr x => Throw x
        | inl raw_input =>
            m ← of_option DecodeError (parse raw_input);
            ws_dispatch m ;; ws_consumer_handler fuel'
        end
    end
  else Ret tt.

(** [WebsocketClient._send_raw] *)
Definition ws_send_raw (m : FromClient) : clt unit :=
  ccall (CWsSend (serialize m)) ≫= raise.

(** [WebsocketClient._send_from_client] *)
Definition ws_send_from_client (m : FromClient) : clt unit :=
  record_send_metrics m ;; ws_send_raw m.

(** The loop of [WebsocketClient._producer_handler], for at most [fuel]
    iterations. *)
Fixpoint ws_producer_loop (i t : nat) (frame_id : Z) (fuel : nat) : clt unit :=
  running ← gets c_running;
  if running : bool then
    match fuel with
    | O => Throw NotReady
    | S fuel' =>
        get_token t ;;
        input_frame ← produce i;
        match input_frame with
        | None => return_token t ;; ws_producer_loop i t frame_id fuel'
        | Some f =>
            m ← build_input i frame_id f;
            sent ← try_except (ws_send_from_client m ;; Ret true)
                     (fun x => match x with ConnectionClosed => Ret false | _ => Throw x end);
            if sent : bool then ws_producer_loop i t (frame_id + 1) fuel' else Ret tt
        end
    end
  else Ret tt.

(** [WebsocketClient._producer_handler] *)
Definition ws_producer_handler (i fuel : nat) : clt unit :=
  ok ← wait_while_running Registered_event fuel;
  if ok : bool then
    p ← get_input_producer i;
    t ← open_pool (ip_producer_id p);
    ws_producer_loop i t 1 fuel
  else Ret tt.
End websocket_client.

End WsC.
