(* ===== verification/MeasurementClient.v ===== *)
(** * The measurement client

    [python-client/src/gabriel_client/measurement_client.py]: a WebSocket
    client that measures, per producer, the rate of the responses and their
    round-trip time.  Times are integers (ticks of the clock) and the printed
    numbers are exact rationals, where the program has floats. *)

From Stdlib Require Import QArith.
From S2P Require Import Prelude Coro Protocol ClientState GabrielClient WebsocketClient Instances.

Open Scope list_scope.
Open Scope Z_scope.

(** What [print] writes. *)
Inductive line : Type :=
| Measurements_for_producer (producer_id : string)
| Overall_FPS (v : Q)
| Interval_FPS (v : Q)
| Average_RTT_for_interval (v : Q).

(** [_SourceMeasurement] *)
Record SourceMeasurement := mkSourceMeasurement {
  sm_count : Z;
  sm_send_timestamps : dict Z Z;
  sm_recv_timestamps : dict Z Z;
  sm_start_time : option Z;
  sm_interval_start_time : option Z;
  sm_output_freq : Z;
}.

(** [_SourceMeasurement.__init__] *)
Definition new_source_measurement (start_time : option Z) (output_freq : Z) : SourceMeasurement :=
  mkSourceMeasurement 0 [] [] start_time start_time output_freq.

(** [a / b] *)
Definition divide (a b : Z) : Q + exn :=
  if b =? 0 then inr ZeroDivisionError else inl (inject_Z a / inject_Z b)%Q.

(** [_compute_fps] *)
Definition compute_fps (num_frames current_time : Z) (start_time : option Z) : Q + exn :=
  match start_time with
  | None => inr TypeError
  | Some t => divide num_frames (current_time - t)
  end.

(** The loop of [_compute_and_print]: the total, the send timestamps that are
    left, and what it raises. *)
Fixpoint sum_rtt (recv : dict Z Z) (send : dict Z Z) (total : Z) : Z * dict Z Z * option exn :=
  match recv with
  | [] => (total, send, None)
  | (frame_id, received) :: recv' =>
      match send.[frame_id] with
      | None => (total, send, Some KeyError)
      | Some sent => sum_rtt recv' (dict_del frame_id send) (total + (received - sent))
      end
  end.

(** [_SourceMeasurement._compute_and_print]: the state it leaves, what it
    prints, and what it raises. *)
Definition compute_and_print (producer_id : string) (response_time : Z) (sm : SourceMeasurement)
    : SourceMeasurement * list line * option exn :=
  let l0 := [Measurements_for_producer producer_id] in
  match compute_fps (sm_count sm) response_time (sm_start_time sm) with
  | inr x => (sm, l0, Some x)
  | inl overall_fps =>
      let l1 := l0 ++ [Overall_FPS overall_fps] in
      match compute_fps (sm_output_freq sm) response_time (sm_interval_start_time sm) with
      | inr x => (sm, l1, Some x)
      | inl interval_fps =>
          let l2 := l1 ++ [Interval_FPS interval_fps] in
          let '(total_rtt, send, raised) := sum_rtt (sm_recv_timestamps sm) (sm_send_timestamps sm) 0 in
          let sm' recv := mkSourceMeasurement (sm_count sm) send recv (sm_start_time sm)
                            (sm_interval_start_time sm) (sm_output_freq sm) in
          match raised with
          | Some x => (sm' (sm_recv_timestamps sm), l2, Some x)
          | None =>
              match divide total_rtt (sm_output_freq sm) with
              | inr x => (sm' (sm_recv_timestamps sm), l2, Some x)
              | inl rtt => (sm' [], l2 ++ [Average_RTT_for_interval rtt], None)
              end
          end
      end
  end.

(** [self._count % self._output_freq == 0] *)
Definition report_due (sm : SourceMeasurement) : bool := (sm_count sm) mod (sm_output_freq sm) =? 0.

(** [_SourceMeasurement.process_response], up to the reading of the clock
    after a report. *)
Definition sm_process_response (frame_id : Z) (producer_id : string) (response_time : Z)
    (sm : SourceMeasurement) : SourceMeasurement * list line * option exn :=
  let sm := mkSourceMeasurement (sm_count sm + 1) (sm_send_timestamps sm)
              ((sm_recv_timestamps sm).[frame_id <- response_time]) (sm_start_time sm)
              (sm_interval_start_time sm) (sm_output_freq sm) in
  if sm_output_freq sm =? 0 then (sm, [], Some ZeroDivisionError)
  else if report_due sm then compute_and_print producer_id response_time sm
  else (sm, [], None).

(** [self._interval_start_time = time.time()] *)
Definition restart_interval (now : Z) (sm : SourceMeasurement) : SourceMeasurement :=
  mkSourceMeasurement (sm_count sm) (sm_send_timestamps sm) (sm_recv_timestamps sm)
    (sm_start_time sm) (Some now) (sm_output_freq sm).

(** [_SourceMeasurement.log_send] *)
Definition log_send (frame_id send_time : Z) (sm : SourceMeasurement) : SourceMeasurement :=
  mkSourceMeasurement (sm_count sm) ((sm_send_timestamps sm).[frame_id <- send_time])
    (sm_recv_timestamps sm) (sm_start_time sm) (sm_interval_start_time sm) (sm_output_freq sm).

(** ** The client *)

(** [MeasurementClient], with what it has printed. *)
Record MeasurementClient := mkMeasurementClient {
  m_client : ClientState;
  m_output_freq : Z;
  m_start_time : option Z;
  m_source_measurements : dict string SourceMeasurement;
  m_printed : list line;
}.

(** [MeasurementClient.__init__], after that of the WebSocket client *)
Definition new_measurement_client (c : ClientState) (output_freq : Z) : MeasurementClient :=
  mkMeasurementClient c output_freq None [] [].

Abbreviation mclt A := (prog MeasurementClient client_sig A).

(** [super().method(...)] *)
Fixpoint super {A} (p : clt A) : mclt A :=
  match p with
  | Ret a => Ret a
  | Throw x => Throw x
  | Get k => Get (fun m => super (k (m_client m)))
  | Put c k =>
      Get (fun m => Put (mkMeasurementClient c (m_output_freq m) (m_start_time m)
                           (m_source_measurements m) (m_printed m)) (super k))
  | Vis e k => Vis e (fun r => super (k r))
  end.

(** [time.time()] *)
Definition wall_clock : mclt Z := call (E := client_sig) WallClock.

Definition put_source (producer_id : string) (sm : SourceMeasurement) : mclt unit :=
  modify (fun m => mkMeasurementClient (m_client m) (m_output_freq m) (m_start_time m)
                     ((m_source_measurements m).[producer_id <- sm]) (m_printed m)).

Definition print_lines (l : list line) : mclt unit :=
  modify (fun m => mkMeasurementClient (m_client m) (m_output_freq m) (m_start_time m)
                     (m_source_measurements m) (m_printed m ++ l)).

(** [MeasurementClient._get_source_measurement] *)
Definition get_source_measurement (producer_id : string) : mclt SourceMeasurement :=
  m ← gets id;
  match (m_source_measurements m).[producer_id] with
  | Some sm => Ret sm
  | None =>
      let sm := new_source_measurement (m_start_time m) (m_output_freq m) in
      put_source producer_id sm ;; Ret sm
  end.

(** [MeasurementClient._process_registered] *)
Definition measured_process_registered (r : Registered) : mclt unit :=
  super (WsC.ws_process_registered r) ;;
  t ← wall_clock;
  modify (fun m => mkMeasurementClient (m_client m) (m_output_freq m) (Some t)
                     (m_source_measurements m) (m_printed m)).

(** [MeasurementClient._process_response] *)
Definition measured_process_response (w : ResultWrapper) : mclt unit :=
  response_time ← wall_clock;
  super (WsC.ws_process_response w) ;;
  if rw_return_token w then
    sm ← get_source_measurement (rw_producer_id w);
    let '(sm, l, raised) :=
      sm_process_response (frame_id (rw_result w)) (rw_producer_id w) response_time sm in
    put_source (rw_producer_id w) sm ;;
    print_lines l ;;
    match raised with
    | Some x => Throw x
    | None =>
        if report_due sm then
          now ← wall_clock; put_source (rw_producer_id w) (restart_interval now sm)
        else Ret tt
    end
  else Ret tt.

Section send.
Context `{!Codec FromClient}.

(** [MeasurementClient._send_from_client] *)
Definition measured_send_from_client (m : FromClient) : mclt unit :=
  super (WsC.ws_send_from_client m) ;;
  send_time ← wall_clock;
  sm ← get_source_measurement (in_producer_id (fc_input m));
  put_source (in_producer_id (fc_input m)) (log_send (in_frame_id (fc_input m)) send_time sm).
End send.

(** ** Properties *)

(** What happens to the measurement of one producer: a frame is sent, or the
    response that returns its token arrives and is processed ([now] is read
    if there is a report). *)
Inductive mop : Type :=
| Sent (frame_id send_time : Z)
| Answered (frame_id response_time now : Z).

Section measurement.
Variables (pid : string) (start freq : Z).

(** One operation: the state, what it prints, and what it raises. *)
Definition mstep (sm : SourceMeasurement) (o : mop) : SourceMeasurement * list line * option exn :=
  match o with
  | Sent f t => (log_send f t sm, [], None)
  | Answered f t now =>
      match sm_process_response f pid t sm with
      | (sm', l, None) => (if report_due sm' then restart_interval now sm' else sm', l, None)
      | r => r
      end
  end.

(** The measurement after a sequence of operations. *)
Definition measure (tr : list mop) : SourceMeasurement :=
  foldl (fun sm o => (mstep sm o).1.1) (new_source_measurement (Some start) freq) tr.

Definition sent (tr : list mop) : dict Z Z :=
  omap (fun o => match o with Sent f t => Some (f, t) | _ => None end) tr.
Definition answered (tr : list mop) : dict Z Z :=
  omap (fun o => match o with Answered f t _ => Some (f, t) | _ => None end) tr.

(** What the client does: frames have distinct ids, and a response is for a
    frame that was sent and not answered yet; the clock has advanced since the
    beginning and since the last report. *)
Inductive orderly_trace : list mop -> Prop :=
| orderly_start : orderly_trace []
| orderly_send tr f t :
    orderly_trace tr -> f ∉ dict_keys (sent tr) -> orderly_trace (tr ++ [Sent f t])
| orderly_answer tr f t now :
    orderly_trace tr -> f ∈ dict_keys (sent tr) -> f ∉ dict_keys (answered tr) ->
    t <> start -> Some t <> sm_interval_start_time (measure tr) ->
    orderly_trace (tr ++ [Answered f t now]).

(** The sum of the round-trip times of some answered frames. *)
Definition total_rtt (tr : list mop) (l : dict Z Z) : Z :=
  foldr (fun '(f, t) acc => t - default 0 ((sent tr).[f]) + acc) 0 l.

(** The report after the response at [t]: [n] is the number of responses,
    [interval] the time of the last report. *)
Definition report (tr : list mop) (t interval : Z) : list line :=
  let n := Z.of_nat (length (answered tr)) in
  [Measurements_for_producer pid;
   Overall_FPS (inject_Z n / inject_Z (t - start));
   Interval_FPS (inject_Z freq / inject_Z (t - interval));
   Average_RTT_for_interval
     (inject_Z (total_rtt tr (drop (length (answered tr) - Z.to_nat freq) (answered tr)))
      / inject_Z freq)].

(** The responses since the last report. *)
Definition pending_count (tr : list mop) : nat :=
  Z.to_nat (Z.of_nat (length (answered tr)) mod freq).

Definition reported (tr : list mop) : dict Z Z :=
  take (length (answered tr) - pending_count tr) (answered tr).
Definition unreported (tr : list mop) : dict Z Z :=
  drop (length (answered tr) - pending_count tr) (answered tr).

(** The state of the measurement, in terms of what happened. *)
Record measures (tr : list mop) (sm : SourceMeasurement) : Prop := {
  ms_count : sm_count sm = Z.of_nat (length (answered tr));
  ms_recv : sm_recv_timestamps sm = unreported tr;
  ms_send : forall f, (sm_send_timestamps sm).[f] =
              if decide (f ∈ dict_keys (reported tr)) then None else (sent tr).[f];
  ms_start : sm_start_time sm = Some start;
  ms_freq : sm_output_freq sm = freq;
  ms_interval : is_Some (sm_interval_start_time sm);
  ms_answered : NoDup (dict_keys (answered tr));
  ms_sent : forall f, f ∈ dict_keys (answered tr) -> is_Some ((sent tr).[f]);
}.

Hypothesis freq_pos : 0 < freq.

Lemma mod_succ n : 0 <= n ->
  ((n + 1) mod freq = 0 /\ n mod freq = freq - 1) \/
  ((n + 1) mod freq <> 0 /\ (n + 1) mod freq = n mod freq + 1).
Proof.
  intros Hn. pose proof (Z.mod_pos_bound n freq freq_pos).
  destruct (decide (n mod freq = freq - 1)) as [E|E].
  - left. split; [|done]. rewrite Z.add_mod, E by lia.
    destruct (decide (freq = 1)) as [->|]; [done|]. rewrite (Z.mod_small 1) by lia.
    by replace (freq - 1 + 1) with freq by lia; rewrite Z.mod_same by lia.
  - right. assert ((n + 1) mod freq = n mod freq + 1) as ->; [|lia].
    symmetry. apply (Z.mod_unique_pos _ _ (n / freq)); [lia|].
    pose proof (Z.div_mod n freq). lia.
Qed.

Lemma keys_split k (l : dict Z Z) : dict_keys l = dict_keys (take k l) ++ dict_keys (drop k l).
Proof. unfold dict_keys. by rewrite <- map_app, take_drop. Qed.

Lemma sent_app tr o : sent (tr ++ [o]) = sent tr ++ sent [o].
Proof. unfold sent. by rewrite omap_app. Qed.
Lemma answered_app tr o : answered (tr ++ [o]) = answered tr ++ answered [o].
Proof. unfold answered. by rewrite omap_app. Qed.

(** The loop of the report removes the timestamps it has added up. *)
Lemma sum_rtt_ok tr l send tot :
  NoDup (dict_keys l) ->
  (forall f, f ∈ dict_keys l -> is_Some (send.[f]) /\ send.[f] = (sent tr).[f]) ->
  exists send', sum_rtt l send tot = (tot + total_rtt tr l, send', None) /\
    forall g, send'.[g] = if decide (g ∈ dict_keys l) then None else send.[g].
Proof.
  revert send tot. induction l as [|[f t] l IH]; intros send tot Hnd Hs; simpl in *.
  - exists send. split; [by rewrite Z.add_0_r|done].
  - apply NoDup_cons in Hnd as [Hf Hnd]. destruct (Hs f ltac:(set_solver)) as [[s Es] Hsf].
    rewrite Es. rewrite Es in Hsf. rewrite <- Hsf. simpl.
    destruct (IH (dict_del f send) (tot + (t - s)) Hnd) as (send' & E & Hg).
    { intros g Hin. rewrite dict_get_del_ne by (intros ->; done). apply Hs. set_solver. }
    exists send'. split; [rewrite E; f_equal; f_equal; lia|]. intros g. rewrite Hg, dict_get_del.
    repeat case_decide; subst; try done; set_solver.
Qed.

Lemma measures_start : measures [] (new_source_measurement (Some start) freq).
Proof. split; simpl; try done; [constructor|set_solver]. Qed.

Lemma measures_send tr sm f t :
  measures tr sm -> f ∉ dict_keys (sent tr) -> measures (tr ++ [Sent f t]) (log_send f t sm).
Proof.
  intros [Hc Hr Hs Hst Hf Hi Hnd Ha] Hfr.
  assert (answered (tr ++ [Sent f t]) = answered tr) as Ea by (rewrite answered_app; apply app_nil_r).
  assert (sent (tr ++ [Sent f t]) = (sent tr).[f <- t]) as Es.
  { rewrite sent_app. symmetry. apply dict_set_absent. by apply dict_get_None. }
  split; unfold unreported, reported, pending_count in *; rewrite ?Ea; simpl; try done.
  - intros g. rewrite Es, !dict_get_set, Hs. destruct (decide (f = g)) as [<-|]; [|done].
    rewrite decide_False; [done|]. intros Hin.
    apply Hfr, dict_get_keys, Ha. rewrite (keys_split (length (answered tr) - pending_count tr)).
    apply elem_of_app. by left.
  - intros g Hg. rewrite Es, dict_get_set. case_decide; [by eexists|by apply Ha].
Qed.

(** An answer extends the responses since the last report; those before are
    the same. *)
Lemma answer_pending tr f t now :
  let n := (length (answered tr) - pending_count tr)%nat in
  let answered' := answered tr ++ [(f, t)] in
  answered (tr ++ [Answered f t now]) = answered' /\ sent (tr ++ [Answered f t now]) = sent tr /\
  take n answered' = reported tr /\ drop n answered' = unreported tr ++ [(f, t)] /\
  (pending_count tr <= length (answered tr))%nat.
Proof.
  assert (pending_count tr <= length (answered tr))%nat.
  { unfold pending_count. pose proof (Z.mod_le (Z.of_nat (length (answered tr))) freq). lia. }
  simpl. split_and!; [apply answered_app|rewrite sent_app; apply app_nil_r| | |done].
  - unfold reported. by rewrite take_app_le by lia.
  - unfold unreported. by rewrite drop_app_le by lia.
Qed.

(** What the state after an answer looks like, before a possible report. *)
Definition answer_state (f t : Z) (sm : SourceMeasurement) : SourceMeasurement :=
  mkSourceMeasurement (sm_count sm + 1) (sm_send_timestamps sm)
    ((sm_recv_timestamps sm).[f <- t]) (sm_start_time sm)
    (sm_interval_start_time sm) (sm_output_freq sm).

Lemma answer_recv tr sm f t :
  measures tr sm -> f ∉ dict_keys (answered tr) ->
  (sm_recv_timestamps sm).[f <- t] = unreported tr ++ [(f, t)].
Proof.
  intros Hm Hf. rewrite (ms_recv _ _ Hm). apply dict_set_absent, dict_get_None.
  rewrite (keys_split (length (answered tr) - pending_count tr)) in Hf. set_solver.
Qed.

Lemma length_snoc {A} (l : list A) x : Z.of_nat (length (l ++ [x])) = Z.of_nat (length l) + 1.
Proof. rewrite length_app. simpl. lia. Qed.

Lemma answer_keys tr sm f t :
  measures tr sm -> f ∈ dict_keys (sent tr) -> f ∉ dict_keys (answered tr) ->
  NoDup (dict_keys (answered tr ++ [(f, t)])) /\
  forall g, g ∈ dict_keys (answered tr ++ [(f, t)]) -> is_Some ((sent tr).[g]).
Proof.
  intros Hm Hfs Hfa. unfold dict_keys. rewrite map_app. split.
  - apply NoDup_app. split_and!; [apply Hm| |apply NoDup_singleton].
    intros g Hg Hg'. apply list_elem_of_singleton in Hg'. by subst.
  - intros g [Hg|Hg]%elem_of_app; [by apply (ms_sent _ _ Hm)|].
    apply list_elem_of_singleton in Hg. subst. by apply dict_get_keys.
Qed.

Lemma measures_answer_quiet tr sm f t now :
  measures tr sm -> f ∈ dict_keys (sent tr) -> f ∉ dict_keys (answered tr) ->
  (sm_count sm + 1) mod freq <> 0 ->
  measures (tr ++ [Answered f t now]) (answer_state f t sm).
Proof.
  intros Hm Hfs Hfa Hq. destruct (answer_pending tr f t now) as (Ea & Es & Et & Ed & Hle).
  rewrite (ms_count _ _ Hm) in Hq.
  assert (pending_count (tr ++ [Answered f t now]) = S (pending_count tr)) as Ep.
  { unfold pending_count. rewrite Ea, length_snoc. destruct (mod_succ (Z.of_nat (length (answered tr)))) as [[? ?]|[_ ->]]; [lia|lia|].
    pose proof (Z.mod_pos_bound (Z.of_nat (length (answered tr))) freq freq_pos). lia. }
  assert (length (answered tr ++ [(f, t)]) - S (pending_count tr) =
          length (answered tr) - pending_count tr)%nat as En by (rewrite length_app; simpl; lia).
  split; unfold reported, unreported; rewrite ?Ea, ?Es, ?Ep, ?En; simpl; try apply Hm.
  - by rewrite length_snoc, (ms_count _ _ Hm).
  - rewrite Ed. by apply answer_recv.
  - rewrite Et. apply (ms_send _ _ Hm).
  - by apply (answer_keys tr sm).
  - by apply (answer_keys tr sm).
Qed.

(** The answer that completes an interval: the report is as specified, and
    the timestamps it used are gone. *)
Lemma measures_answer_report tr sm f t now i :
  measures tr sm -> f ∈ dict_keys (sent tr) -> f ∉ dict_keys (answered tr) ->
  (sm_count sm + 1) mod freq = 0 -> t <> start ->
  sm_interval_start_time sm = Some i -> t <> i ->
  exists sm', compute_and_print pid t (answer_state f t sm) =
    (sm', report (tr ++ [Answered f t now]) t i, None) /\
    sm_count sm' = sm_count sm + 1 /\ sm_output_freq sm' = freq /\
    measures (tr ++ [Answered f t now]) (restart_interval now sm').
Proof.
  intros Hm Hfs Hfa Hq Ht Hi Hti.
  destruct (answer_pending tr f t now) as (Ea & Es & Et & Ed & Hle).
  destruct (answer_keys tr sm f t Hm Hfs Hfa) as [Hnd Hsent].
  rewrite (ms_count _ _ Hm) in Hq.
  destruct (mod_succ (Z.of_nat (length (answered tr)))) as [[_ Hr]|[? ?]]; [lia| |lia].
  assert (pending_count (tr ++ [Answered f t now]) = 0)%nat as Ep.
  { unfold pending_count. by rewrite Ea, length_snoc, Hq. }
  assert (length (answered tr ++ [(f, t)]) - Z.to_nat freq =
          length (answered tr) - pending_count tr)%nat as En.
  { unfold pending_count in *. rewrite Hr, length_app in *. simpl. lia. }
  pose proof (keys_split (length (answered tr) - pending_count tr) (answered tr ++ [(f, t)])) as Hk.
  rewrite Et, Ed in Hk. rewrite Hk in Hnd. apply NoDup_app in Hnd as (Hnd1 & Hdis & Hnd2).
  destruct (sum_rtt_ok tr (unreported tr ++ [(f, t)]) (sm_send_timestamps sm) 0 Hnd2)
    as (send' & Esum & Hsend').
  { intros g Hg. rewrite (ms_send _ _ Hm), decide_False by (intros Hin; by eapply Hdis).
    split; [apply Hsent; rewrite Hk; apply elem_of_app; by right|done]. }
  unfold compute_and_print, answer_state, compute_fps, divide. simpl.
  rewrite (ms_start _ _ Hm), Hi, (ms_freq _ _ Hm), (answer_recv _ _ _ _ Hm Hfa), Esum.
  rewrite !(proj2 (Z.eqb_neq _ _)) by lia. eexists. split; [|split; [|split]].
  - unfold report. rewrite Ea, En, Ed, length_snoc, (ms_count _ _ Hm). unfold total_rtt.
    rewrite Es, Z.add_0_l. reflexivity.
  - simpl. by rewrite (ms_count _ _ Hm).
  - done.
  - split; simpl; unfold reported, unreported; rewrite ?Ea, ?Es, ?Ep, ?Nat.sub_0_r; simpl; try done.
    + by rewrite length_snoc.
    + by rewrite drop_all.
    + intros g. rewrite Hsend', (ms_send _ _ Hm), firstn_all, Hk.
      case_decide; [by rewrite decide_True by (apply elem_of_app; by right)|].
      case_decide; [by rewrite decide_True by (apply elem_of_app; by left)|].
      by rewrite decide_False by (by intros [?|?]%elem_of_app).
    + rewrite Hk. by apply NoDup_app.
Qed.

Lemma measure_snoc tr o : measure (tr ++ [o]) = (mstep (measure tr) o).1.1.
Proof. unfold measure. by rewrite foldl_app. Qed.

(** The next response. *)
Lemma answer_step tr sm f t now i :
  measures tr sm -> f ∈ dict_keys (sent tr) -> f ∉ dict_keys (answered tr) ->
  t <> start -> sm_interval_start_time sm = Some i -> t <> i ->
  exists sm', mstep sm (Answered f t now) =
    (sm', if Z.of_nat (length (answered (tr ++ [Answered f t now]))) mod freq =? 0
          then report (tr ++ [Answered f t now]) t i else [], None) /\
    measures (tr ++ [Answered f t now]) sm'.
Proof.
  intros Hm Hfs Hfa Ht Hi Hti. rewrite answered_app. simpl. rewrite length_snoc.
  unfold sm_process_response. fold (answer_state f t sm).
  rewrite (proj2 (Z.eqb_neq (sm_output_freq _) 0)) by (simpl; rewrite (ms_freq _ _ Hm); lia).
  unfold report_due at 1. simpl sm_count at 1. simpl sm_output_freq at 1.
  rewrite (ms_freq _ _ Hm), (ms_count _ _ Hm). destruct (_ mod freq =? 0) eqn:Eq.
  - apply Z.eqb_eq in Eq. rewrite <- (ms_count _ _ Hm) in Eq.
    destruct (measures_answer_report tr sm f t now i) as (sm' & E & Ec & Ef & Hm'); try done.
    rewrite E. unfold report_due. rewrite Ec, Ef, Eq. simpl. by eexists.
  - apply Z.eqb_neq in Eq. rewrite <- (ms_count _ _ Hm) in Eq.
    unfold report_due. simpl. rewrite (ms_freq _ _ Hm), (proj2 (Z.eqb_neq _ _) Eq).
    eexists. split; [done|]. by apply measures_answer_quiet.
Qed.

Lemma orderly_measures tr : orderly_trace tr -> measures tr (measure tr).
Proof.
  induction 1 as [|tr f t Ho IH Hf|tr f t now Ho IH Hs Ha Ht Hi].
  - apply measures_start.
  - rewrite measure_snoc. by apply measures_send.
  - rewrite measure_snoc. destruct (ms_interval _ _ IH) as [i Ei].
    destruct (answer_step tr (measure tr) f t now i) as (sm' & E & Hm'); try done; [congruence|].
    by rewrite E.
Qed.
End measurement.


(** Two frames, answered out of order, with a report every second response. *)
Definition sample_trace : list mop := [Sent 1 10; Sent 2 20; Answered 2 30 31].

