(* ===== verification/ZeroMQClient.v ===== *)
(** * The ZeroMQ client

    [python-client/src/gabriel_client/zeromq_client.py].  The client pings the
    server with heartbeats, reconnects when the server falls silent, and
    resets its tokens when it hears from the server again. *)

From S2P Require Import Prelude Coro Protocol ClientState GabrielClient.

Module ZmqC.

Definition HEARTBEAT : bytes := "".
Definition HELLO_MSG : bytes := "Hello message".
Definition HEARTBEAT_INTERVAL : Z := 1.

Section zeromq_client.
Context `{!PyEnv, !Codec ToClient, !Codec FromClient, !Codec InputFrame}.

Definition sock_send (b : bytes) : clt unit := ccall (SockSend b) ≫= raise.

(** [ZeroMQClient._send_heartbeat] *)
Definition send_heartbeat (force : bool) : clt unit :=
  s ← gets id;
  if negb force && (negb (c_connected s) || c_pending_heartbeat s) then Ret tt
  else
    modify (upd_c_pending_heartbeat (fun _ => true)) ;;
    t ← ccall Monotonic;
    modify (upd_c_last_heartbeat_time (fun _ => t)) ;;
    sock_send HEARTBEAT.

(** One iteration of [ZeroMQClient._heartbeat_loop]. *)
Definition heartbeat_iter : clt unit :=
  scheduled ← gets c_schedule_heartbeat;
  go ← (if scheduled : bool then Ret true
        else try_except (ccall WaitHeartbeat ≫= raise ;; Ret true)
               (fun x => match x with TimeoutError => Ret false | _ => Throw x end));
  if go : bool then
    modify (upd_c_schedule_heartbeat (fun _ => false)) ;;
    t ← ccall Monotonic;
    last ← gets c_last_heartbeat_time;
    if t - last <? HEARTBEAT_INTERVAL then Ret tt else send_heartbeat false
  else Ret tt.

(** [ZeroMQClient._heartbeat_loop], for at most [fuel] iterations. *)
Fixpoint heartbeat_loop (fuel : nat) : clt unit :=
  running ← gets c_running;
  if running : bool then
    match fuel with
    | O => Throw NotReady
    | S fuel' => heartbeat_iter ;; heartbeat_loop fuel'
    end
  else Ret tt.

(** [ZeroMQClient._process_registered] *)
Definition zmq_process_registered (r : Registered) : clt unit :=
  process_registered r ;;
  modify (upd_c_registered_event (fun _ => true)).

(** The server was heard of again: every token pool is reset and the client
    must register again. *)
Definition reconnected : clt unit :=
  connected ← gets c_connected;
  if connected : bool then Ret tt
  else
    modify (upd_c_connected (fun _ => true)) ;;
    d ← gets c_tokens;
    for_each (dict_values d) reset_tokens ;;
    modify (upd_c_reregistration_needed (fun _ => true)).

(** [ZeroMQClient._process_response]: the statements of the method are those
    of [GrpcClient._process_response]. *)
Definition zmq_process_response (w : ResultWrapper) : clt unit := process_response w.

(** What [ZeroMQClient._consumer_handler] does with one message. *)
Definition zmq_dispatch (raw_input : bytes) : clt unit :=
  reconnected ;;
  if decide (raw_input = HEARTBEAT) then modify (upd_c_pending_heartbeat (fun _ => false))
  else
    match parse raw_input with
    | None => Ret tt
    | Some (ToClient_registered r) => zmq_process_registered r
    | Some (ToClient_result_wrapper w) => zmq_process_response w
    | Some (ToClient_engine_ids_update ids) => modify (upd_c_engine_ids (fun _ => Some ids))
    | Some ToClient_unset => Throw (PyException "Empty to_client message")
    end.

(** One iteration of [ZeroMQClient._consumer_handler]. *)
Definition zmq_consumer_iter : clt unit :=
  ready ← (ccall SockPoll ≫= raise);
  if ready : bool then
    raw_input ← (ccall SockRecv ≫= raise);
    zmq_dispatch raw_input
  else
    connected ← gets c_connected;
    (if connected : bool then modify (upd_c_connected (fun _ => false)) else Ret tt) ;;
    ccall SockReconnect ;;
    send_heartbeat true.

(** [ZeroMQClient._consumer_handler], for at most [fuel] iterations. *)
Fixpoint zmq_consumer_handler (fuel : nat) : clt unit :=
  running ← gets c_running;
  if running : bool then
    match fuel with
    | O => Throw NotReady
    | S fuel' => zmq_consumer_iter ;; zmq_consumer_handler fuel'
    end
  else Ret tt.

(** [ZeroMQClient._send_raw] *)
Definition zmq_send_raw (m : FromClient) : clt unit := sock_send (serialize m).

(** [ZeroMQClient._send_to_server] *)
Definition zmq_send_to_server (m : FromClient) : clt unit :=
  record_send_metrics m ;; zmq_send_raw m.

Definition set_task (i : nat) (b : bool) : clt unit :=
  modify (upd_c_producer_tasks (fun X => if b then {[i]} ∪ X else X ∖ {[i]})).

(** [if producer_task is not None: producer_task.cancel()].  In the [finally]
    clause of the handler the source also calls [asyncio.gather] on the task, but
    does not await it: like [cancel] it only asks the task to end, and the
    handler does not wait for it. *)
Definition cancel_task (i : nat) : clt unit :=
  tasks ← gets c_producer_tasks;
  if set_mem i tasks then ccall (TaskCancel i) else Ret tt.

(** Wait until the server is connected; [false] if the client stopped. *)
Definition await_connected (i fuel : nat) : clt bool :=
  connected ← gets c_connected;
  if connected : bool then Ret true
  else
    cancel_task i ;; set_task i false ;;
    wait_while_running Connected fuel.

(** The pending production task, created if there is none, with a timeout:
    [None] when it times out.  The task runs [produce] of the application and
    nothing of the client, so that what the client knows of it is whether there is
    one ([c_producer_tasks]) and its answer ([Produce]); it is shielded, so that
    the handler is cancelled without it. *)
Definition await_task (i : nat) : clt (option (option InputFrame)) :=
  tasks ← gets c_producer_tasks;
  (if set_mem i tasks then Ret tt
   else
     set_task i true ;;
     running ← is_running i;
     if running : bool then Ret tt
     else Throw (PyException "Producer called when not running")) ;;
  try_except (f ← (ccall (Produce i) ≫= raise); Ret (Some f))
    (fun x => match x with TimeoutError => Ret None | _ => Throw x end).

(** The part of the loop of [ZeroMQClient._producer_handler] that follows
    the wait for a token; [None]: the loop is left; otherwise the id of the
    next frame. *)
Definition zmq_send_frame (i t : nat) (frame_id : Z) (fuel : nat) : clt (option Z) :=
  target_engines ← get_target_engines i;
  if decide (target_engines = ∅) then
    return_token t ;; Throw (ValueError "targets no engines")
  else
    connected ← await_connected i fuel;
    if connected : bool then
      produced ← await_task i;
      match produced with
      | None =>
          return_token t ;;
          modify (upd_c_schedule_heartbeat (fun _ => true)) ;;
          (ccall YieldLoop ≫= raise) ;;
          Ret (Some frame_id)
      | Some input_frame =>
          set_task i false ;;
          match input_frame with
          | None => return_token t ;; Ret (Some frame_id)
          | Some f =>
              if truthy_str (Some (serialize f)) then
                m ← build_input i frame_id f;
                zmq_send_to_server m ;;
                Ret (Some (frame_id + 1))
              else return_token t ;; Ret (Some frame_id)
          end
      end
    else Ret None.

(** The loop of [ZeroMQClient._producer_handler], for at most [fuel]
    iterations. *)
Fixpoint zmq_producer_loop (i t : nat) (frame_id : Z) (fuel0 fuel : nat) : clt unit :=
  s ← gets id;
  if c_running s && set_mem i (c_input_producers s) then
    match fuel with
    | O => Throw NotReady
    | S fuel' =>
        running ← is_running i;
        (if running : bool then Ret tt else ccall (WaitForRunning i) ≫= raise) ;;
        got ← try_except (get_token t ;; Ret true)
                (fun x => match x with TimeoutError => Ret false | _ => Throw x end);
        if got : bool then
          next ← zmq_send_frame i t frame_id fuel0;
          match next with
          | None => Ret tt
          | Some n => zmq_producer_loop i t n fuel0 fuel'
          end
        else
          modify (upd_c_schedule_heartbeat (fun _ => true)) ;;
          zmq_producer_loop i t frame_id fuel0 fuel'
    end
  else Ret tt.

(** [ZeroMQClient._producer_handler] *)
Definition zmq_producer_handler (i fuel : nat) : clt unit :=
  ok ← wait_while_running Registered_event fuel;
  if ok : bool then
    set_task i false ;;
    p ← get_input_producer i;
    t ← open_pool (ip_producer_id p);
    try_finally (zmq_producer_loop i t 1 fuel fuel) (cancel_task i)
  else Ret tt.
End zeromq_client.

End ZmqC.
