(* ===== verification/ClientSession.v ===== *)
(** * Client sessions

    How the three clients of [python-client/src/gabriel_client/] are
    constructed ([__init__]) and run ([launch_async], [_run_session]): the tasks
    a client creates, what it does when one of them ends, and how it shuts the
    others down.  The tasks are the handlers of [GrpcClient], [WebsocketClient]
    and [ZeroMQClient]. *)

From S2P Require Import Prelude Coro Tasks Protocol ClientState GabrielClient GrpcClient.
From S2P Require Import WebsocketClient ZeroMQClient.

(** ** Construction *)

(** [GabrielClient.__init__]; [producers] are the [InputProducer] objects
    of the application. *)
Definition new_gabriel_client (client_info : option Any) (producers : list InputProducer)
    : ClientState :=
  mkClientState true false false ∅ None [] [] client_info None false None false 0 false ∅ []
    producers.

(** [self.input_producers = set(input_producers)] *)
Definition set_input_producers (c : ClientState) : ClientState :=
  upd_c_input_producers (fun _ => list_to_set (seq 0 (length (c_producers c)))) c.

(** [str.lower()], on ASCII text. *)
Definition lower_ascii (a : Ascii.ascii) : Ascii.ascii :=
  let n := Ascii.nat_of_ascii a in
  if ((65 <=? n) && (n <=? 90))%nat then Ascii.ascii_of_nat (n + 32) else a.

Fixpoint str_lower (s : string) : string :=
  match s with
  | EmptyString => EmptyString
  | String a s' => String (lower_ascii a) (str_lower s')
  end.

Definition is_alpha (a : Ascii.ascii) : bool :=
  let n := Ascii.nat_of_ascii a in
  ((65 <=? n) && (n <=? 90) || (97 <=? n) && (n <=? 122))%nat.

(** The characters of a scheme: letters, digits, [+], [-] and [.]. *)
Definition is_scheme_char (a : Ascii.ascii) : bool :=
  let n := Ascii.nat_of_ascii a in
  is_alpha a || ((48 <=? n) && (n <=? 57) || (n =? 43) || (n =? 45) || (n =? 46))%nat.

(** The text before the first colon, when there is one. *)
Fixpoint before_colon (s : string) : option string :=
  match s with
  | EmptyString => None
  | String a s' =>
      if decide (Ascii.nat_of_ascii a = 58%nat) then Some EmptyString
      else String a <$> before_colon s'
  end.

Fixpoint all_chars (f : Ascii.ascii -> bool) (s : string) : bool :=
  match s with EmptyString => true | String a s' => f a && all_chars f s' end.

(** [urlparse] drops leading control characters and spaces, and every tab
    and newline. *)
Fixpoint strip_left (s : string) : string :=
  match s with
  | EmptyString => EmptyString
  | String a s' => if (Ascii.nat_of_ascii a <=? 32)%nat then strip_left s' else s
  end.

Fixpoint drop_newlines (s : string) : string :=
  match s with
  | EmptyString => EmptyString
  | String a s' =>
      if decide (Ascii.nat_of_ascii a ∈ [9; 10; 13]%nat) then drop_newlines s'
      else String a (drop_newlines s')
  end.

(** [urlparse(url).scheme]: the text before the first colon, when it starts
    with a letter and consists of the characters of a scheme. *)
Definition url_scheme (url : string) : string :=
  match before_colon (drop_newlines (strip_left url)) with
  | Some (String a s) =>
      if is_alpha a && all_chars is_scheme_char (String a s) then str_lower (String a s)
      else EmptyString
  | _ => EmptyString
  end.

Definition URI_FORMAT (host port : string) : string := ("ws://" +:+ host +:+ ":" +:+ port)%string.

(** [WebsocketClient.__init__] *)
Definition new_websocket_client (server_endpoint : string) (producers : list InputProducer)
    (client_info : option Any) : ClientState + exn :=
  let c := set_input_producers (new_gabriel_client client_info producers) in
  let scheme := url_scheme (str_lower server_endpoint) in
  if decide (scheme <> "ws"%string) then inr (ValueError ("Unsupported protocol " +:+ scheme))
  else inl c.

(** [ZeroMQClient.__init__]; the socket is external. *)
Definition new_zeromq_client (server_endpoint : string) (producers : list InputProducer)
    (client_info : option Any) : ClientState + exn :=
  let c := new_gabriel_client client_info producers in
  let scheme := url_scheme (str_lower server_endpoint) in
  if decide (scheme ∉ ["tcp"; "ipc"]%string) then
    inr (ValueError ("Unsupported protocol " +:+ scheme))
  else inl (upd_c_connected (fun _ => true) (set_input_producers c)).

(** [GrpcClient.__init__]; [credentials] is the answer of
    [build_channel_credentials], and the result has what the session uses of
    the other attributes: whether the channel is secure, and its options. *)
Definition new_grpc_client {C : Type} (credentials : option C) (channel_options : option (list (string * Z)))
    (producers : list InputProducer) (client_info : option Any)
    : ClientState * bool * list (string * Z) :=
  (set_input_producers (new_gabriel_client client_info producers),
   match credentials with Some _ => true | None => false end,
   GrpcC.merge_channel_options channel_options).

(** ** Cancellation *)

(** A cancelled await raises [CancelledError].  For [Produce] this is an
    assumption on the application: the gRPC and WebSocket handlers await its
    coroutine, which could delay the cancellation (the ZeroMQ handler awaits a
    shielded task and depends on nothing of the application). *)
#[export] Instance client_interrupt : Interrupt client_sig := fun e : cev =>
  match e return option (cresp e) with
  | OpenCall _ | Uuid4 | Monotonic | WallClock | SockReconnect | TaskCancel _ | CMetric _ _ _
  | OpenChannel _ | SockTerm => None
  | CallRead => Some (inr CancelledError)
  | CWsRecv | SockRecv => Some (inr CancelledError)
  | SockPoll => Some (inr CancelledError)
  | Produce _ => Some (inr CancelledError)
  | CloseChannel | CSleep | WsClose => Some false
  | _ => Some (inr CancelledError)
  end.

(** Supervisors of the client process. *)
Abbreviation sup A := (prog ClientState (task_sig ClientState client_sig) A).

(** An awaited call that does nothing but wait or close. *)
Definition uncancelled (b : bool) : clt unit := if b then Ret tt else Throw CancelledError.

(** [await asyncio.gather( *tasks)]; when it raises, the tasks are cancelled
    and awaited, and the exception is raised again.  The [except] clauses of
    [GrpcClient._run_session] and [ZeroMQClient.launch_async] differ in what
    they log only. *)
Definition gather_or_cancel (ts : list nat) : sup unit :=
  try_except (gather ts) (fun x =>
    if orderly x then (cancel_tasks ts ≫= fun _ => gather_all ts) ;; Throw x else Throw x).

Section launch.
Context `{!PyEnv, !Codec ToClient, !Codec FromClient, !Codec InputFrame}.

(** [[asyncio.create_task(self._producer_handler(p)) for p in self.input_producers]],
    for the handler of a transport. *)
Definition create_producers (handler : nat -> clt unit) : sup (list nat) :=
  producers ← gets c_input_producers;
  create_tasks (map handler (set_iter producers)).

(** [GrpcClient._run_session]; [fuel] bounds the loops of its tasks. *)
Definition run_session (secure : bool) (fuel : nat) : sup unit :=
  control ← lift (GrpcC.open_control secure);
  producers ← create_producers (fun i => GrpcC.grpc_producer_handler i fuel);
  rest ← create_tasks [GrpcC.grpc_consumer_handler fuel;
                       registration_handler (GrpcC.send_registration control) fuel fuel];
  try_finally (gather_or_cancel (producers ++ rest)) (lift (ccall CloseChannel ≫= uncancelled)).

(** [GrpcClient.launch_async], for at most [sessions] sessions. *)
Fixpoint grpc_launch_async (secure : bool) (fuel sessions : nat) : sup unit :=
  running ← gets c_running;
  if running : bool then
    match sessions with
    | O => Throw NotReady
    | S sessions' =>
        try_except (run_session secure fuel)
          (fun x => match x with DisconnectedError => Ret tt | _ => Throw x end) ;;
        running ← gets c_running;
        if running : bool then
          lift (ccall CSleep ≫= uncancelled) ;;
          grpc_launch_async secure fuel sessions'
        else Ret tt
    end
  else Ret tt.

(** [WebsocketClient.launch_async] *)
Definition ws_launch_async (fuel : nat) : sup unit :=
  lift (ccall WsConnect ≫= raise) ;;
  try_finally
    (consumer ← create_tasks [WsC.ws_consumer_handler fuel];
     producers ← create_producers (fun i => WsC.ws_producer_handler i fuel);
     registration ← create_tasks [registration_handler WsC.ws_send_raw fuel fuel];
     let all_tasks := (producers ++ consumer) ++ registration in
     done ← try_except (wait_first all_tasks)
              (fun x => match x with
                        | CancelledError =>
                            (cancel_tasks all_tasks ≫= fun _ => gather_all all_tasks) ;; Throw x
                        | _ => Throw x
                        end);
     (* [for task in all_tasks: if task not in done: task.cancel()] *)
     cancel_tasks (filter (fun t => t ∉ done) all_tasks) ;;
     gather_all all_tasks)
    (lift (ccall WsClose ≫= uncancelled)).

(** [ZeroMQClient.launch_async] *)
Definition zmq_launch_async (fuel : nat) : sup unit :=
  lift (ccall SockConnect ≫= raise) ;;
  lift (ZmqC.sock_send ZmqC.HELLO_MSG) ;;
  producers ← create_producers (fun i => ZmqC.zmq_producer_handler i fuel);
  rest ← create_tasks [ZmqC.zmq_consumer_handler fuel; ZmqC.heartbeat_loop fuel;
                       registration_handler ZmqC.zmq_send_raw fuel fuel];
  try_finally (gather_or_cancel (producers ++ rest)) (lift (ccall SockTerm)).
End launch.
