(* ===== verification/ClientSafety.v ===== *)
(** * Tokens of the client

    Every coroutine of the three clients keeps the token pools well formed,
    whatever the others, the application and the server do meanwhile. *)

From S2P Require Import Prelude Coro Protocol ClientState GabrielClient GrpcClient.
From S2P Require Import WebsocketClient ZeroMQClient.

(** ** The invariant *)

(** A token pool: never negative, and within its maximum as long as its
    semaphore is bounded. *)
Record pool_wf (p : TokenPool) : Prop := {
  pw_nonneg : 0 <= tp_sem_value p;
  pw_max : 0 <= tp_max_tokens p;
  pw_bounded : tp_sem_bounded p = true -> tp_sem_value p <= tp_max_tokens p;
}.

(** [strict]: every semaphore is bounded. *)
Record CInv (strict : bool) (s : ClientState) : Prop := {
  ci_pools : Forall (fun p => pool_wf p /\ (strict = true -> tp_sem_bounded p = true)) (c_pools s);
  ci_tokens : forall pid t, (c_tokens s).[pid] = Some t ->
    exists p, c_pools s !! t = Some p /\ tp_producer_id p = pid;
}.

(** The pools stay, with their maximum and their producer. *)
Definition pools_le (s s' : ClientState) : Prop :=
  forall t p, c_pools s !! t = Some p ->
    exists p', c_pools s' !! t = Some p' /\
      tp_max_tokens p' = tp_max_tokens p /\ tp_producer_id p' = tp_producer_id p.

#[export] Instance pools_le_preorder : PreOrder pools_le.
Proof.
  split.
  - intros s t p Hp. by exists p.
  - intros s1 s2 s3 H1 H2 t p Hp. destruct (H1 t p Hp) as (p2 & Hp2 & E1 & E2).
    destruct (H2 t p2 Hp2) as (p3 & Hp3 & E3 & E4). exists p3. split_and!; congruence.
Qed.

Definition pool_view (s : ClientState) := (c_pools s, c_tokens s).

Lemma CInv_view b s s' : pool_view s' = pool_view s -> CInv b s -> CInv b s'.
Proof. intros [= E1 E2] [H1 H2]. split; rewrite ?E1, ?E2; auto. Qed.

Lemma pools_le_view s0 s s' : pool_view s' = pool_view s -> pools_le s0 s -> pools_le s0 s'.
Proof. intros [= E1 E2] H. unfold pools_le. by rewrite E1. Qed.

Section client.
Variable b : bool.
Abbreviation cok p := (keeps (E := client_sig) (CInv b) pools_le p).
Abbreviation CJ := (at_rest (CInv b) pools_le).

Lemma cok_quiet {A} (p : clt A) : (forall s, preserves pool_view p s) -> cok p.
Proof. apply (keeps_preserves _ _ pool_view); [apply CInv_view | apply pools_le_view]. Qed.

Lemma cok_modify_quiet g : (forall s, pool_view (g s) = pool_view s) -> cok (modify g).
Proof. intros Hg. apply cok_quiet. intros s. by apply preserves_modify. Qed.

Lemma cok_get_pool t : cok (get_pool t).
Proof. apply cok_quiet. intros s. unfold get_pool. pres. Qed.

Lemma cok_get_input_producer i : cok (get_input_producer i).
Proof. apply cok_quiet. intros s. unfold get_input_producer. pres. Qed.

Lemma cok_put_input_producer i p : cok (put_input_producer i p).
Proof. by apply cok_modify_quiet. Qed.

(** Assigning a pool. *)
Lemma put_pool_at_rest t p p' s0 s :
  CJ s0 s -> c_pools s !! t = Some p ->
  pool_wf p' -> (b = true -> tp_sem_bounded p' = true) ->
  tp_max_tokens p' = tp_max_tokens p -> tp_producer_id p' = tp_producer_id p ->
  CJ s0 (upd_c_pools (fun l => <[t := p']> l) s).
Proof.
  intros [[Hp Ht] HG] Hl Hwf Hb Hmax Hpid.
  assert (forall t0 p0, c_pools s !! t0 = Some p0 -> exists p1, <[t := p']> (c_pools s) !! t0 = Some p1
    /\ tp_max_tokens p1 = tp_max_tokens p0 /\ tp_producer_id p1 = tp_producer_id p0) as Hkeep.
  { intros t0 p0 H0. destruct (decide (t = t0)) as [<-|Hne].
    - exists p'. rewrite list_lookup_insert_eq by (by eapply lookup_lt_Some).
      split_and!; congruence.
    - exists p0. by rewrite list_lookup_insert_ne. }
  split; [split; simpl|].
  - by apply Forall_insert.
  - intros pid t0 H0. destruct (Ht pid t0 H0) as (p0 & Hp0 & <-).
    destruct (Hkeep t0 p0 Hp0) as (p1 & ? & _ & ?). eauto.
  - etransitivity; [exact HG|]. exact Hkeep.
Qed.

Lemma safe_get_pool {B} t (k : TokenPool -> clt B) Q s0 s :
  (forall p, c_pools s !! t = Some p -> safe (CInv b) pools_le (k p) Q s0 s) ->
  (c_pools s !! t = None -> Q (inr DanglingReference) s0 s) ->
  safe (CInv b) pools_le (get_pool t ≫= k) Q s0 s.
Proof. simpl. destruct (_ !! _); simpl; auto. Qed.

Lemma pool_at s0 s t p :
  CJ s0 s -> c_pools s !! t = Some p -> pool_wf p /\ (b = true -> tp_sem_bounded p = true).
Proof. intros [[Hp _] _] Hl. rewrite Forall_lookup in Hp. by eapply Hp. Qed.

(** A token less, when there is one. *)
Lemma take_at_rest t p s0 s :
  CJ s0 s -> c_pools s !! t = Some p -> 0 < tp_sem_value p ->
  CJ s0 (upd_c_pools (fun l => <[t := set_value (tp_sem_value p - 1) p]> l) s).
Proof.
  intros HJ Hp Hpos. destruct (pool_at _ _ _ _ HJ Hp) as [[? ? Hbd] Hb].
  apply (put_pool_at_rest t p); simpl; try done. split; simpl; [lia|done|].
  intros E. specialize (Hbd E). lia.
Qed.

Lemma cok_sem_acquire t : cok (sem_acquire t).
Proof.
  intros s0 s HJ. unfold sem_acquire. apply safe_get_pool; [|done]. intros p Hp.
  destruct (Z.ltb_spec 0 (tp_sem_value p)); [by apply take_at_rest|].
  revert s0 s HJ Hp. assert (cok ((ccall (SemWait t) ≫= raise) ;;
    p' ← get_pool t;
    if bool_decide (tp_sem p' = tp_sem p) && (0 <? tp_sem_value p')
    then put_pool t (set_value (tp_sem_value p' - 1) p') else Throw NotReady)) as Hw;
    [|by intros; apply Hw].
  apply keeps_bind; [unfold ccall; keeps_tac|]. intros _ s0 s HJ.
  apply safe_get_pool; [|done]. intros p' Hp'.
  case_bool_decide; [|done]. destruct (Z.ltb_spec 0 (tp_sem_value p')); [|done].
  by apply take_at_rest.
Qed.

Lemma cok_sem_release t : cok (sem_release t).
Proof.
  intros s0 s HJ. unfold sem_release. apply safe_get_pool; [|done]. intros p Hp.
  destruct (pool_at _ _ _ _ HJ Hp) as [[? ? Hbd] Hb].
  destruct (tp_sem_bounded p) eqn:Eb; simpl.
  - destruct (Z.leb_spec (tp_max_tokens p) (tp_sem_value p)); [done|].
    apply (put_pool_at_rest t p); simpl; try done. split; simpl; [lia|done|lia].
  - apply (put_pool_at_rest t p); simpl; try done; [|by rewrite Eb].
    split; simpl; [lia|done|by rewrite Eb].
Qed.

Lemma cok_return_token t : cok (return_token t).
Proof.
  unfold return_token, ccall. apply keeps_bind; [apply cok_get_pool|intros p].
  apply keeps_bind; [keeps_tac|intros _]. apply cok_sem_release.
Qed.

Lemma cok_get_token t : cok (get_token t).
Proof.
  pose proof cok_get_pool. unfold get_token, PRODUCER_TOKEN_COUNT, ccall.
  apply keeps_bind; [apply cok_sem_acquire|intros _]. keeps_tac.
Qed.

Lemma cok_reset_tokens t : b = false -> cok (reset_tokens t).
Proof.
  intros Hb s0 s HJ. unfold reset_tokens, PRODUCER_TOKEN_COUNT, ccall.
  apply safe_get_pool; [|done]. intros p Hp. apply safe_bind. simpl.
  destruct (pool_at _ _ _ _ HJ Hp) as [[? ? Hbd] _]. intros _.
  apply (put_pool_at_rest t p); simpl; try done. by rewrite Hb.
Qed.

Lemma cok_open_pool pid : cok (open_pool pid).
Proof.
  unfold open_pool. apply keeps_bind; [keeps_tac|intros num].
  intros s0 s [[Hp Ht] HG]. unfold new_token_pool, PRODUCER_TOKEN_COUNT, ccall.
  destruct (Z.ltb_spec num 0); [by split|]. simpl. intros _.
  split; [split; simpl|].
  - apply Forall_app. split; [done|]. apply Forall_singleton. split; [by split; simpl|done].
  - intros pid' t. rewrite dict_get_set. case_decide as E.
    + subst pid'. intros [= <-]. eexists. by rewrite list_lookup_middle.
    + intros Ht'. destruct (Ht _ _ Ht') as (p & Hl & Hpid). exists p.
      split; [by apply lookup_app_l_Some|done].
  - etransitivity; [exact HG|]. intros t p Hl. exists p. simpl.
    split_and!; [by apply lookup_app_l_Some|done|done].
Qed.

Hint Resolve cok_get_pool cok_get_input_producer cok_put_input_producer cok_return_token
  cok_get_token cok_open_pool : gabriel.

(** Structural proof for the coroutines of the client. *)
Ltac cok_tac :=
  unfold ccall;
  repeat first
    [ progress keeps_tac
    | match goal with |- keeps _ _ (modify _) => apply cok_modify_quiet; done end ].

(** ** The shared operations *)

Lemma cok_wait_while_running e fuel : cok (wait_while_running e fuel).
Proof. induction fuel as [|fuel IH]; cbn -[mbind]; destruct e; unfold wait_event; cok_tac. Qed.

Lemma cok_registration_handler send f fuel :
  (forall m, cok (send m)) -> cok (registration_handler send f fuel).
Proof.
  intros Hs. pose proof cok_wait_while_running.
  assert (forall m f, cok (await_registered send m f)).
  { intros m f0. induction f0 as [|f0 IH]; cbn -[mbind]; unfold wait_event; cok_tac. }
  induction fuel as [|fuel IH]; cbn -[mbind]; unfold build_registration_message; cok_tac.
Qed.

Lemma cok_record_send_metrics m : cok (record_send_metrics m).
Proof. unfold record_send_metrics. cok_tac. Qed.

Lemma cok_process_response w : cok (process_response w).
Proof. unfold process_response, record_response_latency, return_token_of. cok_tac. Qed.

Lemma cok_process_registered r : cok (process_registered r).
Proof. unfold process_registered. cok_tac. Qed.

Lemma cok_build_input `{!PyEnv} i frame f : cok (build_input i frame f).
Proof. unfold build_input, get_target_engines. cok_tac. Qed.

Lemma cok_produce i : cok (produce i).
Proof. unfold produce. cok_tac. Qed.

Lemma cok_ws_process_response w : cok (WsC.ws_process_response w).
Proof. unfold WsC.ws_process_response, record_response_latency, return_token_of. cok_tac. Qed.

Hint Resolve cok_ws_process_response cok_wait_while_running cok_registration_handler cok_record_send_metrics
  cok_process_response cok_process_registered cok_build_input cok_produce : gabriel.

(** ** The application *)

(** What the application may do with an [InputProducer] and the client, from
    any thread. *)
Inductive app_task : clt unit -> Prop :=
| app_resume i : app_task (resume_producer i)
| app_stop i : app_task (stop_producer i)
| app_change i ids : app_task (change_target_engines i ids)
| app_add i id : app_task (add_target_engine i id)
| app_remove i id : app_task (remove_target_engine i id ;; Ret tt)
| app_stop_client : app_task stop.

Lemma cok_app p : app_task p -> cok p.
Proof.
  intros []; unfold resume_producer, stop_producer, change_target_engines, add_target_engine,
    remove_target_engine, set_targets, stop; cok_tac.
Qed.

(** ** gRPC and WebSocket *)

Section transports.
Context `{!PyEnv, !Codec ToClient, !Codec FromClient, !Codec InputFrame}.

Inductive grpc_client_task : clt unit -> Prop :=
| gc_open secure : grpc_client_task (GrpcC.open_control secure ;; Ret tt)
| gc_consumer fuel : grpc_client_task (GrpcC.grpc_consumer_handler fuel)
| gc_producer i fuel : grpc_client_task (GrpcC.grpc_producer_handler i fuel)
| gc_register control f fuel :
    grpc_client_task (registration_handler (GrpcC.send_registration control) f fuel).

Inductive ws_client_task : clt unit -> Prop :=
| wc_consumer fuel : ws_client_task (WsC.ws_consumer_handler fuel)
| wc_producer i fuel : ws_client_task (WsC.ws_producer_handler i fuel)
| wc_register f fuel : ws_client_task (registration_handler WsC.ws_send_raw f fuel).

Inductive zmq_client_task : clt unit -> Prop :=
| zc_consumer fuel : zmq_client_task (ZmqC.zmq_consumer_handler fuel)
| zc_producer i fuel : zmq_client_task (ZmqC.zmq_producer_handler i fuel)
| zc_heartbeat fuel : zmq_client_task (ZmqC.heartbeat_loop fuel)
| zc_register f fuel : zmq_client_task (registration_handler ZmqC.zmq_send_raw f fuel).

Lemma cok_clear_tokens : cok (modify (upd_c_tokens (fun _ => []))).
Proof.
  apply keeps_modify; [|by intros]. intros s [Hp Ht]. split; [done|]. by intros pid t.
Qed.

Lemma cok_grpc p : grpc_client_task p -> cok p.
Proof.
  pose proof cok_clear_tokens. destruct 1.
  - unfold GrpcC.open_control. cok_tac.
  - induction fuel as [|fuel IH]; cbn -[mbind]; [cok_tac|].
    unfold GrpcC.grpc_dispatch, GrpcC.grpc_process_registered. cok_tac.
  - assert (forall t stream frame fuel, cok (GrpcC.grpc_producer_loop i t stream frame fuel)).
    { intros t stream frame fuel0. revert frame. induction fuel0 as [|f IH]; intros frame;
        cbn -[mbind]; [cok_tac|].
      unfold is_running, GrpcC.grpc_send_frame, GrpcC.grpc_send_to_server, GrpcC.disconnected.
      cok_tac. }
    unfold GrpcC.grpc_producer_handler. cok_tac.
  - apply cok_registration_handler. intros m.
    unfold GrpcC.send_registration, GrpcC.disconnected. cok_tac.
Qed.

Lemma cok_ws p : ws_client_task p -> cok p.
Proof.
  destruct 1.
  - induction fuel as [|fuel IH]; cbn -[mbind]; [cok_tac|].
    unfold WsC.ws_dispatch, WsC.ws_process_registered. cok_tac.
  - assert (forall t frame fuel, cok (WsC.ws_producer_loop i t frame fuel)).
    { intros t frame fuel0. revert frame. induction fuel0 as [|f IH]; intros frame;
        cbn -[mbind]; [cok_tac|].
      unfold WsC.ws_send_from_client, WsC.ws_send_raw. cok_tac. }
    unfold WsC.ws_producer_handler. cok_tac.
  - apply cok_registration_handler. intros m. unfold WsC.ws_send_raw. cok_tac.
Qed.

Lemma cok_zmq p : b = false -> zmq_client_task p -> cok p.
Proof.
  intros Hb. pose proof (fun t => cok_reset_tokens t Hb).
  assert (forall f, cok (ZmqC.send_heartbeat f)).
  { intros f. unfold ZmqC.send_heartbeat, ZmqC.sock_send. cok_tac. }
  destruct 1.
  - induction fuel as [|fuel IH]; cbn -[mbind]; [cok_tac|].
    unfold ZmqC.zmq_consumer_iter, ZmqC.zmq_dispatch, ZmqC.reconnected,
      ZmqC.zmq_process_registered. cok_tac.
  - assert (forall t frame f0 fuel, cok (ZmqC.zmq_producer_loop i t frame f0 fuel)).
    { intros t frame f0 fuel0. revert frame. induction fuel0 as [|f IH]; intros frame;
        cbn -[mbind]; [cok_tac|].
      unfold is_running, ZmqC.zmq_send_frame, ZmqC.zmq_send_to_server, ZmqC.zmq_send_raw,
        ZmqC.sock_send, ZmqC.await_task, ZmqC.await_connected, ZmqC.cancel_task, ZmqC.set_task,
        is_running, get_target_engines. cok_tac. }
    unfold ZmqC.zmq_producer_handler, ZmqC.set_task, ZmqC.cancel_task. cok_tac.
  - induction fuel as [|fuel IH]; cbn -[mbind]; [cok_tac|]. unfold ZmqC.heartbeat_iter. cok_tac.
  - apply cok_registration_handler. intros m. unfold ZmqC.zmq_send_raw, ZmqC.sock_send. cok_tac.
Qed.
End transports.
End client.

(** ** Reachable states *)

(** The state of a client that has just been constructed.  [connected] is
    whether the constructor sets the event of that name: it does in the ZeroMQ
    client only. *)
Definition initial_client (connected : bool) (info : option Any) (producers : list InputProducer)
    : ClientState :=
  mkClientState true false false (list_to_set (seq 0 (length producers))) None [] [] info None
    connected None false 0 false ∅ [] producers.

Lemma initial_client_inv b con info ps : CInv b (initial_client con info ps).
Proof. split; [constructor|]. by intros pid t. Qed.

Section reachable_clients.
Context `{!PyEnv, !Codec ToClient, !Codec FromClient, !Codec InputFrame}.

(** The coroutines of one client and of its application. *)
Definition bounded_client_task (p : clt unit) : Prop :=
  grpc_client_task p \/ ws_client_task p \/ app_task p.
Definition client_task (p : clt unit) : Prop :=
  grpc_client_task p \/ ws_client_task p \/ zmq_client_task p \/ app_task p.

Lemma client_reachable_inv b spawnable con info ps c :
  (forall p, spawnable p -> keeps (E := client_sig) (CInv b) pools_le p) ->
  reachable spawnable (initial_client con info ps) c -> CInv b (p_state c).
Proof.
  intros Hsp Hr. apply (reachable_inv (CInv b) pools_le spawnable) in Hr as [HI _]; [done| |].
  - intros p s Hp HI. eapply safe_mono; [|apply (Hsp p Hp)].
    + intros o s1 s2 H2. exact H2.
    + split; [done|reflexivity].
  - apply initial_client_inv.
Qed.

(** C20.  In every reachable state of a gRPC or WebSocket client, whatever
    the server sends and the application does, every token pool holds
    between zero and its maximum of tokens, and every entry of [_tokens]
    leads to a pool of that producer. *)
Theorem client_tokens_within_bounds con info ps c t p :
  reachable bounded_client_task (initial_client con info ps) c ->
  c_pools (p_state c) !! t = Some p ->
  0 <= tp_sem_value p <= tp_max_tokens p /\
  (forall pid t', (c_tokens (p_state c)).[pid] = Some t' ->
     exists p', c_pools (p_state c) !! t' = Some p' /\ tp_producer_id p' = pid).
Proof.
  intros Hr Hp. apply (client_reachable_inv true) in Hr as [Hf Ht].
  - rewrite Forall_lookup in Hf. destruct (Hf t p Hp) as [[? ? Hb] Hs].
    split; [|done]. specialize (Hb (Hs eq_refl)). lia.
  - intros q [Hq|[Hq|Hq]]; [eapply cok_grpc, Hq|eapply cok_ws, Hq|apply cok_app, Hq].
Qed.

(** In every reachable state of any client, the ZeroMQ client
    included, no token pool holds a negative number of tokens; so a producer
    handler that was given a token had one to take. *)
Theorem client_tokens_never_negative con info ps c t p :
  reachable client_task (initial_client con info ps) c ->
  c_pools (p_state c) !! t = Some p -> 0 <= tp_sem_value p.
Proof.
  intros Hr Hp. apply (client_reachable_inv false) in Hr as [Hf Ht].
  - rewrite Forall_lookup in Hf. by destruct (Hf t p Hp) as [[? ? Hb] Hs].
  - intros q [Hq|[Hq|[Hq|Hq]]];
      [eapply cok_grpc, Hq|eapply cok_ws, Hq|eapply cok_zmq, Hq; reflexivity|apply cok_app, Hq].
Qed.
End reachable_clients.
