(* ===== verification/ClientCredits.v ===== *)
(** * The tokens of a session, at the client

    For one session of a client and one of its producers: every coroutine of the
    client, whatever the server and the application do, sends at most the inputs
    it has taken a token for, and returns a token to the pool only when an answer
    of the server brings one.  This holds of a ZeroMQ client as long as it hears
    from the server: one that does not resets its pools when the server is back.
    The counterpart of [ServerCredits]. *)

From S2P Require Import Prelude Coro Credits Protocol ClientState GabrielClient GrpcClient WebsocketClient ZeroMQClient.
From S2P Require Import ClientSafety.

(** ** Messages of the server *)

Section messages.
Context `{!Codec ToClient, !Codec FromClient}.

(** The message that a call sends. *)
Definition outgoing (e : cev) : option FromClient :=
  match e with
  | CallWrite _ m => Some m
  | CWsSend b => parse b
  | SockSend b => if decide (b = ZmqC.HELLO_MSG \/ b = ZmqC.HEARTBEAT) then None else parse b
  | _ => None
  end.

(** The message that the answer of a call brings. *)
Definition brought (e : cev) : cresp e -> option ToClient :=
  match e with
  | CallRead => fun r => match r with inl m => m | inr _ => None end
  | CWsRecv => fun r => match r with inl b => parse b | inr _ => None end
  | SockRecv => fun r =>
      match r with inl b => if decide (b = ZmqC.HEARTBEAT) then None else parse b | inr _ => None end
  | _ => fun _ => None
  end.

(** The server is heard of in time: a ZeroMQ client that polls in vain takes the
    connection for lost, and resets its tokens when it is back. *)
Definition heard (e : cev) : cresp e -> Prop :=
  match e with SockPoll => fun r => r <> inl false | _ => fun _ => True end.
End messages.

(** Pools stay, and so do the entries of [_tokens]. *)
Definition grows (s s' : ClientState) : Prop :=
  pools_le s s' /\ forall p, is_Some ((c_tokens s).[p]) -> is_Some ((c_tokens s').[p]).

#[export] Instance grows_preorder : PreOrder grows.
Proof.
  split; [intros s; split; [reflexivity|auto]|].
  intros s1 s2 s3 [H1 H2] [H3 H4]. split; [by etransitivity|auto].
Qed.

Section tariff.
Context `{!Codec ToClient, !Codec FromClient}.
(** The producer, the number of tokens granted, the number of pools that
    earlier sessions have left behind, and the identifiers of the producers of
    the application. *)
Variables (pid : string) (num : Z) (n0 : nat) (ids : list string).
(** The client is a ZeroMQ client, which counts as connected from the start. *)
Variable (zmq : bool).

(** The tokens in a pool of the producer. *)
Definition pool_tokens (p : TokenPool) : Z :=
  if decide (tp_producer_id p = pid) then tp_sem_value p else 0.

(** The tokens at the client. *)
Definition tokens_at_client (s : ClientState) : Z := total (pool_tokens <$> drop n0 (c_pools s)).

Definition send_cost (e : cev) : Z :=
  match outgoing e with Some m => one (input_of pid m) | None => 0 end.

Definition answer_gain (e : cev) (r : cresp e) : Z :=
  match brought e r with Some m => one (returns_to pid m) | None => 0 end.

Definition answer_grants (e : cev) (r : cresp e) : Prop :=
  heard e r /\ match brought e r with Some m => grants num m | None => True end.

(** An input is sent when its producer has a pool. *)
Definition send_guard (e : cev) (s : ClientState) : Prop :=
  match outgoing e with
  | Some m => input_of pid m = true -> is_Some ((c_tokens s).[pid])
  | None => True
  end.

Definition client_tariff : tariff ClientState client_sig :=
  Tariff (E := client_sig) (fun s => - tokens_at_client s) send_cost answer_gain answer_grants
    send_guard (fun _ => True).

(** The pools of the session are entered in [_tokens] and have the number of
    tokens the server grants; the identifiers of the producers are fixed. *)
Record session_inv (s : ClientState) : Prop := {
  si_length : (n0 <= length (c_pools s))%nat;
  si_tokens : forall p t, (c_tokens s).[p] = Some t -> (n0 <= t)%nat;
  si_max : forall t p, (n0 <= t)%nat -> c_pools s !! t = Some p -> tp_max_tokens p = num;
  si_registered : c_registered_event s = true -> c_num_tokens_per_producer s = Some num;
  si_ids : ip_producer_id <$> c_producers s = ids;
  si_connected : zmq = true -> c_connected s = true;
}.

Definition UInv (s : ClientState) : Prop := CInv true s /\ session_inv s.

Abbreviation Pays p Q c s0 s := (pays client_tariff UInv grows p Q c s0 s).
Abbreviation thrifty p := (frugal client_tariff UInv grows p).
Abbreviation R := (rest UInv grows).
Abbreviation Saved b := (saved UInv grows b).

(** ** Coroutines that leave the pools alone *)

Lemma thrifty_client_modify g :
  (forall s, pool_view (g s) = pool_view s) ->
  (forall s, ip_producer_id <$> c_producers (g s) = ip_producer_id <$> c_producers s) ->
  (forall s, (c_registered_event s = true -> c_num_tokens_per_producer s = Some num) ->
     c_registered_event (g s) = true -> c_num_tokens_per_producer (g s) = Some num) ->
  (forall s, zmq = true -> c_connected s = true -> c_connected (g s) = true) ->
  thrifty (modify g).
Proof.
  intros Hv Hi Hr Hcon c s0 s Hc [[HI [H1 H2 H3 H4 H5 H6]] [HG HT]]. simpl.
  pose proof (Hv s) as Hvs. injection Hvs as Hp Ht. unfold tokens_at_client. rewrite Hp.
  split; [lia|]. split; [split|split].
  - by apply (CInv_view _ s).
  - split; rewrite ?Hp, ?Ht; [done|done|done|by apply Hr|by rewrite Hi|by auto].
  - by apply (pools_le_view _ s).
  - by rewrite Ht.
Qed.

Lemma answer_gain_nonneg (e : cev) r : 0 <= answer_gain e r.
Proof. unfold answer_gain. destruct (brought e r); [apply one_bounds|done]. Qed.

(** A call that sends no input of the producer. *)
Lemma thrifty_ccall (e : cev) :
  (forall m, outgoing e = Some m -> input_of pid m = false) -> thrifty (ccall e).
Proof.
  intros He. apply frugal_call; [apply _| | |exact (answer_gain_nonneg e)].
  - simpl. unfold send_cost. destruct (outgoing e) as [m|]; [by rewrite (He m)|done].
  - intros s _. simpl. unfold send_guard. destruct (outgoing e) as [m|]; [by rewrite (He m)|done].
Qed.

(** A call that does not count. *)
Ltac quiet_call :=
  match goal with |- frugal _ _ _ (ccall ?e) =>
    apply (thrifty_ccall e); cbn [outgoing]; rewrite ?parse_serialize; by intros ? [= <-] end.
Ltac quiet_modify := apply thrifty_client_modify; [done|done|by simpl; auto|by simpl; auto; congruence].
Ltac client_tac :=
  repeat first
    [ progress frugal_tac
    | match goal with
      | |- frugal _ _ _ (ccall _) => quiet_call
      | |- frugal _ _ _ (modify _) => quiet_modify
      end ].

Lemma thrifty_get_pool t : thrifty (get_pool t).
Proof. unfold get_pool. client_tac. Qed.
Lemma thrifty_get_input_producer i : thrifty (get_input_producer i).
Proof. unfold get_input_producer. client_tac. Qed.

#[local] Hint Resolve thrifty_get_pool thrifty_get_input_producer : gabriel.

(** ** Token pools *)

(** [t] is the pool of the producer [q], in this session. *)
Definition pool_of (t : nat) (q : string) (s : ClientState) : Prop :=
  (n0 <= t)%nat /\ (exists p, c_pools s !! t = Some p /\ tp_producer_id p = q) /\
  is_Some ((c_tokens s).[q]).

Lemma pool_of_stable t q s s' : pool_of t q s -> grows s s' -> pool_of t q s'.
Proof.
  intros (Ht & (p & Hp & <-) & Hq) [HG HT]. split; [done|]. split; [|auto].
  destruct (HG _ _ Hp) as (p' & Hp' & _ & Hid). eauto.
Qed.

(** What a token of the producer [q] is worth. *)
Definition worth (q : string) : Z := one (bool_decide (q = pid)).

Lemma tokens_put t p v s :
  (n0 <= t)%nat -> c_pools s !! t = Some p ->
  tokens_at_client (upd_c_pools (fun l => <[t := set_value v p]> l) s) =
  tokens_at_client s + worth (tp_producer_id p) * (v - tp_sem_value p).
Proof.
  intros Ht Hp. unfold tokens_at_client. simpl.
  replace t with (n0 + (t - n0))%nat at 1 by lia. rewrite drop_insert_ge by lia.
  rewrite list_fmap_insert.
  erewrite total_insert by (rewrite list_lookup_fmap, lookup_drop;
    replace (n0 + (n0 + (t - n0) - n0))%nat with t by lia; rewrite Hp; done).
  unfold pool_tokens, worth. simpl. destruct (decide (tp_producer_id p = pid)).
  - rewrite bool_decide_true by done. simpl. lia.
  - rewrite bool_decide_false by done. simpl. lia.
Qed.

Lemma R_put t p v s0 s :
  R s0 s -> c_pools s !! t = Some p -> 0 <= v <= tp_max_tokens p ->
  R s0 (upd_c_pools (fun l => <[t := set_value v p]> l) s).
Proof.
  intros [[HI HS] [HG HT]] Hp Hv.
  destruct (pool_at true s0 s t p) as [[Hw1 Hw2 Hw3] Hb]; [by split|done|].
  destruct (put_pool_at_rest true t p (set_value v p) s0 s) as [HI' HG']; try done.
  { split; simpl; [lia|done|lia]. }
  split; [split; [done|]|by split]. destruct HS as [H1 H2 H3 H4 H5 H6].
  split; simpl; [by rewrite length_insert|done| |done|done|done].
  intros t' p' Ht' Hp'. apply list_lookup_insert_Some in Hp' as [(<- & <- & _)|[_ Hp']]; [|eauto].
  simpl. eauto.
Qed.

(** The postcondition of a program that earns [w] when it returns. *)
Definition earns {A} (b w : Z) (P : ClientState -> Prop) (o : A + exn) (z : Z) (s0 s : ClientState)
    : Prop :=
  R s0 s /\ P s /\ b + match o with inl _ => w | inr _ => 0 end <= z.

Lemma earns_throw {A} b w P x z s0 s :
  R s0 s -> P s -> b <= z -> Pays (Throw x : clt A) (earns b w P) z s0 s.
Proof. intros H1 H2 H3. split_and!; [done|done|lia]. Qed.

Lemma get_pool_pays {B} t q (k : TokenPool -> clt B) Q z s0 s :
  pool_of t q s ->
  (forall p, c_pools s !! t = Some p -> tp_producer_id p = q -> Pays (k p) Q z s0 s) ->
  Pays (get_pool t ≫= k) Q z s0 s.
Proof. intros (_ & (p & Hp & Hq) & _) Hk. simpl. rewrite Hp. by apply Hk. Qed.

(** A token is taken. *)
Lemma take_pays t q p b z s0 s :
  R s0 s -> pool_of t q s -> c_pools s !! t = Some p -> tp_producer_id p = q ->
  0 < tp_sem_value p -> b <= z ->
  Pays (put_pool t (set_value (tp_sem_value p - 1) p)) (earns b (worth q) (pool_of t q)) z s0 s.
Proof.
  intros HR Hq Hp <- Hv Hb. destruct Hq as (Ht & _ & Hq).
  destruct (pool_at true s0 s t p) as [[? ? Hbd] Hbb]; [by destruct HR as [[] []]|done|].
  specialize (Hbd (Hbb eq_refl)).
  unfold put_pool. cbn [modify pays amount client_tariff].
  rewrite (tokens_put _ _ _ _ Ht Hp). split; [apply R_put; [done|done|lia]|].
  split; [|lia]. split; [done|]. split; [|done].
  eexists. simpl. rewrite list_lookup_insert_eq by (by eapply lookup_lt_Some). by split.
Qed.

Lemma sem_acquire_pays t q b z s0 s :
  R s0 s -> pool_of t q s -> 0 <= b <= z ->
  Pays (sem_acquire t) (earns b (worth q) (pool_of t q)) z s0 s.
Proof.
  intros HR Hq Hb. unfold sem_acquire. apply (get_pool_pays _ q); [done|]. intros p Hp Hid.
  destruct (Z.ltb_spec 0 (tp_sem_value p)); [apply take_pays; auto; lia|].
  destruct HR as [HI HG]. simpl. intros _. unfold send_cost, answer_gain. cbn [outgoing brought].
  rewrite Z.sub_0_r, Z.add_0_r.
  split_and!; [done|done|lia|done|]. intros r s1 _ HI1 _ HG1.
  assert (pool_of t q s1) as Hq1 by (by eapply pool_of_stable).
  assert (R s1 s1) as HR1 by by split.
  destruct r as [[]|x]; [|by apply earns_throw; [..|lia]].
  apply (get_pool_pays _ q _ _ _ _ _ Hq1). intros p' Hp' Hid'.
  case_bool_decide; simpl; [|by apply earns_throw; [..|lia]].
  destruct (Z.ltb_spec 0 (tp_sem_value p')); [|by apply earns_throw; [..|lia]].
  apply take_pays; auto. lia.
Qed.

Lemma get_token_pays t q b z s0 s :
  R s0 s -> pool_of t q s -> 0 <= b <= z ->
  Pays (get_token t) (earns b (worth q) (pool_of t q)) z s0 s.
Proof.
  intros HR Hq Hb. unfold get_token. apply pays_bind.
  eapply pays_mono; [|by apply (sem_acquire_pays t q b)].
  intros [[]|x] z1 s1 s2 (H1 & H2 & H3); [|by split_and!].
  apply (get_pool_pays _ q _ _ _ _ _ H2). intros p Hp Hid. simpl. intros r.
  exact (conj H1 (conj H2 H3)).
Qed.

(** A token is returned, at the price of what it is worth. *)
Lemma return_token_pays t q b z s0 s :
  R s0 s -> pool_of t q s -> 0 <= b -> b + worth q <= z ->
  Pays (return_token t) (Saved b) z s0 s.
Proof.
  intros HR Hq Hb Hz. pose proof (one_bounds (bool_decide (q = pid))) as Hw. unfold worth in *.
  unfold return_token. apply (get_pool_pays _ q _ _ _ _ _ Hq). intros p Hp Hid.
  simpl. intros _. unfold sem_release. rewrite Hp. simpl.
  destruct (pool_at true s0 s t p) as [[? ? Hbd] Hbb]; [by destruct HR as [[] []]|done|].
  rewrite (Hbb eq_refl). simpl. destruct (Z.leb_spec (tp_max_tokens p) (tp_sem_value p)).
  - split; [lia|done].
  - cbn [pays modify amount client_tariff put_pool]. destruct Hq as (Ht & _ & _).
    simpl. rewrite (tokens_put _ _ _ _ Ht Hp). unfold worth. rewrite Hid.
    split; [lia|]. apply R_put; [done|done|lia].
Qed.

(** ** Registration *)

Lemma wait_while_running_pays e fuel b z s0 s :
  R s0 s -> 0 <= b <= z ->
  Pays (wait_while_running e fuel) (fun o z' s0 s => Saved b o z' s0 s /\ (o = inl true -> is_set e s = true))
    z s0 s.
Proof.
  assert (thrifty (try_except (wait_event e)
            (fun x => match x with TimeoutError => Ret tt | _ => Throw x end))) as Hw.
  { destruct e; unfold wait_event; client_tac. }
  revert z s0 s. induction fuel as [|fuel IH]; intros z s0 s HR Hb; cbn [wait_while_running];
    apply pays_gets; unfold id; destruct (c_running s), (is_set e s) eqn:He; cbn [andb negb];
    try (split; [split; [lia|done]|done]).
  apply pays_bind. eapply pays_mono; [|by apply (frugal_from _ _ _ _ b _ _ _ Hw); [lia|lia|]].
  intros [[]|x] z1 s1 s2 [H1 H2]; [|by split]. apply IH; [done|lia].
Qed.

Lemma thrifty_wait_while_running e fuel : thrifty (wait_while_running e fuel).
Proof.
  intros z s0 s Hz HR. eapply pays_mono; [|apply (wait_while_running_pays e fuel z); [done|lia]].
  by intros o z1 s1 s2 [H1 _].
Qed.

Lemma thrifty_build {B} (k : FromClient -> clt B) :
  (forall info, thrifty (k (FromClient_registration info))) -> thrifty (build_registration_message ≫= k).
Proof. intros Hk z s0 s Hz HR. by apply Hk. Qed.

Lemma thrifty_registration_handler send f fuel :
  (forall info, thrifty (send (FromClient_registration info))) -> thrifty (registration_handler send f fuel).
Proof.
  intros Hs. pose proof thrifty_wait_while_running.
  assert (forall info f, thrifty (await_registered send (FromClient_registration info) f)).
  { intros info f0. induction f0 as [|f0 IH]; cbn -[mbind]; unfold wait_event; client_tac. }
  induction fuel as [|fuel IH]; [cbn -[mbind]; client_tac|]. cbn [registration_handler].
  apply frugal_bind; [client_tac|intros []; [|client_tac]].
  apply thrifty_build. intros info. client_tac.
Qed.

Lemma thrifty_send_registration control info :
  thrifty (GrpcC.send_registration control (FromClient_registration info)).
Proof. unfold GrpcC.send_registration, GrpcC.disconnected. client_tac. Qed.

Lemma thrifty_ws_send_registration info : thrifty (WsC.ws_send_raw (FromClient_registration info)).
Proof. unfold WsC.ws_send_raw. client_tac. Qed.

(** What a ZeroMQ client sends, unless it reads as a heartbeat. *)
Lemma outgoing_sock m m' : outgoing (SockSend (serialize m)) = Some m' -> m' = m.
Proof. cbn [outgoing]. case_decide; [done|]. rewrite parse_serialize. by intros [= <-]. Qed.

Lemma thrifty_zmq_send_registration info : thrifty (ZmqC.zmq_send_raw (FromClient_registration info)).
Proof.
  unfold ZmqC.zmq_send_raw, ZmqC.sock_send. apply frugal_bind; [|client_tac].
  apply (thrifty_ccall (SockSend (serialize (FromClient_registration info)))). by intros m ->%outgoing_sock.
Qed.

Lemma thrifty_send_heartbeat force : thrifty (ZmqC.send_heartbeat force).
Proof.
  assert (thrifty (ccall (SockSend ZmqC.HEARTBEAT))) by (by apply (thrifty_ccall (SockSend ZmqC.HEARTBEAT))).
  unfold ZmqC.send_heartbeat, ZmqC.sock_send. client_tac.
Qed.

Lemma thrifty_heartbeat_loop fuel : thrifty (ZmqC.heartbeat_loop fuel).
Proof.
  pose proof (thrifty_send_heartbeat false).
  assert (thrifty ZmqC.heartbeat_iter) by (unfold ZmqC.heartbeat_iter; client_tac).
  induction fuel; cbn [ZmqC.heartbeat_loop]; client_tac.
Qed.

(** ** Answers of the server *)

Lemma tokens_pool_of q t s : UInv s -> (c_tokens s).[q] = Some t -> pool_of t q s.
Proof.
  intros [[_ Hci] HS] Ht. split; [by eapply si_tokens|]. split; [|by exists t]. by apply Hci.
Qed.

(** A response: what is done with the result, and the return of the token. *)
Lemma response_pays (first : clt unit) w b z s0 s :
  thrifty first -> R s0 s -> 0 <= b -> b + one (returns_to pid (ToClient_result_wrapper w)) <= z ->
  Pays (first ;; if rw_return_token w then return_token_of (rw_producer_id w) else Ret tt) (Saved b) z s0 s.
Proof.
  intros Hf HR Hb Hz. pose proof (one_bounds (returns_to pid (ToClient_result_wrapper w))) as Hone.
  apply pays_bind. eapply pays_mono; [|by apply (frugal_from _ _ _ _ z _ _ _ Hf); [lia|lia|]].
  intros [[]|x] z1 s1 s2 [H1 H2]; [|by split; [lia|]].
  simpl in Hz, Hone. destruct (rw_return_token w); simpl in Hz, Hone; [|by split; [lia|]].
  unfold return_token_of. apply pays_bind, pays_gets.
  destruct (_.[_]) as [t|] eqn:Ht; [|by split; [lia|]].
  apply (return_token_pays t (rw_producer_id w) b); [done|by apply tokens_pool_of; [apply H2|]|done|].
  simpl in Hz. unfold worth. lia.
Qed.

Lemma process_response_pays w b z s0 s :
  R s0 s -> 0 <= b -> b + one (returns_to pid (ToClient_result_wrapper w)) <= z ->
  Pays (process_response w) (Saved b) z s0 s.
Proof. apply response_pays. unfold record_response_latency. client_tac. Qed.

Lemma ws_process_response_pays w b z s0 s :
  R s0 s -> 0 <= b -> b + one (returns_to pid (ToClient_result_wrapper w)) <= z ->
  Pays (WsC.ws_process_response w) (Saved b) z s0 s.
Proof. apply response_pays. unfold record_response_latency. client_tac. Qed.

(** The acknowledgement of the registration: the pools get [num] tokens. *)
Lemma registered_state s0 s s' :
  R s0 s -> pool_view s' = pool_view s -> c_producers s' = c_producers s ->
  (c_connected s = true -> c_connected s' = true) ->
  c_num_tokens_per_producer s' = Some num -> R s0 s'.
Proof.
  intros [[HI [H1 H2 H3 H4 H5 H6]] [HG HT]] Hv Hp Hcon Hn. pose proof Hv as [= Hpools Htok].
  split; [split|split].
  - by apply (CInv_view _ s).
  - split; rewrite ?Hpools, ?Htok, ?Hp; auto.
  - by apply (pools_le_view _ s).
  - by rewrite Htok.
Qed.

Lemma process_registered_pays r b z s0 s :
  R s0 s -> num_tokens_per_producer r = num -> b <= z ->
  Pays (GrpcC.grpc_process_registered r) (Saved b) z s0 s.
Proof.
  intros HR Hn Hb. simpl. unfold tokens_at_client. simpl.
  split; [lia|]. apply (registered_state s0 s); [done..|]. simpl. by rewrite Hn.
Qed.

Lemma ws_process_registered_pays r b z s0 s :
  R s0 s -> num_tokens_per_producer r = num -> b <= z ->
  Pays (WsC.ws_process_registered r) (Saved b) z s0 s.
Proof.
  intros HR Hn Hb. simpl. unfold tokens_at_client. simpl.
  split; [lia|]. apply (registered_state s0 s); [done..|]. simpl. by rewrite Hn.
Qed.

(** A message of the server, by its kind. *)
Lemma by_kind_pays (dispatch : ToClient -> clt unit) registered response m b z s0 s :
  (dispatch m = match m with
                | ToClient_registered r => registered r
                | ToClient_result_wrapper w => response w
                | ToClient_engine_ids_update ids => modify (upd_c_engine_ids (fun _ => Some ids))
                | ToClient_unset => Throw (PyException "Empty to_client message")
                end) ->
  (forall r, num_tokens_per_producer r = num -> b <= z -> Pays (registered r) (Saved b) z s0 s) ->
  (forall w, b + one (returns_to pid (ToClient_result_wrapper w)) <= z ->
     Pays (response w) (Saved b) z s0 s) ->
  R s0 s -> grants num m -> 0 <= b -> b + one (returns_to pid m) <= z ->
  Pays (dispatch m) (Saved b) z s0 s.
Proof.
  intros -> Hreg Hres HR Hg Hb Hz. destruct m as [|r|w|ids'].
  - split; [simpl in Hz; lia|done].
  - apply Hreg; [done|]. simpl in Hz. lia.
  - by apply Hres.
  - assert (thrifty (modify (upd_c_engine_ids (fun _ => Some ids')))) as Hm by client_tac.
    apply (frugal_from _ _ _ _ _ _ _ _ Hm); [done|simpl in Hz; lia|done].
Qed.

Lemma dispatch_pays m b z s0 s :
  R s0 s -> grants num m -> 0 <= b -> b + one (returns_to pid m) <= z ->
  Pays (GrpcC.grpc_dispatch m) (Saved b) z s0 s.
Proof.
  intros. eapply by_kind_pays; [reflexivity|..]; [..|done|done|done|done]; intros.
  - by apply process_registered_pays.
  - by apply process_response_pays.
Qed.

Lemma ws_dispatch_pays m b z s0 s :
  R s0 s -> grants num m -> 0 <= b -> b + one (returns_to pid m) <= z ->
  Pays (WsC.ws_dispatch m) (Saved b) z s0 s.
Proof.
  intros. eapply by_kind_pays; [reflexivity|..]; [..|done|done|done|done]; intros.
  - by apply ws_process_registered_pays.
  - by apply ws_process_response_pays.
Qed.

(** A gRPC client that reads no message counts as disconnected. *)
Lemma thrifty_consumer_handler fuel : zmq = false -> thrifty (GrpcC.grpc_consumer_handler fuel).
Proof.
  intros Hzmq. induction fuel as [|fuel IH]; cbn [GrpcC.grpc_consumer_handler];
    (apply frugal_bind; [client_tac|intros []; [|client_tac]]); [client_tac|].
  intros z s0 s Hz [HI HG]. simpl. intros _. rewrite Z.sub_0_r.
  split_and!; [done|done|lia|done|]. intros r s1 Hall HI1 _ HG1.
  assert (R s1 s1) as HR by by split.
  assert (thrifty (modify (upd_c_connected (fun _ => false)) ;; Throw DisconnectedError : clt unit)) as Hdis.
  { apply frugal_bind; [|intros; apply frugal_throw].
    apply thrifty_client_modify; [done|done|by simpl; auto|by rewrite Hzmq]. }
  destruct Hall as [_ Hall]. destruct r as [[m|]|x]; cbn in Hall |- *.
  - apply pays_bind. eapply pays_mono; [|apply (dispatch_pays m z); [done|done|lia|unfold answer_gain; simpl; lia]].
    intros [[]|x] z1 s2 s3 [H2 H3]; [by apply frugal_from|by split].
  - rewrite Z.add_0_r. by apply Hdis.
  - rewrite Z.add_0_r. destruct x; try (by split; [lia|]). by apply Hdis.
Qed.

Lemma thrifty_ws_consumer_handler fuel : thrifty (WsC.ws_consumer_handler fuel).
Proof.
  induction fuel as [|fuel IH]; cbn [WsC.ws_consumer_handler];
    (apply frugal_bind; [client_tac|intros []; [|client_tac]]); [client_tac|].
  intros z s0 s Hz [HI HG]. simpl. intros _. rewrite Z.sub_0_r.
  split_and!; [done|done|lia|done|]. intros r s1 Hall HI1 _ HG1.
  assert (R s1 s1) as HR by by split.
  destruct Hall as [_ Hall]. destruct r as [raw|x]; [|pose proof (answer_gain_nonneg CWsRecv (inr x)); destruct x; by split; [lia|]].
  unfold answer_grants, answer_gain in *. cbn [brought] in *. apply pays_bind.
  destruct (parse raw) as [m|]; cbn [of_option pays]; [|by split; [lia|]].
  apply pays_bind. eapply pays_mono; [|apply (ws_dispatch_pays m z); [done|done|lia|lia]].
  intros [[]|x] z1 s2 s3 [H2 H3]; [by apply frugal_from|by split].
Qed.

(** A ZeroMQ client that stays connected resets no tokens. *)
Lemma reconnected_pays {B} (k : unit -> clt B) Q z s0 s :
  zmq = true -> UInv s -> Pays (k tt) Q z s0 s -> Pays (ZmqC.reconnected ≫= k) Q z s0 s.
Proof.
  intros Hz [_ HS] Hk. unfold ZmqC.reconnected. apply pays_bind, pays_gets.
  by rewrite (si_connected _ HS Hz).
Qed.

Lemma zmq_dispatch_pays raw b z s0 s :
  zmq = true -> R s0 s -> answer_grants SockRecv (inl raw) -> 0 <= b ->
  b + answer_gain SockRecv (inl raw) <= z ->
  Pays (ZmqC.zmq_dispatch raw) (Saved b) z s0 s.
Proof.
  intros Hzmq HR [_ Hg] Hb Hz. unfold ZmqC.zmq_dispatch.
  apply reconnected_pays; [done|apply HR|]. unfold answer_gain in Hz. cbn [brought] in *. case_decide.
  - assert (thrifty (modify (upd_c_pending_heartbeat (fun _ => false)))) as Hm by client_tac.
    apply (frugal_from _ _ _ _ _ _ _ _ Hm); [done|lia|done].
  - destruct (parse raw) as [m|]; [|split; [lia|done]].
    eapply (by_kind_pays (fun m => match m with
      | ToClient_registered r => ZmqC.zmq_process_registered r
      | ToClient_result_wrapper w => ZmqC.zmq_process_response w
      | ToClient_engine_ids_update ids => modify (upd_c_engine_ids (fun _ => Some ids))
      | ToClient_unset => Throw (PyException "Empty to_client message")
      end)); [reflexivity| | |done|done|done|done]; intros.
    + by apply ws_process_registered_pays.
    + by apply process_response_pays.
Qed.

Lemma thrifty_zmq_consumer_handler fuel : zmq = true -> thrifty (ZmqC.zmq_consumer_handler fuel).
Proof.
  intros Hzmq.
  assert (thrifty ZmqC.zmq_consumer_iter) as Hiter.
  { intros z s0 s Hz [HI HG]. unfold ZmqC.zmq_consumer_iter. simpl. intros _. rewrite Z.sub_0_r.
    split_and!; [done|done|lia|done|]. intros r s1 [Hheard _] HI1 _ HG1. unfold answer_gain. simpl.
    rewrite Z.add_0_r. assert (R s1 s1) as HR by by split.
    destruct r as [[]|x]; simpl; [|by destruct Hheard|by split].
    intros _. rewrite Z.sub_0_r. split_and!; [done|reflexivity|lia|done|]. intros r s2 Hall HI2 _ HG2.
    assert (R s2 s2) as HR2 by by split.
    destruct r as [raw|x]; simpl; [|split; [unfold answer_gain; simpl; lia|done]].
    apply zmq_dispatch_pays; [done|done|done|done|lia]. }
  induction fuel; cbn [ZmqC.zmq_consumer_handler]; client_tac.
Qed.

(** ** Producers *)

(** A program that saves [b] stays with its pool. *)
Lemma saved_keep {A} (p : clt A) t q b z s0 s :
  Pays p (Saved b) z s s -> R s0 s -> pool_of t q s ->
  Pays p (fun o z' s0 s => Saved b o z' s0 s /\ pool_of t q s) z s0 s.
Proof.
  intros Hp HR Hq. apply pays_keep; [apply _|apply pool_of_stable|done|apply HR|done].
Qed.

Lemma thrifty_keep {A} (p : clt A) t q b z s0 s :
  thrifty p -> R s0 s -> pool_of t q s -> 0 <= b <= z ->
  Pays p (fun o z' s0 s => Saved b o z' s0 s /\ pool_of t q s) z s0 s.
Proof.
  intros Hp HR Hq Hb. apply saved_keep; [|done|done].
  apply frugal_from; [done|lia|lia|]. split; [apply HR|reflexivity].
Qed.

Section producer.
Context `{!PyEnv, !Codec InputFrame}.
Variables (i : nat) (q : string).
Hypothesis producer_id : ids !! i = Some q.

Lemma producer_at s p : UInv s -> c_producers s !! i = Some p -> ip_producer_id p = q.
Proof.
  intros [_ HS] Hp. pose proof (si_ids _ HS) as Hids.
  rewrite <- Hids, list_lookup_fmap, Hp in producer_id. by injection producer_id.
Qed.

Lemma build_input_pays {B} frame f (k : FromClient -> clt B) Q z s0 s :
  UInv s ->
  (forall m, input_of pid m = bool_decide (q = pid) -> Pays (k m) Q z s0 s) ->
  (forall x, Q (inr x) z s0 s) ->
  Pays (build_input i frame f ≫= k) Q z s0 s.
Proof.
  intros HI Hk HQ. apply pays_bind. unfold build_input, get_target_engines.
  destruct (in_int64 frame); [|by apply HQ]. simpl.
  destruct (c_producers s !! i) as [p|] eqn:Hp; [|by apply HQ]. simpl. rewrite Hp. simpl.
  destruct (c_engine_ids s) as [l|]; [|by apply HQ]. simpl.
  destruct (decide _); [|by apply HQ]. simpl. rewrite Hp. simpl.
  apply Hk. unfold input_of. simpl. by rewrite (producer_at s p).
Qed.

(** An input is sent for the token that was taken. *)
Lemma send_to_server_pays m t stream b z s0 s :
  input_of pid m = bool_decide (q = pid) ->
  R s0 s -> pool_of t q s -> 0 <= b -> b + worth q <= z ->
  Pays (GrpcC.grpc_send_to_server m stream) (Saved b) z s0 s.
Proof.
  intros Hm HR Hq Hb Hz. pose proof (one_bounds (bool_decide (q = pid))). unfold worth in Hz.
  unfold GrpcC.grpc_send_to_server. apply pays_bind.
  eapply pays_mono; [|apply (thrifty_keep _ t q z); [unfold record_send_metrics; client_tac|done|done|lia]].
  intros [[]|x] z1 s1 s2 [[H1 [HI HG]] H2]; [|by split; [lia|]].
  simpl. intros _. unfold send_cost, send_guard, answer_gain. cbn [outgoing brought]. rewrite Hm, Z.add_0_r.
  split_and!; [done|done|lia| |].
  - intros Hin. apply bool_decide_eq_true in Hin as <-. apply H2.
  - intros r s3 _ HI3 _ HG3. destruct r as [[]|x]; simpl; (split; [lia|by split]).
Qed.

Lemma ws_send_input_pays m t b z s0 s :
  input_of pid m = bool_decide (q = pid) ->
  R s0 s -> pool_of t q s -> 0 <= b -> b + worth q <= z ->
  Pays (WsC.ws_send_from_client m) (Saved b) z s0 s.
Proof.
  intros Hm HR Hq Hb Hz. pose proof (one_bounds (bool_decide (q = pid))). unfold worth in Hz.
  unfold WsC.ws_send_from_client, WsC.ws_send_raw. apply pays_bind.
  eapply pays_mono; [|apply (thrifty_keep _ t q z); [unfold record_send_metrics; client_tac|done|done|lia]].
  intros [[]|x] z1 s1 s2 [[H1 [HI HG]] H2]; [|by split; [lia|]].
  simpl. intros _. unfold send_cost, send_guard, answer_gain. cbn [outgoing brought].
  rewrite parse_serialize, Hm, Z.add_0_r. split_and!; [done|done|lia| |].
  - intros Hin. apply bool_decide_eq_true in Hin as <-. apply H2.
  - intros r s3 _ HI3 _ HG3. destruct r as [[]|x]; simpl; (split; [lia|by split]).
Qed.

Lemma zmq_send_input_pays m t b z s0 s :
  input_of pid m = bool_decide (q = pid) ->
  R s0 s -> pool_of t q s -> 0 <= b -> b + worth q <= z ->
  Pays (ZmqC.zmq_send_to_server m) (Saved b) z s0 s.
Proof.
  intros Hm HR Hq Hb Hz. pose proof (one_bounds (bool_decide (q = pid))). unfold worth in Hz.
  unfold ZmqC.zmq_send_to_server, ZmqC.zmq_send_raw, ZmqC.sock_send. apply pays_bind.
  eapply pays_mono; [|apply (thrifty_keep _ t q z); [unfold record_send_metrics; client_tac|done|done|lia]].
  intros [[]|x] z1 s1 s2 [[H1 [HI HG]] H2]; [|by split; [lia|]].
  simpl. intros _. unfold send_cost, send_guard, answer_gain. cbn [brought]. rewrite Z.add_0_r.
  pose proof (outgoing_sock m) as Hout. destruct (outgoing (SockSend (serialize m))) as [m'|].
  1: specialize (Hout m' eq_refl) as ->; rewrite Hm.
  all: split_and!; [done|done|lia| |].
  - intros Hin. apply bool_decide_eq_true in Hin as <-. apply H2.
  - intros r s3 _ HI3 _ HG3. destruct r as [[]|x]; simpl; (split; [lia|by split]).
  - done.
  - intros r s3 _ HI3 _ HG3. destruct r as [[]|x]; simpl; (split; [lia|by split]).
Qed.

(** A token is given back. *)
Lemma give_back_pays {B} t (k : clt B) Q b z s0 s :
  R s0 s -> pool_of t q s -> 0 <= b -> b + worth q <= z ->
  (forall z s0 s, R s0 s -> pool_of t q s -> b <= z -> Pays k Q z s0 s) ->
  (forall x z s0 s, R s0 s -> pool_of t q s -> b <= z -> Q (inr x) z s0 s) ->
  Pays (return_token t ;; k) Q z s0 s.
Proof.
  intros HR Hq Hb Hz Hk HQ. apply pays_bind. eapply pays_mono; [|apply (saved_keep _ t q b);
    [apply (return_token_pays t q b); [|done|done|done]|done|done]].
  - intros [[]|x] z2 s1 s2 [[H1 H2] H3]; auto.
  - split; [apply HR|reflexivity].
Qed.

(** A frame is asked for. *)
Lemma produce_pays {B} t (k : option InputFrame -> clt B) Q z s0 s :
  R s0 s -> pool_of t q s -> 0 <= z ->
  (forall o z1 s0 s, R s0 s -> pool_of t q s -> z <= z1 -> Pays (k o) Q z1 s0 s) ->
  (forall x z1 s0 s, R s0 s -> pool_of t q s -> z <= z1 -> Q (inr x) z1 s0 s) ->
  Pays (produce i ≫= k) Q z s0 s.
Proof.
  intros HR Hq Hz Hk HQ. apply pays_bind.
  eapply pays_mono; [|apply (thrifty_keep _ t q z); [unfold produce; client_tac|done|done|lia]].
  intros [o|x] z1 s1 s2 [[H1 H2] H3]; auto.
Qed.

Lemma send_frame_pays t stream frame b z s0 s :
  R s0 s -> pool_of t q s -> 0 <= b -> b + worth q <= z ->
  Pays (GrpcC.grpc_send_frame i t stream frame)
    (fun o z' s0 s => Saved b o z' s0 s /\ pool_of t q s) z s0 s.
Proof.
  intros HR Hq Hb Hz. pose proof (one_bounds (bool_decide (q = pid))). unfold worth in Hz.
  unfold GrpcC.grpc_send_frame. apply (produce_pays t); [done|done|lia| |by intros; split; [split; [lia|]|]].
  clear s0 s HR Hq. intros o z1 s0 s HR Hq H1.
  assert (forall frame : Z, Pays (return_token t ;; Ret frame : clt Z)
    (fun o z' s0 s => Saved b o z' s0 s /\ pool_of t q s) z1 s0 s) as Hret.
  { intros frame'. apply (give_back_pays t _ _ b); [done|done|done|unfold worth; lia|..];
      intros; by split. }
  destruct o as [f|]; [|apply Hret]. destruct (truthy_str _); [|apply Hret].
  apply build_input_pays; [apply HR| |by intros; split; [split; [lia|]|]]. intros m Hm.
  apply pays_bind, pays_try_except.
  eapply pays_mono; [|apply (saved_keep _ t q b); [apply (send_to_server_pays _ t _ b); [done| |done|done|unfold worth; lia]|done|done]].
  - intros [[]|x] z2 s1 s2 H2; [done|]. unfold GrpcC.disconnected. by destruct x.
  - split; [apply HR|reflexivity].
Qed.

Lemma ws_producer_loop_pays t frame fuel b z s0 s :
  R s0 s -> pool_of t q s -> 0 <= b <= z ->
  Pays (WsC.ws_producer_loop i t frame fuel) (Saved b) z s0 s.
Proof.
  pose proof (one_bounds (bool_decide (q = pid))) as Hw.
  revert frame z s0 s. induction fuel as [|fuel IH]; intros frame z s0 s HR Hq Hb;
    cbn [WsC.ws_producer_loop]; apply pays_gets; destruct (c_running s); try by split; [lia|].
  apply pays_bind. eapply pays_mono; [|apply (get_token_pays t q b); [done|done|lia]].
  clear s0 s HR Hq. intros [[]|x] z1 s0 s (HR & Hq & H1); [|by split; [lia|]].
  unfold worth in H1. apply (produce_pays t); [done|done|lia| |by intros; split; [lia|]].
  clear s0 s HR Hq. intros [f|] z2 s0 s HR Hq H2.
  - apply build_input_pays; [apply HR| |by intros; split; [lia|]]. intros m Hm.
    apply pays_bind, pays_try_except, pays_bind.
    eapply pays_mono; [|apply (saved_keep _ t q b); [apply (ws_send_input_pays _ t b); [done| |done|lia|unfold worth; lia]|done|done]].
    + intros [[]|x] z3 s1 s2 [[H3 H4] H5]; [by apply IH; [..|lia]|]. by destruct x.
    + split; [apply HR|reflexivity].
  - apply (give_back_pays t _ _ b); [done|done|lia|unfold worth; lia| |by intros; split].
    intros z3 s1 s2 H3 H4 H5. by apply IH; [..|lia].
Qed.

Lemma producer_loop_pays t stream frame fuel b z s0 s :
  R s0 s -> pool_of t q s -> 0 <= b <= z ->
  Pays (GrpcC.grpc_producer_loop i t stream frame fuel) (Saved b) z s0 s.
Proof.
  revert frame z s0 s. induction fuel as [|fuel IH]; intros frame z s0 s HR Hq Hb;
    cbn [GrpcC.grpc_producer_loop]; apply pays_gets; destruct (_ && _); try by split; [lia|].
  apply pays_bind. eapply pays_mono; [|apply (thrifty_keep _ t q b); [unfold is_running; client_tac|done|done|lia]].
  clear s0 s HR Hq. intros [run|x] z1 s0 s [[H1 HR] Hq]; [|done].
  apply pays_bind. eapply pays_mono; [|apply (thrifty_keep _ t q b); [client_tac|done|done|lia]].
  clear s0 s HR Hq. intros [[]|x] z2 s0 s [[H2 HR] Hq]; [|done].
  apply pays_bind. eapply pays_mono; [|apply (get_token_pays t q b); [done|done|lia]].
  clear s0 s HR Hq. intros [[]|x] z3 s0 s (HR & Hq & H3); [|by split; [lia|]].
  apply pays_bind. eapply pays_mono; [|apply (send_frame_pays t stream frame b); [done|done|lia|lia]].
  clear s0 s HR Hq. intros [next|x] z4 s0 s [[H4 HR] Hq]; [|done].
  apply IH; [done|done|lia].
Qed.

Abbreviation Kept t b := (fun o z' s0 s => Saved b o z' s0 s /\ pool_of t q s).

(** A program between two that keep the token. *)
Lemma kept_bind {A B} (p : clt A) (k : A -> clt B) t b z s0 s :
  thrifty p -> R s0 s -> pool_of t q s -> 0 <= b <= z ->
  (forall a z1 s0 s, R s0 s -> pool_of t q s -> z <= z1 -> Pays (k a) (Kept t b) z1 s0 s) ->
  Pays (p ≫= k) (Kept t b) z s0 s.
Proof.
  intros Hp HR Hq Hb Hk. apply pays_bind. eapply pays_mono; [|apply (thrifty_keep _ t q z); [done|done|done|lia]].
  intros [a|x] z1 s1 s2 [[H1 H2] H3]; [auto|]. split; [split; [lia|done]|done].
Qed.

Lemma thrifty_set_task b : thrifty (ZmqC.set_task i b).
Proof. unfold ZmqC.set_task. client_tac. Qed.

Lemma thrifty_cancel_task : thrifty (ZmqC.cancel_task i).
Proof. unfold ZmqC.cancel_task. client_tac. Qed.

Lemma thrifty_await_connected fuel : thrifty (ZmqC.await_connected i fuel).
Proof.
  pose proof (thrifty_set_task false). pose proof thrifty_cancel_task.
  pose proof (thrifty_wait_while_running Connected fuel). unfold ZmqC.await_connected. client_tac.
Qed.

Lemma thrifty_await_task : thrifty (ZmqC.await_task i).
Proof. pose proof (thrifty_set_task true). unfold ZmqC.await_task, is_running. client_tac. Qed.

(** The token is spent on the input, or given back. *)
Lemma zmq_send_frame_pays t frame fuel b z s0 s :
  R s0 s -> pool_of t q s -> 0 <= b -> b + worth q <= z ->
  Pays (ZmqC.zmq_send_frame i t frame fuel) (Kept t b) z s0 s.
Proof.
  intros HR Hq Hb Hz. pose proof (one_bounds (bool_decide (q = pid))). unfold worth in Hz.
  assert (forall B (k : clt B) z1 s0 s, thrifty k -> R s0 s -> pool_of t q s -> z <= z1 ->
    Pays (return_token t ;; k) (Kept t b) z1 s0 s) as Hgive.
  { intros B k z1 s1 s2 Hk HR1 Hq1 H1. apply (give_back_pays t _ _ b); [done|done|done|unfold worth; lia| |by intros; split].
    intros z2 s3 s4 HR2 Hq2 H2. by apply thrifty_keep. }
  unfold ZmqC.zmq_send_frame.
  apply kept_bind; [unfold get_target_engines; client_tac|done|done|lia|].
  clear s0 s HR Hq. intros targets z1 s0 s HR Hq H1.
  destruct (decide (targets = ∅)); [apply Hgive; auto with gabriel|].
  apply kept_bind; [apply thrifty_await_connected|done|done|lia|].
  clear s0 s HR Hq. intros [] z2 s0 s HR Hq H2; [|split; [split; [lia|done]|done]].
  apply kept_bind; [apply thrifty_await_task|done|done|lia|].
  clear s0 s HR Hq. intros [input|] z3 s0 s HR Hq H3; [|apply Hgive; [client_tac|done|done|lia]].
  apply kept_bind; [apply thrifty_set_task|done|done|lia|].
  clear s0 s HR Hq. intros [] z4 s0 s HR Hq H4.
  destruct input as [f|]; [|apply Hgive; [client_tac|done|done|lia]].
  destruct (truthy_str _); [|apply Hgive; [client_tac|done|done|lia]].
  apply build_input_pays; [apply HR| |by intros; split; [split; [lia|]|]]. intros m Hm. apply pays_bind.
  eapply pays_mono; [|apply (saved_keep _ t q b); [apply (zmq_send_input_pays _ t b); [done| |done|done|unfold worth; lia]|done|done]].
  - by intros [[]|x] z5 s1 s2 H5.
  - split; [apply HR|reflexivity].
Qed.

Lemma zmq_producer_loop_pays t frame fuel0 fuel b z s0 s :
  R s0 s -> pool_of t q s -> 0 <= b <= z ->
  Pays (ZmqC.zmq_producer_loop i t frame fuel0 fuel) (Saved b) z s0 s.
Proof.
  revert frame z s0 s. induction fuel as [|fuel IH]; intros frame z s0 s HR Hq Hb;
    cbn [ZmqC.zmq_producer_loop]; apply pays_gets; destruct (_ && _); try by split; [lia|].
  apply pays_bind. eapply pays_mono; [|apply (thrifty_keep _ t q b); [unfold is_running; client_tac|done|done|lia]].
  clear s0 s HR Hq. intros [run|x] z1 s0 s [[H1 HR] Hq]; [|done].
  apply pays_bind. eapply pays_mono; [|apply (thrifty_keep _ t q b); [client_tac|done|done|lia]].
  clear s0 s HR Hq. intros [[]|x] z2 s0 s [[H2 HR] Hq]; [|done].
  apply pays_bind, pays_try_except, pays_bind.
  eapply pays_mono; [|apply (get_token_pays t q b); [done|done|lia]].
  clear s0 s HR Hq. intros [[]|x] z3 s0 s (HR & Hq & H3).
  - apply pays_ret. apply pays_bind.
    eapply pays_mono; [|apply (zmq_send_frame_pays t frame fuel0 b); [done|done|lia|lia]].
    clear s0 s HR Hq. intros [[next|]|x] z4 s0 s [[H4 HR] Hq]; [|done..].
    apply IH; [done|done|lia].
  - destruct x; try (by split; [lia|]). apply pays_ret, pays_bind.
    eapply pays_mono; [|apply (thrifty_keep _ t q b); [client_tac|done|done|lia]].
    clear s0 s HR Hq. intros [[]|x] z4 s0 s [[H4 HR] Hq]; [|done]. apply IH; [done|done|lia].
Qed.

(** A new pool holds all the tokens of the producer. *)
Lemma open_pool_pays {B} (k : nat -> clt B) Q b z s0 s :
  R s0 s -> c_num_tokens_per_producer s = Some num -> b + worth q * num <= z ->
  (num < 0 -> Q (inr (ValueError "Semaphore initial value must be >= 0")) z s0 s) ->
  (forall t z s0 s, R s0 s -> pool_of t q s -> b <= z -> Pays (k t) Q z s0 s) ->
  Pays (open_pool q ≫= k) Q z s0 s.
Proof.
  intros [[HI [H1 H2 H3 H4 H5 H6]] [HG HT]] Hn Hz Hneg Hk. apply pays_bind.
  assert (safe (CInv true) pools_le (open_pool q) (fun _ s0 s => at_rest (CInv true) pools_le s0 s) s0 s) as Hs
    by (by apply cok_open_pool).
  revert Hs. unfold open_pool, new_token_pool. simpl. rewrite Hn. simpl.
  destruct (Z.ltb_spec num 0); [by intros _; apply Hneg|]. simpl. intros Hs _. destruct (Hs tt) as [HI' HG'].
  unfold tokens_at_client. simpl.
  rewrite drop_app_le by done. rewrite fmap_app, total_app. simpl.
  assert (total [pool_tokens (mkTokenPool num num true 0 q)] = worth q * num) as ->.
  { unfold total, pool_tokens, worth. simpl. destruct (decide (q = pid)).
    - rewrite bool_decide_true by done. simpl. lia.
    - rewrite bool_decide_false by done. simpl. lia. }
  apply Hk; [|split; [done|split]|lia].
  - split; [split; [done|split; simpl; auto]|split; [done|simpl]].
    + rewrite length_app. lia.
    + intros p t. rewrite dict_get_set. case_decide; [by intros [= <-]|apply H2].
    + intros t p Ht Hp. apply lookup_app_Some in Hp as [Hp|[_ Hp]]; [eauto|].
      by apply list_lookup_singleton_Some in Hp as [_ <-].
    + intros p Hp. rewrite dict_get_set. case_decide; eauto.
  - eexists. simpl. by rewrite list_lookup_middle.
  - simpl. rewrite dict_get_set_eq. eauto.
Qed.

(** The handler of a producer waits for the registration and makes a pool. *)
Lemma handler_pays (k : nat -> clt unit) z s0 s :
  R s0 s -> 0 <= z -> worth q * num <= z -> c_registered_event s = true ->
  (forall t z s0 s, R s0 s -> pool_of t q s -> 0 <= z -> Pays (k t) (Saved 0) z s0 s) ->
  Pays (p ← get_input_producer i; t ← open_pool (ip_producer_id p); k t) (Saved 0) z s0 s.
Proof.
  intros HR Hz Hn Hset Hk. destruct (c_producers s !! i) as [p|] eqn:Hp.
  2: { cbn. rewrite Hp. by split. }
  cbn -[open_pool mbind]. change (Pays (of_option DanglingReference (c_producers s !! i) ≫= fun p =>
    open_pool (ip_producer_id p) ≫= k) (Saved 0) z s0 s).
  rewrite Hp. apply pays_ret. rewrite (producer_at s p (proj1 HR) Hp).
  apply (open_pool_pays _ _ 0); [done| |lia|by intros _; split|].
  - by apply (si_registered _ (proj2 (proj1 HR))).
  - intros t z2 s1 s2 HR2 Hq2 H2. by apply Hk.
Qed.

Lemma producer_handler_pays fuel z s0 s :
  R s0 s -> 0 <= z -> worth q * num <= z ->
  Pays (GrpcC.grpc_producer_handler i fuel) (Saved 0) z s0 s.
Proof.
  intros HR Hz Hn. unfold GrpcC.grpc_producer_handler. apply pays_bind.
  eapply pays_mono; [|apply (wait_while_running_pays Registered_event fuel z); [done|lia]].
  clear s0 s HR. intros [[]|x] z1 s0 s [[H1 HR] Hset]; [|split; [lia|done]..].
  specialize (Hset eq_refl). apply pays_bind. simpl. intros stream.
  apply handler_pays; [done|lia|lia|done|].
  intros t z2 s1 s2 HR2 Hq2 H2. by apply (producer_loop_pays t stream 1 fuel 0).
Qed.

Lemma ws_producer_handler_pays fuel z s0 s :
  R s0 s -> 0 <= z -> worth q * num <= z ->
  Pays (WsC.ws_producer_handler i fuel) (Saved 0) z s0 s.
Proof.
  intros HR Hz Hn. unfold WsC.ws_producer_handler. apply pays_bind.
  eapply pays_mono; [|apply (wait_while_running_pays Registered_event fuel z); [done|lia]].
  clear s0 s HR. intros [[]|x] z1 s0 s [[H1 HR] Hset]; [|split; [lia|done]..].
  apply handler_pays; [done|lia|lia|by apply Hset|].
  intros t z2 s1 s2 HR2 Hq2 H2. by apply (ws_producer_loop_pays t 1 fuel 0).
Qed.

Lemma zmq_producer_handler_pays fuel z s0 s :
  R s0 s -> 0 <= z -> worth q * num <= z ->
  Pays (ZmqC.zmq_producer_handler i fuel) (Saved 0) z s0 s.
Proof.
  intros HR Hz Hn. unfold ZmqC.zmq_producer_handler. apply pays_bind.
  eapply pays_mono; [|apply (wait_while_running_pays Registered_event fuel z); [done|lia]].
  clear s0 s HR. intros [[]|x] z1 s0 s [[H1 HR] Hset]; [|split; [lia|done]..].
  unfold ZmqC.set_task. apply pays_modify. rewrite Z.sub_diag, Z.add_0_r.
  apply handler_pays; [|lia|lia|by apply Hset|].
  - pose proof (thrifty_set_task false z1 s0 s ltac:(lia) HR) as [_ HR']. exact HR'.
  - intros t z2 s1 s2 HR2 Hq2 H2. apply pays_try_finally.
    eapply pays_mono; [|by apply (zmq_producer_loop_pays t 1 fuel fuel 0)].
    intros o z3 s3 s4 [H3 HR3].
    eapply pays_mono; [|by apply (frugal_from _ _ _ _ 0 _ _ _ thrifty_cancel_task)]. by intros [].
Qed.
End producer.

(** ** The application *)

Lemma put_producer_pays i p p' z s0 s :
  R s0 s -> c_producers s !! i = Some p -> ip_producer_id p' = ip_producer_id p ->
  Pays (put_input_producer i p') (Saved z) z s0 s.
Proof.
  intros [[HI [H1 H2 H3 H4 H5 H6]] [HG HT]] Hp Hid. simpl. unfold tokens_at_client. simpl.
  split; [lia|]. split; [split|by split].
  - by apply (CInv_view _ s).
  - split; simpl; auto. rewrite list_fmap_insert, Hid, <- H5. apply list_insert_id.
    by rewrite list_lookup_fmap, Hp.
Qed.

Lemma with_producer_pays {B} i (k : InputProducer -> clt B) b z s0 s :
  R s0 s -> b <= z -> (forall p, c_producers s !! i = Some p -> Pays (k p) (Saved b) z s0 s) ->
  Pays (get_input_producer i ≫= k) (Saved b) z s0 s.
Proof. intros HR Hb Hk. simpl. destruct (_ !! i) as [p|] eqn:Hp; [by apply Hk|by split]. Qed.

Lemma thrifty_app pr : app_task pr -> thrifty pr.
Proof.
  assert (forall i g, thrifty (set_targets i g)) as Hset.
  { intros i g z s0 s Hz HR. apply with_producer_pays; [done|lia|]. intros p Hp.
    by apply (put_producer_pays i p). }
  intros []; try apply Hset; intros z s0 s Hz HR.
  - apply with_producer_pays; [done|lia|]. intros p Hp. destruct (ip_running p); [by split|].
    by apply (put_producer_pays i p).
  - apply with_producer_pays; [done|lia|]. intros p Hp. by apply (put_producer_pays i p).
  - assert (thrifty (set_targets i (fun X => X ∖ {[id]}) ;; Ret true)) as Ht by client_tac.
    unfold remove_target_engine. apply pays_bind. eapply pays_mono; [|apply (with_producer_pays i _ z); [done|lia|]].
    + by intros [] z1 s1 s2 H1.
    + intros p Hp. destruct (decide _); [by apply Ht|by split].
  - assert (thrifty stop) as Hs by (unfold stop; client_tac). by apply Hs.
Qed.
End tariff.
