(* ===== verification/ClientSessionSpec.v ===== *)
(** * Properties of client sessions

    What [ClientSession] guarantees whatever the server sends, the application
    does and the handlers raise: no task outlives its session, the clean-up of a
    session ends, errors reach the caller as each client intends, and the
    invariants of [ClientSafety] hold throughout. *)

From S2P Require Import Prelude Coro Tasks TaskLogic SessionLogic Protocol ClientState.
From S2P Require Import GabrielClient GrpcClient WebsocketClient ZeroMQClient ClientSession ClientSafety.

(** ** The handlers do not resist cancellation *)

Section cancellation.
Context `{!PyEnv, !Codec ToClient, !Codec FromClient, !Codec InputFrame}.

Ltac client_cancels := unfold ccall; cancels.

Lemma wait_while_running_cancellable e fuel : cancellable (wait_while_running e fuel).
Proof. induction fuel; destruct e; cbn -[mbind]; unfold wait_event; client_cancels. Qed.

Lemma registration_cancellable send f fuel :
  (forall m, cancellable (send m)) -> cancellable (registration_handler send f fuel).
Proof.
  intros Hs. pose proof wait_while_running_cancellable.
  assert (forall m f, cancellable (await_registered send m f)).
  { intros m f0. induction f0; cbn -[mbind]; unfold wait_event; client_cancels. }
  induction fuel; cbn -[mbind]; unfold build_registration_message; client_cancels; auto.
Qed.

Lemma process_response_cancellable w : cancellable (process_response w).
Proof.
  unfold process_response, record_response_latency, return_token_of, return_token, sem_release,
    get_pool, put_pool. client_cancels.
Qed.

Lemma ws_process_response_cancellable w : cancellable (WsC.ws_process_response w).
Proof.
  unfold WsC.ws_process_response, record_response_latency, return_token_of, return_token, sem_release,
    get_pool, put_pool. client_cancels.
Qed.

Lemma get_token_cancellable t : cancellable (get_token t).
Proof.
  unfold get_token, sem_acquire, get_pool, put_pool, PRODUCER_TOKEN_COUNT. client_cancels.
Qed.

Lemma return_token_cancellable t : cancellable (return_token t).
Proof. unfold return_token, sem_release, get_pool, put_pool. client_cancels. Qed.

Lemma open_pool_cancellable pid : cancellable (open_pool pid).
Proof. unfold open_pool, new_token_pool, PRODUCER_TOKEN_COUNT. client_cancels. Qed.

Lemma build_input_cancellable i frame f : cancellable (build_input i frame f).
Proof. unfold build_input, get_target_engines, get_input_producer. client_cancels. Qed.

Lemma produce_cancellable i : cancellable (produce i).
Proof. unfold produce, get_input_producer. client_cancels. Qed.

Lemma record_send_metrics_cancellable m : cancellable (record_send_metrics m).
Proof. unfold record_send_metrics. client_cancels. Qed.

#[local] Hint Resolve wait_while_running_cancellable process_response_cancellable ws_process_response_cancellable
  get_token_cancellable return_token_cancellable open_pool_cancellable build_input_cancellable
  produce_cancellable record_send_metrics_cancellable : gabriel.

Ltac handler_cancels :=
  unfold ccall; repeat first [solve [auto with gabriel] | progress cancels].

Lemma grpc_task_cancellable p : grpc_client_task p -> cancellable p.
Proof.
  destruct 1.
  - unfold GrpcC.open_control. handler_cancels.
  - induction fuel; cbn -[mbind]; [handler_cancels|].
    unfold GrpcC.grpc_dispatch, GrpcC.grpc_process_registered, process_registered. handler_cancels.
  - assert (forall t stream frame fuel, cancellable (GrpcC.grpc_producer_loop i t stream frame fuel)).
    { intros t stream frame fuel0. revert frame. induction fuel0; intros frame; cbn -[mbind];
        unfold is_running, get_input_producer, GrpcC.grpc_send_frame, GrpcC.grpc_send_to_server,
          GrpcC.disconnected; handler_cancels. }
    unfold GrpcC.grpc_producer_handler, get_input_producer. handler_cancels.
  - apply registration_cancellable. intros m.
    unfold GrpcC.send_registration, GrpcC.disconnected. handler_cancels.
Qed.

Lemma ws_task_cancellable p : ws_client_task p -> cancellable p.
Proof.
  destruct 1.
  - induction fuel; cbn -[mbind]; [handler_cancels|].
    unfold WsC.ws_dispatch, WsC.ws_process_registered, process_registered. handler_cancels.
  - assert (forall t frame fuel, cancellable (WsC.ws_producer_loop i t frame fuel)).
    { intros t frame fuel0. revert frame. induction fuel0; intros frame; cbn -[mbind];
        unfold WsC.ws_send_from_client, WsC.ws_send_raw; handler_cancels. }
    unfold WsC.ws_producer_handler, get_input_producer. handler_cancels.
  - apply registration_cancellable. intros m. unfold WsC.ws_send_raw. handler_cancels.
Qed.

Lemma zmq_task_cancellable p : zmq_client_task p -> cancellable p.
Proof.
  assert (forall f, cancellable (ZmqC.send_heartbeat f)).
  { intros f. unfold ZmqC.send_heartbeat, ZmqC.sock_send. handler_cancels. }
  destruct 1.
  - induction fuel; cbn -[mbind]; [handler_cancels|].
    unfold ZmqC.zmq_consumer_iter, ZmqC.zmq_dispatch, ZmqC.reconnected, ZmqC.zmq_process_registered,
      process_registered, reset_tokens, PRODUCER_TOKEN_COUNT, get_pool, put_pool. handler_cancels.
  - assert (forall t frame f0 fuel, cancellable (ZmqC.zmq_producer_loop i t frame f0 fuel)).
    { intros t frame f0 fuel0. revert frame. induction fuel0; intros frame; cbn -[mbind];
        unfold ZmqC.zmq_send_frame, ZmqC.zmq_send_to_server, ZmqC.zmq_send_raw,
          ZmqC.sock_send, ZmqC.await_task, ZmqC.await_connected, ZmqC.cancel_task, ZmqC.set_task,
          is_running, get_target_engines, get_input_producer; handler_cancels. }
    unfold ZmqC.zmq_producer_handler, ZmqC.set_task, get_input_producer. handler_cancels.
    apply cancellable_try_finally; [auto|]. intros s. cbn. destruct (set_mem _ _); [|done].
    split; [done|]. by intros.
  - induction fuel; cbn -[mbind]; [handler_cancels|]. unfold ZmqC.heartbeat_iter. handler_cancels.
  - apply registration_cancellable. intros m. unfold ZmqC.zmq_send_raw, ZmqC.sock_send. handler_cancels.
Qed.
End cancellation.

(** ** Sessions *)

Section sessions.
Context `{!PyEnv, !Codec ToClient, !Codec FromClient, !Codec InputFrame}.
Context (b : bool).

Abbreviation csafe p := (tsafe (E := client_sig) (CInv b) pools_le true (own_calls orderly) p).
Abbreviation crest s0 c := (CInv b (k_state c) /\ pools_le s0 (k_state c)).
Abbreviation ctask p := (task_safe (E := client_sig) (CInv b) pools_le true p).

Lemma ctask_of p : keeps (E := client_sig) (CInv b) pools_le p -> cancellable p -> ctask p.
Proof. intros Hk Hc. by apply (task_of (E := client_sig) (CInv b) pools_le true). Qed.

Lemma gather_or_cancel_safe n ts s0 c :
  crest s0 c -> covers orderly ts c -> Forall (fun t => (t < length (k_tasks c))%nat) ts ->
  (forall t, (n <= t < length (k_tasks c))%nat -> t ∈ ts) ->
  csafe (gather_or_cancel ts)
    (fun o s0' c' => s0' = k_state c' /\ CInv b (k_state c') /\ calm orderly c' /\
                     evolves true c c' /\ raised_by n o c') s0 c.
Proof.
  intros [HI HG] Hcov Hlt Hts. unfold gather_or_cancel. apply tsafe_try_except.
  eapply tsafe_mono; [|by apply tsafe_gather]. intros [[]|x] s1 c1 (-> & HI1 & He & Ho).
  - destruct Ho as [Hd Hno]. split_and!; try done; [by eapply covers_done|].
    intros t Ht. rewrite (ev_length _ _ _ He) in Ht. specialize (Hts t Ht).
    split; [by eapply all_done_elem|]. rewrite Forall_forall in Hno. auto.
  - destruct (orderly x) eqn:Hx.
    + apply tsafe_bind. eapply tsafe_mono; [|apply tsafe_cancel_and_gather; [done|reflexivity|]].
      * intros o s2 c2 (Ho2 & -> & HI2 & He2 & Hd).
        assert (calm orderly c2) by (eapply covers_done; [exact Hcov|by etransitivity|done]).
        assert (evolves true c c2) by (by etransitivity).
        destruct Ho2 as [->| ->]; simpl; split_and!; auto.
        destruct Ho as [->|(t & _ & Ht)]; [by left|right]. exists t.
        by apply (exception_evolves true t x c1 c2).
      * by rewrite (ev_length _ _ _ He).
    + destruct Ho as [->|(t & Hin & Ht)]; [done|]. split_and!; try done; [|by simpl; eauto].
      intros Hord. rewrite (Hord t x Ht) in Hx. done.
Qed.

Lemma open_control_safe secure s0 s :
  CInv b s -> pools_le s0 s ->
  safe (CInv b) pools_le (GrpcC.open_control secure)
    (fun o s0 s => (exists a, o = inl a) /\ CInv b s /\ pools_le s0 s) s0 s.
Proof.
  intros HI HG. apply safe_direct; [by cbn; repeat (intros; split)|].
  pose proof (cok_clear_tokens b). unfold GrpcC.open_control.
  assert (keeps (E := client_sig) (CInv b) pools_le (GrpcC.open_control secure)) as Hk.
  { unfold GrpcC.open_control, ccall. repeat first [progress keeps_tac | apply cok_modify_quiet; done]. }
  by apply Hk.
Qed.

(** Awaiting the end of a connection, or a pause. *)
Lemma pause_safe (p : clt unit) (R : tasks ClientState client_sig -> Prop) s0 c :
  p = (ccall CloseChannel ≫= uncancelled) \/ p = (ccall CSleep ≫= uncancelled) \/
  p = (ccall WsClose ≫= uncancelled) ->
  crest s0 c -> calm orderly c -> (forall c', evolves true c c' -> R c') ->
  csafe (lift p) (fun o' s0' c' => crest s0' c' /\ calm orderly c' /\
    match o' with inl _ => R c' | inr x => R c' /\ x = CancelledError end) s0 c.
Proof.
  intros Hp [HI HG] Hc HR.
  assert (forall c', rely (CInv b) pools_le true c c' -> calm orderly c' /\ forall u : bool,
    csafe (lift (uncancelled u)) (fun o' s0' c' => crest s0' c' /\ calm orderly c' /\
      match o' with inl _ => R c' | inr x => R c' /\ x = CancelledError end) (k_state c') c') as Hk.
  { intros c' (He & HI' & HG'). assert (calm orderly c') by (by eapply calm_evolves).
    split; [done|]. intros []; simpl; split_and!; auto; reflexivity. }
  destruct Hp as [->|[->| ->]]; cbn; split_and!; done.
Qed.

(** Creating the handlers of the producers and other tasks. *)
Lemma create_producers_safe (handler : nat -> clt unit) (k : list nat -> sup unit) Q s0 c :
  (forall i, ctask (handler i)) ->
  (forall ps, Forall (fun p => ctask p) ps ->
     csafe (k (seq (length (k_tasks c)) (length ps))) Q s0 (add_tasks ps c)) ->
  csafe (create_producers handler ≫= k) Q s0 c.
Proof.
  intros Hh Hk. apply tsafe_bind. cbn -[create_tasks]. apply tsafe_create_tasks.
  - apply Forall_fmap, Forall_forall. intros i _. apply Hh.
  - apply Hk. apply Forall_fmap, Forall_forall. intros i _. apply Hh.
Qed.

(** The tasks of a session: those of the producers, then the others. *)
Lemma gather_session_safe (handler : nat -> clt unit) (others : list (clt unit)) (fin : clt unit) s0 c :
  (forall i, ctask (handler i)) -> Forall (fun p => ctask p) others ->
  (forall s0 c (R : tasks ClientState client_sig -> Prop), crest s0 c -> calm orderly c ->
     (forall c', evolves true c c' -> R c') ->
     csafe (lift fin) (fun o' s0' c' => crest s0' c' /\ calm orderly c' /\
       match o' with inl _ => R c' | inr x => R c' /\ x = CancelledError end) s0 c) ->
  crest s0 c -> calm orderly c ->
  csafe (producers ← create_producers handler;
         rest ← create_tasks others;
         try_finally (gather_or_cancel (producers ++ rest)) (lift fin))
    (fun o s0' c' => crest s0' c' /\ calm orderly c' /\ extends c c' /\
                     raised_by (length (k_tasks c)) o c') s0 c.
Proof.
  intros Hh Ho Hfin [HI HG] Hc. apply create_producers_safe; [done|]. intros ps Hps.
  apply tsafe_bind, tsafe_create_tasks; [done|]. rewrite add_tasks_app, add_tasks_length, <- seq_app.
  rewrite <- length_app. apply tsafe_try_finally.
  eapply tsafe_mono; [|apply (gather_or_cancel_safe (length (k_tasks c)))].
  - intros o s1 c1 (-> & HI1 & Hc1 & He1 & Hr1).
    assert (extends c c1) as Hx1.
    { etransitivity; [apply add_tasks_extends|by eapply evolves_extends]. }
    eapply tsafe_mono; [|apply (Hfin _ _ (fun c' => extends c c' /\ raised_by (length (k_tasks c)) o c'));
      [by split|done|]].
    + intros [[]|x] s2 c2 ([? ?] & ? & Hx); [done|]. destruct Hx as [[? _] ->].
      split_and!; try done. by left.
    + intros c' He. split; [|by eapply raised_by_evolves].
      etransitivity; [exact Hx1|by eapply evolves_extends].
  - rewrite !add_tasks_state. by split.
  - by apply covers_add.
  - eapply seq_below; [done|]. by rewrite add_tasks_length.
  - intros t. rewrite add_tasks_length, elem_of_seq. lia.
Qed.

(** *** The three clients *)

Lemma run_session_safe secure fuel s0 c :
  crest s0 c -> calm orderly c ->
  csafe (run_session secure fuel)
    (fun o s0' c' => crest s0' c' /\ calm orderly c' /\ extends c c' /\
                     raised_by (length (k_tasks c)) o c') s0 c.
Proof.
  intros Hr Hc. unfold run_session. apply tsafe_bind.
  assert (forall p, grpc_client_task p -> ctask p) as Ht.
  { intros p Hp. apply ctask_of; [by eapply cok_grpc|by apply grpc_task_cancellable]. }
  eapply tsafe_mono; [|eapply lift_safe; [by apply open_control_safe; apply Hr|done]].
  intros o s1 c1 ((( control & ->) & H1) & He & Hc1). rewrite <- (ev_length _ _ _ He).
  eapply tsafe_mono; [|apply gather_session_safe; try done].
  - intros o2 s2 c2 (H2 & Hc2 & Hx & Hr2). split_and!; try apply H2; try done.
    etransitivity; [by eapply evolves_extends|exact Hx].
  - intros i. apply Ht. constructor.
  - repeat constructor; apply Ht; constructor.
  - intros. apply pause_safe; auto.
Qed.

(** Nothing was raised, or the connection was lost. *)
Definition excused (c : tasks ClientState client_sig) : Prop :=
  (forall t, exception_of t c = None) \/ exists t, exception_of t c = Some DisconnectedError.

Lemma excused_evolves v (c c' : tasks ClientState client_sig) :
  calm orderly c -> evolves v c c' -> excused c -> excused c'.
Proof.
  intros Hc He [Hno|[t Ht]]; [left|right; exists t; by eapply exception_evolves].
  eapply nothing_raised; [exact Hc|exact Hno|by eapply evolves_extends|].
  intros t. rewrite (ev_length _ _ _ He). lia.
Qed.

(** How [launch_async] of the gRPC client ends: it never raises that the
    connection was lost. *)
Definition grpc_raised (o : unit + exn) (c : tasks ClientState client_sig) : Prop :=
  match o with
  | inl _ => excused c
  | inr x => x = CancelledError \/ x = NotReady \/
             (x <> DisconnectedError /\ exists t, exception_of t c = Some x)
  end.

Lemma grpc_launch_safe secure fuel sessions s0 c :
  crest s0 c -> calm orderly c -> excused c ->
  csafe (grpc_launch_async secure fuel sessions)
    (fun o s0' c' => crest s0' c' /\ calm orderly c' /\ grpc_raised o c') s0 c.
Proof.
  revert s0 c. induction sessions as [|n IH]; intros s0 c [HI HG] Hc Hex;
    cbn [grpc_launch_async]; apply tsafe_gets;
    (destruct (c_running (k_state c)); [|by split_and!]); [by split_and!; simpl; auto|].
  apply tsafe_bind, tsafe_try_except.
  eapply tsafe_mono; [|by apply run_session_safe].
  assert (forall s1 c1, crest s1 c1 -> calm orderly c1 -> excused c1 ->
    csafe (running ← gets c_running;
           if running : bool then lift (ccall CSleep ≫= uncancelled) ;; grpc_launch_async secure fuel n
           else Ret tt)
      (fun o s0' c' => crest s0' c' /\ calm orderly c' /\ grpc_raised o c') s1 c1) as Hk.
  { intros s1 c1 [HI1 HG1] Hc1 Hex1. apply tsafe_gets. destruct (c_running (k_state c1)); [|by split_and!].
    apply tsafe_bind. eapply tsafe_mono; [|apply (pause_safe _ excused); auto].
    - intros [[]|x] s2 c2 ([? ?] & Hc2 & Hx); [by apply IH|]. destruct Hx as [_ ->].
      split_and!; try done. by left.
    - intros c2 He2. by eapply excused_evolves. }
  intros [[]|x] s1 c1 ([HI1 HG1] & Hc1 & Hext & Hx).
  { apply Hk; [done|done|]. destruct Hex as [Hno|[t Ht]]; [left; by apply (nothing_raised orderly c c1)|].
    right. exists t. by apply (exception_extends t _ c c1). }
  destruct (decide (x = DisconnectedError)) as [->|Hne].
  { apply Hk; [done|done|]. right. by destruct Hx. }
  assert (csafe (Throw x) (fun o s0' c' => crest s0' c' /\ calm orderly c' /\ grpc_raised o c') s1 c1)
    as Hthrow by (split_and!; try done; destruct Hx as [->|Hx]; simpl; auto).
  destruct x; done.
Qed.

Lemma keeps_await e : keeps (E := client_sig) (CInv b) pools_le (ccall e).
Proof. exact (keeps_call (E := client_sig) _ _ e). Qed.

Lemma keeps_await_raise e (f : cresp e -> clt unit) :
  (forall r, keeps (E := client_sig) (CInv b) pools_le (f r)) ->
  keeps (E := client_sig) (CInv b) pools_le (ccall e ≫= f).
Proof. intros Hf. apply keeps_bind; [apply keeps_await|exact Hf]. Qed.

Lemma zmq_launch_safe fuel s0 c :
  b = false -> crest s0 c -> k_tasks c = [] ->
  csafe (zmq_launch_async fuel)
    (fun o s0' c' => crest s0' c' /\ calm orderly c' /\
       match o with inl _ => raised_by 0 o c' | inr _ => k_tasks c' = [] \/ raised_by 0 o c' end) s0 c.
Proof.
  intros Hb Hr Hnil. unfold zmq_launch_async.
  assert (forall p, zmq_client_task p -> ctask p) as Ht.
  { intros p Hp. apply ctask_of; [by eapply cok_zmq|by apply zmq_task_cancellable]. }
  apply setup_safe; auto; [apply keeps_await_raise; intros; apply keeps_raise|].
  intros [] s1 c1 Hr1 Hn1. apply setup_safe; auto; [apply keeps_await_raise; intros; apply keeps_raise|].
  intros [] s2 c2 Hr2 Hn2. eapply tsafe_mono; [|apply gather_session_safe; try done].
  - intros o s3 c3 (H3 & Hc3 & _ & Ho). rewrite Hn2 in Ho. split_and!; try apply H3; try done.
    destruct o; [exact Ho|by right].
  - intros i. apply Ht. constructor.
  - repeat constructor; apply Ht; constructor.
  - intros s3 c3 R [? ?] Hc3 HR. cbn. intros _. split_and!; try done. by apply HR.
  - by apply calm_nil.
Qed.

(** What [launch_async] of the WebSocket client raises, once connected:
    nothing but its own cancellation. *)
Definition ws_raised (o : unit + exn) (c : tasks ClientState client_sig) : Prop :=
  k_tasks c = [] \/ o = inl tt \/ o = inr CancelledError.

(** The tasks of a WebSocket client until the first of them ends, and their
    clean-up. *)
Lemma ws_wait_safe ts s0 c :
  crest s0 c -> covers orderly ts c -> Forall (fun t => (t < length (k_tasks c))%nat) ts ->
  csafe (done ← try_except (wait_first ts)
           (fun x => match x with
                     | CancelledError => (cancel_tasks ts ≫= fun _ => gather_all ts) ;; Throw x
                     | _ => Throw x
                     end);
         cancel_tasks (filter (fun t => t ∉ done) ts) ;; gather_all ts)
    (fun o s0' c' => crest s0' c' /\ calm orderly c' /\ ws_raised o c') s0 c.
Proof.
  intros Hr Hcov Hlt. apply tsafe_bind, tsafe_try_except.
  eapply tsafe_mono; [|by apply wait_first_safe]. intros o s1 c1 (-> & HI1 & He & Ho).
  assert (Forall (fun t => (t < length (k_tasks c1))%nat) ts) as Hlt1 by (by rewrite (ev_length _ _ _ He)).
  destruct o as [dn|x].
  - eapply tsafe_mono; [|apply (cancel_pending_safe (E := client_sig) (CInv b) pools_le true orderly);
      [by split|done|by intros t [_ ?]%(proj1 (proj2 Ho))|done]].
    intros o s2 c2 (Ho2 & H2 & He2 & Hd & _). split_and!; try apply H2; [|by right].
    eapply covers_done; [exact Hcov|by etransitivity|done].
  - subst x. apply tsafe_bind. eapply tsafe_mono; [|by apply tsafe_cancel_and_gather].
    intros o s2 c2 (Ho2 & -> & HI2 & He2 & Hd).
    assert (calm orderly c2) by (eapply covers_done; [exact Hcov|by etransitivity|done]).
    destruct Ho2 as [->| ->]; simpl; split_and!; try done; by right; right.
Qed.

Lemma ws_launch_safe fuel s0 c :
  crest s0 c -> k_tasks c = [] ->
  csafe (ws_launch_async fuel)
    (fun o s0' c' => crest s0' c' /\ calm orderly c' /\ ws_raised o c') s0 c.
Proof.
  intros Hr Hnil. unfold ws_launch_async.
  assert (forall p, ws_client_task p -> ctask p) as Ht.
  { intros p Hp. apply ctask_of; [by eapply cok_ws|by apply ws_task_cancellable]. }
  apply setup_safe; [apply keeps_await_raise; intros; apply keeps_raise|done|done|by left|].
  intros [] s1 c1 Hr1 Hn1. apply tsafe_try_finally, tsafe_bind, tsafe_create_tasks.
  { repeat constructor; apply Ht; constructor. }
  apply create_producers_safe; [intros i; apply Ht; constructor|]. intros ps Hps.
  apply tsafe_bind, tsafe_create_tasks; [repeat constructor; apply Ht; constructor|].
  rewrite !add_tasks_app, !add_tasks_length, Hn1. cbn [length plus].
  eapply tsafe_mono; [|apply ws_wait_safe].
  - intros o s2 c2 (H2 & Hc2 & Ho). eapply tsafe_mono; [|apply (pause_safe _ (ws_raised o)); auto].
    + intros [[]|x] s3 c3 (H3 & Hc3 & Hx); split_and!; try apply H3; try done. destruct Hx as [_ ->]. by right; right.
    + intros c3 He. destruct Ho as [Ho|Ho]; [left|by right].
      apply nil_length_inv. by rewrite (ev_length _ _ _ He), Ho.
  - by rewrite add_tasks_state.
  - apply covers_all. intros t. rewrite add_tasks_length, Hn1.
    rewrite !elem_of_app, !elem_of_seq, !length_app. cbn [length]. lia.
  - rewrite add_tasks_length, Hn1, !length_app. cbn [length].
    repeat (apply Forall_app; split); (eapply seq_below; [done|]); lia.
Qed.
End sessions.

(** ** What every client guarantees *)

Section clients.
Context `{!PyEnv, !Codec ToClient, !Codec FromClient, !Codec InputFrame}.

(** A client that is launched in the state its constructor leaves. *)
Inductive launched : ClientState -> sup unit -> Prop :=
| launched_grpc (secure : bool) (opts : option (list (string * Z))) ps info fuel sessions :
    launched (new_grpc_client (if secure then Some tt else None) opts ps info).1.1
      (grpc_launch_async secure fuel sessions)
| launched_ws endpoint ps info s fuel :
    new_websocket_client endpoint ps info = inl s -> launched s (ws_launch_async fuel)
| launched_zmq endpoint ps info s fuel :
    new_zeromq_client endpoint ps info = inl s -> launched s (zmq_launch_async fuel).

(** A constructed client is in the initial state of [ClientSafety]. *)
Lemma launched_initial s m : launched s m -> exists connected info ps, s = initial_client connected info ps.
Proof.
  destruct 1 as [secure opts ps info fuel n|e ps info s fuel Hs|e ps info s fuel Hs].
  - by exists false, info, ps.
  - unfold new_websocket_client in Hs. case_decide; [done|]. simplify_eq. by exists false, info, ps.
  - unfold new_zeromq_client in Hs. case_decide; [done|]. simplify_eq. by exists true, info, ps.
Qed.

(** The tasks whose end the client awaits. *)
Definition cleaning_up (m : sup unit) : option (list nat) :=
  match m with
  | Vis e _ => match e with TGatherAll ts => Some ts | _ => None end
  | _ => None
  end.

Lemma grpc_raised_evolves o (c c' : tasks ClientState client_sig) :
  calm orderly c -> evolves true c c' -> grpc_raised o c -> grpc_raised o c'.
Proof.
  intros Hc He. destruct o as [[]|x]; simpl; [by eapply excused_evolves|]. intros [->|[->|[Hx [t Ht]]]]; auto.
  right; right. split; [done|]. exists t. by eapply exception_evolves.
Qed.

Lemma grpc_sys_ok secure fuel n con info ps y :
  sys_reachable app_task (initial_client con info ps) (grpc_launch_async secure fuel n) y ->
  sys_ok (E := client_sig) (CInv true) pools_le true (own_calls orderly) (fun o c => calm orderly c /\ grpc_raised o c) y.
Proof.
  apply (supervised_ok (E := client_sig) (CInv true) pools_le true orderly);
    [apply cok_app|apply grpc_raised_evolves|apply initial_client_inv|].
  apply grpc_launch_safe; [split; [apply initial_client_inv|reflexivity]|by apply calm_nil|by left].
Qed.

Lemma ws_sys_ok fuel con info ps y :
  sys_reachable app_task (initial_client con info ps) (ws_launch_async fuel) y ->
  sys_ok (E := client_sig) (CInv true) pools_le true (own_calls orderly) (fun o c => calm orderly c /\ ws_raised o c) y.
Proof.
  apply (supervised_ok (E := client_sig) (CInv true) pools_le true orderly);
    [apply cok_app| |apply initial_client_inv|].
  - intros o c c' _ He [Hn|Ho]; [left; by eapply nil_evolves|by right].
  - apply ws_launch_safe; [split; [apply initial_client_inv|reflexivity]|done].
Qed.

Lemma zmq_sys_ok fuel con info ps y :
  sys_reachable app_task (initial_client con info ps) (zmq_launch_async fuel) y ->
  sys_ok (E := client_sig) (CInv false) pools_le true (own_calls orderly)
    (fun o c => calm orderly c /\
       match o with inl _ => raised_by 0 o c | inr _ => k_tasks c = [] \/ raised_by 0 o c end) y.
Proof.
  apply (supervised_ok (E := client_sig) (CInv false) pools_le true orderly);
    [apply cok_app| |apply initial_client_inv|].
  - intros [[]|x] c c' _ He Ho; [by eapply raised_by_evolves|].
    destruct Ho as [Hn|Ho]; [left; by eapply nil_evolves|right; by eapply raised_by_evolves].
  - apply zmq_launch_safe; [done|split; [apply initial_client_inv|reflexivity]|done].
Qed.

(** The three of them together. *)
Lemma launched_sys_ok s m y :
  launched s m -> sys_reachable app_task s m y ->
  exists b P, (forall o c, P o c -> calm orderly c) /\ sys_ok (E := client_sig) (CInv b) pools_le true (own_calls orderly) P y.
Proof.
  intros Hl Hy. destruct (launched_initial _ _ Hl) as (con & info & ps & Es).
  destruct Hl; rewrite Es in Hy.
  - do 2 eexists. split; [|by eapply grpc_sys_ok]. by intros o c [].
  - do 2 eexists. split; [|by eapply ws_sys_ok]. by intros o c [].
  - do 2 eexists. split; [|by eapply zmq_sys_ok]. by intros o c [].
Qed.

(** C26. No task outlives its session: when a client has ended, or awaits
    something that is not its tasks (the connection, the end of a channel, the
    pause before it reconnects), every task that [launch_async] and
    [_run_session] have created is done, whatever the server, the application
    and the scheduler did.  The proviso is that no handler was ended by the
    interpreter itself.  The task in which a ZeroMQ producer handler runs the
    application's [produce] is not among them: the handler cancels it and does
    not await its end. *)
Theorem no_task_outlives_its_session s m0 m c t :
  launched s m0 -> sys_reachable app_task s m0 (m, c) -> on_its_own m = true ->
  orderly_tasks orderly c -> (t < length (k_tasks c))%nat -> is_done t c = true.
Proof.
  intros Hl Hy Hm Ho Ht. destruct (launched_sys_ok _ _ _ Hl Hy) as (b & P & HP & Hok).
  eapply calm_done; [|exact Ho|exact Ht].
  by apply (sys_ok_calm (E := client_sig) (CInv b) pools_le true orderly P m).
Qed.

(** C27. The clean-up of a session ends: while a client waits for its cancelled
    tasks, every task that is not done can take a step, and whatever step it
    takes is its last.  The awaited [produce] of the application is assumed to
    give way to a cancellation. *)
Theorem cleanup_ends s m0 m ts c t :
  launched s m0 -> sys_reachable app_task s m0 (m, c) -> cleaning_up m = Some ts ->
  t ∈ ts -> is_done t c = false ->
  (exists c', task_step t c c') /\ forall c', task_step t c c' -> is_done t c' = true.
Proof.
  intros Hl Hy Hm Hin Hnd. destruct m as [| | | |[| | | | | |ts'|] k]; simplify_eq/=.
  destruct (launched_sys_ok _ _ _ Hl Hy) as (b & P & HP & Hok).
  eapply (cleanup_progress (E := client_sig) (CInv b) pools_le true (own_calls orderly) P); try done.
  intros e. destruct e; simpl; intros He; try discriminate He; repeat constructor.
Qed.

(** How a supervisor reports the errors of its tasks: it returns only if
    every task has returned, and once it has tasks it raises nothing but its own
    cancellation and what a task raised. *)
Definition reports_errors (m : sup unit) (c : tasks ClientState client_sig) : Prop :=
  (m = Ret tt ->
     forall t, (t < length (k_tasks c))%nat -> is_done t c = true /\ exception_of t c = None) /\
  (forall x, m = Throw x -> k_tasks c = [] \/ x = CancelledError \/ exists t, exception_of t c = Some x).

Lemma sys_ok_reports v (P : unit + exn -> tasks ClientState client_sig -> Prop) m c :
  (forall c, P (inl tt) c -> raised_by 0 (inl tt) c) ->
  (forall x c, P (inr x) c -> k_tasks c = [] \/ raised_by 0 (inr x) c) ->
  sys_ok (E := client_sig) (CInv v) pools_le true (own_calls orderly) P (m, c) -> reports_errors m c.
Proof.
  intros Hl Hr Hok. split.
  - intros -> t Ht. apply (sys_ok_end _ _ _ _ _ (inl tt)) in Hok as [Ho%Hl _]; [|done].
    apply Ho. lia.
  - intros x ->. apply (sys_ok_end _ _ _ _ _ (inr x)) in Hok as [Ho _]; [|done]. by apply Hr.
Qed.

Lemma run_session_sys_ok secure fuel con info ps y :
  sys_reachable app_task (initial_client con info ps) (run_session secure fuel) y ->
  sys_ok (E := client_sig) (CInv true) pools_le true (own_calls orderly)
    (fun o c => calm orderly c /\ raised_by 0 o c) y.
Proof.
  apply (supervised_ok (E := client_sig) (CInv true) pools_le true orderly);
    [apply cok_app| |apply initial_client_inv|].
  - intros o c c' _ He. by apply raised_by_evolves with true.
  - eapply tsafe_mono; [|apply run_session_safe; [split; [apply initial_client_inv|reflexivity]|by apply calm_nil]].
    by intros o s0 c (Hrest & Hc & _ & Ho).
Qed.

(** C28. How errors reach the caller of [launch_async].  A session of the gRPC
    client and [launch_async] of the ZeroMQ client return only if every one of
    their tasks has returned without an exception, and once they have tasks
    they raise only their own cancellation or what one of the tasks raised, a
    lost connection included.  [launch_async] of the gRPC client never raises
    that the connection was lost (it reconnects): it returns only if no task
    ever raised or a connection was lost, and raises only its cancellation or
    what a task raised ([NotReady] when the bound on sessions is reached).  The
    WebSocket client, once connected, raises nothing but its cancellation,
    whatever its tasks raised. *)
Theorem launch_async_raises fuel con info ps m c :
  (forall secure,
     sys_reachable app_task (initial_client con info ps) (run_session secure fuel) (m, c) ->
     reports_errors m c) /\
  (sys_reachable app_task (initial_client con info ps) (zmq_launch_async fuel) (m, c) ->
   reports_errors m c) /\
  (forall secure n,
     sys_reachable app_task (initial_client con info ps) (grpc_launch_async secure fuel n) (m, c) ->
     (m = Ret tt ->
        (forall t, exception_of t c = None) \/ exists t, exception_of t c = Some DisconnectedError) /\
     (forall x, m = Throw x -> x = CancelledError \/ x = NotReady \/
        (x <> DisconnectedError /\ exists t, exception_of t c = Some x))) /\
  (sys_reachable app_task (initial_client con info ps) (ws_launch_async fuel) (m, c) ->
   forall x, m = Throw x -> x = CancelledError \/ k_tasks c = []).
Proof.
  split_and!.
  - intros secure Hy%run_session_sys_ok. eapply sys_ok_reports, Hy; [by intros c0 []|].
    intros x c0 [_ Ho]. by right.
  - intros Hy%zmq_sys_ok. eapply sys_ok_reports, Hy; [by intros c0 []|by intros x c0 []].
  - intros secure n Hy%grpc_sys_ok. split.
    + intros ->. by apply (sys_ok_end _ _ _ _ _ (inl tt)) in Hy as [[_ Ho] _].
    + intros x ->. by apply (sys_ok_end _ _ _ _ _ (inr x)) in Hy as [[_ Ho] _].
  - intros Hy%ws_sys_ok x ->. apply (sys_ok_end _ _ _ _ _ (inr x)) in Hy as [[_ Ho] _]; [|done].
    destruct Ho as [Hn|[Ho|Ho]]; naive_solver.
Qed.
End clients.
