(* ===== verification/ClientSpec.v ===== *)
(** * What the clients send

    The inputs the producer handlers send, the tokens of a gRPC producer
    handler, and the responses, when a handler runs without interleaving. *)

From S2P Require Import Prelude Coro Protocol ClientState GabrielClient GrpcClient.
From S2P Require Import WebsocketClient ZeroMQClient ClientSafety Instances.

(** ** Observables *)

(** A message the client sends: on a gRPC stream, on its WebSocket connection,
    or on its ZeroMQ socket. *)
Inductive sent_msg : Type :=
| OnStream (stream : nat) (m : FromClient)
| OnWebsocket (b : bytes)
| OnSocket (b : bytes).

Definition sent_by (x : { e : cev & cresp e }) : option sent_msg :=
  match projT1 x with
  | CallWrite c m => Some (OnStream c m)
  | CWsSend b => Some (OnWebsocket b)
  | SockSend b => Some (OnSocket b)
  | _ => None
  end.

(** The messages sent. *)
Definition sends (h : history client_sig) : list sent_msg := omap sent_by h.

Definition consumed_result (x : { e : cev & cresp e }) : option Result :=
  match projT1 x with ConsumeResult r => Some r | _ => None end.

(** The results handed to the application. *)
Definition consumed (h : history client_sig) : list Result := omap consumed_result h.

Definition is_send : ev client_sig -> bool :=
  fun e : cev => match e with CallWrite _ _ | CWsSend _ | SockSend _ => true | _ => false end.

Lemma sends_app h h' : sends (h ++ h') = sends h ++ sends h'.
Proof. apply omap_app. Qed.

Section producer.
Context `{!PyEnv, !Codec InputFrame, !Codec FromClient}.
Context (env : history client_sig -> forall e : cev, cresp e).
Abbreviation exec := (run (E := client_sig) env).

(** A coroutine that writes to no stream. *)
Lemma run_silent {A} (p : clt A) s h o s' h' :
  avoids is_send p -> exec p s h = (o, s', h') -> sends h' = sends h.
Proof.
  intros Hp Hr. destruct (run_avoids is_send _ _ _ _ _ _ _ Hp Hr) as (hs & -> & Hh).
  rewrite sends_app. unfold sends at 2. rewrite omap_none; [by rewrite app_nil_r|].
  intros [e r] Hin. rewrite Forall_forall in Hh. specialize (Hh _ Hin). by destruct e.
Qed.

Lemma get_token_silent t : avoids is_send (get_token t).
Proof. unfold get_token, sem_acquire, get_pool, put_pool, PRODUCER_TOKEN_COUNT, ccall. avoid. Qed.

Lemma return_token_silent t : avoids is_send (return_token t).
Proof. unfold return_token, sem_release, get_pool, put_pool, ccall. avoid. Qed.

Lemma produce_silent i : avoids is_send (produce i).
Proof. unfold produce, get_input_producer, ccall. avoid. Qed.

Lemma build_input_silent i frame f : avoids is_send (build_input i frame f).
Proof. unfold build_input, get_target_engines, get_input_producer. avoid. Qed.

Lemma build_input_frame i frame f s h m s' h' :
  exec (build_input i frame f) s h = (inl m, s', h') ->
  s' = s /\ h' = h /\ in_frame_id (fc_input m) = frame /\
  exists p ids, c_producers s !! i = Some p /\ c_engine_ids s = Some ids /\
    in_producer_id (fc_input m) = ip_producer_id p /\
    list_to_set (in_target_engine_ids (fc_input m)) = ip_target_engine_ids p /\
    ip_target_engine_ids p ⊆ list_to_set ids /\ in_input_frame (fc_input m) = f /\
    is_registration m = false.
Proof.
  unfold build_input, get_target_engines, get_input_producer.
  destruct (in_int64 frame); [|done]. simpl.
  destruct (c_producers s !! i) as [p|] eqn:Hp; [|done]. simpl. rewrite Hp. simpl.
  destruct (c_engine_ids s) as [ids|] eqn:Hi; [|done]. simpl.
  case_decide; [|done]. simpl. rewrite Hp. simpl. intros [= <- <- <-].
  split_and!; [done|done|done|]. exists p, ids. split_and!; try done. simpl.
  apply set_eq. intros x. by rewrite elem_of_list_to_set, set_iter_elem.
Qed.

(** An input of the producer [i]: it targets what the producer targets, all
    of it connected. *)
Definition input_from (i : nat) (s : ClientState) (m : FromClient) : Prop :=
  exists p ids, c_producers s !! i = Some p /\ c_engine_ids s = Some ids /\
    in_producer_id (fc_input m) = ip_producer_id p /\
    list_to_set (in_target_engine_ids (fc_input m)) = ip_target_engine_ids p /\
    ip_target_engine_ids p ⊆ list_to_set ids /\ is_registration m = false.

(** The producers and the engine ids, which a producer handler only reads. *)
Definition producer_view (s : ClientState) := (c_producers s, c_engine_ids s).

Lemma input_from_view i s s' m :
  producer_view s' = producer_view s -> input_from i s' m -> input_from i s m.
Proof. unfold input_from. intros [= -> ->]. done. Qed.

Lemma get_token_view t s : preserves producer_view (get_token t) s.
Proof. unfold get_token, sem_acquire, get_pool, put_pool, PRODUCER_TOKEN_COUNT, ccall. pres. Qed.

Lemma return_token_view t s : preserves producer_view (return_token t) s.
Proof. unfold return_token, sem_release, get_pool, put_pool, ccall. pres. Qed.

(** A write, whether or not it fails, is one message. *)
Lemma exec_send_to_server stream m s h :
  exists o s' h1, exec (try_except (GrpcC.grpc_send_to_server m stream) GrpcC.disconnected) s h =
      (o, s', h ++ h1) /\ sends h1 = [OnStream stream m] /\ producer_view s' = producer_view s.
Proof.
  unfold GrpcC.grpc_send_to_server, record_send_metrics, ccall. simpl.
  set (h2 := _ ++ [existT Monotonic _]).
  destruct (env h2 (CallWrite stream m)) as [[]|x] eqn:E; [|destruct x];
    (eexists _, _, _; split; [subst h2; simpl; rewrite <- !(assoc_L (++)); simpl; reflexivity|done]).
Qed.

(** The history [h'] extends [h] by messages of the producer [i], sent as
    [wrap] says and numbered from [frame] on. *)
Definition numbered (i : nat) (wrap : FromClient -> sent_msg) (frame : Z) (s : ClientState)
    (h h' : history client_sig) : Prop :=
  exists ms, sends h' = sends h ++ map wrap ms /\
    map (fun m => in_frame_id (fc_input m)) ms =
      map (fun j => frame + Z.of_nat j) (seq 0 (length ms)) /\
    Forall (input_from i s) ms.

Lemma numbered_nil i wrap frame s h h' : sends h' = sends h -> numbered i wrap frame s h h'.
Proof. intros E. exists []. by rewrite app_nil_r. Qed.

Lemma numbered_weaken i wrap frame s s1 h h1 h' :
  producer_view s1 = producer_view s -> sends h1 = sends h ->
  numbered i wrap frame s1 h1 h' -> numbered i wrap frame s h h'.
Proof.
  intros Hv Hw (ms & E & Hn & Hf). exists ms. split_and!; [by rewrite E, Hw|done|].
  eapply Forall_impl; [exact Hf|]. intros m. by apply input_from_view.
Qed.

Lemma numbered_cons i wrap frame s s1 h h1 h' m :
  producer_view s1 = producer_view s -> sends h1 = sends h ++ [wrap m] ->
  in_frame_id (fc_input m) = frame -> input_from i s m ->
  numbered i wrap (frame + 1) s1 h1 h' -> numbered i wrap frame s h h'.
Proof.
  intros Hv Hw Hm Hi (ms & E & Hn & Hf). exists (m :: ms). split_and!.
  - by rewrite E, Hw, <- (assoc_L (++)).
  - cbn [map length seq]. rewrite Hm, Hn. f_equal; [lia|].
    rewrite <- seq_shift, map_map. apply map_ext. intros j. lia.
  - constructor; [done|]. eapply Forall_impl; [exact Hf|]. intros m0. by apply input_from_view.
Qed.

(** What remains to be done sends numbered messages, from [frame] on. *)
Definition numbers {B} (i : nat) (wrap : FromClient -> sent_msg) (frame : Z) (p : clt B) : Prop :=
  forall s h o s' h', exec p s h = (o, s', h') -> numbered i wrap frame s h h'.

Lemma numbers_ret {B} i wrap frame (b : B) : numbers i wrap frame (Ret b).
Proof. intros s h o s' h' [= <- <- <-]. by apply numbered_nil. Qed.

Lemma numbers_throw {B} i wrap frame x : numbers i wrap frame (Throw x : clt B).
Proof. intros s h o s' h' [= <- <- <-]. by apply numbered_nil. Qed.

(** A step that sends nothing. *)
Lemma numbers_step {A B} (p : clt A) (k : A -> clt B) i wrap frame :
  avoids is_send p -> (forall s, preserves producer_view p s) ->
  (forall a, numbers i wrap frame (k a)) -> numbers i wrap frame (p ≫= k).
Proof.
  intros Hs Hv Hk s h o s' h'. rewrite run_bind.
  destruct (run env p s h) as [[[a|x] s1] h1] eqn:E;
    apply run_silent in E as W; try done; apply (run_preserves producer_view) in E as V; try done.
  - intros Hr%Hk. by eapply numbered_weaken.
  - intros [= <- <- <-]. by apply numbered_nil.
Qed.

Lemma numbers_assoc {A B C} (p : clt A) (f : A -> clt B) (g : B -> clt C) i wrap frame :
  numbers i wrap frame (p ≫= fun a => f a ≫= g) -> numbers i wrap frame ((p ≫= f) ≫= g).
Proof. intros Hn s h o s' h'. rewrite run_assoc. apply Hn. Qed.

(** A message is built and sent; the next one has the next number. *)
Lemma numbers_send {A B} i wrap frame f (send : FromClient -> clt A) (k : A -> clt B)
    (q : FromClient -> clt B) :
  (forall m s h, exec (q m) s h = exec (send m ≫= k) s h) ->
  (forall m s h, exists o s' h1, exec (send m) s h = (o, s', h ++ h1) /\ sends h1 = [wrap m] /\
     producer_view s' = producer_view s) ->
  (forall a, numbers i wrap (frame + 1) (k a)) ->
  numbers i wrap frame (build_input i frame f ≫= q).
Proof.
  intros Hq Hsend Hk s h o s' h'. rewrite run_bind.
  destruct (run env (build_input i frame f) s h) as [[[m|x] s1] h1] eqn:E.
  2:{ apply run_silent in E as W; [|apply build_input_silent].
      intros [= <- <- <-]. by apply numbered_nil. }
  apply build_input_frame in E as (-> & -> & Hf & p & ids & Hp & Hi & Hpid & Ht & Hsub & _ & Hr0).
  destruct (Hsend m s h) as (o2 & s2 & h2 & E2 & W2 & V2). rewrite Hq, run_bind, E2. intros Hr.
  eapply (numbered_cons _ _ _ _ s2 _ (h ++ h2)); [done|by rewrite sends_app, W2|done|by exists p, ids|].
  destruct o2 as [a|x]; [by eapply Hk|]. injection Hr as <- <- <-. by apply numbered_nil.
Qed.

Lemma produce_view i s : preserves producer_view (produce i) s.
Proof. unfold produce, get_input_producer, ccall. pres. Qed.

(** Giving the token back, and going on. *)
Lemma numbers_return_token {B} t i wrap frame (k : unit -> clt B) :
  numbers i wrap frame (k tt) -> numbers i wrap frame (return_token t ≫= k).
Proof.
  intros Hk. apply numbers_step; [apply return_token_silent|apply return_token_view|].
  by intros [].
Qed.

(** A send of each transport is one message, whether or not it fails. *)
Lemma exec_ws_send m s h :
  exists o s' h1, exec (try_except (WsC.ws_send_from_client m ;; Ret true)
      (fun x => match x with ConnectionClosed => Ret false | _ => Throw x end)) s h =
      (o, s', h ++ h1) /\ sends h1 = [OnWebsocket (serialize m)] /\
    producer_view s' = producer_view s.
Proof.
  unfold WsC.ws_send_from_client, WsC.ws_send_raw, record_send_metrics, ccall. simpl.
  set (h2 := _ ++ [existT Monotonic _]).
  destruct (env h2 (CWsSend (serialize m))) as [[]|x] eqn:E; [|destruct x];
    (eexists _, _, _; split; [subst h2; simpl; rewrite <- !(assoc_L (++)); simpl; reflexivity|done]).
Qed.

Lemma exec_zmq_client_send m s h :
  exists o s' h1, exec (ZmqC.zmq_send_to_server m) s h =
      (o, s', h ++ h1) /\ sends h1 = [OnSocket (serialize m)] /\
    producer_view s' = producer_view s.
Proof.
  unfold ZmqC.zmq_send_to_server, ZmqC.zmq_send_raw, ZmqC.sock_send, record_send_metrics, ccall.
  simpl. set (h2 := _ ++ [existT Monotonic _]).
  destruct (env h2 (SockSend (serialize m))) as [[]|x] eqn:E;
    (eexists _, _, _; split; [subst h2; simpl; rewrite <- !(assoc_L (++)); simpl; reflexivity|done]).
Qed.

Lemma grpc_send_frame_numbers {B} i t stream frame (k : Z -> clt B) :
  (forall n, numbers i (OnStream stream) n (k n)) ->
  numbers i (OnStream stream) frame (GrpcC.grpc_send_frame i t stream frame ≫= k).
Proof.
  intros Hk. unfold GrpcC.grpc_send_frame. apply numbers_assoc.
  apply numbers_step; [apply produce_silent|apply produce_view|].
  intros [f|]; [|by apply numbers_assoc, numbers_return_token].
  destruct (truthy_str _); [|by apply numbers_assoc, numbers_return_token].
  apply numbers_assoc.
  eapply numbers_send; [intros; apply run_assoc|intros; apply exec_send_to_server|].
  intros []. apply Hk.
Qed.

Lemma grpc_loop_numbers i t stream frame fuel :
  numbers i (OnStream stream) frame (GrpcC.grpc_producer_loop i t stream frame fuel).
Proof.
  revert frame. induction fuel as [|fuel IH]; intros frame; cbn [GrpcC.grpc_producer_loop];
    (apply numbers_step; [done|done|]; intros s0; destruct (_ && _); [|apply numbers_ret]).
  { apply numbers_throw. }
  apply numbers_step; [unfold is_running, get_input_producer; avoid
                      |intros; unfold is_running, get_input_producer; pres|intros running].
  apply numbers_step; [unfold ccall; avoid|intros; unfold ccall; pres|intros _].
  apply numbers_step; [apply get_token_silent|apply get_token_view|intros _].
  by apply grpc_send_frame_numbers.
Qed.

Lemma ws_loop_numbers i t frame fuel :
  numbers i (fun m => OnWebsocket (serialize m)) frame (WsC.ws_producer_loop i t frame fuel).
Proof.
  revert frame. induction fuel as [|fuel IH]; intros frame; cbn [WsC.ws_producer_loop];
    (apply numbers_step; [done|done|]; intros running; destruct running; [|apply numbers_ret]).
  { apply numbers_throw. }
  apply numbers_step; [apply get_token_silent|apply get_token_view|intros _].
  apply numbers_step; [apply produce_silent|apply produce_view|].
  intros [f|]; [|by apply numbers_return_token].
  eapply numbers_send; [done|intros; apply exec_ws_send|].
  intros sent. destruct sent; [apply IH|apply numbers_ret].
Qed.

Lemma wait_silent e fuel : avoids is_send (wait_while_running e fuel).
Proof.
  induction fuel as [|fuel IH]; cbn -[mbind]; unfold wait_event, ccall; avoid.
Qed.

Lemma wait_view e fuel s : preserves producer_view (wait_while_running e fuel) s.
Proof.
  revert s. induction fuel as [|fuel IH]; intros s; cbn -[mbind]; unfold wait_event, ccall;
    repeat first [apply IH | progress pres].
Qed.

Lemma await_connected_silent i fuel : avoids is_send (ZmqC.await_connected i fuel).
Proof.
  unfold ZmqC.await_connected, ZmqC.cancel_task, ZmqC.set_task, ccall.
  repeat first [apply wait_silent | progress avoid].
Qed.

Lemma await_connected_view i fuel s : preserves producer_view (ZmqC.await_connected i fuel) s.
Proof.
  unfold ZmqC.await_connected, ZmqC.cancel_task, ZmqC.set_task, ccall.
  repeat first [apply wait_view | progress pres].
Qed.

Lemma await_task_silent i : avoids is_send (ZmqC.await_task i).
Proof. unfold ZmqC.await_task, ZmqC.set_task, is_running, get_input_producer, ccall. avoid. Qed.

Lemma await_task_view i s : preserves producer_view (ZmqC.await_task i) s.
Proof. unfold ZmqC.await_task, ZmqC.set_task, is_running, get_input_producer, ccall. pres. Qed.

Lemma zmq_send_frame_numbers {B} i t frame fuel (k : option Z -> clt B) :
  let wrap m := OnSocket (serialize m) in
  (forall n, numbers i wrap n (k (Some n))) -> numbers i wrap frame (k None) ->
  numbers i wrap frame (ZmqC.zmq_send_frame i t frame fuel ≫= k).
Proof.
  intros wrap Hk Hnone. unfold ZmqC.zmq_send_frame. apply numbers_assoc.
  apply numbers_step; [unfold get_target_engines, get_input_producer; avoid
                      |intros; unfold get_target_engines, get_input_producer; pres|intros X].
  case_decide; [apply numbers_assoc, numbers_return_token, numbers_throw|].
  apply numbers_assoc, numbers_step;
    [apply await_connected_silent|intros; apply await_connected_view|].
  intros connected. destruct connected; [|exact Hnone].
  apply numbers_assoc, numbers_step; [apply await_task_silent|intros; apply await_task_view|].
  intros [[f|]|]; apply numbers_assoc.
  - apply numbers_step; [done|done|intros _].
    destruct (truthy_str _); [|by apply numbers_assoc, numbers_return_token].
    apply numbers_assoc. eapply numbers_send; [intros; apply run_assoc|intros; apply exec_zmq_client_send|].
    intros []. apply Hk.
  - apply numbers_step; [done|done|intros _]. by apply numbers_assoc, numbers_return_token.
  - apply numbers_return_token, numbers_assoc, numbers_step; [done|done|intros _].
    apply numbers_assoc, numbers_step; [unfold ccall; avoid|intros; unfold ccall; pres|intros _].
    apply Hk.
Qed.

Lemma zmq_loop_numbers i t frame fuel0 fuel :
  numbers i (fun m => OnSocket (serialize m)) frame (ZmqC.zmq_producer_loop i t frame fuel0 fuel).
Proof.
  revert frame. induction fuel as [|fuel IH]; intros frame; cbn [ZmqC.zmq_producer_loop];
    (apply numbers_step; [done|done|]; intros s0; destruct (_ && _); [|apply numbers_ret]).
  { apply numbers_throw. }
  apply numbers_step; [unfold is_running, get_input_producer; avoid
                      |intros; unfold is_running, get_input_producer; pres|intros running].
  apply numbers_step; [unfold ccall; avoid|intros; unfold ccall; pres|intros _].
  apply numbers_step.
  { apply avoids_try_except; [apply avoids_bind; [apply get_token_silent|done]|].
    intros x. by destruct x. }
  { intros s. apply preserves_try_except; [apply preserves_bind; [apply get_token_view|done]|].
    intros x s1. by destruct x. }
  intros got. destruct got.
  - apply zmq_send_frame_numbers; [apply IH|apply numbers_ret].
  - apply numbers_step; [done|done|intros _]. apply IH.
Qed.

(** C21.  The inputs a producer handler sends are numbered from its first frame
    id on without gap or repetition, on each of the three transports, whatever
    the application produces and the transport does; each carries the id of the
    producer and its target engines, and targets only engines that are
    connected. *)
Theorem frames_are_numbered_consecutively i t stream frame fuel0 fuel :
  numbers i (OnStream stream) frame (GrpcC.grpc_producer_loop i t stream frame fuel) /\
  numbers i (fun m => OnWebsocket (serialize m)) frame (WsC.ws_producer_loop i t frame fuel) /\
  numbers i (fun m => OnSocket (serialize m)) frame (ZmqC.zmq_producer_loop i t frame fuel0 fuel).
Proof. split_and!; [apply grpc_loop_numbers|apply ws_loop_numbers|apply zmq_loop_numbers]. Qed.

(** *** Tokens *)

Lemma exec_get_token {B} t p (k : unit -> clt B) s h :
  c_pools s !! t = Some p -> 0 < tp_sem_value p ->
  exists h1, sends h1 = sends h /\
    exec (get_token t ≫= k) s h =
    exec (k tt) (upd_c_pools (fun l => <[t := set_value (tp_sem_value p - 1) p]> l) s) h1.
Proof.
  intros Hp Hv. unfold get_token, sem_acquire, get_pool, PRODUCER_TOKEN_COUNT, ccall. simpl.
  rewrite Hp. simpl. rewrite (proj2 (Z.ltb_lt 0 (tp_sem_value p))) by done. simpl.
  rewrite list_lookup_insert_eq by (by eapply lookup_lt_Some). simpl.
  destruct (env h (CMetric _ _ _)).
  eexists. split; [|reflexivity]. by rewrite sends_app, app_nil_r.
Qed.

Lemma exec_return_token t p s h :
  c_pools s !! t = Some p -> tp_sem_value p < tp_max_tokens p ->
  exists h1, sends h1 = sends h /\
    exec (return_token t) s h =
    (inl tt, upd_c_pools (fun l => <[t := set_value (tp_sem_value p + 1) p]> l) s, h1).
Proof.
  intros Hp Hv. unfold return_token, sem_release, get_pool, ccall. simpl. rewrite Hp. simpl.
  rewrite Hp. simpl. rewrite (proj2 (Z.leb_gt (tp_max_tokens p) (tp_sem_value p))), andb_false_r by lia.
  eexists. split; [|reflexivity]. by rewrite sends_app, app_nil_r.
Qed.

(** One pass over the producer, which holds a token. *)
Lemma exec_send_frame_tokens i t p stream frame s h next s' h' :
  c_pools s !! t = Some p -> tp_sem_value p < tp_max_tokens p ->
  exec (GrpcC.grpc_send_frame i t stream frame) s h = (inl next, s', h') ->
  (next = frame + 1 /\ c_pools s' = c_pools s /\
     exists m, sends h' = sends h ++ [OnStream stream m]) \/
  (next = frame /\ c_pools s' = <[t := set_value (tp_sem_value p + 1) p]> (c_pools s) /\
     sends h' = sends h).
Proof.
  intros Hp Hv. unfold GrpcC.grpc_send_frame. rewrite run_bind.
  destruct (run env (produce i) s h) as [[[f|x] s1] h1] eqn:E1; [|done].
  apply run_silent in E1 as W1; [|apply produce_silent].
  apply (run_preserves c_pools) in E1 as V1;
    [|intros; unfold produce, get_input_producer, ccall; pres].
  assert (forall h', exec (return_token t ;; Ret frame) s1 h1 = (inl next, s', h') ->
    next = frame /\ c_pools s' = <[t := set_value (tp_sem_value p + 1) p]> (c_pools s) /\
    sends h' = sends h) as Hret.
  { intros h0. rewrite run_bind. rewrite <- V1 in Hp.
    destruct (exec_return_token t p s1 h1 Hp Hv) as (h2 & W2 & ->).
    intros [= <- <- <-]. simpl. by rewrite V1, W2, W1. }
  destruct f as [f|]; [|by intros ?%Hret; right].
  destruct (truthy_str _); [|by intros ?%Hret; right].
  rewrite run_bind. destruct (run env (build_input i frame f) s1 h1) as [[[m|x] s2] h2] eqn:E2; [|done].
  apply build_input_frame in E2 as (-> & -> & _). rewrite run_bind.
  destruct (exec_send_to_server stream m s1 h1) as (o3 & s3 & h3 & E3 & W3 & _). rewrite E3.
  apply (run_preserves c_pools) in E3.
  - destruct o3 as [[]|x]; [|done]. intros [= <- <- <-]. left. rewrite E3, V1. split_and!; try done.
    exists m. by rewrite sends_app, W1, W3.
  - intros. unfold GrpcC.grpc_send_to_server, record_send_metrics, GrpcC.disconnected, ccall. pres.
Qed.

(** With a token in the pool, one iteration of a gRPC producer handler
    that does not raise either spends exactly one token and writes exactly
    one input, or writes nothing and leaves the pool as it was (when the
    application has no input, or an empty one). *)
Theorem input_spends_one_token i t p stream frame s h next s' h' :
  c_pools s !! t = Some p -> pool_wf p -> tp_sem_bounded p = true -> 0 < tp_sem_value p ->
  exec (get_token t ;; GrpcC.grpc_send_frame i t stream frame) s h = (inl next, s', h') ->
  exists p', c_pools s' !! t = Some p' /\
    ((next = frame + 1 /\ tp_sem_value p' = tp_sem_value p - 1 /\
        exists m, sends h' = sends h ++ [OnStream stream m]) \/
     (next = frame /\ tp_sem_value p' = tp_sem_value p /\ sends h' = sends h)).
Proof.
  intros Hp [_ _ Hb] Hbd Hv. specialize (Hb Hbd).
  assert ((t < length (c_pools s))%nat) as Hlt by (by eapply lookup_lt_Some).
  destruct (exec_get_token t p (fun _ => GrpcC.grpc_send_frame i t stream frame) s h Hp Hv)
    as (h1 & W1 & ->).
  intros Hr. eapply exec_send_frame_tokens in Hr as [(-> & V & m & W)|(-> & V & W)];
    [| |simpl; by apply list_lookup_insert_eq|simpl; lia]; rewrite V; simpl.
  - rewrite list_lookup_insert_eq by done. eexists. split; [done|]. left. simpl.
    rewrite W, W1. eauto.
  - rewrite list_insert_insert_eq, list_lookup_insert_eq by done. eexists. split; [done|].
    right. simpl. rewrite W, W1. split_and!; [done|lia|done].
Qed.

(** ** Responses *)

Lemma consumed_app h h' : consumed (h ++ h') = consumed h ++ consumed h'.
Proof. apply omap_app. Qed.

Definition key_of (w : ResultWrapper) : string * Z := (rw_producer_id w, frame_id (rw_result w)).

Lemma exec_record_response_latency {B} w (k : unit -> clt B) s h :
  exists h1, consumed h1 = consumed h /\
    exec (record_response_latency w ≫= k) s h =
    exec (k tt) (upd_c_pending_results (dict_del (key_of w)) s) h1.
Proof.
  unfold record_response_latency, ccall. fold (key_of w). simpl.
  destruct ((c_pending_results s).[key_of w]) as [st|] eqn:Hk; simpl.
  - destruct (env _ (CMetric _ _ _)). eexists. split; [|reflexivity].
    by rewrite !consumed_app, !app_nil_r.
  - exists h. split; [done|]. f_equal. unfold upd_c_pending_results.
    rewrite dict_del_absent by done. by destruct s.
Qed.

Lemma exec_return_token_of pid t p s h :
  (c_tokens s).[pid] = Some t -> c_pools s !! t = Some p ->
  tp_sem_value p < tp_max_tokens p ->
  exists h1, consumed h1 = consumed h /\
    exec (return_token_of pid) s h =
    (inl tt, upd_c_pools (fun l => <[t := set_value (tp_sem_value p + 1) p]> l) s, h1).
Proof.
  intros Ht Hp Hv. unfold return_token_of, return_token, sem_release, get_pool, ccall. simpl.
  rewrite Ht. simpl. rewrite Hp. simpl. rewrite Hp. simpl.
  rewrite (proj2 (Z.leb_gt (tp_max_tokens p) (tp_sem_value p))), andb_false_r by lia.
  eexists. split; [|reflexivity]. by rewrite consumed_app, app_nil_r.
Qed.

(** The treatment of the status, before the token: by the gRPC and ZeroMQ
    clients, and by the WebSocket client, which has its own. *)
Definition response_handler (process : ResultWrapper -> clt unit) : Prop :=
  process = process_response \/ process = WsC.ws_process_response.

(** The token of a response. *)
Lemma exec_response_token w t p s s1 h1 :
  (c_tokens s).[rw_producer_id w] = Some t -> c_pools s !! t = Some p ->
  tp_sem_value p < tp_max_tokens p -> c_tokens s1 = c_tokens s -> c_pools s1 = c_pools s ->
  exists s' h', exec (if rw_return_token w then return_token_of (rw_producer_id w) else Ret tt) s1 h1
      = (inl tt, s', h') /\
    c_pools s' = (if rw_return_token w
                  then <[t := set_value (tp_sem_value p + 1) p]> (c_pools s) else c_pools s) /\
    consumed h' = consumed h1 /\ c_pending_results s' = c_pending_results s1.
Proof.
  intros Ht Hp Hv E1 E2. destruct (rw_return_token w).
  - rewrite <- E1 in Ht. rewrite <- E2 in Hp.
    destruct (exec_return_token_of _ _ _ _ h1 Ht Hp Hv) as (h2 & W & ->).
    eexists _, h2. split; [done|]. simpl. by rewrite E2.
  - eexists _, _. split; [done|]. by rewrite E2.
Qed.

(** A response that is neither a success nor fatal. *)
Lemma exec_other_status process w s h :
  response_handler process -> code (status (rw_result w)) <> SUCCESS ->
  code (status (rw_result w)) <> NO_ENGINE_FOR_INPUT ->
  is_Some (StatusCode_Name (code (status (rw_result w)))) ->
  exec (process w) s h =
  exec (if rw_return_token w then return_token_of (rw_producer_id w) else Ret tt) s h.
Proof.
  intros Hpr H1 H2 [name Hname].
  assert (exec (process_response w) s h =
    exec (if rw_return_token w then return_token_of (rw_producer_id w) else Ret tt) s h) as E.
  { unfold process_response. cbn zeta. destruct (code (status (rw_result w))); done. }
  destruct Hpr as [->| ->]; [done|]. by rewrite WsC.ws_process_response_eq.
Qed.

(** C22.  A response of the server, on any of the three clients.  A [SUCCESS]
    result is handed to the application exactly once and its input is no longer
    awaited; a result with an error status is not handed over.  In both cases the
    pool of the producer gets back exactly one token if the response returns one,
    and none otherwise; but when the application raises, that is raised and the
    token is not returned.  [NO_ENGINE_FOR_INPUT] is fatal: it raises, and the
    token is not returned.  The status code has a name, and the pool of the
    producer is below its maximum. *)
Theorem response_is_accounted_for process w t p s h :
  response_handler process ->
  is_Some (StatusCode_Name (code (status (rw_result w)))) ->
  (c_tokens s).[rw_producer_id w] = Some t -> c_pools s !! t = Some p ->
  tp_sem_value p < tp_max_tokens p ->
  if decide (code (status (rw_result w)) = NO_ENGINE_FOR_INPUT) then
    exists msg, exec (process w) s h = (inr (PyException msg), s, h)
  else
    let success := bool_decide (code (status (rw_result w)) = SUCCESS) in
    exists o s' h', exec (process w) s h = (o, s', h') /\
      consumed h' = consumed h ++ (if success then [rw_result w] else []) /\
      c_pending_results s' = (if success then dict_del (key_of w) (c_pending_results s)
                              else c_pending_results s) /\
      match o with
      | inl _ => c_pools s' = (if rw_return_token w
                               then <[t := set_value (tp_sem_value p + 1) p]> (c_pools s)
                               else c_pools s)
      | inr x => c_pools s' = c_pools s /\ success = true /\
                 exists h1, env h1 (ConsumeResult (rw_result w)) = inr x
      end.
Proof.
  intros Hpr Hname Ht Hp Hv. case_decide as Hne.
  { destruct Hpr as [->| ->]; unfold process_response, WsC.ws_process_response; cbn zeta;
      rewrite Hne; by eexists. }
  case_bool_decide as Hs.
  - assert (exec (process w) s h = exec (process_response w) s h) as ->.
    { destruct Hpr as [->| ->]; [done|]. by rewrite WsC.ws_process_response_eq. }
    unfold process_response. cbn zeta. rewrite Hs, run_bind.
    destruct (exec_record_response_latency w
                (fun _ => ccall (ConsumeResult (rw_result w)) ≫= raise) s h) as (h1 & W1 & ->).
    cbn [run call ccall mbind prog_mbind prog_bind].
    destruct (env h1 (ConsumeResult (rw_result w))) as [[]|x] eqn:Ec; cbn [raise run].
    + match goal with |- context [run env _ ?s1 ?h1] =>
        destruct (exec_response_token w t p s s1 h1) as (s' & h' & -> & V & W & P) end; [done..|].
      eexists _, s', h'. split_and!; [done| |done|done]. by rewrite W, consumed_app, W1.
    + eexists _, _, _. split; [done|]. split; [by rewrite consumed_app, W1|]. split; [done|]. by eauto.
  - rewrite exec_other_status by done.
    destruct (exec_response_token w t p s s h) as (s' & h' & -> & V & W & P); [done..|].
    exists (inl tt), s', h'. split_and!; [done|by rewrite app_nil_r|done|done].
Qed.
End producer.

(** ** Channel options *)

Lemma dict_update_get (d items : dict string Z) k :
  (GrpcC.dict_update d items).[k] =
  match (GrpcC.dict_update [] items).[k] with Some v => Some v | None => d.[k] end.
Proof.
  unfold GrpcC.dict_update. revert d.
  induction items as [|[k0 v0] items IH] using rev_ind; intros d; [done|].
  rewrite !foldl_app. simpl. rewrite !dict_get_set. case_decide; [done|]. apply IH.
Qed.

Lemma dict_snoc_get (d : dict string Z) k0 v0 k :
  (d ++ [(k0, v0)]).[k] =
  match d.[k] with Some v => Some v | None => if decide (k = k0) then Some v0 else None end.
Proof. induction d as [|[k1 v1] d IH]; simpl; [done|]. destruct (decide (k = k1)); [done|exact IH]. Qed.

Lemma dict_update_NoDup (l : dict string Z) : NoDup (dict_keys (GrpcC.dict_update [] l)).
Proof.
  unfold GrpcC.dict_update. induction l as [|kv l IH] using rev_ind; [constructor|].
  rewrite foldl_app. simpl. by apply dict_set_NoDup.
Qed.

(** A dictionary made of the items of a dictionary. *)
Lemma dict_update_nil (d : dict string Z) k :
  NoDup (dict_keys d) -> (GrpcC.dict_update [] d).[k] = d.[k].
Proof.
  unfold GrpcC.dict_update. induction d as [|[k0 v0] d IH] using rev_ind; intros Hnd; [done|].
  unfold dict_keys in Hnd. rewrite map_app in Hnd. apply NoDup_app in Hnd as (Hnd & Hdis & _).
  rewrite foldl_app, dict_snoc_get. simpl. rewrite dict_get_set, (IH Hnd). case_decide as E.
  - subst k0. destruct (d.[k]) eqn:Hk; [|by rewrite decide_True].
    exfalso. apply (Hdis k); [|left]. apply dict_get_keys. eauto.
  - destruct (d.[k]); [done|]. by rewrite decide_False.
Qed.

(** An option the caller gives takes precedence over the default of the
    same name (the last one, if it is given twice), and a default the caller
    does not give is kept. *)
Theorem caller_options_take_precedence l k :
  (GrpcC.merge_channel_options (Some l)).[k] =
  match (GrpcC.dict_update [] l).[k] with
  | Some v => Some v
  | None => GrpcC.DEFAULT_CHANNEL_OPTIONS.[k]
  end.
Proof.
  unfold GrpcC.merge_channel_options. cbn zeta.
  by rewrite dict_update_get, dict_update_nil by apply dict_update_NoDup.
Qed.
