(* ===== verification/ClientMetrics.v ===== *)
(** * The metrics of the clients

    The Prometheus metrics that [gabriel_client.py] declares, and what the gauge
    of the tokens shows: it follows the pool of a producer through every
    operation that succeeds.  A token that is returned to a full pool raises, and
    the gauge, which is incremented first, then shows a token that the pool does
    not have. *)

From S2P Require Import Prelude Coro Protocol Metrics ClientState GabrielClient GrpcClient WebsocketClient ZeroMQClient.

Definition token_count_declaration : metric_declaration :=
  mkMetric Gauge "gabriel_producer_token_count" ["producer_id"].
Definition inputs_sent_declaration : metric_declaration :=
  mkMetric Counter "gabriel_producer_inputs_sent_total" ["producer_id"].
Definition processing_latency_declaration : metric_declaration :=
  mkMetric Histogram "gabriel_client_input_processing_latency_seconds" ["producer_id"].

Definition client_metrics : list metric_declaration :=
  [token_count_declaration; inputs_sent_declaration; processing_latency_declaration].

(** A process that runs a client and a server, as tests and examples do, declares
    the metrics of both. *)
Lemma all_metric_names_differ : NoDup (map mt_name (client_metrics ++ server_metrics)).
Proof. apply (bool_decide_eq_true_1 _). vm_compute. reflexivity. Qed.

(** ** Values *)

(** The gauge of the tokens of a producer: a new label starts at 0. *)
Definition gauge_after (pid : string) (v : option Z) (e : cev) : option Z :=
  match e with
  | CMetric name p n =>
      if decide (p = pid) then
        if decide (name = "gabriel_producer_token_count"%string) then Some n
        else if decide (name = "gabriel_producer_token_count_inc"%string) then Some (default 0 v + n)
        else v
      else v
  | _ => v
  end.

Definition token_gauge (pid : string) (h : history client_sig) : option Z :=
  foldl (fun v x => gauge_after pid v (projT1 x)) None h.

Lemma token_gauge_snoc pid h x : token_gauge pid (h ++ [x]) = gauge_after pid (token_gauge pid h) (projT1 x).
Proof. unfold token_gauge. by rewrite foldl_app. Qed.

(** The inputs of a producer that were counted as sent. *)
Definition counts_sent (pid : string) (e : cev) : bool :=
  match e with
  | CMetric name p _ => bool_decide (name = "gabriel_producer_inputs_sent_total"%string /\ p = pid)
  | _ => false
  end.

Definition inputs_sent (pid : string) (h : history client_sig) : Z :=
  countb (fun x => counts_sent pid (projT1 x)) h.

Section values.
Context (env : history client_sig -> forall e : ev client_sig, resp client_sig e).
Abbreviation exec := (run (E := client_sig) env).

(** The gauge shows what the pool has. *)
Definition shown (t : nat) (s : ClientState) (h : history client_sig) : Prop :=
  exists p, c_pools s !! t = Some p /\ token_gauge (tp_producer_id p) h = Some (tp_sem_value p).

Lemma gauge_set pid h v r : token_gauge pid (h ++ [existT (CMetric "gabriel_producer_token_count" pid v) r]) = Some v.
Proof. rewrite token_gauge_snoc. simpl. by rewrite !decide_True. Qed.

Lemma gauge_inc pid h n r :
  token_gauge pid (h ++ [existT (CMetric "gabriel_producer_token_count_inc" pid n) r]) =
  Some (default 0 (token_gauge pid h) + n).
Proof. rewrite token_gauge_snoc. simpl. by rewrite !decide_True. Qed.

(** A new pool is shown, and stays shown through every token that is taken from
    it or returned to it, and through its reset. *)
Theorem token_gauge_follows_the_pool pid num t s h s' h' :
  (exec (new_token_pool num pid) s h = (inl t, s', h') -> shown t s' h') /\
  (exec (get_token t) s h = (inl tt, s', h') -> shown t s' h') /\
  (exec (reset_tokens t) s h = (inl tt, s', h') -> shown t s' h') /\
  (shown t s h -> exec (return_token t) s h = (inl tt, s', h') -> shown t s' h').
Proof.
  split_and!.
  - unfold new_token_pool, PRODUCER_TOKEN_COUNT, ccall. destruct (num <? 0); [done|]. simpl.
    intros [= <- <- <-]. eexists. simpl. split; [by rewrite list_lookup_middle|]. apply gauge_set.
  - unfold get_token, PRODUCER_TOKEN_COUNT, ccall. rewrite run_bind.
    destruct (run env (sem_acquire t) s h) as [[[[]|x] s1] h1]; [|done]. simpl.
    destruct (c_pools s1 !! t) as [p|] eqn:Hp; [|done]. simpl. intros [= _ <- <-].
    exists p. split; [done|]. apply gauge_set.
  - unfold reset_tokens, get_pool, put_pool, PRODUCER_TOKEN_COUNT, ccall. simpl.
    destruct (c_pools s !! t) as [p|] eqn:Hp; [|done]. simpl. intros [= _ <- <-].
    eexists. simpl. rewrite list_lookup_insert_eq by (by eapply lookup_lt_Some).
    split; [done|]. apply gauge_set.
  - intros (p & Hp & Hg). unfold return_token, sem_release, get_pool, put_pool, ccall. simpl. rewrite Hp. simpl.
    rewrite Hp. simpl. destruct (_ && _); [done|]. simpl. intros [= <- <-].
    eexists. simpl. rewrite list_lookup_insert_eq by (by eapply lookup_lt_Some). split; [done|].
    cbn [set_value tp_producer_id tp_sem_value]. by rewrite gauge_inc, Hg.
Qed.

(** A token returned to a full pool is refused, and shown all the same. *)
Theorem refused_token_is_shown t p s h :
  c_pools s !! t = Some p -> tp_sem_bounded p = true -> tp_sem_value p = tp_max_tokens p -> shown t s h ->
  exists h', exec (return_token t) s h = (inr (ValueError "BoundedSemaphore released too many times"), s, h') /\
    token_gauge (tp_producer_id p) h' = Some (tp_sem_value p + 1).
Proof.
  intros Hp Hb Hv (p' & Hp' & Hg). rewrite Hp in Hp'. injection Hp' as <-.
  unfold return_token, sem_release, get_pool, ccall. simpl. rewrite Hp. simpl. rewrite Hp. simpl.
  rewrite Hb, Hv. rewrite (proj2 (Z.leb_le _ _)) by lia. simpl.
  eexists. split; [reflexivity|]. rewrite gauge_inc, Hg. by rewrite Hv.
Qed.

(** Over every transport, an input that is handed to the transport is counted
    once, for its producer and for no other, whether the transport takes it or
    not. *)
Context `{!Codec FromClient}.

Lemma record_counts_once {B} q m (k : unit -> clt B) s h :
  (forall s h o s' h', exec (k tt) s h = (o, s', h') -> inputs_sent q h' = inputs_sent q h) ->
  forall o s' h', exec (record_send_metrics m ≫= k) s h = (o, s', h') ->
  inputs_sent q h' = inputs_sent q h + (if decide (in_producer_id (fc_input m) = q) then 1 else 0).
Proof.
  intros Hk o s' h'. unfold record_send_metrics, ccall. simpl. intros Hr. rewrite (Hk _ _ _ _ _ Hr).
  unfold inputs_sent. rewrite !countb_app, !countb_cons. simpl. case_decide as Hd.
  - rewrite bool_decide_true by done. change (countb _ []) with 0. lia.
  - rewrite bool_decide_false by naive_solver. change (countb _ []) with 0. lia.
Qed.

Theorem every_sent_input_is_counted q m stream s h :
  let counted p := forall o s' h', exec p s h = (o, s', h') ->
    inputs_sent q h' = inputs_sent q h + (if decide (in_producer_id (fc_input m) = q) then 1 else 0) in
  counted (GrpcC.grpc_send_to_server m stream) /\ counted (WsC.ws_send_from_client m) /\
  counted (ZmqC.zmq_send_to_server m).
Proof.
  assert (forall (e : cev) (f : cresp e -> unit + exn), counts_sent q e = false ->
    forall s h o s' h', exec (ccall e ≫= fun r => raise (f r)) s h = (o, s', h') ->
    inputs_sent q h' = inputs_sent q h) as Hcall.
  { intros e f He s1 h1 o s' h'. simpl. destruct (f _) as [[]|x]; simpl; intros [= <- <- <-];
      unfold inputs_sent; rewrite countb_app, countb_cons; simpl; rewrite He; change (countb _ []) with 0; lia. }
  cbn zeta. split_and!; apply record_counts_once; intros s1 h1.
  - by apply (Hcall (CallWrite stream m) id).
  - by apply (Hcall (CWsSend (serialize m)) id).
  - by apply (Hcall (SockSend (serialize m)) id).
Qed.
End values.
