(* ===== verification/ClientScenario.v ===== *)
(** * Concrete runs of the clients *)

From S2P Require Import Prelude Coro Tasks TaskLogic SessionLogic Protocol Instances ClientState GabrielClient.
From S2P Require Import GrpcClient WebsocketClient MeasurementClient ZeroMQClient ClientSession ClientSafety.
From S2P Require Import ClientSessionSpec ClientSpec.

Import Concrete.

Definition frame_x : InputFrame := mkInputFrame TEXT (StringPayload "x").

Definition registered_msg : ToClient := ToClient_registered (mkRegistered 2 ["e"]).

Definition is_poll (x : { e : cev & cresp e }) : bool :=
  match projT1 x with SockPoll => true | _ => false end.
Definition is_recv (x : { e : cev & cresp e }) : bool :=
  match projT1 x with SockRecv => true | _ => false end.

(** A server that acknowledges the registration, and an application that
    answers [prod].  On a ZeroMQ socket the acknowledgement comes first; then
    the server is silent once, and then sends heartbeats. *)
Definition served_by (prod : option InputFrame + exn) (h : history client_sig) (e : cev) : cresp e :=
  match e return cresp e with
  | CallRead => inl (Some registered_msg)
  | OpenCall _ => 1%nat
  | Uuid4 => "u"
  | CWsRecv => inr ConnectionClosed
  | SockRecv => inl (if countb is_recv h =? 0 then serialize registered_msg else ZmqC.HEARTBEAT)
  | SockPoll => inl (negb (countb is_poll h =? 1))
  | Produce _ => prod
  | Monotonic | WallClock => 0
  | CloseChannel | CSleep | WsClose => true
  | SockReconnect | TaskCancel _ | CMetric _ _ _ | OpenChannel _ | SockTerm => tt
  | _ => inl tt
  end.

Definition producer_p : InputProducer := mkInputProducer true {["e"]} None "p".
Definition start (connected : bool) : ClientState := initial_client connected None [producer_p].

(** The client registers, and its producer sends two inputs. *)
Definition two_frames : list (action (St := ClientState) (E := client_sig)) :=
  [ Spawn (GrpcC.open_control false ;; Ret tt); Spawn (GrpcC.grpc_consumer_handler 5);
    Spawn (GrpcC.grpc_producer_handler 0 5);
    Tick 0; Tick 1; Tick 1; Tick 2; Tick 2; Tick 2; Tick 2; Tick 2 ].

Definition after_two_frames : pool ClientState client_sig :=
  (play (served_by (inl (Some frame_x))) (start false) two_frames).1.

(** The producer of a ZeroMQ client holds a token, waiting for the application,
    while the server falls silent and comes back. *)
Definition silent_server : list (action (St := ClientState) (E := client_sig)) :=
  [ Spawn (ZmqC.zmq_consumer_handler 5); Spawn (ZmqC.zmq_producer_handler 0 5);
    Tick 0; Tick 0; Tick 0;           (* the acknowledgement *)
    Tick 1;                           (* the producer takes a token *)
    Tick 0; Tick 0;                   (* silence: the client reconnects *)
    Tick 0; Tick 0;                   (* a heartbeat: the tokens are reset *)
    Tick 1 ].                         (* the application has no input in time *)

Definition after_silence : pool ClientState client_sig :=
  (play (served_by (inr TimeoutError)) (start true) silent_server).1.

Lemma after_two_frames_reachable : reachable bounded_client_task (start false) after_two_frames.
Proof.
  apply play_reachable.
  repeat (apply Forall_cons; split); try exact I; try apply Forall_nil_2; left; constructor.
Qed.

Lemma after_silence_reachable (spawnable : clt unit -> Prop) :
  (forall p, zmq_client_task p -> spawnable p) -> reachable spawnable (start true) after_silence.
Proof.
  intros Hsp. apply play_reachable.
  repeat (apply Forall_cons; split); try exact I; try apply Forall_nil_2; apply Hsp; constructor.
Qed.

Lemma client_tokens_within_bounds_witness :
  exists p, c_pools (p_state after_two_frames) !! 0%nat = Some p /\
    tp_sem_value p = 0 /\ 0 <= tp_sem_value p <= tp_max_tokens p.
Proof.
  eexists. split; [vm_compute; reflexivity|]. split; [reflexivity|].
  apply (client_tokens_within_bounds false None [producer_p] after_two_frames 0%nat);
    [exact after_two_frames_reachable|vm_compute; reflexivity].
Defined.

Lemma client_tokens_never_negative_witness :
  exists p, c_pools (p_state after_silence) !! 0%nat = Some p /\ 0 <= tp_sem_value p.
Proof.
  eexists. split; [vm_compute; reflexivity|].
  apply (client_tokens_never_negative true None [producer_p] after_silence 0%nat);
    [apply after_silence_reachable; unfold client_task; auto|vm_compute; reflexivity].
Defined.

(** A client that is registered and has its token pool. *)
Definition ready : ClientState :=
  mkClientState true true false {[0%nat]} (Some 2) [("p", 0%nat)] [(("p", 7), 0)] None (Some ["e"])
    true (Some "u") false 0 false ∅ [mkTokenPool 2 1 true 0 "p"] [producer_p].

Lemma frames_are_numbered_consecutively_witness :
  let '(o, s', h') := run (E := client_sig) (served_by (inl (Some frame_x)))
                        (GrpcC.grpc_producer_loop 0 0 1 7 3) ready [] in
  exists ms, sends h' = map (OnStream 1) ms /\ length ms = 1%nat /\
    map (fun m => in_frame_id (fc_input m)) ms = map (fun j => 7 + Z.of_nat j) (seq 0 (length ms)).
Proof.
  destruct (run (E := client_sig) _ _ ready []) as [[o s'] h'] eqn:E.
  destruct (proj1 (frames_are_numbered_consecutively (served_by (inl (Some frame_x))) 0 0 1 7 3 3)
              ready [] o s' h' E) as (ms & W & Hn & _).
  exists ms. split; [exact W|]. split; [|exact Hn].
  vm_compute in E. injection E as <- <- <-. apply (f_equal length) in W.
  rewrite length_app, length_map in W. vm_compute in W. exact (eq_sym W).
Defined.

Lemma input_spends_one_token_witness :
  let '(o, s', h') := run (E := client_sig) (served_by (inl (Some frame_x)))
                        (get_token 0 ;; GrpcC.grpc_send_frame 0 0 1 7) ready [] in
  o = inl 8 /\ exists p', c_pools s' !! 0%nat = Some p' /\
    ((8 = 7 + 1 /\ tp_sem_value p' = 0 /\ exists m, sends h' = [OnStream 1 m]) \/
     (8 = 7 /\ tp_sem_value p' = 1 /\ sends h' = [])).
Proof.
  destruct (run (E := client_sig) _ _ ready []) as [[o s'] h'] eqn:E.
  assert (o = inl 8) as -> by (vm_compute in E; congruence).
  split; [reflexivity|].
  apply (input_spends_one_token (served_by (inl (Some frame_x))) 0 0 (mkTokenPool 2 1 true 0 "p")
           1 7 ready [] 8 s' h'); [reflexivity|by split|reflexivity|done|exact E].
Defined.

Definition response (c : StatusCode) : ResultWrapper :=
  mkResultWrapper "p" true (mkResult (mkStatus c "") (StringResult "y") "e" 7).

Lemma response_is_accounted_for_witness :
  Forall (fun process =>
    exists o s' h', run (E := client_sig) (served_by (inl None)) (process (response SUCCESS))
        ready [] = (o, s', h') /\
      consumed h' = [rw_result (response SUCCESS)] /\ c_pending_results s' = [] /\
      o = inl tt /\ c_pools s' = [mkTokenPool 2 2 true 0 "p"])
    [process_response; WsC.ws_process_response].
Proof.
  apply Forall_cons_2; [|apply Forall_singleton].
  - destruct (response_is_accounted_for (served_by (inl None)) process_response (response SUCCESS) 0
                (mkTokenPool 2 1 true 0 "p") ready [] (or_introl eq_refl) (ex_intro _ _ eq_refl)
                eq_refl eq_refl eq_refl) as (o & s' & h' & E & W & P & T).
    exists o, s', h'. split; [exact E|]. split; [exact W|]. split; [exact P|].
    destruct o as [[]|x]; [by split|]. destruct T as (_ & _ & h1 & [=]).
  - destruct (response_is_accounted_for (served_by (inl None)) WsC.ws_process_response (response SUCCESS) 0
                (mkTokenPool 2 1 true 0 "p") ready [] (or_intror eq_refl) (ex_intro _ _ eq_refl)
                eq_refl eq_refl eq_refl) as (o & s' & h' & E & W & P & T).
    exists o, s', h'. split; [exact E|]. split; [exact W|]. split; [exact P|].
    destruct o as [[]|x]; [by split|]. destruct T as (_ & _ & h1 & [=]).
Defined.

(** There is a reachable state of the ZeroMQ client in which a token pool
    holds more tokens than its maximum: the producer handler held a token when
    the pool was reset, returned it afterwards, and the semaphore of a reset
    pool is not bounded. *)
Theorem reset_pool_exceeds_its_maximum :
  exists c p, reachable zmq_client_task (start true) c /\
    c_pools (p_state c) !! 0%nat = Some p /\ tp_max_tokens p < tp_sem_value p.
Proof.
  exists after_silence. eexists. split; [by apply after_silence_reachable|].
  split; [vm_compute; reflexivity|]. vm_compute. reflexivity.
Qed.

(** ** A session that ends

    A gRPC client without producers, whose server closes the control stream: the
    consumer fails, the registration is cancelled, and the client pauses. *)

Definition hung_up (h : history client_sig) (e : cev) : cresp e :=
  match e return cresp e with
  | CallRead => inl None
  | e => served_by (inl None) h e
  end.

Definition lonely : ClientState := (new_grpc_client (@None unit) None [] None).1.1.

Definition session_run (n : nat) : list saction :=
  take n (replicate 17 SMain ++ [STask 0; STask 0] ++ replicate 3 SMain ++ [STask 1] ++ replicate 8 SMain).

Definition session_at (n : nat) : sup unit * tasks ClientState client_sig :=
  (sys_play hung_up lonely (grpc_launch_async false 5 2) (session_run n)).1.

Lemma lonely_launched : launched lonely (grpc_launch_async false 5 2).
Proof. exact (launched_grpc false None [] None 5 2). Qed.

Lemma session_reachable n :
  sys_reachable app_task lonely (grpc_launch_async false 5 2)
    ((session_at n).1, (session_at n).2).
Proof. rewrite <- surjective_pairing. apply sys_play_reachable. Qed.

(** The pause before the client reconnects. *)
Lemma session_paused_orderly : orderly_tasks orderly (session_at 26).2.
Proof.
  intros t x. destruct (decide (t < 2)%nat) as [Ht|Ht].
  - destruct t as [|[|t]]; [| |lia]; vm_compute; intros [= <-]; reflexivity.
  - unfold exception_of, prog_of. rewrite lookup_ge_None_2; [done|].
    replace (length (k_tasks (session_at 26).2)) with 2%nat by (vm_compute; reflexivity). lia.
Qed.

Lemma no_task_outlives_its_session_witness :
  exception_of 0 (session_at 26).2 = Some DisconnectedError /\ is_done 1 (session_at 26).2 = true.
Proof.
  split; [vm_compute; reflexivity|].
  apply (no_task_outlives_its_session lonely (grpc_launch_async false 5 2) (session_at 26).1
           (session_at 26).2 1 lonely_launched (session_reachable 26)).
  - vm_compute. reflexivity.
  - exact session_paused_orderly.
  - apply Nat.ltb_lt. vm_compute. reflexivity.
Defined.

Lemma cleanup_ends_witness :
  cleaning_up (session_at 22).1 = Some [0; 1]%nat /\
  exists c', task_step 1 (session_at 22).2 c' /\ is_done 1 c' = true.
Proof.
  split; [vm_compute; reflexivity|].
  destruct (cleanup_ends lonely (grpc_launch_async false 5 2) (session_at 22).1 [0; 1]%nat
              (session_at 22).2 1 lonely_launched (session_reachable 22)) as [[c' Hc'] Hdone].
  - vm_compute. reflexivity.
  - right. left.
  - vm_compute. reflexivity.
  - exists c'. split; [exact Hc'|]. by apply Hdone.
Defined.

(** ** An error of a WebSocket client

    The server has no engine for an input: the consumer raises. *)

Definition no_engine_msg : ToClient :=
  ToClient_result_wrapper (mkResultWrapper "p" true
    (mkResult (mkStatus NO_ENGINE_FOR_INPUT "") NoResult "" 1)).

Definition refused (h : history client_sig) (e : cev) : cresp e :=
  match e return cresp e with
  | CWsRecv => inl (serialize no_engine_msg)
  | e => served_by (inl None) h e
  end.

Definition hidden : sup unit * tasks ClientState client_sig :=
  (sys_play refused (initial_client false None []) (ws_launch_async 5)
     (replicate 5 SMain ++ [STask 0; STask 0] ++ replicate 2 SMain ++ [STask 1] ++ replicate 4 SMain)).1.

(** An error of a handler ends a WebSocket client as if the server had
    disconnected: the consumer raised, and [launch_async] returned. *)
Theorem websocket_client_hides_errors :
  exists c, sys_reachable app_task (initial_client false None []) (ws_launch_async 5) (Ret tt, c) /\
    exception_of 0 c = Some (PyException "No engine for input").
Proof.
  exists hidden.2. split; [|vm_compute; reflexivity].
  replace (Ret tt, hidden.2) with hidden; [apply sys_play_reachable|].
  rewrite (surjective_pairing hidden) at 1. f_equal.
Qed.

(** ** The same error in the other two clients *)

Definition failing (h : history client_sig) (e : cev) : cresp e :=
  match e return cresp e with
  | CallRead => inl (Some no_engine_msg)
  | SockRecv => inl (serialize no_engine_msg)
  | e => served_by (inl None) h e
  end.

Definition grpc_failed : sup unit * tasks ClientState client_sig :=
  (sys_play failing (initial_client false None []) (grpc_launch_async false 5 2)
     (replicate 17 SMain ++ [STask 0; STask 0] ++ replicate 3 SMain ++ [STask 1] ++ replicate 4 SMain)).1.

Definition zmq_failed : sup unit * tasks ClientState client_sig :=
  (sys_play failing (initial_client true None []) (zmq_launch_async 5)
     (replicate 10 SMain ++ replicate 3 (STask 0) ++ replicate 4 SMain ++ [STask 1; STask 2]
      ++ replicate 4 SMain)).1.

Lemma launch_async_raises_witness :
  (grpc_failed.1 = Throw (PyException "No engine for input: ") /\
   exists t, exception_of t grpc_failed.2 = Some (PyException "No engine for input: ")) /\
  (zmq_failed.1 = Throw (PyException "No engine for input: ") /\
   exists t, exception_of t zmq_failed.2 = Some (PyException "No engine for input: ")).
Proof.
  assert (grpc_failed.1 = Throw (PyException "No engine for input: ")) as Eg by (vm_compute; reflexivity).
  assert (zmq_failed.1 = Throw (PyException "No engine for input: ")) as Ez by (vm_compute; reflexivity).
  split; (split; [assumption|]).
  - destruct (launch_async_raises 5 false None [] grpc_failed.1 grpc_failed.2) as (_ & _ & Hg & _).
    destruct (Hg false 2%nat) as [_ Hx].
    + rewrite <- surjective_pairing. apply sys_play_reachable.
    + destruct (Hx _ Eg) as [H|[H|[_ H]]]; [discriminate H|discriminate H|exact H].
  - destruct (launch_async_raises 5 true None [] zmq_failed.1 zmq_failed.2) as (_ & Hz & _).
    destruct Hz as [_ Hx].
    + rewrite <- surjective_pairing. apply sys_play_reachable.
    + destruct (Hx _ Ez) as [H|[H|H]]; [|discriminate H|exact H].
      assert (k_tasks zmq_failed.2 <> []) as Hn by (vm_compute; discriminate). by destruct Hn.
Defined.

(** ** An early response to a measurement client *)

Definition input_1 : FromClient := FromClient_input (mkInput 1 "p" ["e"] frame_x).
Definition answer_1 : ResultWrapper :=
  mkResultWrapper "p" true (mkResult (mkStatus SUCCESS "") (StringResult "r") "e" 1).

(** What runs in a measurement client for one frame. *)
Inductive measured_task : mclt unit -> Prop :=
| measured_registered r : measured_task (measured_process_registered r)
| measured_send m : measured_task (super (open_pool "p") ;; super (get_token 0) ;; measured_send_from_client m)
| measured_response w : measured_task (measured_process_response w).

Definition ticking (h : history client_sig) (e : cev) : cresp e :=
  match e return cresp e with
  | WallClock => Z.of_nat (length h)
  | e => served_by (inl None) h e
  end.

(** The response arrives before the call that sends the input has returned. *)
Definition early_response : pool MeasurementClient client_sig :=
  (play ticking (new_measurement_client (start false) 1)
     [ Spawn (measured_process_registered (mkRegistered 1 ["e"])); Tick 0;
       Spawn (super (open_pool "p") ;; super (get_token 0) ;; measured_send_from_client input_1); Tick 1;
       Spawn (measured_process_response answer_1); Tick 2 ]).1.

(** The round-trip time of a response that is processed before the time of
    sending is logged cannot be computed: the consumer raises [KeyError]. *)
Theorem early_response_ends_the_measurement :
  reachable measured_task (new_measurement_client (start false) 1) early_response /\
  p_tasks early_response !! 2%nat = Some (Throw KeyError).
Proof.
  split; [|vm_compute; reflexivity]. apply play_reachable.
  repeat (apply Forall_cons; split); try exact I; try apply Forall_nil_2; constructor.
Qed.
