(* ===== verification/Flow.v ===== *)
(** * The tokens of a session at the server

    What the server keeps for a producer of a client: an input that is accepted
    costs a token, one that is refused is answered with its token, and a result
    credits the token it returns.  This holds for both servers, which differ in
    the callback that hands an input to the engines ([EngineCallback]). *)

From S2P Require Import Prelude Coro Protocol ServerState Trace Instances GabrielServer Dispatch.
From S2P Require Import InputSpec ServerRunner ResultSpec GrpcServer LocalServer TransportSpec.

(** ** What the flow control relies on

    The callback that hands an input to the engines does not touch the tokens
    of the clients. *)

Definition session_view (s : World) :=
  (w_clients s, w_client_store s, w_num_tokens_per_producer s).

Class EngineCallback (cb : FromClient -> string -> Any -> srv (StatusCode * string)) : Prop := {
  callback_session_view : forall fc a info s, preserves session_view (cb fc a info) s;
}.

Lemma upd_worker_view wid g s : preserves session_view (upd_worker wid g) s.
Proof. unfold upd_worker. pres. Qed.

Lemma upd_producer_view pid g s : preserves session_view (upd_producer pid g) s.
Proof. unfold upd_producer. pres. Qed.

Lemma get_worker_view wid s : preserves session_view (get_worker wid) s.
Proof. unfold get_worker. pres. Qed.

Lemma get_producer_view pid s : preserves session_view (get_producer pid) s.
Proof. unfold get_producer. pres. Qed.

#[local] Hint Resolve upd_worker_view upd_producer_view get_worker_view get_producer_view : gabriel.

(** [pres], with the operations on the objects of the server. *)
Ltac spres := repeat first [ progress pres | solve [eauto with gabriel] ].

Lemma send_payload_view wid mp s : preserves session_view (send_payload wid mp) s.
Proof. unfold send_payload, send_helper, EngineWrite_, PerfCounter_. spres. Qed.

#[local] Hint Resolve send_payload_view : gabriel.

Section callbacks.
Context `{!PyEnv}.

Lemma find_target_engines_session targets wids s :
  preserves session_view (find_target_engines targets wids) s.
Proof.
  revert s. induction wids as [|wid wids IH]; intros s; cbn [find_target_engines]; [done|].
  unfold MetricCall_. spres.
Qed.

Lemma engine_ids_of_session wids s : preserves session_view (engine_ids_of wids) s.
Proof. revert s. induction wids as [|wid wids IH]; intros s; cbn [engine_ids_of]; [done|]. spres. Qed.

Lemma dispatch_loop_session pid mp wids b s : preserves session_view (dispatch_loop pid mp wids b) s.
Proof.
  revert b s. induction wids as [|wid wids IH]; intros b s; cbn [dispatch_loop]; [done|].
  unfold add_producer. spres.
Qed.

#[local] Hint Resolve find_target_engines_session engine_ids_of_session dispatch_loop_session : gabriel.

#[export] Instance send_to_engine_callback : EngineCallback send_to_engine.
Proof.
  constructor. intros fc a info s.
  unfold send_to_engine, process_input_from_client, add_input_to_queue, drop_removed_targets, MetricCall_.
  spres.
Qed.

#[export] Instance local_send_to_engine_callback : EngineCallback local_send_to_engine.
Proof. constructor. intros fc a info s. unfold local_send_to_engine. spres. Qed.
End callbacks.

(** ** The tokens of a producer *)

Section flow.
Context `{!PyEnv, !Codec ToClient, !Codec FromClient, !Codec InputFrame, !Transport, !TransportOk}.
Context (cb : FromClient -> string -> Any -> srv (StatusCode * string)) `{!EngineCallback cb}.

(** The session: the address of the client and its object at the server, the
    producer, and the number of tokens granted. *)
Variables (address pid : string) (cid : nat) (num : Z).

(** The tokens the server counts; a producer it has not seen has them all. *)
Definition server_tokens (s : World) : Z :=
  match w_client_store s !! cid with
  | Some cl => default num ((cl_tokens_for_producer cl).[pid])
  | None => num
  end.

Definition session_at_server (s : World) : Prop :=
  w_num_tokens_per_producer s = num /\ (w_clients s).[address] = Some cid /\
  exists cl, w_client_store s !! cid = Some cl /\ is_Some (cl_client_info cl).

Lemma session_view_eq s s' :
  session_view s' = session_view s ->
  (session_at_server s -> session_at_server s') /\ server_tokens s' = server_tokens s.
Proof.
  unfold session_view, session_at_server, server_tokens. intros [= E1 E2 E3]. rewrite E1, E2, E3. done.
Qed.

(** The object of the session, with [n] tokens for the producer. *)
Lemma put_tokens s cl n :
  session_at_server s -> w_client_store s !! cid = Some cl ->
  let s' := put_client cid (upd_cl_tokens_for_producer (fun d => d.[pid <- n]) cl) s in
  session_at_server s' /\ server_tokens s' = n /\
  w_client_store s' !! cid = Some (upd_cl_tokens_for_producer (fun d => d.[pid <- n]) cl).
Proof.
  intros (Hn & Ha & cl0 & Hcl0 & Hinfo) Hcl s'. assert (cl0 = cl) as -> by congruence.
  assert (w_client_store s' !! cid = Some (upd_cl_tokens_for_producer (fun d => d.[pid <- n]) cl)) as E
    by (by eapply put_client_get).
  split_and!; [|unfold server_tokens; rewrite E; simpl; by rewrite dict_get_set_eq|done].
  split_and!; [done|done|]. eexists. split; [exact E|done].
Qed.

(** An input of a client with a token is handed to the engines. *)
Lemma forward_ok s m :
  session_at_server s -> is_registration m = false -> in_producer_id (fc_input m) = pid ->
  1 <= server_tokens s ->
  exists info s1 cl1, session_at_server s1 /\ w_client_store s1 !! cid = Some cl1 /\
    (cl_tokens_for_producer cl1).[pid] = Some (server_tokens s) /\
    server_tokens s1 = server_tokens s /\
    forall env h, run env (consumer_helper cb cid address m) s h = run env (cb m address info) s1 h.
Proof.
  intros Hs Hm Hpid Ht. pose proof Hs as (Hn & Ha & cl & Hcl & info & Hinfo).
  assert (forall env h, run env (consumer_helper cb cid address m) s h =
                        run env (forward_input cb cid address m info) s h) as Hfw.
  { intros env h. unfold consumer_helper. destruct m; try done; erewrite exec_get_client by done; by rewrite Hinfo. }
  unfold server_tokens in Ht. rewrite Hcl in Ht.
  destruct ((cl_tokens_for_producer cl).[pid]) as [n|] eqn:En; simpl in Ht.
  - assert (server_tokens s = n) as Est by (unfold server_tokens; by rewrite Hcl, En).
    exists info, s, cl. split_and!; [done|done|congruence|done|]. intros env h. rewrite Hfw.
    unfold forward_input. rewrite Hpid. erewrite exec_get_client by done. rewrite exec_gets, En.
    rewrite exec_ret. erewrite exec_get_client by done. rewrite En. cbn [of_option].
    rewrite exec_ret. by rewrite (proj2 (Z.ltb_ge n 1)) by lia.
  - assert (server_tokens s = num) as Est by (unfold server_tokens; by rewrite Hcl, En).
    destruct (put_tokens s cl num Hs Hcl) as (Hs1 & Ht1 & Hcl1).
    eexists info, _, _. split_and!; [exact Hs1|exact Hcl1| |congruence|].
    { simpl. by rewrite dict_get_set_eq, Est. }
    intros env h. rewrite Hfw. unfold forward_input. rewrite Hpid.
    erewrite exec_get_client by done. rewrite exec_gets, En, Hn. unfold set_tokens.
    erewrite exec_upd_client by done. erewrite exec_get_client by exact Hcl1.
    simpl. rewrite dict_get_set_eq. cbn [of_option]. rewrite exec_ret.
    by rewrite (proj2 (Z.ltb_ge num 1)) by lia.
Qed.

(** ... and accepted, which costs the token, or answered with an error. *)
Lemma receive_ok env s m o s' h h' :
  session_at_server s -> is_registration m = false -> in_producer_id (fc_input m) = pid ->
  1 <= server_tokens s -> run env (respond cb cid address m) s h = (inl o, s', h') ->
  session_at_server s' /\
  ((o = None /\ server_tokens s' = server_tokens s - 1) \/
   exists w, o = Some (ToClient_result_wrapper w) /\ rw_return_token w = true /\
     rw_producer_id w = pid /\ server_tokens s' = server_tokens s).
Proof.
  intros Hs Hm Hpid Ht. destruct (forward_ok s m) as (info & s1 & cl1 & Hs1 & Hcl1 & En & Et & Hfw); auto.
  unfold respond. rewrite run_bind, Hfw.
  destruct (run env (cb m address info) s1 h) as [[[[st msg]|x] s2] h2] eqn:Ecb; [|done].
  assert (session_view s2 = session_view s1) as Hv.
  { eapply run_preserves; [|exact Ecb]. intros. apply callback_session_view. }
  destruct (session_view_eq _ _ Hv) as [Hs2 Et2]. specialize (Hs2 Hs1).
  assert (w_client_store s2 !! cid = Some cl1) as Hcl2 by (unfold session_view in Hv; congruence).
  case_decide as Hst.
  - rewrite Hm. rewrite run_bind. unfold consume_token. erewrite exec_get_client by done.
    rewrite Hpid, En. cbn [of_option]. rewrite exec_ret. unfold set_tokens.
    rewrite exec_eta. erewrite exec_upd_client by done. intros [= <- <- <-].
    destruct (put_tokens s2 cl1 (server_tokens s - 1) Hs2 Hcl2) as (Ha' & Hb' & _). auto.
  - destruct (StatusCode_Name st) as [name|]; [|done]. cbn [of_option]. rewrite exec_ret.
    intros [= <- <- <-]. split; [done|]. right. eexists. split; [reflexivity|]. simpl.
    split_and!; [done|done|congruence].
Qed.

(** A result credits the token it returns, whether or not it is sent. *)
Lemma answer_ok env s eid r rt o s' h h' :
  session_at_server s -> (rt = true -> server_tokens s < num) ->
  run env (send_result address pid eid r rt) s h = (o, s', h') ->
  session_at_server s' /\ server_tokens s' = server_tokens s + (if rt then 1 else 0).
Proof.
  intros Hs Hlt. pose proof Hs as (Hn & Ha & cl & Hcl & Hinfo). unfold send_result.
  rewrite exec_gets, Ha. erewrite exec_get_client by done.
  assert (forall b s1 h1, run env (send_via_transport address b) s1 h1 = (o, s', h') -> s' = s1) as Hro.
  { intros b s1 h1. by apply run_readonly, send_via_transport_readonly. }
  destruct ((cl_tokens_for_producer cl).[pid]) as [n|] eqn:En.
  - assert (server_tokens s = n) as Est by (unfold server_tokens; by rewrite Hcl, En).
    destruct rt.
    + unfold set_tokens. erewrite exec_upd_client by done. intros ->%Hro.
      destruct (put_tokens s cl (n + 1) Hs Hcl) as (Ha' & Hb' & _). split; [done|]. lia.
    + rewrite exec_ret. intros ->%Hro. split; [done|]. lia.
  - rewrite exec_ret. intros ->%Hro. destruct rt; [|split; [done|lia]].
    assert (server_tokens s = num) by (unfold server_tokens; by rewrite Hcl, En).
    specialize (Hlt eq_refl). lia.
Qed.
End flow.
