(* ===== verification/System.v ===== *)
(** * A client and a server, interleaved

    The tasks of one session of a gRPC client, as [GrpcClient._run_session]
    creates them, and the coroutines of a gRPC server; the tasks of a WebSocket
    client, as [WebsocketClient.launch_async] creates them, and the coroutines of
    a WebSocket server; or the tasks of a ZeroMQ client, as
    [ZeroMQClient.launch_async] creates them, and the coroutines of a ZeroMQ
    server: run by two event loops that take any number of steps in any order.
    Messages travel in between, in any order, and may get lost.  A ZeroMQ client
    hears from the server in time: one that does not resets its tokens, whatever
    the server has counted.  The server also serves other clients and any
    engines, about which nothing is assumed; the application of the client does
    what it likes with its producers.

    What the credits of [ClientCredits] and [ServerCredits] say of each process
    adds up to the flow control of the system: the tokens of a producer in the
    pool of the client, with the messages on their way, those that a ZeroMQ server
    has queued among them, and with the inputs that the server holds, are never more than the number granted; so an input of the
    producer is never refused for want of a token, and a token that is returned
    always fits into the pool. *)

From S2P Require Import Prelude Coro Credits Protocol ServerState GabrielServer Dispatch ServerRunner.
From S2P Require Import GrpcServer TokenInv TokenSafety ServerCredits.
From S2P Require Import ClientState GabrielClient GrpcClient WebsocketClient ZeroMQClient ClientSafety ClientSession ClientCredits.
From S2P Require Import ClientSpec Flow.

(** ** The system *)

Record system := mkSystem {
  y_client : pool ClientState client_sig;
  y_server : pool World server_sig;
  y_up : list FromClient;  (* on their way to the server, on the streams of the session *)
  y_down : list ToClient;  (* on their way to the client, on its control stream *)
}.

(** A ZeroMQ client counts as connected from the start. *)
Definition connects_at_once (w : wire) : bool := match w with over_zeromq => true | _ => false end.

Section system.
Context `{!PyEnv, !Codec ToClient, !Codec FromClient, !Codec InputFrame}.
(** The transport, the session, the context of its control stream, the contexts
    of all its streams; for a WebSocket client, its address and its
    connection; for a ZeroMQ client, its address. *)
Variables (w : wire) (sid : string) (ctx : nat) (mine : nat -> bool).

(** The message that an answer delivers to a coroutine of the server, and the
    one that a coroutine writes to the control stream of the session. *)
Definition delivered_up (a : option { e : ev server_sig & resp server_sig e }) : list FromClient :=
  match a with
  | Some (existT e r) =>
      match arrived e r with Some (ch, m) => if of_session sid mine ch then [m] else [] | None => [] end
  | None => []
  end.

Definition written_down (p : srv unit) : list ToClient :=
  match p with
  | Vis e _ => match sent_to e with Some (ch, m) => if to_control sid ctx ch then [m] else [] | None => [] end
  | _ => []
  end.

(** The message that an answer delivers to a coroutine of the client. *)
Definition delivered_down (a : option { e : ev client_sig & resp client_sig e }) : list ToClient :=
  match a with Some (existT e r) => option_list (brought e r) | None => [] end.

(** The answer does not tell a ZeroMQ client that the server is silent. *)
Definition in_time (a : option { e : ev client_sig & resp client_sig e }) : Prop :=
  match a with Some (existT e r) => heard e r | None => True end.

(** The message that a coroutine of the client sends. *)
Definition written_up (p : clt unit) : list FromClient :=
  match p with Vis e _ => option_list (outgoing e) | _ => [] end.

Inductive system_step : system -> system -> Prop :=
| sys_server u s ts up up' dn i p a q s' p' :
    ts !! i = Some p -> resumed p a q -> segment s q s' p' -> up ≡ₚ delivered_up a ++ up' ->
    system_step (mkSystem u (Pool s ts) up dn)
      (mkSystem u (Pool s' (<[i := p']> ts)) up' (dn ++ written_down p'))
| sys_client u ts srv up dn dn' i p a q u' p' :
    ts !! i = Some p -> resumed p a q -> in_time a -> segment u q u' p' -> dn ≡ₚ delivered_down a ++ dn' ->
    system_step (mkSystem (Pool u ts) srv up dn)
      (mkSystem (Pool u' (<[i := p']> ts)) srv (up ++ written_up p') dn')
| sys_server_spawn u s ts up dn p :
    session_task sid mine w p ->
    system_step (mkSystem u (Pool s ts) up dn) (mkSystem u (Pool s (ts ++ [p])) up (dn ++ written_down p))
| sys_client_spawn u ts srv up dn p :
    app_task p ->
    system_step (mkSystem (Pool u ts) srv up dn) (mkSystem (Pool u (ts ++ [p])) srv (up ++ written_up p) dn)
| sys_lose_up u srv m up up' dn :
    up ≡ₚ m :: up' -> system_step (mkSystem u srv up dn) (mkSystem u srv up' dn)
| sys_lose_down u srv m up dn dn' :
    dn ≡ₚ m :: dn' -> system_step (mkSystem u srv up dn) (mkSystem u srv up dn').

(** The tasks that [GrpcClient._run_session] creates, those that
    [WebsocketClient.launch_async] creates, and those that
    [ZeroMQClient.launch_async] creates, in the order in which each lists
    them. *)
Definition run_session_tasks (control fuel : nat) (u : ClientState) : list (clt unit) :=
  map (fun i => GrpcC.grpc_producer_handler i fuel) (set_iter (c_input_producers u)) ++
  [GrpcC.grpc_consumer_handler fuel;
   registration_handler (GrpcC.send_registration control) fuel fuel].

Definition ws_session_tasks (fuel : nat) (u : ClientState) : list (clt unit) :=
  map (fun i => WsC.ws_producer_handler i fuel) (set_iter (c_input_producers u)) ++
  [WsC.ws_consumer_handler fuel;
   registration_handler WsC.ws_send_raw fuel fuel].

Definition zmq_session_tasks (fuel : nat) (u : ClientState) : list (clt unit) :=
  map (fun i => ZmqC.zmq_producer_handler i fuel) (set_iter (c_input_producers u)) ++
  [ZmqC.zmq_consumer_handler fuel; ZmqC.heartbeat_loop fuel;
   registration_handler ZmqC.zmq_send_raw fuel fuel].

(** The server has just been constructed, with [num] tokens per producer.  A
    gRPC client, in any state [u0] between two sessions, has opened the control
    stream of a new session and created its tasks; a WebSocket or a ZeroMQ client
    has just been constructed, has connected and created its tasks.  The identifiers of
    the producers differ. *)
Inductive system_start (num size : Z) : wire -> system -> Prop :=
| start_session u0 u secure control fuel :
    CInv true u0 -> segment u0 (GrpcC.open_control secure ≫= fun _ => Ret tt) u (Ret tt) ->
    NoDup (ip_producer_id <$> c_producers u0) ->
    (forall i, i ∈ c_input_producers u0 -> is_Some (c_producers u0 !! i)) ->
    system_start num size over_grpc
      (mkSystem (Pool u (run_session_tasks control fuel u)) (Pool (initial_world num size) []) [] [])
| start_connection endpoint producers info u fuel :
    new_websocket_client endpoint producers info = inl u ->
    NoDup (ip_producer_id <$> producers) ->
    system_start num size over_websocket
      (mkSystem (Pool u (ws_session_tasks fuel u)) (Pool (initial_world num size) []) [] [])
| start_socket endpoint producers info u fuel :
    new_zeromq_client endpoint producers info = inl u ->
    NoDup (ip_producer_id <$> producers) ->
    system_start num size over_zeromq
      (mkSystem (Pool u (zmq_session_tasks fuel u)) (Pool (initial_world num size) []) [] []).

Inductive system_reachable (y0 : system) : system -> Prop :=
| sys_init : system_reachable y0 y0
| sys_next y y' : system_reachable y0 y -> system_step y y' -> system_reachable y0 y'.

(** ** Counting *)

Section count.
Variables (pid : string) (num : Z) (n0 : nat) (ids : list string) (zmq : bool).

(** The inputs of the producer and the tokens returned to it, among messages. *)
Definition inputs_in (l : list FromClient) : Z := total ((fun m => one (input_of pid m)) <$> l).
Definition returns_in (l : list ToClient) : Z := total ((fun m => one (returns_to pid m)) <$> l).

#[local] Instance total_proper : Proper ((≡ₚ) ==> eq) total.
Proof. intros l l'. unfold total. induction 1; simpl in *; lia. Qed.

#[local] Instance inputs_proper : Proper ((≡ₚ) ==> eq) inputs_in.
Proof. intros l l' Hp. unfold inputs_in. by rewrite Hp. Qed.

#[local] Instance returns_proper : Proper ((≡ₚ) ==> eq) returns_in.
Proof. intros l l' Hp. unfold returns_in. by rewrite Hp. Qed.

Lemma inputs_cons m l : inputs_in (m :: l) = one (input_of pid m) + inputs_in l.
Proof. done. Qed.

Lemma inputs_app l l' : inputs_in (l ++ l') = inputs_in l + inputs_in l'.
Proof. unfold inputs_in. by rewrite fmap_app, total_app. Qed.

Lemma inputs_nonneg l : 0 <= inputs_in l.
Proof. apply total_nonneg, Forall_fmap, Forall_true. intros m. apply one_bounds. Qed.

Lemma returns_cons m l : returns_in (m :: l) = one (returns_to pid m) + returns_in l.
Proof. done. Qed.

Lemma returns_app l l' : returns_in (l ++ l') = returns_in l + returns_in l'.
Proof. unfold returns_in. by rewrite fmap_app, total_app. Qed.

Lemma returns_nonneg l : 0 <= returns_in l.
Proof. apply total_nonneg, Forall_fmap, Forall_true. intros m. apply one_bounds. Qed.

Lemma inputs_elem m l : m ∈ l -> input_of pid m = true -> 1 <= inputs_in l.
Proof.
  intros [l' ->]%elem_of_Permutation Hm. pose proof (inputs_nonneg l').
  rewrite inputs_cons, Hm. simpl. lia.
Qed.

Lemma returns_elem m l : m ∈ l -> returns_to pid m = true -> 1 <= returns_in l.
Proof.
  intros [l' ->]%elem_of_Permutation Hm. pose proof (returns_nonneg l').
  rewrite returns_cons, Hm. simpl. lia.
Qed.

Abbreviation TS := (server_tariff sid ctx mine pid num).
Abbreviation TC := (client_tariff pid num n0).

(** The prices and gains of the tariffs are what the messages carry. *)
Lemma gained_up a : gained TS a = inputs_in (delivered_up a).
Proof.
  destruct a as [[e r]|]; [|done]. simpl. unfold input_gain. destruct (arrived e r) as [[ch m]|]; [|done].
  destruct (of_session sid mine ch); simpl; [|done]. unfold inputs_in, total. simpl. lia.
Qed.

Lemma issued_down p : issued TS p = returns_in (written_down p).
Proof.
  destruct p as [| | | |e k]; try done. simpl. unfold write_cost.
  destruct (sent_to e) as [[ch m]|] eqn:He; [|by destruct (ssuspends e)].
  assert (ssuspends e = true) as -> by (by destruct e).
  destruct (to_control sid ctx ch); simpl; [|done]. unfold returns_in, total. simpl. lia.
Qed.

Lemma gained_down a : gained TC a = returns_in (delivered_down a).
Proof.
  destruct a as [[e r]|]; [|done]. simpl. unfold answer_gain. destruct (brought e r) as [m|]; [|done].
  unfold returns_in, total. simpl. lia.
Qed.

Lemma issued_up p : issued TC p = inputs_in (written_up p).
Proof.
  destruct p as [| | | |e k]; try done. simpl. unfold send_cost.
  destruct (outgoing e) as [m|] eqn:He; [|by destruct (csuspends e)].
  assert (csuspends e = true) as -> by (by destruct e).
  unfold inputs_in, total. simpl. lia.
Qed.

Lemma permitted_down a l : in_time a -> Forall (grants num) (delivered_down a ++ l) -> permitted TC a.
Proof.
  destruct a as [[e r]|]; [|done]. simpl. intros Ha. unfold answer_grants.
  destruct (brought e r) as [m|]; [|done]. by intros [? _]%Forall_cons.
Qed.

Lemma granted_down p s : issued_ok TS p s -> Forall (grants num) (written_down p).
Proof.
  destruct p as [| | | |e k]; try (constructor). simpl. unfold write_guard.
  destruct (sent_to e) as [[ch m]|] eqn:He; [|constructor]. intros Hg.
  destruct (to_control sid ctx ch); [|constructor]. constructor; [|constructor]. apply Hg. by destruct e.
Qed.

Lemma opened_up p s : issued_ok TC p s -> 1 <= inputs_in (written_up p) -> is_Some ((c_tokens s).[pid]).
Proof.
  destruct p as [| | | |e k]; try (by unfold inputs_in, total; simpl; lia). simpl. unfold send_guard.
  destruct (outgoing e) as [m|] eqn:He; [|by unfold inputs_in, total; simpl; lia]. simpl. intros Hg Hin.
  apply Hg; [by destruct e|].
  unfold inputs_in, total in Hin. simpl in Hin. destruct (input_of pid m); [done|simpl in Hin; lia].
Qed.

(** ** The accounts

    The credits [zc] and [zs] of the coroutines of either side, the inputs the
    client has sent ([su]) and the server has received ([rs]), and the tokens the
    server has returned ([sd]) and the client has received ([rd]). *)

Abbreviation CI := (UInv num n0 ids zmq).
Abbreviation fundedC := (funded TC CI grows).
Abbreviation fundedS := (funded TS (SInv sid ctx num) evolves).

Record accounts (y : system) (zc zs : list Z) (su rs sd rd : Z) : Prop := {
  ac_client : fundedC (y_client y) zc;
  ac_server : fundedS (y_server y) zs;
  ac_tokens : free_tokens sid pid num (p_state (y_server y)) = num + total zs - rs + sd;
  ac_pool : tokens_at_client pid n0 (p_state (y_client y)) <= num + rd - su - total zc;
  ac_up : 0 <= rs /\ rs + inputs_in (y_up y) <= su;
  ac_down : 0 <= rd /\ rd + returns_in (y_down y) <= sd;
  ac_grants : Forall (grants num) (y_down y);
  ac_opened : 0 < su -> is_Some ((c_tokens (p_state (y_client y))).[pid]);
}.

Definition accounted (y : system) : Prop := exists zc zs su rs sd rd, accounts y zc zs su rs sd rd.

Lemma funded_credit {St E} (tf : tariff St E) I G s ts zs i p :
  funded tf I G (Pool s ts) zs -> ts !! i = Some p -> exists z, zs !! i = Some z.
Proof.
  intros [_ Hts] Hi. apply lookup_lt_is_Some. apply Forall2_length in Hts. simpl in Hts.
  rewrite <- Hts. by eapply lookup_lt_Some.
Qed.

Lemma accounted_server u s ts up up' dn i p a q s' p' :
  NoDup (owners s) -> NoDup (owners s') ->
  ts !! i = Some p -> resumed p a q -> segment s q s' p' -> up ≡ₚ delivered_up a ++ up' ->
  accounted (mkSystem u (Pool s ts) up dn) ->
  accounted (mkSystem u (Pool s' (<[i := p']> ts)) up' (dn ++ written_down p')).
Proof.
  intros Hk Hk' Hi Hres Hseg Hup (zc & zs & su & rs & sd & rd & [Hc Hs Ht Hp Hu Hd Hg Ho]).
  cbn [y_client y_server y_up y_down p_state] in *.
  destruct (funded_credit _ _ _ _ _ _ _ _ Hs Hi) as [z Hz].
  destruct (funded_step TS _ evolves s ts zs i p a q s' p' z Hs Hk Hk' Hi Hz Hres ltac:(by destruct a as [[]|]) Hseg)
    as (Hs' & Hpos & Hok & _).
  rewrite gained_up, issued_down in *. cbn [amount server_tariff] in *. rewrite Hup, inputs_app in Hu.
  pose proof (inputs_nonneg (delivered_up a)). pose proof (returns_nonneg (written_down p')).
  eexists zc, _, su, (rs + inputs_in (delivered_up a)), (sd + returns_in (written_down p')), rd.
  split; cbn [y_client y_server y_up y_down p_state]; [done|exact Hs'| |done|lia| | |done].
  - rewrite (total_insert _ _ _ _ Hz). lia.
  - rewrite returns_app. lia.
  - apply Forall_app. split; [done|by eapply granted_down].
Qed.

Lemma accounted_client u ts srv up dn dn' i p a q u' p' :
  ts !! i = Some p -> resumed p a q -> in_time a -> segment u q u' p' -> dn ≡ₚ delivered_down a ++ dn' ->
  accounted (mkSystem (Pool u ts) srv up dn) ->
  accounted (mkSystem (Pool u' (<[i := p']> ts)) srv (up ++ written_up p') dn').
Proof.
  intros Hi Hres Hin Hseg Hdn (zc & zs & su & rs & sd & rd & [Hc Hs Ht Hp Hu Hd Hg Ho]).
  cbn [y_client y_server y_up y_down p_state] in *. rewrite Hdn in Hg.
  destruct (funded_credit _ _ _ _ _ _ _ _ Hc Hi) as [z Hz].
  destruct (funded_step TC _ grows u ts zc i p a q u' p' z Hc I I Hi Hz Hres (permitted_down _ _ Hin Hg) Hseg)
    as (Hc' & Hpos & Hok & Hgr).
  rewrite gained_down, issued_up in *. cbn [amount client_tariff] in *. rewrite Hdn, returns_app in Hd.
  pose proof (inputs_nonneg (written_up p')). pose proof (returns_nonneg (delivered_down a)).
  eexists _, zs, (su + inputs_in (written_up p')), rs, sd, (rd + returns_in (delivered_down a)).
  split; cbn [y_client y_server y_up y_down p_state]; [exact Hc'|done|done| | |lia| |].
  - rewrite (total_insert _ _ _ _ Hz). lia.
  - rewrite inputs_app. lia.
  - by apply Forall_app in Hg as [_ ?].
  - intros Hsu. destruct (decide (1 <= inputs_in (written_up p'))); [by eapply opened_up|].
    apply Hgr, Ho. lia.
Qed.

Lemma accounted_server_spawn u s ts up dn p :
  control_of ctx mine w -> NoDup (owners s) -> session_task sid mine w p ->
  accounted (mkSystem u (Pool s ts) up dn) ->
  accounted (mkSystem u (Pool s (ts ++ [p])) up (dn ++ written_down p)).
Proof.
  intros Hm Hk Hp (zc & zs & su & rs & sd & rd & [Hc Hs Ht Hpl Hu Hd Hg Ho]).
  cbn [y_client y_server y_up y_down p_state] in *.
  destruct (funded_spawn TS _ evolves s ts zs p 0 Hs Hk ltac:(lia)) as [Hs' Hok].
  { intros s1 HI _. apply pays_squared; [by eapply thrifty_session_task|]. split; [done|reflexivity]. }
  rewrite issued_down in Hs'. pose proof (returns_nonneg (written_down p)).
  eexists zc, _, su, rs, (sd + returns_in (written_down p)), rd.
  split; cbn [y_client y_server y_up y_down p_state]; [done|exact Hs'| |done|done| | |done].
  - rewrite total_app. unfold total at 2. simpl. lia.
  - rewrite returns_app. lia.
  - apply Forall_app. split; [done|by eapply granted_down].
Qed.

Lemma accounted_client_spawn u ts srv up dn p :
  app_task p -> accounted (mkSystem (Pool u ts) srv up dn) ->
  accounted (mkSystem (Pool u (ts ++ [p])) srv (up ++ written_up p) dn).
Proof.
  intros Hp (zc & zs & su & rs & sd & rd & [Hc Hs Ht Hpl Hu Hd Hg Ho]).
  cbn [y_client y_server y_up y_down p_state] in *.
  destruct (funded_spawn TC _ grows u ts zc p 0 Hc I ltac:(lia)) as [Hc' Hok].
  { intros s1 HI _. apply pays_squared; [by apply thrifty_app|]. split; [done|reflexivity]. }
  rewrite issued_up in Hc'. pose proof (inputs_nonneg (written_up p)).
  eexists _, zs, (su + inputs_in (written_up p)), rs, sd, rd.
  split; cbn [y_client y_server y_up y_down p_state]; [exact Hc'|done|done| | |done|done|].
  - rewrite total_app. unfold total at 2. simpl. lia.
  - rewrite inputs_app. lia.
  - intros Hsu. destruct (decide (1 <= inputs_in (written_up p))); [by eapply opened_up|]. apply Ho. lia.
Qed.

Lemma accounted_step y y' :
  control_of ctx mine w -> NoDup (owners (p_state (y_server y))) -> NoDup (owners (p_state (y_server y'))) ->
  system_step y y' -> accounted y -> accounted y'.
Proof.
  intros Hm Hk Hk' Hstep Hy. revert Hk Hk' Hy.
  destruct Hstep; cbn [y_server p_state]; intros Hk Hk' Hy.
  - eapply accounted_server; [exact Hk|exact Hk'|eassumption..].
  - eapply accounted_client; eassumption.
  - by apply accounted_server_spawn.
  - by apply accounted_client_spawn.
  - destruct Hy as (zc & zs & su & rs & sd & rd & [Hc Hs Ht Hp Hu Hd Hg Ho]).
    exists zc, zs, su, rs, sd, rd. split; try done. simpl in *.
    match goal with H : _ ≡ₚ _ |- _ => rewrite H, inputs_cons in Hu end.
    pose proof (one_bounds (input_of pid m)). lia.
  - destruct Hy as (zc & zs & su & rs & sd & rd & [Hc Hs Ht Hp Hu Hd Hg Ho]).
    exists zc, zs, su, rs, sd, rd. split; try done; simpl in *;
      match goal with H : _ ≡ₚ _ |- _ => rewrite H in *; rewrite ?returns_cons in * end.
    + pose proof (one_bounds (returns_to pid m)). lia.
    + by apply Forall_cons in Hg as [_ ?].
Qed.

(** ** The start of a session *)

(** The credit of the handler of a producer: all the tokens, if it is the
    producer that is counted. *)
Definition endowment (i : nat) : Z := if decide (ids !! i = Some pid) then num else 0.

Lemma endowment_total l : 0 <= num -> NoDup ids -> NoDup l -> total (endowment <$> l) <= num.
Proof.
  intros Hn Hids. induction 1 as [|i l Hi Hl IH]; [done|]. rewrite fmap_cons.
  change (endowment i + total (endowment <$> l) <= num). unfold endowment at 1. case_decide as Hd; [|lia].
  enough (total (endowment <$> l) = 0) by lia. clear IH Hl.
  induction l as [|j l IH]; [done|]. apply not_elem_of_cons in Hi as [Hij Hi]. rewrite fmap_cons.
  change (endowment j + total (endowment <$> l) = 0). rewrite (IH Hi). unfold endowment. case_decide as Hj; [|done].
  exfalso. apply Hij. by eapply NoDup_lookup.
Qed.

Lemma ready_fresh {St E} (tf : tariff St E) I G p z s :
  suspended p = false -> pays tf I G p (squared tf I G) z s s -> ready tf I G p z s.
Proof. intros Hs Hp. destruct p; try done. simpl in *. by rewrite Hs in *. Qed.

Lemma handlers_ready (producer : nat -> clt unit) (others : list (clt unit)) u :
  (forall i, suspended (producer i) = false) ->
  (forall i q s, ids !! i = Some q -> CI s ->
     pays TC CI grows (producer i) (saved CI grows 0) (endowment i) s s) ->
  Forall (fun p => suspended p = false /\ frugal TC CI grows p) others ->
  0 <= num -> CI u -> (forall i, i ∈ c_input_producers u -> is_Some (ids !! i)) ->
  fundedC (Pool u (map producer (set_iter (c_input_producers u)) ++ others))
    ((endowment <$> set_iter (c_input_producers u)) ++ replicate (length others) 0).
Proof.
  intros Hps Hp Hothers Hn HU Hids. split; [done|]. cbn [p_state p_tasks]. apply Forall2_app.
  - apply Forall2_fmap, Forall_Forall2_diag, Forall_forall. intros i Hi. apply set_iter_elem in Hi.
    destruct (Hids i Hi) as [q Hq]. split; [unfold endowment; case_decide; lia|]. intros s HI _ _.
    apply ready_fresh; [done|]. eapply pays_mono; [|by apply (Hp i q)].
    intros o c s0 s1 [H1 [H2 H3]] _. by split_and!.
  - apply Forall2_replicate_r; [done|]. eapply Forall_impl; [exact Hothers|]. intros p [Hs Hp'].
    split; [lia|]. intros s HI _ _. apply ready_fresh; [done|].
    apply pays_squared; [done|]. split; [done|reflexivity].
Qed.

(** The credit of a handler is what its tokens are worth. *)
Lemma endowed i q :
  0 <= num -> ids !! i = Some q -> 0 <= endowment i /\ worth pid q * num <= endowment i.
Proof.
  intros Hn Hq. unfold endowment, worth. rewrite Hq.
  case_decide as Hd; [injection Hd as ->; by rewrite bool_decide_true; [simpl; lia|]|].
  rewrite bool_decide_false by congruence. simpl. lia.
Qed.

(** The producers' handlers, on the credit of their tokens. *)
Lemma producers_ready (producer : nat -> nat -> clt unit) others fuel u ts zs :
  zs = replicate (length others) 0 -> ts = map (fun i => producer i fuel) (set_iter (c_input_producers u)) ++ others ->
  (forall i q z s0 s, ids !! i = Some q -> rest CI grows s0 s -> 0 <= z -> worth pid q * num <= z ->
     pays TC CI grows (producer i fuel) (saved CI grows 0) z s0 s) ->
  (forall i, suspended (producer i fuel) = false) ->
  Forall (fun p => suspended p = false /\ frugal TC CI grows p) others ->
  0 <= num -> CI u -> (forall i, i ∈ c_input_producers u -> is_Some (ids !! i)) ->
  fundedC (Pool u ts) ((endowment <$> set_iter (c_input_producers u)) ++ zs).
Proof.
  intros -> -> Hp Hs Ho Hn. apply handlers_ready; [done| |done|done].
  intros i q s Hq HI. destruct (endowed i q Hn Hq). apply (Hp i q); [done| |done|done].
  split; [done|reflexivity].
Qed.

Lemma grpc_handlers_ready control fuel u :
  zmq = false -> 0 <= num -> CI u -> (forall i, i ∈ c_input_producers u -> is_Some (ids !! i)) ->
  fundedC (Pool u (run_session_tasks control fuel u))
    ((endowment <$> set_iter (c_input_producers u)) ++ [0; 0]).
Proof.
  intros Hz Hn HU Hids. apply (producers_ready GrpcC.grpc_producer_handler [GrpcC.grpc_consumer_handler fuel;
    registration_handler (GrpcC.send_registration control) fuel fuel] fuel u
    (run_session_tasks control fuel u) [0; 0] eq_refl eq_refl); [..|done|done|done].
  - intros. by apply (producer_handler_pays pid num n0 ids zmq i q).
  - intros i. by destruct fuel.
  - repeat apply Forall_cons_2; [..|constructor]; (split; [by destruct fuel|]).
    + by apply thrifty_consumer_handler.
    + apply thrifty_registration_handler, thrifty_send_registration.
Qed.

Lemma ws_handlers_ready fuel u :
  0 <= num -> CI u -> (forall i, i ∈ c_input_producers u -> is_Some (ids !! i)) ->
  fundedC (Pool u (ws_session_tasks fuel u))
    ((endowment <$> set_iter (c_input_producers u)) ++ [0; 0]).
Proof.
  intros Hn HU Hids. apply (producers_ready WsC.ws_producer_handler [WsC.ws_consumer_handler fuel;
    registration_handler WsC.ws_send_raw fuel fuel] fuel u
    (ws_session_tasks fuel u) [0; 0] eq_refl eq_refl); [..|done|done|done].
  - intros. by apply (ws_producer_handler_pays pid num n0 ids zmq i q).
  - intros i. by destruct fuel.
  - repeat apply Forall_cons_2; [..|constructor]; (split; [by destruct fuel|]).
    + apply thrifty_ws_consumer_handler.
    + apply thrifty_registration_handler, thrifty_ws_send_registration.
Qed.

Lemma zmq_handlers_ready fuel u :
  zmq = true -> 0 <= num -> CI u -> (forall i, i ∈ c_input_producers u -> is_Some (ids !! i)) ->
  fundedC (Pool u (zmq_session_tasks fuel u))
    ((endowment <$> set_iter (c_input_producers u)) ++ [0; 0; 0]).
Proof.
  intros Hz Hn HU Hids. apply (producers_ready ZmqC.zmq_producer_handler [ZmqC.zmq_consumer_handler fuel;
    ZmqC.heartbeat_loop fuel; registration_handler ZmqC.zmq_send_raw fuel fuel] fuel u
    (zmq_session_tasks fuel u) [0; 0; 0] eq_refl eq_refl); [..|done|done|done].
  - intros. by apply (zmq_producer_handler_pays pid num n0 ids zmq i q).
  - intros i. by destruct fuel.
  - repeat apply Forall_cons_2; [..|constructor]; (split; [by destruct fuel|]).
    + by apply thrifty_zmq_consumer_handler.
    + apply thrifty_heartbeat_loop.
    + apply thrifty_registration_handler, thrifty_zmq_send_registration.
Qed.
End count.

(** What opening the control stream leaves of the state of the client. *)
Lemma open_control_segment u0 u secure :
  segment u0 (GrpcC.open_control secure ≫= fun _ => Ret tt) u (Ret tt) ->
  c_registered_event u = false /\ c_tokens u = [] /\ c_pools u = c_pools u0 /\
  c_producers u = c_producers u0 /\ c_input_producers u = c_input_producers u0.
Proof.
  intros Hs. simpl in Hs. do 8 apply segment_inv in Hs.
  apply segment_inv in Hs as [[] Hs]. apply segment_inv in Hs as [sess Hs].
  do 2 apply segment_inv in Hs. apply segment_inv in Hs as [c Hs]. apply segment_inv in Hs as [-> _].
  done.
Qed.

(** ** Reachable states *)

Section reachable.
Variables (pid : string) (num size : Z) (y0 : system).
Hypothesis control_mine : control_of ctx mine w.
Hypothesis num_nonneg : 0 <= num.
Hypothesis start : system_start num size w y0.

(** The pools that earlier sessions have left behind. *)
Definition old_pools : nat := length (c_pools (p_state (y_client y0))).
Definition producer_ids : list string := ip_producer_id <$> c_producers (p_state (y_client y0)).

Lemma resumed_resume {St E} (p : prog St E unit) a q : resumed p a q -> resume p q.
Proof. by destruct 1; constructor. Qed.

Lemma system_server_step y y' :
  system_step y y' -> y_server y' = y_server y \/ step server_task (y_server y) (y_server y').
Proof.
  destruct 1; cbn [y_server]; auto; right.
  - econstructor; eauto using resumed_resume.
  - constructor. by eapply session_task_server.
Qed.

Lemma start_server : y_server y0 = Pool (initial_world num size) [].
Proof. by destruct start. Qed.

Lemma system_server_ok y : system_reachable y0 y -> pool_ok Inv evolves (y_server y).
Proof.
  induction 1 as [|y y' _ IH Hs].
  - rewrite start_server. split; [apply fresh_inv|constructor].
  - destruct (system_server_step _ _ Hs) as [->|Hstep]; [done|].
    apply (step_safe Inv evolves server_task) in Hstep; [by apply Hstep| |done].
    intros p s Hp HI. apply (server_task_ok _ Hp). split; [done|reflexivity].
Qed.

Lemma owners_earlier s s' : evolves s s' -> NoDup (owners s') -> NoDup (owners s).
Proof.
  intros Hev Hnd. apply NoDup_alt. intros i j o Hi Hj.
  assert (forall i, owners s !! i = Some o -> owners s' !! i = Some o) as Hkeep.
  { intros k. unfold owners. rewrite !list_lookup_fmap. destruct (w_client_store s !! k) as [c|] eqn:Hc; [|done].
    intros [= <-]. destruct (ev_store _ _ Hev _ _ Hc) as (c' & -> & [Ho _]). simpl. by rewrite Ho. }
  by eapply (NoDup_lookup (owners s')); eauto.
Qed.

Lemma producers_known info producers i :
  i ∈ c_input_producers (set_input_producers (new_gabriel_client info producers)) ->
  is_Some ((ip_producer_id <$> producers) !! i).
Proof.
  intros Hi. rewrite list_lookup_fmap. apply fmap_is_Some, lookup_lt_is_Some.
  cbn in Hi. apply elem_of_list_to_set, elem_of_seq in Hi. lia.
Qed.

(** The start of a session, whatever the transport: the state of the client,
    the credits of its handlers. *)
Lemma start_client :
  let u := p_state (y_client y0) in let ids := producer_ids in
  UInv num old_pools ids (connects_at_once w) u /\ NoDup ids /\
  exists zs, funded (client_tariff pid num old_pools) (UInv num old_pools ids (connects_at_once w)) grows (y_client y0)
    ((endowment pid num ids <$> set_iter (c_input_producers u)) ++ zs) /\ total zs = 0.
Proof.
  unfold old_pools, producer_ids.
  destruct start as [u0 u secure control fuel HI Hopen Hids Hprod
                    |endpoint producers info u fuel Hnew Hids|endpoint producers info u fuel Hnew Hids];
    cbn [y_client p_state connects_at_once].
  - destruct (open_control_segment _ _ _ Hopen) as (Hreg & Htok & Hpools & Hprods & Hin).
    rewrite <- Hprods, <- ?Hin in *.
    assert (UInv num (length (c_pools u)) (ip_producer_id <$> c_producers u) false u) as HU.
    { split; [|split].
      - destruct HI as [H1 H2]. split; [by rewrite Hpools|]. by rewrite Htok.
      - done.
      - by rewrite Htok.
      - intros t p Ht Hp. apply lookup_lt_Some in Hp. lia.
      - by rewrite Hreg.
      - done.
      - done. }
    split_and!; [done|done|]. exists [0; 0]. split; [|done].
    apply grpc_handlers_ready; [done..|]. intros i Hi. rewrite list_lookup_fmap. by apply fmap_is_Some, Hprod.
  - unfold new_websocket_client in Hnew. case_decide; [done|]. injection Hnew as <-. cbn.
    assert (UInv num 0 (ip_producer_id <$> producers) false
      (set_input_producers (new_gabriel_client info producers))) as HU.
    { split; [apply (initial_client_inv true false info producers)|]. split; by cbn. }
    split_and!; [done|done|]. exists [0; 0]. split; [|done].
    apply (ws_handlers_ready _ _ _ _ _ fuel _ num_nonneg HU). apply producers_known.
  - unfold new_zeromq_client in Hnew. case_decide; [done|]. injection Hnew as <-. cbn.
    assert (UInv num 0 (ip_producer_id <$> producers) true
      (upd_c_connected (fun _ => true) (set_input_producers (new_gabriel_client info producers)))) as HU.
    { split; [apply (initial_client_inv true true info producers)|]. split; by cbn. }
    split_and!; [done|done|]. exists [0; 0; 0]. split; [|done].
    apply (zmq_handlers_ready _ _ _ _ _ fuel _ eq_refl num_nonneg HU). apply producers_known.
Qed.

Lemma start_accounted : accounted pid num old_pools producer_ids (connects_at_once w) y0.
Proof.
  destruct start_client as (HU & Hids & zs & Hc & Hzs).
  assert (y_up y0 = [] /\ y_down y0 = []) as [Hup Hdn] by (by destruct start).
  eexists _, [], 0, 0, 0, 0. split; rewrite ?Hup, ?Hdn, ?start_server; cbn [p_state].
  - exact Hc.
  - split; [|constructor]. split; [apply fresh_inv|]. by split.
  - unfold free_tokens, tokens_at_server, queued_at_server, total. simpl. lia.
  - unfold tokens_at_client, old_pools. rewrite drop_all, total_app, Hzs. unfold total at 1. simpl.
    pose proof (endowment_total pid num producer_ids (set_iter (c_input_producers (p_state (y_client y0))))
      num_nonneg Hids (set_iter_NoDup _)). lia.
  - done.
  - done.
  - constructor.
  - lia.
Qed.

Lemma reachable_accounted y :
  system_reachable y0 y -> NoDup (owners (p_state (y_server y))) ->
  accounted pid num old_pools producer_ids (connects_at_once w) y.
Proof.
  induction 1 as [|y y' Hr IH Hs]; intros Hk; [apply start_accounted|].
  assert (NoDup (owners (p_state (y_server y)))) as Hk0.
  { destruct (system_server_step _ _ Hs) as [E|Hstep]; [by rewrite <- E|].
    apply (step_safe Inv evolves server_task) in Hstep as [_ Hev];
      [by eapply owners_earlier| |by apply system_server_ok].
    intros p s Hp HI. apply (server_task_ok _ Hp). split; [done|reflexivity]. }
  by eapply accounted_step; [done| | |exact Hs|apply IH].
Qed.

(** *** The tokens of the session at the server *)

Lemma share_total (l : list Client) :
  NoDup (cl_owner <$> l) ->
  (forall cid cl, l !! cid = Some cl -> cl_owner cl = sid ->
     total (share sid pid num <$> l) = default num ((cl_tokens_for_producer cl).[pid]) - num) /\
  (sid ∉ cl_owner <$> l -> total (share sid pid num <$> l) = 0).
Proof.
  induction l as [|c l IH]; [done|]. rewrite !fmap_cons. intros [Hc Hl]%NoDup_cons.
  specialize (IH Hl) as [IH1 IH2].
  change (total (share sid pid num c :: (share sid pid num <$> l)))
    with (share sid pid num c + total (share sid pid num <$> l)).
  assert (cl_owner c <> sid -> share sid pid num c = 0) as Hne.
  { intros Hd. unfold share. by rewrite decide_False. }
  split.
  - intros [|cid] cl Hcl Ho; [injection Hcl as <-|simpl in Hcl].
    + rewrite IH2 by (by rewrite <- Ho). unfold share. rewrite decide_True by done. lia.
    + rewrite (IH1 _ _ Hcl Ho), Hne; [lia|]. intros Hd. apply Hc. rewrite Hd, <- Ho.
      apply list_elem_of_fmap. exists cl. split; [done|]. by eapply list_elem_of_lookup_2.
  - intros [Hn Hni]%not_elem_of_cons. rewrite Hne, IH2 by done. done.
Qed.

Lemma tokens_of_client s cid cl :
  NoDup (owners s) -> w_client_store s !! cid = Some cl -> cl_owner cl = sid ->
  tokens_at_server sid pid num s = default num ((cl_tokens_for_producer cl).[pid]).
Proof.
  intros Hk Hcl Ho. unfold tokens_at_server. destruct (share_total _ Hk) as [H1 _].
  rewrite (H1 _ _ Hcl Ho). lia.
Qed.

Lemma tokens_at_server_bound s :
  Inv s -> w_num_tokens_per_producer s = num -> NoDup (owners s) ->
  tokens_at_server sid pid num s + outstanding sid pid s <= num.
Proof.
  intros HI Hn Hk. destruct (ti_bounds _ _ HI Hk) as [B1 B2].
  destruct (decide (sid ∈ owners s)) as [Hin|Hin].
  - apply list_elem_of_fmap in Hin as (cl & Ho & [cid Hcl]%list_elem_of_lookup_1).
    rewrite (tokens_of_client _ _ _ Hk Hcl (eq_sym Ho)). specialize (B1 cid cl pid Hcl).
    rewrite <- Ho in B1. unfold no_credit in B1.
    destruct ((cl_tokens_for_producer cl).[pid]); simpl; lia.
  - destruct (share_total _ Hk) as [_ H2]. unfold tokens_at_server. rewrite H2 by done.
    specialize (B2 sid pid Hin). unfold no_credit in B2. lia.
Qed.

(** *** The inputs that wait at a ZeroMQ server *)

Lemma total_elem zs i z : Forall (Z.le 0) zs -> zs !! i = Some z -> z <= total zs.
Proof.
  intros Hz. revert i. induction Hz as [|y zs Hy Hz IH]; intros [|i] Hi; simplify_eq/=.
  - pose proof (total_nonneg _ Hz). unfold total in *. simpl. lia.
  - specialize (IH _ Hi). unfold total in *. simpl. lia.
Qed.

Lemma inbox_nonneg cl : 0 <= inbox sid pid cl.
Proof.
  unfold inbox. case_decide; [|done]. apply total_nonneg, Forall_fmap, Forall_true. intros b. simpl.
  unfold is_input. destruct (zmq_from_client b); [apply one_bounds|done].
Qed.

Lemma queued_nonneg s : 0 <= queued_at_server sid pid s.
Proof. apply total_nonneg, Forall_fmap, Forall_true. intros cl. apply inbox_nonneg. Qed.

Lemma queued_elem m cid cl s :
  w_client_store s !! cid = Some cl -> cl_owner cl = sid ->
  Some m ∈ zmq_from_client <$> cl_inputs cl -> input_of pid m = true -> 1 <= queued_at_server sid pid s.
Proof.
  intros Hcl Ho (b & Hb & [i Hi]%list_elem_of_lookup_1)%list_elem_of_fmap Hm.
  assert (1 <= inbox sid pid cl) as Hone.
  { unfold inbox. rewrite decide_True by done. transitivity (is_input pid b).
    - unfold is_input. by rewrite <- Hb, Hm.
    - apply (total_elem _ i); [|by rewrite list_lookup_fmap, Hi].
      apply Forall_fmap, Forall_true. intros b'. simpl. unfold is_input.
      destruct (zmq_from_client b'); [apply one_bounds|done]. }
  etransitivity; [exact Hone|]. apply (total_elem _ cid); [|by rewrite list_lookup_fmap, Hcl].
  apply Forall_fmap, Forall_true. intros cl'. apply inbox_nonneg.
Qed.

(** *** The tokens of the session at the client *)

Lemma pools_nonneg u : CInv true u -> Forall (Z.le 0) (pool_tokens pid <$> drop old_pools (c_pools u)).
Proof.
  intros [Hp _]. apply Forall_fmap, Forall_drop. eapply Forall_impl; [exact Hp|].
  intros p [[H1 _ _] _]. simpl. unfold pool_tokens. case_decide; lia.
Qed.

(** The pool of the producer holds no more than all its pools. *)
Lemma pool_within u t p :
  UInv num old_pools producer_ids (connects_at_once w) u -> (c_tokens u).[pid] = Some t -> c_pools u !! t = Some p ->
  tp_producer_id p = pid /\ tp_max_tokens p = num /\ tp_sem_value p <= tokens_at_client pid old_pools u.
Proof.
  intros HU Ht Hp. pose proof (si_tokens _ _ _ _ _ (proj2 HU) _ _ Ht) as Hold.
  destruct (ci_tokens _ _ (proj1 HU) _ _ Ht) as (p' & Hp' & Hid).
  rewrite Hp in Hp'. injection Hp' as <-. split; [done|]. split; [by eapply si_max; [apply HU|..]|].
  unfold tokens_at_client. eapply (total_elem _ (t - old_pools)); [apply pools_nonneg, HU|].
  rewrite list_lookup_fmap, lookup_drop. replace (old_pools + (t - old_pools))%nat with t by lia.
  rewrite Hp. simpl. unfold pool_tokens. by rewrite decide_True.
Qed.

(** The accounts, with the bound of the server. *)
Lemma reachable_bounds y :
  system_reachable y0 y -> NoDup (owners (p_state (y_server y))) ->
  let u := p_state (y_client y) in let s := p_state (y_server y) in
  UInv num old_pools producer_ids (connects_at_once w) u /\ w_num_tokens_per_producer s = num /\
  tokens_at_client pid old_pools u + inputs_in pid (y_up y) + returns_in pid (y_down y) + queued_at_server sid pid s
    <= tokens_at_server sid pid num s /\
  tokens_at_server sid pid num s + outstanding sid pid s <= num /\
  (1 <= returns_in pid (y_down y) -> is_Some ((c_tokens u).[pid])).
Proof.
  intros Hr Hk u s. destruct (reachable_accounted y Hr Hk)
    as (zc & zs & su & rs & sd & rd & [Hc Hs Ht Hp Hu Hd Hg Ho]).
  pose proof (total_nonneg _ (funded_nonneg _ _ _ _ _ Hc)). pose proof (total_nonneg _ (funded_nonneg _ _ _ _ _ Hs)).
  destruct Hs as [[HI HS] _]. pose proof (st_num _ _ _ _ HS) as Hn. fold s in HI, Hn, Ht.
  pose proof (tokens_at_server_bound s HI Hn Hk). pose proof (outstanding_nonneg sid pid s).
  pose proof (inputs_nonneg pid (y_up y)). pose proof (queued_nonneg s). unfold free_tokens in Ht.
  split_and!; [apply Hc|done|unfold u; lia|done|]. intros Hret. apply Ho. lia.
Qed.
End reachable.

(** C1. Over gRPC, over WebSocket and over ZeroMQ, in every state that a session
    of a client and the server reach, however their coroutines interleave,
    messages are delayed, reordered and lost, and other clients and engines
    behave: the tokens in the pool of a producer, the inputs of the producer on
    their way to the server, the tokens on their way back, and the inputs that a
    ZeroMQ server has queued for the session are no more than the tokens the
    server counts for the producer; and these, with the inputs of the producer
    that the server holds, are no more than the number granted.  So at most that
    many inputs of a producer are in the system at any time.  No session
    identifier, and no address of a client, is used twice; a ZeroMQ client hears
    from the server before its poll times out. *)
Theorem tokens_within_grant pid num size y0 y :
  control_of ctx mine w -> 0 <= num -> system_start num size w y0 -> system_reachable y0 y ->
  NoDup (owners (p_state (y_server y))) ->
  0 <= tokens_at_client pid (old_pools y0) (p_state (y_client y)) /\
  tokens_at_client pid (old_pools y0) (p_state (y_client y))
    + inputs_in pid (y_up y) + returns_in pid (y_down y) + queued_at_server sid pid (p_state (y_server y))
    <= tokens_at_server sid pid num (p_state (y_server y)) /\
  tokens_at_server sid pid num (p_state (y_server y)) + outstanding sid pid (p_state (y_server y)) <= num.
Proof.
  intros Hm Hn Hst Hr Hk.
  destruct (reachable_bounds pid num size y0 Hm Hn Hst y Hr Hk) as (HU & _ & H1 & H2 & _).
  split_and!; [|done|done]. apply total_nonneg, pools_nonneg, HU.
Qed.

(** C2. In every such state the flow control works: an input of the producer that
    is on its way to the server, or that a ZeroMQ server has queued, would, if it
    were taken up now, find a token and be handed to the engines, provided the
    session is open and registered; and a
    token on its way back would, if it arrived now, be returned to the pool of
    the producer, which exists and has room for it. *)
Theorem interleaved_flow_control pid num size y0 y :
  control_of ctx mine w -> 0 <= num -> system_start num size w y0 -> system_reachable y0 y ->
  NoDup (owners (p_state (y_server y))) ->
  (forall m cid cl, input_of pid m = true ->
     (w_clients (p_state (y_server y))).[sid] = Some cid ->
     w_client_store (p_state (y_server y)) !! cid = Some cl -> is_Some (cl_client_info cl) ->
     m ∈ y_up y \/ Some m ∈ zmq_from_client <$> cl_inputs cl ->
     exists info s1, forall env h,
       run env (consumer_helper send_to_engine cid sid m) (p_state (y_server y)) h =
       run env (send_to_engine m sid info) s1 h) /\
  (forall m, m ∈ y_down y -> returns_to pid m = true -> exists t p,
     (c_tokens (p_state (y_client y))).[pid] = Some t /\ c_pools (p_state (y_client y)) !! t = Some p /\
     forall env h, exists h',
       run env (return_token_of pid) (p_state (y_client y)) h =
       (inl tt, upd_c_pools (fun l => <[t := set_value (tp_sem_value p + 1) p]> l) (p_state (y_client y)), h')).
Proof.
  intros Hm Hn Hst Hr Hk.
  destruct (reachable_bounds pid num size y0 Hm Hn Hst y Hr Hk) as (HU & Hnum & H1 & H2 & H3).
  pose proof (system_server_ok num size y0 Hm Hst y Hr) as [HI _].
  pose proof (total_nonneg _ (pools_nonneg pid y0 _ (proj1 HU))) as Hpos.
  pose proof (inputs_nonneg pid (y_up y)). pose proof (returns_nonneg pid (y_down y)).
  pose proof (outstanding_nonneg sid pid (p_state (y_server y))). unfold tokens_at_client in H1.
  pose proof (queued_nonneg pid (p_state (y_server y))).
  split.
  - intros m cid cl Hof Hc Hcl Hinfo Hin.
    destruct (ti_clients _ _ HI _ _ Hc) as (cl' & Hcl' & Ho). rewrite Hcl in Hcl'. injection Hcl' as <-.
    assert (1 <= inputs_in pid (y_up y) + queued_at_server sid pid (p_state (y_server y))) as Hone.
    { destruct Hin as [Hin|Hin]; [pose proof (inputs_elem pid m _ Hin Hof); lia|].
      pose proof (queued_elem pid m cid cl (p_state (y_server y)) Hcl Ho Hin Hof). lia. }
    unfold input_of in Hof. apply andb_true_iff in Hof as [Hreg Hp%bool_decide_eq_true].
    destruct (forward_ok send_to_engine sid pid cid num (p_state (y_server y)) m)
      as (info & s1 & _ & _ & _ & _ & _ & Hfw).
    + split_and!; [done|done|by exists cl].
    + by destruct (is_registration m).
    + done.
    + unfold server_tokens. rewrite Hcl, <- (tokens_of_client pid num _ cid cl Hk Hcl Ho). lia.
    + by exists info, s1.
  - intros m Hin Hret. pose proof (returns_elem pid m _ Hin Hret) as Hone.
    destruct (H3 Hone) as [t Ht]. destruct (ci_tokens _ _ (proj1 HU) _ _ Ht) as (p & Hp & _).
    destruct (pool_within pid num y0 _ t p HU Ht Hp) as (_ & Hmax & Hval). unfold tokens_at_client in Hval.
    exists t, p. split_and!; [done|done|]. intros env h.
    destruct (exec_return_token_of env pid t p (p_state (y_client y)) h Ht Hp) as (h' & _ & E); [lia|].
    by exists h'.
Qed.
End system.
