(* ===== verification/SystemScenario.v ===== *)
(** * A concrete run of a client and a server

    Executable schedules of [System], and one of them over each transport: an
    engine connects, the client registers and sends two inputs; the engine has
    answered the first, the second is on its way. *)

From S2P Require Import Prelude Coro Credits Protocol ServerState Instances Config GabrielServer Dispatch ServerRunner.
From S2P Require Import GrpcServer WebsocketServer ZeroMQServer TokenInv TokenSafety ServerCredits Scenario.
From S2P Require Import ClientState GabrielClient GrpcClient ZeroMQClient ClientSession ClientSafety ClientCredits ClientScenario System.

Section schedule.
Context {St : Type} {E : sig} (env : history E -> forall e : ev E, resp E e).

(** The answer that a coroutine is given. *)
Definition answered (p : prog St E unit) (h : history E) : option { e : ev E & resp E e } :=
  match p with
  | Vis e _ => if suspends E e then Some (existT e (env h e)) else None
  | _ => None
  end.

Lemma answer_resumed p h q h' : answer env p h = (q, h') -> resumed p (answered p h) q.
Proof.
  destruct p as [| | | |e k]; simpl; try (intros; simplify_eq; by constructor).
  destruct (suspends E e) eqn:He; intros; simplify_eq; by constructor.
Qed.

(** A coroutine of the pool takes a step. *)
Definition tick (i : nat) (c : pool St E) (h : history E)
    : option (option { e : ev E & resp E e } * prog St E unit * pool St E * history E) :=
  p ← p_tasks c !! i;
  let '(q, h1) := answer env p h in
  let '(p', s', h2) := run_segment env q (p_state c) h1 in
  Some (answered p h, p', Pool s' (<[i := p']> (p_tasks c)), h2).

Lemma tick_sound i s ts h a p' c' h' :
  tick i (Pool s ts) h = Some (a, p', c', h') ->
  exists p q s', ts !! i = Some p /\ resumed p a q /\ segment s q s' p' /\ c' = Pool s' (<[i := p']> ts).
Proof.
  unfold tick. simpl. destruct (ts !! i) as [p|] eqn:Hi; [|done]. simpl.
  destruct (answer env p h) as [q h1] eqn:Hq.
  destruct (run_segment env q s h1) as [[p1 s'] h2] eqn:Hr. intros [= <- <- <- <-].
  exists p, q, s'. split_and!; eauto using answer_resumed, run_segment_segment.
Qed.
End schedule.

(** The messages that are next in line. *)
Definition after {A} `{EqDecision A} (l queue : list A) : option (list A) :=
  if decide (take (length l) queue = l) then Some (drop (length l) queue) else None.

Lemma after_sound {A} `{EqDecision A} (l queue rest : list A) :
  after l queue = Some rest -> queue ≡ₚ l ++ rest.
Proof.
  unfold after. case_decide as Hd; [|done]. intros [= <-]. rewrite <- Hd at 1. by rewrite take_drop.
Qed.

(** The client hears from the server in time. *)
Definition timely (a : option { e : ev client_sig & resp client_sig e }) : bool :=
  match a with
  | Some (existT e r) =>
      (match e as e return cresp e -> bool with
       | SockPoll => fun r => negb (bool_decide (r = inl false))
       | _ => fun _ => true
       end) r
  | None => true
  end.

Lemma timely_sound a : timely a = true -> in_time a.
Proof.
  destruct a as [[[] r]|]; try done. cbn. intros H%negb_true_iff%bool_decide_eq_false. exact H.
Qed.

Section play.
Context `{!PyEnv, !Codec ToClient, !Codec FromClient, !Codec InputFrame}.
Variables (w : wire) (sid : string) (ctx : nat) (mine : nat -> bool).
Context (senv : history server_sig -> forall e : ev server_sig, resp server_sig e).
Context (cenv : history client_sig -> forall e : ev client_sig, resp client_sig e).

Inductive move : Type :=
| Serve (p : srv unit)  (* a coroutine of the server starts *)
| Server (i : nat)
| Client (i : nat).

Definition joint_act (y : system * history server_sig * history client_sig) (m : move)
    : option (system * history server_sig * history client_sig) :=
  let '(mkSystem u s up dn, hs, hc) := y in
  match m with
  | Serve p => Some (mkSystem u (Pool (p_state s) (p_tasks s ++ [p])) up (dn ++ written_down sid ctx p), hs, hc)
  | Server i =>
      '(a, p', s', hs') ← tick senv i s hs;
      up' ← after (delivered_up sid mine a) up;
      Some (mkSystem u s' up' (dn ++ written_down sid ctx p'), hs', hc)
  | Client i =>
      '(a, p', u', hc') ← tick cenv i u hc;
      (if timely a then Some tt else None) ≫= fun _ =>
      dn' ← after (delivered_down a) dn;
      Some (mkSystem u' s (up ++ written_up p') dn', hs, hc')
  end.

Fixpoint joint_play (y : system * history server_sig * history client_sig) (l : list move) : option system :=
  match l with
  | [] => Some y.1.1
  | m :: l' => y' ← joint_act y m; joint_play y' l'
  end.

Lemma joint_act_step y hs hc m y' hs' hc' :
  (forall p, m = Serve p -> session_task sid mine w p) ->
  joint_act (y, hs, hc) m = Some (y', hs', hc') -> system_step w sid ctx mine y y'.
Proof.
  intros Hm. destruct y as [u [s ts] up dn]. destruct m as [p|i|i]; simpl.
  - intros [= <- <- <-]. constructor. by apply Hm.
  - destruct (tick senv i (Pool s ts) hs) as [[[[a p'] c'] h']|] eqn:Ht; [|done]. simpl.
    destruct (after _ up) as [up'|] eqn:Hu; [|done]. intros [= <- <- <-].
    destruct (tick_sound _ _ _ _ _ _ _ _ _ Ht) as (p & q & s' & Hi & Hr & Hs & ->).
    eapply sys_server; eauto using after_sound.
  - destruct u as [u us]. destruct (tick cenv i (Pool u us) hc) as [[[[a p'] c'] h']|] eqn:Ht; [|done]. simpl.
    destruct (timely a) eqn:Ha; [|done]. simpl. destruct (after _ dn) as [dn'|] eqn:Hu; [|done]. intros [= <- <- <-].
    destruct (tick_sound _ _ _ _ _ _ _ _ _ Ht) as (p & q & s' & Hi & Hr & Hs & ->).
    eapply sys_client; eauto using after_sound, timely_sound.
Qed.

Lemma joint_play_reachable y0 y hs hc l y' :
  system_reachable w sid ctx mine y0 y ->
  Forall (fun m => match m with Serve p => session_task sid mine w p | _ => True end) l ->
  joint_play (y, hs, hc) l = Some y' -> system_reachable w sid ctx mine y0 y'.
Proof.
  intros Hr Hl. revert y hs hc Hr. induction Hl as [|m l Hm Hl IH]; intros y hs hc Hr; cbn [joint_play].
  - by intros [= <-].
  - destruct (joint_act (y, hs, hc) m) as [[[y1 hs1] hc1]|] eqn:Ha; [|done]. simpl. apply IH.
    eapply sys_next; [exact Hr|]. eapply joint_act_step; [|exact Ha]. by intros p ->.
Qed.
End play.

(** ** The run *)

Import Concrete.

Definition stream_md (role : string) : list (string * string) := [("session-id", "u"); ("stream-role", role)].

Definition answer_1 : FromEngine :=
  FromEngine_result (mkResult (mkStatus SUCCESS "") (StringResult "y") "e" 1).

(** The engine stream is 1, the streams of the session are 2 and 3. *)
Definition session_streams (c : nat) : bool := bool_decide (c ∈ [2; 3]%nat).

Definition session_moves : list move :=
  [ Serve (engine_session 1 [FromEngine_register (mkRegister "e" false); answer_1]);
    Server 0;                                             (* the engine registers *)
    Serve (client_session 2 (stream_md "control") [FromClient_registration default_Any]);
    Server 1; Client 1; Client 2;                         (* the client sends its registration *)
    Server 1; Server 1; Server 1; Client 1;               (* which is acknowledged *)
    Client 0; Client 0;                                   (* the producer sends the first input *)
    Serve (client_session 3 (stream_md "producer") [input 1 "p" ["e"]; input 2 "p" ["e"]]);
    Server 2; Server 2;                                   (* which is sent to the engine *)
    Server 0; Server 0;                                   (* the engine answers *)
    Client 0; Client 0 ].                                 (* the producer sends the second input *)

Definition application := served_by (inl (Some frame_x)).

Definition opened : ClientState :=
  (run_segment application (GrpcC.open_control false ≫= fun _ => Ret tt) (start false) []).1.2.

Definition session_0 : system :=
  mkSystem (Pool opened (run_session_tasks 1 5 opened)) (Pool (initial_world 2 5) []) [] [].

Definition session_1 : system :=
  default session_0 (joint_play "u" 2 session_streams calm application (session_0, [], []) session_moves).

Lemma session_0_start : system_start 2 5 over_grpc session_0.
Proof.
  apply (start_session _ _ (start false) opened false).
  - apply initial_client_inv.
  - apply (run_segment_segment application _ _ [] _ _ (run_segment application
      (GrpcC.open_control false ≫= fun _ => Ret tt) (start false) []).2). vm_compute. reflexivity.
  - apply NoDup_singleton.
  - intros i Hi. assert (i = 0%nat) as -> by (by apply elem_of_list_to_set, list_elem_of_singleton in Hi).
    by eexists.
Qed.

Lemma default_Some {A} (a : A) (o : option A) : bool_decide (is_Some o) = true -> o = Some (default a o).
Proof. intros Ho%bool_decide_eq_true_1. by destruct Ho as [x ->]. Qed.

Lemma session_1_reachable : system_reachable over_grpc "u" 2 session_streams session_0 session_1.
Proof.
  eapply (joint_play_reachable over_grpc "u" 2 session_streams calm application session_0 session_0 [] [] session_moves).
  - constructor.
  - repeat (apply Forall_cons; split); try exact I; try apply Forall_nil_2; constructor; reflexivity.
  - apply default_Some. vm_compute. reflexivity.
Qed.

Lemma session_1_owners : NoDup (owners (p_state (y_server session_1))).
Proof. vm_compute. apply NoDup_singleton. Qed.

(** ** The same over WebSocket *)

(** The server acknowledges the registration. *)
Definition ws_application (h : history client_sig) (e : cev) : cresp e :=
  match e return cresp e with
  | CWsRecv => inl (serialize registered_msg)
  | e => application h e
  end.

(** The engine stream is 1, the connection is 2. *)
Definition connection (c : nat) : bool := bool_decide (c = 2%nat).

Definition ws_engine_session := @EngineSession py codec_ToClient Ws.ws_transport.
Definition ws_client_handler := @Ws.client_handler py codec_ToClient codec_FromClient send_to_engine.

Definition connection_moves : list move :=
  [ Serve (ws_engine_session 1 [FromEngine_register (mkRegister "e" false); answer_1]);
    Server 0;                                             (* the engine registers *)
    Serve (ws_client_handler 2 "u" (serialize <$>
      [FromClient_registration default_Any; input 1 "p" ["e"]; input 2 "p" ["e"]]));
    Server 1; Client 1; Client 2;                         (* the client sends its registration *)
    Server 1; Server 1; Server 1; Client 1;               (* which is acknowledged *)
    Client 0; Client 0;                                   (* the producer sends the first input *)
    Server 1; Server 1;                                   (* which is sent to the engine *)
    Server 0; Server 0;                                   (* the engine answers *)
    Client 0; Client 0 ].                                 (* the producer sends the second input *)

Definition connected : ClientState :=
  default (start false) (match new_websocket_client "ws://h" [producer_p] None with inl u => Some u | inr _ => None end).

Definition connection_0 : system :=
  mkSystem (Pool connected (ws_session_tasks 5 connected)) (Pool (initial_world 2 5) []) [] [].

Definition connection_1 : system :=
  default connection_0 (joint_play "u" 2 connection calm ws_application (connection_0, [], []) connection_moves).

Lemma connection_0_start : system_start 2 5 over_websocket connection_0.
Proof.
  apply (start_connection _ _ "ws://h" [producer_p] None).
  - vm_compute. reflexivity.
  - apply NoDup_singleton.
Qed.

Lemma connection_1_reachable : system_reachable over_websocket "u" 2 connection connection_0 connection_1.
Proof.
  eapply (joint_play_reachable over_websocket "u" 2 connection calm ws_application connection_0 connection_0
    [] [] connection_moves).
  - constructor.
  - repeat (apply Forall_cons; split); try exact I; try apply Forall_nil_2; constructor; reflexivity.
  - apply default_Some. vm_compute. reflexivity.
Qed.

Lemma connection_1_owners : NoDup (owners (p_state (y_server connection_1))).
Proof. vm_compute. apply NoDup_singleton. Qed.

(** ** The same over ZeroMQ *)

Definition count_recv (x : { e : sev & sresp e }) : bool :=
  match projT1 x with ZmqRecv => true | _ => false end.

(** What arrives on the socket of the server. *)
Definition arrivals : list (string * bytes) :=
  [("u", Zmq.HELLO_MSG); ("u", serialize (FromClient_registration default_Any));
   ("u", serialize (input 1 "p" ["e"])); ("u", serialize (input 2 "p" ["e"]))].

Definition socket (h : history server_sig) (e : sev) : sresp e :=
  match e return sresp e with
  | ZmqRecv => from_option inl (inr ZMQError) (arrivals !! Z.to_nat (countb count_recv h))
  | e => calm h e
  end.

(** The server is never silent for long. *)
Definition zmq_application (h : history client_sig) (e : cev) : cresp e :=
  match e return cresp e with
  | SockPoll => inl true
  | e => application h e
  end.

Definition zmq_engine_session := @EngineSession py codec_ToClient Zmq.zmq_transport.
Definition zmq_consumer := @Zmq.consumer py codec_ToClient codec_FromClient send_to_engine.
Definition listen : Listen := mkListen (Port 9099) None false.

Definition socket_moves : list move :=
  [ Serve (Zmq.launch listen); Server 0;                  (* the server runs *)
    Serve (zmq_engine_session 1 [FromEngine_register (mkRegister "e" false); answer_1]);
    Server 1;                                             (* the engine registers *)
    Serve (Zmq.client_handler 9); Server 2; Server 2;     (* the client says hello *)
    Serve (zmq_consumer "u" 9); Server 3;
    Client 1; Client 3;                                   (* the client sends its registration *)
    Server 2; Server 3; Client 1; Client 1;               (* which is acknowledged *)
    Client 0; Client 0;                                   (* the producer sends the first input *)
    Server 2; Server 3; Server 3; Server 3;               (* which is sent to the engine *)
    Server 1;                                             (* the engine answers *)
    Client 0; Client 0;                                   (* the producer sends the second input *)
    Server 2 ].                                           (* which waits at the server *)

Definition met : ClientState :=
  default (start true) (match new_zeromq_client "tcp://h" [producer_p] None with inl u => Some u | inr _ => None end).

Definition socket_0 : system :=
  mkSystem (Pool met (zmq_session_tasks 5 met)) (Pool (initial_world 2 5) []) [] [].

Definition socket_1 : system :=
  default socket_0 (joint_play "u" 1 (fun _ => false) socket zmq_application (socket_0, [], []) socket_moves).

Lemma socket_0_start : system_start 2 5 over_zeromq socket_0.
Proof.
  apply (start_socket _ _ "tcp://h" [producer_p] None).
  - vm_compute. reflexivity.
  - apply NoDup_singleton.
Qed.

Lemma socket_1_reachable : system_reachable over_zeromq "u" 1 (fun _ => false) socket_0 socket_1.
Proof.
  eapply (joint_play_reachable over_zeromq "u" 1 (fun _ => false) socket zmq_application socket_0 socket_0
    [] [] socket_moves).
  - constructor.
  - repeat (apply Forall_cons; split); try exact I; try apply Forall_nil_2; constructor; reflexivity.
  - apply default_Some. vm_compute. reflexivity.
Qed.

Lemma socket_1_owners : NoDup (owners (p_state (y_server socket_1))).
Proof. vm_compute. apply NoDup_singleton. Qed.

(** The pool is empty, an input is on its way to the server, or waits there, and
    a token is on its way back. *)
Definition balanced (up queued : Z) (y : system) : Prop :=
  inputs_in "p" (y_up y) = up /\ queued_at_server "u" "p" (p_state (y_server y)) = queued /\
  returns_in "p" (y_down y) = 1 /\
  tokens_at_client "p" 0 (p_state (y_client y)) + inputs_in "p" (y_up y) + returns_in "p" (y_down y)
    + queued_at_server "u" "p" (p_state (y_server y)) <= tokens_at_server "u" "p" 2 (p_state (y_server y)) /\
  tokens_at_server "u" "p" 2 (p_state (y_server y)) + outstanding "u" "p" (p_state (y_server y)) <= 2.

Lemma tokens_within_grant_witness :
  balanced 1 0 session_1 /\ balanced 1 0 connection_1 /\ balanced 0 1 socket_1.
Proof.
  split; [|split]; (split; [vm_compute; reflexivity|]); (split; [vm_compute; reflexivity|]);
    (split; [vm_compute; reflexivity|]).
  - apply (tokens_within_grant over_grpc "u" 2 session_streams "p" 2 5 session_0 session_1);
      [reflexivity|lia|exact session_0_start|exact session_1_reachable|exact session_1_owners].
  - apply (tokens_within_grant over_websocket "u" 2 connection "p" 2 5 connection_0 connection_1);
      [reflexivity|lia|exact connection_0_start|exact connection_1_reachable|exact connection_1_owners].
  - apply (tokens_within_grant over_zeromq "u" 1 (fun _ => false) "p" 2 5 socket_0 socket_1);
      [done|lia|exact socket_0_start|exact socket_1_reachable|exact socket_1_owners].
Defined.

(** The server can take up the input now. *)
Definition takes_up (m : FromClient) (s : World) : Prop :=
  exists info s1, forall env h,
    run env (consumer_helper send_to_engine 0 "u" m) s h = run env (send_to_engine m "u" info) s1 h.

(** The client can put the token back now. *)
Definition has_room (u : ClientState) : Prop :=
  exists t p, (c_tokens u).["p"] = Some t /\ c_pools u !! t = Some p /\ forall env h, exists h',
    run env (return_token_of "p") u h =
    (inl tt, upd_c_pools (fun l => <[t := set_value (tp_sem_value p + 1) p]> l) u, h').

Lemma interleaved_flow_control_witness :
  (takes_up (input 2 "p" ["e"]) (p_state (y_server session_1)) /\ has_room (p_state (y_client session_1))) /\
  takes_up (input 2 "p" ["e"]) (p_state (y_server socket_1)).
Proof.
  split.
  - destruct (interleaved_flow_control over_grpc "u" 2 session_streams "p" 2 5 session_0 session_1) as [Hup Hdown];
      [reflexivity|lia|exact session_0_start|exact session_1_reachable|exact session_1_owners|].
    split.
    + eapply Hup; [reflexivity|vm_compute; reflexivity|vm_compute; reflexivity|by eexists|left].
      assert (y_up session_1 = [input 2 "p" ["e"]]) as -> by (vm_compute; reflexivity). apply list_elem_of_here.
    + assert (exists m, y_down session_1 = [m] /\ returns_to "p" m = true) as (m & Hm & Hret)
        by (eexists; split; [vm_compute; reflexivity|reflexivity]).
      apply (Hdown m); [rewrite Hm; apply list_elem_of_here|exact Hret].
  - destruct (interleaved_flow_control over_zeromq "u" 1 (fun _ => false) "p" 2 5 socket_0 socket_1) as [Hup _];
      [done|lia|exact socket_0_start|exact socket_1_reachable|exact socket_1_owners|].
    eapply Hup; [reflexivity|vm_compute; reflexivity|vm_compute; reflexivity|by eexists|right].
    vm_compute. apply list_elem_of_here.
Defined.
