(* ===== verification/Services.v ===== *)
(** * The gRPC services

    [protocol/python/src/gabriel_protocol/v1/gabriel_pb2_grpc.py]: the stubs
    that a client and an engine call, the servicers that the server implements,
    and how a servicer is added to a server.  The gRPC library is a parameter:
    what it finds for the name of a method ([GrpcLib]).  The clients of the
    services are [GrpcClient.GrpcClient] and [EngineRunner], the servicers are
    [GrpcServer] and [ServerRunner]. *)

From S2P Require Import Prelude Coro Protocol Instances ServerState GabrielServer Dispatch ServerRunner GrpcServer.

(** A method of a channel, from [channel.stream_stream(...)]. *)
Record stream_stream (Req Resp : Type) := mkStreamStream {
  ss_method : string;
  ss_request_serializer : Req -> bytes;
  ss_response_deserializer : bytes -> option Resp;
  ss_registered_method : bool;
}.
Arguments mkStreamStream {Req Resp} _ _ _ _.
Arguments ss_method {Req Resp} _.
Arguments ss_request_serializer {Req Resp} _ _.
Arguments ss_response_deserializer {Req Resp} _ _.

(** [grpc.stream_stream_rpc_method_handler(...)]; [Impl] is the type of the
    method of the servicer. *)
Record rpc_handler (Impl Req Resp : Type) := mkRpcHandler {
  rh_behavior : Impl;
  rh_request_deserializer : bytes -> option Req;
  rh_response_serializer : Resp -> bytes;
}.
Arguments mkRpcHandler {Impl Req Resp} _ _ _.
Arguments rh_behavior {Impl Req Resp} _.
Arguments rh_request_deserializer {Impl Req Resp} _ _.
Arguments rh_response_serializer {Impl Req Resp} _ _.

(** The handler in a table of a service for the full name of a method. *)
Definition method_path (service method : string) : string := ("/" +:+ service +:+ "/" +:+ method)%string.

Definition method_in {H : Type} (service : string) (handlers : dict string H) (path : string) : option H :=
  snd <$> head (filter (fun mh => method_path service mh.1 = path) handlers).

(** What the services use of a server of the [grpc.aio] library: it is asked for
    the handler of a method by its full name, and the generic handlers are tried
    in the order in which they were added.  The asynchronous server of the library
    takes registered method handlers and does not use them. *)
Class GrpcLib (H : Type) := {
  grpc_server : Type;
  new_server : grpc_server;
  add_generic_rpc_handlers : string -> dict string H -> grpc_server -> grpc_server;
  add_registered_method_handlers : string -> dict string H -> grpc_server -> grpc_server;
  find_method : grpc_server -> string -> option H;
  find_new : forall path, find_method new_server path = None;
  find_generic : forall service hs s path,
    find_method (add_generic_rpc_handlers service hs s) path =
    match find_method s path with Some h => Some h | None => method_in service hs path end;
  find_registered : forall service hs s path,
    find_method (add_registered_method_handlers service hs s) path = find_method s path;
}.

Section services.
Context `{!Codec FromClient, !Codec ToClient, !Codec FromEngine, !Codec ToEngine}.
(** The methods of the two servicers. *)
Variables CImpl EImpl : Type.

(** ** Stubs *)

(** [GabrielClientServiceStub.__init__]: the attribute [ClientSession]. *)
Definition GabrielClientServiceStub : stream_stream FromClient ToClient :=
  mkStreamStream "/gabriel_protocol.v1.GabrielClientService/ClientSession" serialize parse true.

(** [GabrielEngineServiceStub.__init__]: the attribute [EngineSession]. *)
Definition GabrielEngineServiceStub : stream_stream FromEngine ToEngine :=
  mkStreamStream "/gabriel_protocol.v1.GabrielEngineService/EngineSession" serialize parse true.

(** ** Servicers *)

(** [GabrielClientServiceServicer] and [GabrielEngineServiceServicer]: a
    subclass overrides the method; that of the class itself sets the status of
    the call and raises. *)
Record call_status := mkCallStatus { cs_code : string; cs_details : string }.

Definition GabrielClientServiceServicer : call_status * exn :=
  (mkCallStatus "UNIMPLEMENTED" "Method not implemented!", NotImplementedError "Method not implemented!").

Definition GabrielEngineServiceServicer : call_status * exn :=
  (mkCallStatus "UNIMPLEMENTED" "Method not implemented!", NotImplementedError "Method not implemented!").

(** ** The experimental interface

    A call without a stub: [grpc.experimental.stream_stream] is given the
    requests, the address, the method and the options of the call. *)
Record call_options := mkCallOptions {
  co_options : list (string * string);
  co_channel_credentials : option string;
  co_insecure : bool;
  co_call_credentials : option string;
  co_compression : option Z;
  co_wait_for_ready : option bool;
  co_timeout : option Z;
  co_metadata : option (list (string * string));
}.

(** The defaults of the keyword arguments. *)
Definition default_call_options : call_options := mkCallOptions [] None false None None None None None.

Record experimental_call (Req Resp : Type) := mkExperimentalCall {
  xc_requests : list Req;
  xc_target : string;
  xc_method : stream_stream Req Resp;
  xc_options : call_options;
}.
Arguments mkExperimentalCall {Req Resp} _ _ _ _.
Arguments xc_method {Req Resp} _.

(** [GabrielClientService.ClientSession] *)
Definition GabrielClientService (request_iterator : list FromClient) (target : string)
    (options : call_options) : experimental_call FromClient ToClient :=
  mkExperimentalCall request_iterator target
    (mkStreamStream "/gabriel_protocol.v1.GabrielClientService/ClientSession" serialize parse true) options.

(** [GabrielEngineService.EngineSession] *)
Definition GabrielEngineService (request_iterator : list FromEngine) (target : string)
    (options : call_options) : experimental_call FromEngine ToEngine :=
  mkExperimentalCall request_iterator target
    (mkStreamStream "/gabriel_protocol.v1.GabrielEngineService/EngineSession" serialize parse true) options.

(** The handlers of either service. *)
Abbreviation handler := (rpc_handler CImpl FromClient ToClient + rpc_handler EImpl FromEngine ToEngine)%type.

Context `{!GrpcLib handler}.

(** [add_GabrielClientServiceServicer_to_server] *)
Definition add_GabrielClientServiceServicer_to_server (ClientSession : CImpl) (server : grpc_server)
    : grpc_server :=
  let rpc_method_handlers : dict string handler :=
    [("ClientSession", inl (mkRpcHandler ClientSession parse serialize))] in
  let server := add_generic_rpc_handlers "gabriel_protocol.v1.GabrielClientService" rpc_method_handlers server in
  add_registered_method_handlers "gabriel_protocol.v1.GabrielClientService" rpc_method_handlers server.

(** [add_GabrielEngineServiceServicer_to_server] *)
Definition add_GabrielEngineServiceServicer_to_server (EngineSession : EImpl) (server : grpc_server)
    : grpc_server :=
  let rpc_method_handlers : dict string handler :=
    [("EngineSession", inr (mkRpcHandler EngineSession parse serialize))] in
  let server := add_generic_rpc_handlers "gabriel_protocol.v1.GabrielEngineService" rpc_method_handlers server in
  add_registered_method_handlers "gabriel_protocol.v1.GabrielEngineService" rpc_method_handlers server.

(** A call on a stub reaches the handler [h] of the server, and its messages
    arrive as they were sent, in both directions. *)
Definition serves {Impl Req Resp} (impl : Impl) (stub : stream_stream Req Resp)
    (h : rpc_handler Impl Req Resp) : Prop :=
  rh_behavior h = impl /\
  (forall m, rh_request_deserializer h (ss_request_serializer stub m) = Some m) /\
  (forall m, ss_response_deserializer stub (rh_response_serializer h m) = Some m).

Lemma find_client_method C s path :
  find_method (add_GabrielClientServiceServicer_to_server C s) path =
  match find_method s path with
  | Some h => Some h
  | None => if decide (path = ss_method GabrielClientServiceStub)
            then Some (inl (mkRpcHandler C parse serialize)) else None
  end.
Proof.
  unfold add_GabrielClientServiceServicer_to_server. rewrite find_registered, find_generic.
  destruct (find_method s path); [done|]. unfold method_in. case_decide as Hp.
  - subst path. by rewrite filter_cons_True by reflexivity.
  - by rewrite filter_cons_False by (intros Hm; apply Hp; symmetry; exact Hm).
Qed.

Lemma find_engine_method E s path :
  find_method (add_GabrielEngineServiceServicer_to_server E s) path =
  match find_method s path with
  | Some h => Some h
  | None => if decide (path = ss_method GabrielEngineServiceStub)
            then Some (inr (mkRpcHandler E parse serialize)) else None
  end.
Proof.
  unfold add_GabrielEngineServiceServicer_to_server. rewrite find_registered, find_generic.
  destruct (find_method s path); [done|]. unfold method_in. case_decide as Hp.
  - subst path. by rewrite filter_cons_True by reflexivity.
  - by rewrite filter_cons_False by (intros Hm; apply Hp; symmetry; exact Hm).
Qed.

(** On a new server to which the servicer of the clients was added, a call on the
    stub of a client, or by the experimental interface, reaches the method of that
    servicer, and every message arrives as it was sent, in both directions; and so
    for the engines.  A server that has only the one does not implement the
    other. *)
Lemma stubs_reach_their_servicers C E reqs_c reqs_e target options :
  (exists h, find_method (add_GabrielClientServiceServicer_to_server C new_server)
       (ss_method (xc_method (GabrielClientService reqs_c target options))) = Some (inl h) /\
     serves C GabrielClientServiceStub h) /\
  (exists h, find_method (add_GabrielEngineServiceServicer_to_server E new_server)
       (ss_method (xc_method (GabrielEngineService reqs_e target options))) = Some (inr h) /\
     serves E GabrielEngineServiceStub h) /\
  find_method (add_GabrielClientServiceServicer_to_server C new_server) (ss_method GabrielEngineServiceStub) = None /\
  find_method (add_GabrielEngineServiceServicer_to_server E new_server) (ss_method GabrielClientServiceStub) = None.
Proof.
  rewrite !find_client_method, !find_engine_method, !find_new. split_and!; [| |done|done].
  - rewrite decide_True by done. eexists. split; [done|].
    split_and!; [done|apply parse_serialize|apply parse_serialize].
  - rewrite decide_True by done. eexists. split; [done|].
    split_and!; [done|apply parse_serialize|apply parse_serialize].
Qed.
End services.

(** ** The servers of the program

    The client-facing server has the methods of [GrpcServer], the engine-facing
    one those of [ServerRunner]; the library looks methods up in a list of
    tables. *)

#[local] Instance table_lib (H : Type) : GrpcLib H.
Proof.
  refine {|
    grpc_server := list (string * dict string H);
    new_server := [];
    add_generic_rpc_handlers service hs s := s ++ [(service, hs)];
    add_registered_method_handlers service hs s := s;
    find_method s path := head (omap (fun t => method_in t.1 t.2 path) s);
  |}.
  - done.
  - intros service hs s path. rewrite omap_app.
    destruct (omap _ s); simpl; [|done]. by destruct (method_in service hs path).
  - done.
Defined.

Section servers.
Import Concrete.

Definition client_servicer := Grpc.ClientSession send_to_engine.
Definition engine_servicer := @EngineSession py codec_ToClient Grpc.grpc_transport.

Lemma client_stub_reaches_the_server :
  exists h, find_method (add_GabrielClientServiceServicer_to_server _ (nat -> list FromEngine -> srv unit)
                           client_servicer new_server)
              "/gabriel_protocol.v1.GabrielClientService/ClientSession" = Some (inl h) /\
    rh_behavior h = client_servicer.
Proof.
  destruct (stubs_reach_their_servicers _ _ client_servicer engine_servicer [] []
              "localhost:5555" default_call_options) as ((h & Hf & Hb & _) & _).
  exists h. split; [exact Hf|exact Hb].
Qed.
End servers.
