(* ===== verification/Handshake.v ===== *)
(** * Client and server meet

    What a client tells the server when it opens its streams and registers, and
    what the server tells it back, arrives as it was meant. *)

From S2P Require Import Prelude Coro Tasks Protocol Config ServerState Trace Instances GabrielServer.
From S2P Require Import GrpcServer LocalServer TokenInv TokenSafety ServerLaunch EngineSession.
From S2P Require Import ClientState GabrielClient GrpcClient WebsocketClient ZeroMQClient.
From S2P Require Import ClientSession ClientSafety ClientSessionSpec ClientSpec ClientScenario.

(** ** The streams of a gRPC client *)

(** The metadata of the streams a client has opened. *)
Definition opened (h : history client_sig) : list (list (string * string)) :=
  omap (fun x => match projT1 x with OpenCall md => Some md | _ => None end) h.

Lemma opened_app h h' : opened (h ++ h') = opened h ++ opened h'.
Proof. apply omap_app. Qed.

Definition is_open : ev client_sig -> bool := fun e : cev => match e with OpenCall _ => true | _ => false end.

Section streams.
Context `{!PyEnv, !Codec ToClient, !Codec InputFrame}.
Context (cb : FromClient -> string -> Any -> srv (StatusCode * string)).
Context (env : history client_sig -> forall e : cev, cresp e).
Abbreviation exec := (run (E := client_sig) env).

Lemma run_opens_nothing {A} (p : clt A) s h o s' h' :
  avoids is_open p -> exec p s h = (o, s', h') -> opened h' = opened h.
Proof.
  intros Hp Hr. destruct (run_avoids is_open _ _ _ _ _ _ _ Hp Hr) as (hs & -> & Hh).
  rewrite opened_app. unfold opened at 2. rewrite omap_none; [by rewrite app_nil_r|].
  intros [e r] Hin. rewrite Forall_forall in Hh. specialize (Hh _ Hin). by destruct e.
Qed.

(** A stream the server treats as the control stream of the session. *)
Definition controls (session_id : string) (md : list (string * string)) : Prop :=
  forall ctx msgs, Grpc.ClientSession cb ctx md msgs =
    (cid ← Grpc.open_session session_id ctx;
     try_finally (Grpc.consumer cb ctx msgs session_id cid)
       (Grpc.del_client session_id ;; Grpc.del_write_lock session_id)).

(** ... and one it treats as a stream of inputs for that session. *)
Definition feeds (session_id : string) (md : list (string * string)) : Prop :=
  forall ctx msgs, Grpc.ClientSession cb ctx md msgs = Grpc.producer_stream cb ctx msgs session_id.

Lemma control_metadata sid :
  sid <> "" -> controls sid [(GrpcC.SESSION_ID_METADATA_KEY, sid);
                             (GrpcC.STREAM_ROLE_METADATA_KEY, GrpcC.STREAM_ROLE_CONTROL)].
Proof.
  intros Hs ctx msgs. unfold Grpc.ClientSession. cbn -[Grpc.open_session Grpc.consumer].
  destruct sid as [|c sid]; [done|]. reflexivity.
Qed.

Lemma producer_metadata sid :
  sid <> "" -> feeds sid [(GrpcC.SESSION_ID_METADATA_KEY, sid);
                          (GrpcC.STREAM_ROLE_METADATA_KEY, GrpcC.STREAM_ROLE_PRODUCER)].
Proof.
  intros Hs ctx msgs. unfold Grpc.ClientSession. cbn -[Grpc.producer_stream].
  destruct sid as [|c sid]; [done|]. reflexivity.
Qed.

Lemma wait_opens_nothing e fuel : avoids is_open (wait_while_running e fuel).
Proof.
  induction fuel as [|fuel IH]; cbn [wait_while_running];
    (apply avoids_bind; [done|]; intros s; destruct (_ && _); [|done]); [done|].
  apply avoids_bind; [|done]. destruct e; unfold wait_event, ccall; avoid.
Qed.

Lemma wait_session e fuel s : preserves c_session_id (wait_while_running e fuel) s.
Proof.
  revert s. induction fuel as [|fuel IH]; intros s; cbn [wait_while_running];
    (apply preserves_bind; [done|]; intros s1 s2; destruct (_ && _); [|done]); [done|].
  apply preserves_bind; [|by intros]. destruct e; unfold wait_event, ccall; pres.
Qed.

Lemma loop_opens_nothing i t stream frame fuel :
  avoids is_open (GrpcC.grpc_producer_loop i t stream frame fuel).
Proof.
  revert frame. induction fuel as [|fuel IH]; intros frame; cbn [GrpcC.grpc_producer_loop];
    (apply avoids_bind; [done|]; intros s; destruct (_ && _); [|done]); [done|].
  unfold is_running, get_token, sem_acquire, GrpcC.grpc_send_frame, produce, return_token, sem_release,
    build_input, get_target_engines, GrpcC.grpc_send_to_server, GrpcC.disconnected, record_send_metrics,
    get_pool, get_input_producer, put_pool, PRODUCER_TOKEN_COUNT, ccall.
  avoid; try apply IH.
Qed.

Lemma handler_opens i fuel s h o s' h' sid :
  sid <> "" -> c_session_id s = Some sid ->
  exec (GrpcC.grpc_producer_handler i fuel) s h = (o, s', h') ->
  exists mds, opened h' = opened h ++ mds /\ (length mds <= 1)%nat /\ Forall (feeds sid) mds.
Proof.
  intros Hne Hsid. unfold GrpcC.grpc_producer_handler. rewrite run_bind.
  destruct (exec (wait_while_running Registered_event fuel) s h) as [[ok s1] h1] eqn:E1.
  pose proof (run_opens_nothing _ _ _ _ _ _ (wait_opens_nothing _ _) E1) as W1.
  assert (c_session_id s1 = Some sid) as Hs1.
  { rewrite <- Hsid. eapply run_preserves; [|exact E1]. intros. apply wait_session. }
  assert (exists mds, opened h1 = opened h ++ mds /\ (length mds <= 1)%nat /\ Forall (feeds sid) mds) as Hnone.
  { exists []. rewrite W1, app_nil_r. split_and!; [done|simpl; lia|constructor]. }
  destruct ok as [[|]|x]; [|by intros [= <- <- <-]..].
  unfold ccall. cbn [run gets call mbind prog_mbind prog_bind]. rewrite Hs1. cbn [default from_option].
  set (md := [(GrpcC.SESSION_ID_METADATA_KEY, sid);
              (GrpcC.STREAM_ROLE_METADATA_KEY, GrpcC.STREAM_ROLE_PRODUCER)]). intros Hr. eapply run_opens_nothing in Hr as W2.
  - exists [md]. rewrite W2, opened_app, W1. split_and!; [done|simpl; lia|].
    repeat constructor. by apply producer_metadata.
  - unfold get_input_producer, open_pool, new_token_pool, PRODUCER_TOKEN_COUNT, ccall.
    avoid; apply loop_opens_nothing.
Qed.

(** C32. The streams of a gRPC client find their session.  The control stream that
    a client opens makes the server open a session under the id the client has
    just chosen, and every stream that a producer handler of the client opens
    while the client has that id is taken by the server as inputs for that very
    session. *)
Theorem streams_find_their_session secure s h stream s1 h1 :
  (forall h, env h Uuid4 <> "") ->
  exec (GrpcC.open_control secure) s h = (inl stream, s1, h1) ->
  exists sid md, c_session_id s1 = Some sid /\ opened h1 = opened h ++ [md] /\ controls sid md /\
    forall i fuel s2 h2 o s3 h3, c_session_id s2 = Some sid ->
      exec (GrpcC.grpc_producer_handler i fuel) s2 h2 = (o, s3, h3) ->
      exists mds, opened h3 = opened h2 ++ mds /\ (length mds <= 1)%nat /\ Forall (feeds sid) mds.
Proof.
  intros Hu. unfold GrpcC.open_control, ccall. cbn [run gets modify call mbind prog_mbind prog_bind].
  set (h2 := h ++ _). set (sid := env h2 Uuid4). intros [= <- <- <-].
  exists sid. eexists. split_and!; [done| | |].
  - subst h2. rewrite !opened_app. cbn. by rewrite !app_nil_r.
  - apply control_metadata, Hu.
  - intros i fuel s2 h3 o s3 h4 Hsid Hr. exact (handler_opens _ _ _ _ _ _ _ sid (Hu h2) Hsid Hr).
Qed.
End streams.

(** ** The grant of the server *)

Section grant.
Context `{!PyEnv, !Codec ToClient}.

(** What the client knows of the server it is registered with. *)
Definition knows (num : Z) (engines : gset string) (c : ClientState) : Prop :=
  c_num_tokens_per_producer c = Some num /\ c_registered_event c = true /\
  exists ids, c_engine_ids c = Some ids /\ list_to_set ids = engines.

(** The pools the client has for its producers exist. *)
Definition pools_live (c : ClientState) : Prop :=
  Forall (fun t => is_Some (c_pools c !! t)) (dict_values (c_tokens c)).

(** Resetting the pools of a client that was disconnected does not fail. *)
Lemma exec_reset_pools envc l c h :
  Forall (fun t => is_Some (c_pools c !! t)) l ->
  exists c' h', run envc (for_each l reset_tokens) c h = (inl tt, c', h').
Proof.
  revert c h. induction l as [|t l IH]; intros c h Hl; [by eexists _, _|].
  apply Forall_cons in Hl as [[p Hp] Hl]. cbn [for_each]. rewrite run_bind.
  unfold reset_tokens, get_pool, put_pool, PRODUCER_TOKEN_COUNT, ccall. cbn. rewrite Hp. cbn.
  apply IH. eapply Forall_impl; [exact Hl|]. intros t' Ht'. cbn.
  destruct (decide (t = t')) as [->|Hne]; [|by rewrite list_lookup_insert_ne].
  rewrite list_lookup_insert_eq; [by eauto|]. by eapply lookup_lt_Some.
Qed.

Lemma exec_reconnected envc c h :
  pools_live c -> exists c' h', run envc ZmqC.reconnected c h = (inl tt, c', h').
Proof.
  intros Hl. unfold ZmqC.reconnected. rewrite run_bind. cbn [run gets].
  destruct (c_connected c); [by eexists _, _|]. rewrite run_bind. cbn [run modify].
  rewrite run_bind. cbn [run gets]. rewrite run_bind.
  edestruct (exec_reset_pools envc) as (c' & h' & ->); [exact Hl|]. by eexists _, _.
Qed.

(** C33. The acknowledgement of a registration carries the state of the server to
    the client: after the message that the server makes, handled by the client of
    any of the three transports in any state, connected or not, the client has
    the number of tokens the server grants and exactly the engines that are
    connected, and counts as registered.  Over ZeroMQ, the message is not the
    heartbeat (see [Messages]: no message is), and the pools in the table of the
    client exist. *)
Theorem grant_reaches_the_client envs envc (s s' : World) hs hs' m c hc :
  run envs make_registered s hs = (inl m, s', hs') ->
  let num := w_num_tokens_per_producer s in
  let engines := w_engine_ids s in
  knows num engines (run envc (GrpcC.grpc_dispatch m) c hc).1.2 /\
  (exists m', parse (serialize m) = Some m' /\
     knows num engines (run envc (WsC.ws_dispatch m') c hc).1.2) /\
  (serialize m <> ZmqC.HEARTBEAT -> pools_live c ->
   knows num engines (run envc (ZmqC.zmq_dispatch (serialize m)) c hc).1.2).
Proof.
  intros Hr num engines. unfold make_registered in Hr.
  cbn [run gets mbind prog_mbind prog_bind] in Hr. fold num engines in Hr.
  destruct (in_int32 num); [|done]. cbn [run] in Hr. injection Hr as <- <- <-.
  assert (forall c h, knows num engines (run envc (WsC.ws_process_registered
    (mkRegistered num (set_iter engines))) c h).1.2) as Hk.
  { intros c' h'. cbn. split_and!; [done|done|]. eexists. split; [done|]. apply set_eq. intros x.
    by rewrite elem_of_list_to_set, set_iter_elem. }
  split_and!.
  - exact (Hk c hc).
  - eexists. split; [apply parse_serialize|exact (Hk c hc)].
  - intros Hb Hl. unfold ZmqC.zmq_dispatch. rewrite decide_False by done. rewrite parse_serialize.
    rewrite run_bind. destruct (exec_reconnected envc c hc Hl) as (c' & h' & ->).
    exact (Hk c' h').
Qed.
End grant.

(** The default endpoint of the WebSocket client is accepted, whatever the
    host and the port. *)
Lemma uri_format_accepted `{!PyEnv} host port ps info :
  exists s, new_websocket_client (URI_FORMAT host port) ps info = inl s.
Proof. unfold new_websocket_client. cbn. by eexists. Qed.

(** ** Keepalive pings *)

(** One side sends keepalive pings no more often than the other side permits,
    however many there are without data. *)
Definition permits (mine theirs : list (string * Z)) : Prop :=
  theirs.["grpc.http2.max_pings_without_data"] = Some 0 /\
  exists every at_least, mine.["grpc.keepalive_time_ms"] = Some every /\
    theirs.["grpc.http2.min_ping_interval_without_data_ms"] = Some at_least /\ at_least <= every.

(** Engines and clients do not lose their connection for pinging too often: the
    server permits the pings of the engine runner and of a gRPC client with the
    default options, and the engine runner permits those of the server, for any
    message size and flow-control window. *)
Theorem keepalive_pings_are_permitted max_size window :
  permits runner_channel_options (engine_server_options max_size) /\
  permits (engine_server_options max_size) runner_channel_options /\
  permits (GrpcC.merge_channel_options None) (Grpc.server_options window max_size).
Proof.
  split_and!; (split; [done|]); eexists _, _; (split_and!; [done|done|]); vm_compute; discriminate.
Qed.

Section witness.
Import Concrete.

Lemma streams_find_their_session_witness :
  exists sid md, opened (run (served_by (inl None)) (GrpcC.open_control false) (start false) []).2 = [] ++ [md] /\
    controls (fun _ _ _ => Ret (SUCCESS, "")) sid md.
Proof.
  destruct (streams_find_their_session (fun _ _ _ => Ret (SUCCESS, "")) (served_by (inl None)) false
              (start false) [] 1%nat
              (run (served_by (inl None)) (GrpcC.open_control false) (start false) []).1.2
              (run (served_by (inl None)) (GrpcC.open_control false) (start false) []).2)
    as (sid & md & _ & Ho & Hc & _); [done|vm_compute; reflexivity|].
  exists sid, md. split; [exact Ho|exact Hc].
Defined.

(** A ZeroMQ client that is connected, and a gRPC client that is not yet. *)
Lemma grant_reaches_the_client_witness :
  let s := initial_local 2 60 "e" in
  exists m, (run Concrete.calm make_registered s []).1.1 = inl m /\
    knows 2 {["e"]} (run (served_by (inl None)) (ZmqC.zmq_dispatch (serialize m))
                       (initial_client true None []) []).1.2 /\
    knows 2 {["e"]} (run (served_by (inl None)) (GrpcC.grpc_dispatch m)
                       (initial_client false None []) []).1.2.
Proof.
  set (m := ToClient_registered (mkRegistered 2 (set_iter {["e"]}))).
  exists m. split; [vm_compute; reflexivity|]. split.
  - apply (grant_reaches_the_client Concrete.calm (served_by (inl None)) (initial_local 2 60 "e")
             (initial_local 2 60 "e") [] [] m (initial_client true None []) []).
    + vm_compute. reflexivity.
    + vm_compute. discriminate.
    + constructor.
  - apply (grant_reaches_the_client Concrete.calm (served_by (inl None)) (initial_local 2 60 "e")
             (initial_local 2 60 "e") [] [] m (initial_client false None []) []).
    vm_compute. reflexivity.
Defined.
End witness.
