(* ===== verification/LinkSpec.v ===== *)
(** * Registration and heartbeats of the clients

    No input is sent before the server has acknowledged the registration, and
    a ZeroMQ client does not repeat a heartbeat that was not answered. *)

From S2P Require Import Prelude Coro Protocol ClientState GabrielClient GrpcClient.
From S2P Require Import WebsocketClient ZeroMQClient ClientSafety ClientSpec Instances.
From S2P Require Import ClientScenario.

Section link.
Context `{!PyEnv, !Codec InputFrame, !Codec FromClient}.
Context (env : history client_sig -> forall e : cev, cresp e).
Abbreviation exec := (run (E := client_sig) env).

(** ** Registration *)

(** What waiting for the registration does: timed waits for the event. *)
Definition only_waits (hs : history client_sig) : Prop :=
  Forall (fun x => projT1 x = WaitRegistered) hs.

(** Waiting for the event while nobody sets it ends only when the client is
    stopped, or with what the wait raises. *)
Lemma exec_wait_unset fuel s h :
  c_registered_event s = false ->
  exists o hs, exec (wait_while_running Registered_event fuel) s h = (o, s, h ++ hs) /\
    only_waits hs /\ (forall b, o = inl b -> b = false /\ c_running s = false).
Proof.
  intros He. revert h. induction fuel as [|fuel IH]; intros h; cbn [wait_while_running];
    rewrite run_bind; cbn [run gets is_set]; unfold id; cbn [is_set]; rewrite He;
    (destruct (c_running s) eqn:Hr; cbn [andb negb];
      [|exists (inl false), []; rewrite app_nil_r; split_and!; [done|constructor|by intros b [= <-]]]).
  - exists (inr NotReady), []. rewrite app_nil_r. split_and!; [done|constructor|done].
  - rewrite run_bind, run_try_except. unfold wait_event, ccall.
    cbn [run call mbind prog_mbind prog_bind].
    set (x := existT WaitRegistered (env h WaitRegistered) : { e : cev & cresp e }).
    assert (exists o hs, exec (wait_while_running Registered_event fuel) s (h ++ [x]) = (o, s, h ++ hs) /\
      only_waits hs /\ (forall b, o = inl b -> b = false /\ true = false)) as Hgo.
    { destruct (IH (h ++ [x])) as (o & hs & E & Hw & Ho). exists o, (x :: hs).
      rewrite <- (assoc_L (++)) in E. split_and!; [exact E|by constructor|done]. }
    assert (forall y, exists o hs, (inr y : bool + exn, s, h ++ [x]) = (o, s, h ++ hs) /\
      only_waits hs /\ (forall b, o = inl b -> b = false /\ true = false)) as Hraise.
    { intros y. exists (inr y), [x]. split_and!; [done|by repeat constructor|done]. }
    destruct (env h WaitRegistered) as [[]|y] eqn:Ew; cbn [raise run]; [exact Hgo|].
    destruct y; cbn [run]; first [apply Hraise|exact Hgo].
Qed.

Lemma unregistered_silent (k : clt unit) fuel s h o s' h' :
  c_registered_event s = false ->
  exec (ok ← wait_while_running Registered_event fuel; if ok : bool then k else Ret tt) s h =
    (o, s', h') ->
  s' = s /\ (exists hs, h' = h ++ hs /\ only_waits hs) /\ (o = inl tt -> c_running s = false).
Proof.
  intros Hr. rewrite run_bind.
  destruct (exec_wait_unset fuel s h Hr) as (o1 & hs & -> & W & Ho).
  destruct o1 as [b|x]; [destruct (Ho b eq_refl) as [-> Hs]|]; intros [= <- <- <-];
    (split_and!; [done|by exists hs|done]).
Qed.

(** C23.  Until the server acknowledges the registration of the client, its
    producer handlers, on each of the three transports, do nothing but wait for
    the acknowledgement: no call is made other than the timed wait, so no stream
    is opened, no input is asked for and nothing is sent, and the state is
    unchanged, so no token pool is created.  A handler returns without the
    acknowledgement only if the client is not running. *)
Theorem no_input_before_registration i fuel s h o s' h' :
  c_registered_event s = false ->
  exec (GrpcC.grpc_producer_handler i fuel) s h = (o, s', h') \/
  exec (WsC.ws_producer_handler i fuel) s h = (o, s', h') \/
  exec (ZmqC.zmq_producer_handler i fuel) s h = (o, s', h') ->
  s' = s /\ (exists hs, h' = h ++ hs /\ only_waits hs) /\ (o = inl tt -> c_running s = false).
Proof.
  intros Hr [E|[E|E]]; by apply unregistered_silent in E.
Qed.

(** ** Heartbeats *)

(** A heartbeat may be sent: the client is connected, and none is pending. *)
Definition may_beat (s : ClientState) : bool := c_connected s && negb (c_pending_heartbeat s).

Lemma exec_heartbeat s h o s' h' :
  exec (ZmqC.send_heartbeat false) s h = (o, s', h') ->
  (may_beat s = false /\ s' = s /\ h' = h) \/
  (may_beat s = true /\ may_beat s' = false /\ sends h' = sends h ++ [OnSocket ZmqC.HEARTBEAT]).
Proof.
  unfold ZmqC.send_heartbeat, may_beat, ZmqC.sock_send, ccall. cbn [run mbind prog_mbind prog_bind gets].
  cbn [negb andb]. unfold id. destruct (c_connected s) eqn:Hc; cbn [negb andb orb];
    [|intros [= <- <- <-]; by left].
  destruct (c_pending_heartbeat s) eqn:Hp; [intros [= <- <- <-]; by left|].
  simpl. intros Hr. right. split; [done|].
  assert (exists t r, may_beat s' = false /\
    h' = (h ++ [existT Monotonic t]) ++ [existT (SockSend ZmqC.HEARTBEAT) r])
    as (t & r & Hm & ->).
  { exists (env h Monotonic). destruct (env _ (SockSend ZmqC.HEARTBEAT)) as [[]|x];
      injection Hr as <- <- <-; (eexists; split; [unfold may_beat; simpl; by rewrite Hc|done]). }
  split; [exact Hm|]. by rewrite !sends_app, app_nil_r.
Qed.

Lemma exec_heartbeat_iter s h o s' h' :
  exec ZmqC.heartbeat_iter s h = (o, s', h') ->
  (may_beat s' = may_beat s /\ sends h' = sends h) \/
  (may_beat s = true /\ may_beat s' = false /\ sends h' = sends h ++ [OnSocket ZmqC.HEARTBEAT]).
Proof.
  unfold ZmqC.heartbeat_iter, ccall. rewrite run_bind. cbn [run gets]. rewrite run_bind.
  match goal with |- context [run env ?p s h] => destruct (run env p s h) as [[g s1] h1] eqn:E end.
  assert (s1 = s /\ sends h1 = sends h) as [-> W].
  { split; [eapply run_readonly; [|exact E]|eapply run_silent; [|exact E]];
      destruct (c_schedule_heartbeat s); try done; [|avoid].
    apply readonly_try_except; [intros [?|?]; done|intros []; done]. }
  destruct g as [[|]|x]; [|intros [= <- <- <-]; by left..].
  cbn [run mbind prog_mbind prog_bind modify call gets]. destruct (_ <? _).
  - intros [= <- <- <-]. left. split; [done|]. by rewrite sends_app, W, app_nil_r.
  - intros [(Hm & -> & ->)|(Hm & Hm' & Hs)]%exec_heartbeat.
    + left. split; [done|]. by rewrite sends_app, W, app_nil_r.
    + right. split_and!; [done|done|]. rewrite Hs, sends_app, W. simpl. by rewrite app_nil_r.
Qed.

(** The heartbeat loop of a ZeroMQ client sends at most one heartbeat
    until one of the other tasks hears from the server, however often a
    heartbeat is scheduled and however long it runs; and none at all while the
    client is disconnected or a heartbeat is already pending. *)
Theorem heartbeats_are_not_repeated fuel s h o s' h' :
  exec (ZmqC.heartbeat_loop fuel) s h = (o, s', h') ->
  sends h' = sends h \/
  (may_beat s = true /\ sends h' = sends h ++ [OnSocket ZmqC.HEARTBEAT]).
Proof.
  revert s h. induction fuel as [|fuel IH]; intros s h; cbn [ZmqC.heartbeat_loop];
    rewrite run_bind; cbn [run gets]; (destruct (c_running s); [|intros [= <- <- <-]; by left]).
  { intros [= <- <- <-]. by left. }
  rewrite run_bind. destruct (exec ZmqC.heartbeat_iter s h) as [[r s1] h1] eqn:E.
  apply exec_heartbeat_iter in E as [[Hm W]|(Hm & Hm1 & W)].
  - destruct r as [[]|x]; [|intros [= <- <- <-]; by left].
    rewrite <- W, <- Hm. apply IH.
  - destruct r as [[]|x]; [|intros [= <- <- <-]; by right].
    intros [Ew|[Ht Ew]]%IH; [|congruence]. right. by rewrite Ew.
Qed.
End link.

(** ** Concrete runs *)

Import Concrete.

(** An application that has an input ready, and a server that is silent. *)
Lemma no_input_before_registration_witness :
  let '(o, s', h') := run (E := client_sig) (served_by (inl (Some frame_x)))
                        (GrpcC.grpc_producer_handler 0 3) (start false) [] in
  s' = start false /\ only_waits h' /\ length h' = 3%nat.
Proof.
  destruct (run (E := client_sig) _ _ (start false) []) as [[o s'] h'] eqn:E.
  destruct (no_input_before_registration (served_by (inl (Some frame_x))) 0 3 (start false) [] o s' h')
    as (Hs & (hs & -> & Hw) & _); [reflexivity|by left|].
  split; [exact Hs|]. split; [exact Hw|]. vm_compute in E. by injection E as _ _ <-.
Defined.

(** The clock advances with every call. *)
Definition ticking (h : history client_sig) (e : cev) : cresp e :=
  match e return cresp e with
  | Monotonic | WallClock => Z.of_nat (length h) + 5
  | e' => served_by (inr TimeoutError) h e'
  end.

(** The first heartbeat is sent; it stays the only one. *)
Lemma heartbeats_are_not_repeated_witness :
  let '(o, s', h') := run (E := client_sig) ticking (ZmqC.heartbeat_loop 4) (start true) [] in
  may_beat (start true) = true /\ sends h' = [OnSocket ZmqC.HEARTBEAT].
Proof.
  destruct (run (E := client_sig) ticking (ZmqC.heartbeat_loop 4) (start true) [])
    as [[o s'] h'] eqn:E.
  split; [reflexivity|].
  destruct (heartbeats_are_not_repeated ticking 4 (start true) [] o s' h' E) as [W|[_ W]];
    [|exact W].
  exfalso. vm_compute in E. injection E as <- <- <-. vm_compute in W. discriminate W.
Defined.
