(* ===== verification/PushSource.v ===== *)
(** * Push sources

    [python-client/src/gabriel_client/push_source.py]: frames sent from another
    process through a pipe, of which the producer returns the latest. *)

From S2P Require Import Prelude Coro Protocol.

(** [Source] *)
Record Source := mkSource {
  src_frame_available : Z;  (* asyncio.Semaphore *)
  src_latest_input_frame : option InputFrame;
  src_pipe : list bytes;  (* sent and not yet read *)
  src_added_callback : bool;
}.

Inductive psev : Type := FrameWait.
Definition source_sig : sig := Sig psev (fun _ => unit + exn)%type (fun _ => true).
Abbreviation psrc A := (prog Source source_sig A).

Section source.
Context `{!Codec InputFrame}.

Definition new_source : Source := mkSource 0 None [] false.

(** [Source.send] *)
Definition source_send (f : InputFrame) : psrc unit :=
  modify (fun s => mkSource (src_frame_available s) (src_latest_input_frame s)
                     (src_pipe s ++ [serialize f]) (src_added_callback s)).

(** [reader_callback], which the event loop calls when the pipe has data, once
    it has been added. *)
Definition reader_callback : psrc unit :=
  s ← gets id;
  match src_added_callback s, src_pipe s with
  | true, b :: rest =>
      f ← of_option DecodeError (parse b);
      modify (fun s => mkSource (src_frame_available s + 1) (Some f) rest (src_added_callback s))
  | _, _ => Throw NotReady
  end.

(** [producer] *)
Definition source_producer : psrc (option InputFrame) :=
  modify (fun s => mkSource (src_frame_available s) (src_latest_input_frame s) (src_pipe s) true) ;;
  n ← gets src_frame_available;
  (if 0 <? n then Ret tt else call (E := source_sig) FrameWait ≫= raise) ;;
  s ← gets id;
  if 0 <? src_frame_available s then
    modify (fun s => mkSource (src_frame_available s - 1) (src_latest_input_frame s) (src_pipe s)
                     (src_added_callback s)) ;;
    gets src_latest_input_frame
  else Throw NotReady.

Fixpoint repeat_prog (n : nat) (p : psrc unit) : psrc unit :=
  match n with O => Ret tt | S n' => p ;; repeat_prog n' p end.

Context (env : history source_sig -> forall e : psev, unit + exn).
Abbreviation exec := (run (E := source_sig) env).

Lemma exec_send fs s h :
  exec (for_each fs source_send) s h =
  (inl tt, mkSource (src_frame_available s) (src_latest_input_frame s)
             (src_pipe s ++ map serialize fs) (src_added_callback s), h).
Proof.
  revert s. induction fs as [|f fs IH]; intros s; [by destruct s; rewrite app_nil_r|].
  cbn [for_each]. rewrite run_bind. cbn [run source_send modify]. rewrite IH. cbn.
  by rewrite <- (assoc_L (++)).
Qed.

Lemma exec_callbacks fs s h :
  src_added_callback s = true -> src_pipe s = map serialize fs ->
  exec (repeat_prog (length fs) reader_callback) s h =
  (inl tt, mkSource (src_frame_available s + Z.of_nat (length fs))
             (match last fs with Some f => Some f | None => src_latest_input_frame s end) [] true, h).
Proof.
  revert s. induction fs as [|f fs IH]; intros s Ha Hp.
  - cbn. destruct s. simpl in *. by rewrite Ha, Hp, Z.add_0_r.
  - cbn [length repeat_prog]. rewrite run_bind. unfold reader_callback. cbn -[Z.of_nat].
    rewrite Ha, Hp. cbn -[Z.of_nat]. rewrite parse_serialize. cbn -[Z.of_nat].
    rewrite IH by done. cbn -[Z.of_nat]. f_equal. f_equal. f_equal; [lia|].
    destruct fs as [|x fs]; [done|]. rewrite last_cons_cons.
    destruct (last (x :: fs)) eqn:E; [done|]. by apply last_None in E.
Qed.

(** The next [n] frames of the producer. *)
Fixpoint collect (n : nat) : psrc (list (option InputFrame)) :=
  match n with
  | O => Ret []
  | S n' => f ← source_producer; l ← collect n'; Ret (f :: l)
  end.

Lemma exec_collect n v f s h :
  src_frame_available s = Z.of_nat n + v -> 0 <= v -> src_latest_input_frame s = Some f ->
  src_added_callback s = true ->
  exec (collect n) s h = (inl (repeat (Some f) n), mkSource v (Some f) (src_pipe s) true, h).
Proof.
  revert s. induction n as [|n IH]; intros s Hn Hv Hf Ha.
  - cbn. destruct s. simpl in *. subst. f_equal.
  - cbn [collect repeat]. rewrite run_bind.
    assert (exec source_producer s h =
      (inl (Some f), mkSource (src_frame_available s - 1) (Some f) (src_pipe s) true, h)) as ->.
    { unfold source_producer. cbn -[Z.of_nat].
      rewrite (proj2 (Z.ltb_lt 0 (src_frame_available s))) by lia. cbn -[Z.of_nat].
      rewrite (proj2 (Z.ltb_lt 0 (src_frame_available s))) by lia. cbn -[Z.of_nat]. by rewrite Hf. }
    rewrite run_bind, IH; simpl; [done|lia|done|done|done].
Qed.

(** When several frames are sent before the producer is asked for the next one,
    the producer returns the last of them, and as many times as frames were
    sent: the frames are counted, but only the last one is kept. *)
Theorem last_frame_is_returned_per_send fs f latest h :
  let n := length (fs ++ [f]) in
  exec (for_each (fs ++ [f]) source_send ;; repeat_prog n reader_callback ;; collect n)
    (mkSource 0 latest [] true) h =
  (inl (repeat (Some f) n), mkSource 0 (Some f) [] true, h).
Proof.
  intros n. rewrite run_bind, exec_send, run_bind, (exec_callbacks (fs ++ [f])) by done.
  rewrite last_snoc. apply exec_collect; simpl; [lia|done|done|done].
Qed.

(** The first frame is awaited: the pipe is not read before the producer is
    first asked. *)
Theorem first_call_adds_the_reader fs h :
  exec (for_each fs source_send ;; reader_callback) new_source h =
    (inr NotReady, mkSource 0 None (map serialize fs) false, h) /\
  forall o s' h', exec (for_each fs source_send ;; source_producer) new_source h = (o, s', h') ->
    src_added_callback s' = true /\ src_pipe s' = map serialize fs.
Proof.
  split.
  - rewrite run_bind, exec_send. done.
  - intros o s' h'. rewrite run_bind, exec_send. cbn.
    destruct (env _ FrameWait) as [[]|x]; cbn; by intros [= <- <- <-].
Qed.
End source.
