(* ===== verification/WaitRunning.v ===== *)
(** * Waiting for a producer to run

    [InputProducer._wait_for_running] of
    [python-client/src/gabriel_client/gabriel_client.py]: a coroutine that awaits
    a thread, and the thread, [_wait_for_running_internal], which polls the event
    that the application sets.  The thread and the event loop run concurrently,
    so the steps are those of the thread, of the coroutine, and of the
    application. *)

From S2P Require Import Prelude Coro.

(** Where the thread is: at the test of the loop, in [self._running.wait(0.1)],
    or at its end. *)
Inductive poll : Type := Testing | Polling | Finished.

Record waiting := mkWaiting {
  wt_running : bool;   (* InputProducer._running *)
  wt_shutdown : bool;  (* shutdown_event *)
  wt_thread : poll;
  wt_result : option (unit + exn);  (* how the await has ended *)
}.

(** [_wait_for_running_internal]: one step of the thread.  The wait answers
    whether the event is set. *)
Definition wait_for_running_internal (w : waiting) : waiting :=
  let thread :=
    match wt_thread w with
    | Testing => if wt_shutdown w then Finished else Polling
    | Polling => if wt_running w then Finished else Testing
    | Finished => Finished
    end in
  mkWaiting (wt_running w) (wt_shutdown w) thread (wt_result w).

(** [_wait_for_running]: it starts, its await is answered when the thread has
    ended, or is cancelled. *)
Definition start_waiting (running : bool) : waiting := mkWaiting running false Testing None.

Definition wait_for_running (cancelled : bool) (w : waiting) : waiting :=
  match wt_result w with
  | Some _ => w
  | None =>
      if cancelled then mkWaiting (wt_running w) true (wt_thread w) (Some (inr CancelledError))
      else
        match wt_thread w with
        | Finished => mkWaiting (wt_running w) (wt_shutdown w) Finished (Some (inl tt))
        | _ => w
        end
  end.

(** What happens: the thread takes a step, the event loop resumes or cancels
    the coroutine, the application resumes or stops the producer. *)
Inductive happening : Type := Thread | Loop | Cancel | Resume | Stop.

#[export] Instance happening_eq_dec : EqDecision happening.
Proof. solve_decision. Defined.

Definition wait_step (w : waiting) (t : happening) : waiting :=
  match t with
  | Thread => wait_for_running_internal w
  | Loop => wait_for_running false w
  | Cancel => wait_for_running true w
  | Resume => mkWaiting true (wt_shutdown w) (wt_thread w) (wt_result w)
  | Stop => mkWaiting false (wt_shutdown w) (wt_thread w) (wt_result w)
  end.

Definition wait_run (w : waiting) (l : list happening) : waiting := foldl wait_step w l.

(** The thread has seen the producer run, after [l]. *)
Fixpoint seen_running (w : waiting) (l : list happening) : bool :=
  match l with
  | [] => false
  | t :: l' =>
      (match t, wt_thread w with Thread, Polling => wt_running w | _, _ => false end)
      || seen_running (wait_step w t) l'
  end.

Lemma wait_run_app w l l' : wait_run w (l ++ l') = wait_run (wait_run w l) l'.
Proof. apply foldl_app. Qed.

Lemma seen_running_app w l l' :
  seen_running w (l ++ l') = seen_running w l || seen_running (wait_run w l) l'.
Proof.
  revert w. induction l as [|t l IH]; intros w; [done|]. cbn [app seen_running]. rewrite IH.
  by rewrite orb_assoc.
Qed.

(** The thread ends for a reason, and the coroutine after the thread or when it
    is cancelled. *)
Record wait_inv (seen : bool) (w : waiting) : Prop := {
  wi_thread : wt_thread w = Finished -> seen = true \/ wt_shutdown w = true;
  wi_result : match wt_result w with
              | None => wt_shutdown w = false
              | Some (inl _) => seen = true
              | Some (inr x) => x = CancelledError /\ wt_shutdown w = true
              end;
}.

Lemma wait_inv_step w t seen :
  wait_inv seen w ->
  wait_inv (seen || match t, wt_thread w with Thread, Polling => wt_running w | _, _ => false end) (wait_step w t).
Proof.
  intros [Ht Hr]. destruct w as [run shut th [[[]|x]|]], t, th, seen, run, shut; simpl in *;
    split; simpl in *; intuition congruence.
Qed.

Lemma wait_inv_run running l : wait_inv (seen_running (start_waiting running) l) (wait_run (start_waiting running) l).
Proof.
  induction l as [|t l IH] using rev_ind; [by split|].
  rewrite wait_run_app, seen_running_app. apply (wait_inv_step _ t) in IH. simpl.
  by rewrite orb_false_r.
Qed.

(** The wait returns only after the thread has seen the producer run; it raises
    only when it is cancelled, and then the thread ends within two of its steps,
    whatever else happens: no thread is left behind. *)
Theorem wait_ends_when_it_should running l :
  let w := wait_run (start_waiting running) l in
  (wt_result w = Some (inl tt) -> seen_running (start_waiting running) l = true) /\
  (forall x, wt_result w = Some (inr x) -> x = CancelledError) /\
  (forall x l', wt_result w = Some (inr x) -> (2 <= length (filter (fun t => t = Thread) l'))%nat ->
     wt_thread (wait_run w l') = Finished).
Proof.
  intros w. pose proof (wait_inv_run running l) as [Ht Hr]. fold w in Ht, Hr. split_and!.
  - intros E. by rewrite E in Hr.
  - intros x E. rewrite E in Hr. apply Hr.
  - intros x l' E. rewrite E in Hr. destruct Hr as [_ Hshut]. clear Ht. revert E Hshut. generalize w. clear w.
    assert (forall l' w, wt_result w = Some (inr x) -> wt_shutdown w = true ->
      (match wt_thread w with Testing => 1 | Polling => 2 | Finished => 0 end
         <= length (filter (fun t => t = Thread) l'))%nat -> wt_thread (wait_run w l') = Finished) as Haux.
    { clear l'. induction l' as [|t l' IH]; intros [run shut th r]; simpl; intros -> ->.
      - destruct th; simpl; [lia|lia|done].
      - destruct t; [rewrite filter_cons_True by done|rewrite filter_cons_False by done..]; cbn [length];
          destruct th, run; simpl; intros Hlen; apply IH; simpl; try done; lia. }
    intros w E Hshut Hlen. apply Haux; [done|done|]. destruct (wt_thread w); lia.
Qed.

(** As long as the producer does not run and the wait is not cancelled, it does
    not end; in particular [GabrielClient.stop], which does neither, does not end
    it. *)
Theorem wait_outlasts_stop l :
  Resume ∉ l -> Cancel ∉ l -> wt_result (wait_run (start_waiting false) l) = None.
Proof.
  assert (forall l w, wt_running w = false -> wt_shutdown w = false -> wt_thread w <> Finished ->
    wt_result w = None -> Resume ∉ l -> Cancel ∉ l -> wt_result (wait_run w l) = None) as Haux;
    [|by intros; apply Haux].
  clear l. induction l as [|t l IH]; intros [run shut th r]; simpl; intros -> -> Hth -> Hres Hcan; [done|].
  apply not_elem_of_cons in Hres as [Hres1 Hres2]. apply not_elem_of_cons in Hcan as [Hcan1 Hcan2].
  destruct t; try done; destruct th; try done; by apply IH.
Qed.
