(* ===== verification/Yuv.v ===== *)
(** * The YUV example

    [examples/one_way_yuv/client.py] converts the frames of a camera to NV21
    and packs them into a message; the engine of [examples/one_way_yuv/server.py]
    unpacks and reshapes them.  A picture is a list of rows of bytes. *)

From Stdlib Require Import QArith.
From S2P Require Import Prelude Coro Protocol EngineRunner Instances.

Open Scope list_scope.
Open Scope Z_scope.

Abbreviation picture := (list (list Z)).

(** [yuv[y, x]] *)
Definition px (m : picture) (y x : nat) : Z := nth x (nth y m []) 0.

(** [yuv[y, x] = v] *)
Definition set_px (m : picture) (y x : nat) (v : Z) : picture := alter (fun row => <[x := v]> row) y m.

(** The first loop of [YuvConverter.convert_to_nv21]. *)
Definition chrominance (yuv : picture) (bgr_height u_height width : nat) : list Z :=
  flat_map (fun y => flat_map (fun x => [px yuv (bgr_height + u_height + y) x; px yuv (bgr_height + y) x])
                       (seq 0 width)) (seq 0 u_height).

(** [for y in range(height): for x in range(width)] *)
Definition cells (bgr_height height width : nat) : list (nat * nat) :=
  flat_map (fun y => map (pair (bgr_height + y)%nat) (seq 0 width)) (seq 0 height).

(** The second loop, over the cells it writes: the picture, and what is left
    of the iterator. *)
Fixpoint fill (todo : list (nat * nat)) (it : list Z) (yuv : picture) : (picture * list Z) + exn :=
  match todo with
  | [] => inl (yuv, it)
  | (y, x) :: todo' =>
      match it with
      | [] => inr StopIteration
      | v :: it' => fill todo' it' (set_px yuv y x v)
      end
  end.

(** [YuvConverter.convert_to_nv21], after [cv2.cvtColor]. *)
Definition convert_to_nv21 (bgr_height width : nat) (yuv : picture) : picture + exn :=
  let yuv_height := length yuv in
  let chrominance_height := (yuv_height - bgr_height)%nat in
  let u_height := (chrominance_height / 2)%nat in
  match fill (cells bgr_height chrominance_height width)
          (chrominance yuv bgr_height u_height width) yuv with
  | inl (yuv, _) => inl yuv
  | inr x => inr x
  end.

(** ** The messages *)

(** [yuv_pb2.ToServer] *)
Record ToServer := mkToServer {
  ts_image : list Z;
  ts_width : Z;
  ts_height : Z;
  ts_rotation : Z;
}.

Definition default_ToServer : ToServer := mkToServer [] 0 0 0.
Definition ROTATION : Z := 0.

Section yuv.
Context `{!Codec ToServer}.

(** The name of the message type in an [Any]. *)
Variable type_url : string.

(** [any_payload.Pack(to_server)] *)
Definition pack (m : ToServer) : Any := mkAny type_url (serialize m).

(** [any_payload.Unpack(to_server)]: a message of another type is left
    unread. *)
Definition unpack (a : Any) : ToServer + exn :=
  if decide (any_type_url a = type_url) then
    match parse (any_value a) with Some m => inl m | None => inr DecodeError end
  else inl default_ToServer.

(** What the camera and OpenCV do: [cv2.cvtColor(frame, COLOR_BGR2YUV_I420)]
    of a frame with its height and width. *)
Variables (frame : Type) (shape : frame -> nat * nat) (to_i420 : frame -> picture).

(** [producer] of the client; what [convert_to_nv21] raises as the end of an
    iteration, a coroutine turns into [RuntimeError]. *)
Definition yuv_producer (captured : option frame) : option InputFrame + exn :=
  match captured with
  | None => inl None
  | Some f =>
      let '(height, width) := shape f in
      match convert_to_nv21 height width (to_i420 f) with
      | inr StopIteration => inr (RuntimeError "coroutine raised StopIteration")
      | inr x => inr x
      | inl yuv =>
          inl (Some (mkInputFrame IMAGE (AnyPayload (pack
            (mkToServer (concat yuv) (Z.of_nat width) (Z.of_nat height) ROTATION)))))
      end
  end.

(** [np.reshape(yuv, (rows, width))] *)
Fixpoint chunks (rows width : nat) (l : list Z) : picture :=
  match rows with
  | O => []
  | S rows' => take width l :: chunks rows' width (drop width l)
  end.

Definition reshape (l : list Z) (rows width : Z) : picture + exn :=
  if Z.of_nat (length l) =? rows * width then inl (chunks (Z.to_nat rows) (Z.to_nat width) l)
  else inr (ValueError "cannot reshape array").

(** [handle] of the engine, up to the conversion and the display of the
    picture: the picture it shows and the times it is rotated by 90 degrees, and
    the result. *)
Definition yuv_handle (input_frame : InputFrame) : (picture * option Q * handled) + exn :=
  match unpack (match input_payload input_frame with AnyPayload a => a | _ => default_Any end) with
  | inr x => inr x
  | inl m =>
      match reshape (ts_image m) (ts_height m + ts_height m / 2) (ts_width m) with
      | inr x => inr x
      | inl yuv =>
          inl (yuv, (if negb (ts_rotation m =? 0) then Some (inject_Z (360 - ts_rotation m) / inject_Z 90)%Q else None),
               AResult (inl (mkStatus SUCCESS "")) (PStr ""))
      end
  end.
End yuv.

(** ** Properties *)

(** The bytes of two planes, alternating. *)
Fixpoint interleave (vs us : list Z) : list Z :=
  match vs, us with
  | v :: vs', u :: us' => v :: u :: interleave vs' us'
  | _, _ => []
  end.

(** The planes of an I420 picture, below the luminance. *)
Definition u_plane (h u : nat) (m : picture) : list Z := concat (take u (drop h m)).
Definition v_plane (h u : nat) (m : picture) : list Z := concat (drop (h + u) m).

Definition shaped (rows width : nat) (m : picture) : Prop :=
  length m = rows /\ Forall (fun r => length r = width) m.

Lemma interleave_app v1 v2 u1 u2 :
  length v1 = length u1 -> interleave (v1 ++ v2) (u1 ++ u2) = interleave v1 u1 ++ interleave v2 u2.
Proof.
  revert u1. induction v1 as [|v v1 IH]; intros [|u u1]; simpl; try done. intros [= Hl]. by rewrite IH.
Qed.

(** One row of each plane. *)
Lemma interleave_row n k v u :
  length v = (k + n)%nat -> length u = (k + n)%nat ->
  flat_map (fun x => [nth x v 0; nth x u 0]) (seq k n) = interleave (drop k v) (drop k u).
Proof.
  revert k. induction n as [|n IH]; intros k Hv Hu; simpl.
  - by rewrite !drop_ge by lia.
  - rewrite (IH (S k)) by lia.
    destruct (lookup_lt_is_Some_2 v k) as [a Ha]; [lia|]. destruct (lookup_lt_is_Some_2 u k) as [b Hb]; [lia|].
    rewrite (drop_S v a k Ha), (drop_S u b k Hb). simpl.
    by rewrite (nth_lookup_Some v k 0 a Ha), (nth_lookup_Some u k 0 b Hb).
Qed.

Lemma interleave_rows w vs us :
  length vs = length us -> Forall (fun r => length r = w) vs -> Forall (fun r => length r = w) us ->
  flat_map (fun y => flat_map (fun x => [nth x (nth y vs []) 0; nth x (nth y us []) 0]) (seq 0 w))
    (seq 0 (length vs)) = interleave (concat vs) (concat us).
Proof.
  revert us. induction vs as [|v vs IH]; intros [|u us]; try done.
  intros [= Hl] [Hv Hvs]%Forall_cons [Hu Hus]%Forall_cons. cbn [length seq flat_map nth concat].
  rewrite interleave_app by congruence. f_equal.
  - by rewrite (interleave_row w 0) by done.
  - rewrite <- seq_shift, flat_map_concat_map, map_map, <- flat_map_concat_map. by apply IH.
Qed.

Lemma chrominance_interleaves h u w m :
  shaped (h + 2 * u) w m -> chrominance m h u w = interleave (v_plane h u m) (u_plane h u m).
Proof.
  intros [Hl Hw]. unfold chrominance, v_plane, u_plane.
  assert (length (drop (h + u) m) = u) as Lv by (rewrite length_drop; lia).
  rewrite <- (interleave_rows w); [|rewrite length_take, !length_drop; lia|by apply Forall_drop|by apply Forall_take, Forall_drop].
  rewrite Lv. rewrite !flat_map_concat_map. f_equal. apply map_ext_in. intros y Hy%in_seq.
  rewrite !flat_map_concat_map. f_equal. apply map_ext. intros x. unfold px.
  rewrite !nth_lookup, lookup_drop, lookup_take, decide_True, lookup_drop by lia. done.
Qed.

Lemma fill_app c1 c2 it m :
  fill (c1 ++ c2) it m = match fill c1 it m with inl (m', it') => fill c2 it' m' | inr x => inr x end.
Proof. revert it m. induction c1 as [|[y x] c1 IH]; intros it m; simpl; [done|]. by destruct it. Qed.

(** The iterator is exhausted exactly when there are fewer elements than
    cells. *)
Lemma fill_exhausted todo it m : (length it < length todo)%nat -> fill todo it m = inr StopIteration.
Proof.
  revert it m. induction todo as [|[y x] todo IH]; intros it m Hl; simpl in *; [lia|].
  destruct it; [done|]. apply IH. simpl in Hl. lia.
Qed.

Lemma fill_row n k y it m r :
  m !! y = Some r -> length r = (k + n)%nat -> (n <= length it)%nat ->
  fill (map (pair y) (seq k n)) it m = inl (<[y := take k r ++ take n it]> m, drop n it).
Proof.
  revert k it m r. induction n as [|n IH]; intros k it m r Hy Hr Hit; cbn [seq map fill].
  - rewrite take_0, drop_0, app_nil_r, take_ge by lia. by rewrite list_insert_id.
  - destruct it as [|v it]; [simpl in Hit; lia|]. simpl in Hit.
    assert (y < length m)%nat as Hlt by (by eapply lookup_lt_Some).
    assert (set_px m y k v !! y = Some (<[k := v]> r)) as Hy'.
    { unfold set_px. by rewrite list_lookup_alter_eq, Hy. }
    rewrite (IH (S k) it (set_px m y k v) (<[k := v]> r)); [|done|rewrite length_insert; lia|lia].
    cbn [drop take]. do 2 f_equal. unfold set_px.
    rewrite (alter_lookup_insert _ _ _ _ Hy), list_insert_insert_eq. f_equal.
    rewrite (take_S_r (<[k := v]> r) k v) by (rewrite list_lookup_insert_eq by lia; done).
    rewrite take_insert_ge by lia. by rewrite <- (assoc_L (++)).
Qed.

Lemma fill_rows n h w it m :
  length m = (h + n)%nat -> Forall (fun r => length r = w) m -> (n * w <= length it)%nat ->
  fill (cells h n w) it m = inl (take h m ++ chunks n w it, drop (n * w) it).
Proof.
  revert h it m. induction n as [|n IH]; intros h it m Hl Hw Hit; unfold cells; cbn [seq flat_map].
  - cbn [fill chunks]. rewrite app_nil_r, take_ge by lia. done.
  - rewrite Nat.add_0_r, fill_app.
    destruct (lookup_lt_is_Some_2 m h) as [r Hr]; [lia|].
    assert (length r = w) as Lr by (by eapply Forall_lookup_1 in Hw).
    rewrite (fill_row w 0 h it m r Hr) by lia. cbn [take app].
    rewrite <- seq_shift, flat_map_concat_map, map_map, <- flat_map_concat_map.
    assert (forall a, (h + S a = S h + a)%nat) as Hs by lia.
    erewrite flat_map_ext by (intros a; by rewrite Hs).
    assert (length (take w it) = w) as Lt by (rewrite length_take; lia).
    fold (cells (S h) n w). rewrite IH.
    + cbn [chunks]. rewrite drop_drop. do 2 f_equal.
      rewrite (take_S_r _ h (take w it)) by (apply list_lookup_insert_eq; lia).
      rewrite take_insert_ge by lia. by rewrite <- (assoc_L (++)).
    + rewrite length_insert. lia.
    + by apply Forall_insert.
    + rewrite length_drop. lia.
Qed.

Lemma length_concat_shaped rows w m : shaped rows w m -> length (concat m) = (rows * w)%nat.
Proof.
  intros [Hl Hw]. subst rows. induction Hw as [|r m Hr Hw IH]; simpl; [done|]. rewrite length_app. lia.
Qed.

Lemma concat_chunks n w l : length l = (n * w)%nat -> concat (chunks n w l) = l.
Proof.
  revert l. induction n as [|n IH]; intros l Hl; simpl.
  - by apply nil_length_inv in Hl.
  - rewrite IH by (rewrite length_drop; lia). apply take_drop.
Qed.

Lemma chunks_concat w m : Forall (fun r => length r = w) m -> chunks (length m) w (concat m) = m.
Proof.
  induction 1 as [|r m Hr Hw IH]; [done|]. cbn [length chunks concat].
  rewrite take_app_length', drop_app_length' by done. by rewrite IH.
Qed.

Lemma shaped_chunks n w l : length l = (n * w)%nat -> shaped n w (chunks n w l).
Proof.
  revert l. induction n as [|n IH]; intros l Hl; simpl; [done|].
  destruct (IH (drop w l)) as [H1 H2]; [rewrite length_drop; lia|].
  split; simpl; [by rewrite H1|]. constructor; [rewrite length_take; lia|done].
Qed.

Lemma length_interleave vs us : length vs = length us -> length (interleave vs us) = (2 * length us)%nat.
Proof. revert us. induction vs as [|v vs IH]; intros [|u us]; simpl; try done. intros [= Hl]. rewrite IH by done. lia. Qed.

(** A picture in NV21: the luminance of [m], and its V and U bytes
    alternating. *)
Definition nv21_of (h w : nat) (m m' : picture) : Prop :=
  shaped (h + h / 2) w m' /\ take h m' = take h m /\
  concat (drop h m') = interleave (v_plane h (h / 4) m) (u_plane h (h / 4) m).

Lemma planes_length h u w m :
  shaped (h + 2 * u) w m -> length (v_plane h u m) = (u * w)%nat /\ length (u_plane h u m) = (u * w)%nat.
Proof.
  intros [Hl Hw]. unfold v_plane, u_plane.
  split; apply length_concat_shaped; split; auto using Forall_take, Forall_drop;
    rewrite ?length_take, !length_drop; lia.
Qed.

(** A picture of height [2 * k], of which a quarter of the rows, rounded down,
    is taken for a plane. *)
Lemma chrominance_length h w m :
  Nat.Even h -> shaped (h + h / 2) w m -> length (chrominance m h (h / 2 / 2) w) = (2 * (h / 2 / 2) * w)%nat.
Proof.
  intros Hh [Hl Hw]. unfold chrominance.
  assert (forall g l, (forall y, length (g y : list Z) = (2 * w)%nat) ->
    length (flat_map g l) = (length (l : list nat) * (2 * w))%nat) as Hfm.
  { intros g l Hg. induction l as [|y l IH]; simpl; [done|]. rewrite length_app, Hg, IH. lia. }
  rewrite Hfm, length_seq; [lia|]. intros y.
  assert (forall l : list nat, length (flat_map (fun x => [px m (h + h / 2 / 2 + y) x; px m (h + y) x]) l)
    = (2 * length l)%nat) as Hrow by (induction l; simpl in *; lia).
  by rewrite Hrow, length_seq.
Qed.

Lemma cells_length h n w : length (cells h n w) = (n * w)%nat.
Proof.
  unfold cells. rewrite <- (length_seq n 0) at 2. generalize (seq 0 n). intros l.
  induction l as [|y l IH]; simpl; [done|]. by rewrite length_app, length_map, length_seq, IH.
Qed.

Lemma convert_ok h w m :
  Nat.Even h -> (0 < w)%nat -> shaped (h + h / 2) w m ->
  match convert_to_nv21 h w m with
  | inl m' => (h mod 4 = 0)%nat /\ nv21_of h w m m'
  | inr x => x = StopIteration /\ (h mod 4 = 2)%nat
  end.
Proof.
  intros Hev Hw Hm. pose proof Hm as [Hl Hrows]. unfold convert_to_nv21.
  replace (length m - h)%nat with (h / 2)%nat by lia.
  destruct Hev as [k Hk].
  assert (h / 2 = k)%nat as H2 by (subst h; rewrite Nat.mul_comm, Nat.div_mul; lia).
  assert ((k / 2 = h / 4)%nat) as H4 by (rewrite <- H2, Nat.Div0.div_div; done).
  pose proof (Nat.div_mod_eq k 2). pose proof (Nat.mod_upper_bound k 2).
  destruct (decide (k mod 2 = 0)%nat) as [Hk2|Hk2].
  - assert (h mod 4 = 0)%nat as Hmod.
    { replace h with (k / 2 * 4)%nat by lia. apply Nat.Div0.mod_mul. }
    assert (shaped (h + 2 * (h / 4)) w m) as Hs by (split; [lia|done]).
    destruct (planes_length _ _ _ _ Hs) as [Lv Lu].
    rewrite H2, H4, (chrominance_interleaves h (h / 4) w m Hs).
    assert (length (interleave (v_plane h (h / 4) m) (u_plane h (h / 4) m)) = k * w)%nat as Li.
    { rewrite length_interleave by congruence. rewrite Lu. nia. }
    rewrite fill_rows by (done || lia). split; [done|].
    assert (length (take h m) = h) as Lt by (rewrite length_take; lia).
    split_and!; unfold nv21_of.
    + destruct (shaped_chunks k w _ Li) as [L1 F1]. split; [rewrite length_app; lia|].
      apply Forall_app. split; [by apply Forall_take|done].
    + rewrite take_app_le by lia. rewrite take_take. f_equal. lia.
    + rewrite drop_app_length' by done. by rewrite concat_chunks.
  - rewrite fill_exhausted; [split; [done|]|].
    + replace h with (k / 2 * 4 + 2)%nat by lia. rewrite Nat.add_comm, Nat.Div0.mod_add. done.
    + rewrite chrominance_length, cells_length, H2 by (done || by exists k). nia.
Qed.

Section round_trip.
Context `{!Codec ToServer}.
Variables (type_url : string) (frame : Type) (shape : frame -> nat * nat) (to_i420 : frame -> picture).

(** OpenCV gives pictures of even height and a half more rows, as the I420
    format has them. *)
Hypothesis opencv_i420 : forall f,
  Nat.Even (shape f).1 /\ (0 < (shape f).2)%nat /\
  shaped ((shape f).1 + (shape f).1 / 2) (shape f).2 (to_i420 f).

(** C39. A frame of the YUV example arrives as it was meant: the engine sees the
    NV21 picture of the frame (its luminance, and the V and U bytes of its
    planes alternating), not rotated, and answers with success.  This holds of
    frames whose height is a multiple of four; for the other even heights the
    producer raises, since a plane is then not a whole number of rows. *)
Theorem yuv_frame_round_trip f :
  let '(h, w) := shape f in
  match yuv_producer type_url frame shape to_i420 (Some f) with
  | inl (Some input_frame) => (h mod 4 = 0)%nat /\ exists m,
      nv21_of h w (to_i420 f) m /\
      yuv_handle type_url input_frame =
        inl (m, None, AResult (inl (mkStatus SUCCESS "")) (PStr ""))
  | inl None => False
  | inr x => x = RuntimeError "coroutine raised StopIteration" /\ (h mod 4 = 2)%nat
  end.
Proof.
  destruct (opencv_i420 f) as (Hev & Hw & Hs). unfold yuv_producer.
  destruct (shape f) as [h w]. simpl in *. pose proof (convert_ok h w (to_i420 f) Hev Hw Hs) as Hc.
  destruct (convert_to_nv21 h w (to_i420 f)) as [m|x]; [|by destruct Hc as [-> ?]].
  destruct Hc as [Hmod Hnv]. split; [done|]. exists m. split; [done|].
  destruct Hnv as (Hshape & _). pose proof Hshape as [Hl Hrows].
  unfold yuv_handle, unpack, pack, reshape. simpl. rewrite decide_True by done. rewrite parse_serialize. simpl.
  assert (Z.of_nat h + Z.of_nat h / 2 = Z.of_nat (h + h / 2)) as Eh.
  { rewrite Nat2Z.inj_add, Nat2Z.inj_div. done. }
  rewrite (length_concat_shaped _ _ _ Hshape), Eh.
  rewrite (proj2 (Z.eqb_eq _ _)) by lia. rewrite !Nat2Z.id, <- Hl. by rewrite chunks_concat.
Qed.
End round_trip.

(** ** A concrete frame *)

#[export] Instance ToServer_countable_eq : EqDecision ToServer.
Proof. solve_decision. Defined.

#[export] Instance ToServer_countable : Countable ToServer.
Proof.
  refine (inj_countable' (fun m => (ts_image m, ts_width m, ts_height m, ts_rotation m))
            (fun '(i, w, h, r) => mkToServer i w h r) _). by intros [].
Defined.

Definition sample_i420 : picture := [[1; 2]; [3; 4]; [5; 6]; [7; 8]; [10; 11]; [20; 21]].

Lemma yuv_frame_round_trip_witness :
  exists input_frame, yuv_producer (Codec0 := countable_codec ToServer) "t" unit (fun _ => (4, 2)%nat)
      (fun _ => sample_i420) (Some tt) = inl (Some input_frame) /\
    exists m, nv21_of 4 2 sample_i420 m /\
      yuv_handle (Codec0 := countable_codec ToServer) "t" input_frame =
        inl (m, None, AResult (inl (mkStatus SUCCESS "")) (PStr "")).
Proof.
  pose proof (yuv_frame_round_trip (Codec0 := countable_codec ToServer) "t" unit (fun _ => (4, 2)%nat)
                (fun _ => sample_i420)) as H.
  assert (forall f : unit, Nat.Even (4, 2)%nat.1 /\ (0 < (4, 2)%nat.2)%nat /\
    shaped ((4, 2)%nat.1 + (4, 2)%nat.1 / 2) (4, 2)%nat.2 sample_i420) as Hcv.
  { intros f. split_and!; [by exists 2%nat|simpl; lia|]. split; [reflexivity|]. repeat constructor. }
  specialize (H Hcv tt). cbn beta iota in H.
  destruct (yuv_producer _ _ _ _ _) as [[fr|]|x]; [|done|by destruct H].
  exists fr. split; [done|]. exact (proj2 H).
Defined.
