(* ===== verification/Examples.v ===== *)
(** * The OpenCV adapter and the examples

    [python-client/src/gabriel_client/opencv_adapter.py] and the programs under
    [examples/] (the conversion of the YUV example is in [Yuv]): the engines, the
    servers they run in, and the clients that talk to them.  The camera, OpenCV
    and the display are parameters. *)

From stdpp Require Import pretty.
From S2P Require Import Prelude Coro Protocol Config EngineRunner EngineSession LocalServer ServerLaunch Instances PushSource.
From S2P Require Import ClientState ClientSession.

(** ** The OpenCV adapter *)

Section opencv.
(** [preprocess], [cv2.imencode(".jpg", ...)] with [tobytes()], and
    [cv2.imdecode(...)] with [consume_frame]. *)
Variables (frame shown : Type) (preprocess : frame -> frame) (imencode : frame -> bytes)
  (imdecode_and_consume : bytes -> shown).

(** [producer] of [OpencvAdapter.get_producer_wrappers] *)
Definition opencv_producer (captured : option frame) : option InputFrame :=
  match captured with
  | None => None
  | Some f => Some (mkInputFrame IMAGE (BytePayload (imencode (preprocess f))))
  end.

(** The producer that wraps it. *)
Definition get_producer_wrappers (engine_name uuid : string) : list InputProducer :=
  [new_input_producer [engine_name] None uuid].

(** [OpencvAdapter.consumer] *)
Definition opencv_consumer (result : Result) : shown + exn :=
  match payload result with
  | BytesResult b => inl (imdecode_and_consume b)
  | _ => inr AssertionError
  end.
End opencv.

(** ** The engines *)

Definition success : Status := mkStatus SUCCESS "".

(** [input_frame.byte_payload] *)
Definition byte_payload (f : InputFrame) : bytes :=
  match input_payload f with BytePayload b => b | _ => "" end.

(** [one_way.DisplayEngine.handle] *)
Definition one_way_handle (f : InputFrame) (info : Any) : handled :=
  AResult (inl success) (PStr "Hello from engine").

(** [empty_messages.EmptyEngine.handle] *)
Definition empty_handle (f : InputFrame) (info : Any) : handled := AResult (inl success) (PStr "").

(** [round_trip.DisplayEngine.handle] *)
Definition round_trip_handle (f : InputFrame) (info : Any) : handled :=
  AResult (inl success) (PBytes (byte_payload f)).

(** [EchoEngine.handle], of the tests of the Go client *)
Definition echo_handle (f : InputFrame) (info : Any) : handled := AResult (inl success) (PStr "hello").

(** ** The programs *)

Definition ZEROMQ_PORT : Z := 9099.

(** [main] of the servers of [empty_messages], [round_trip] and
    [one_way_yuv] *)
Definition empty_messages_server : LocalEngine := mkLocalEngine 60 9099 2 "empty" None true None.
Definition round_trip_server (engine_id : option string) : LocalEngine :=
  mkLocalEngine 60 ZEROMQ_PORT 2 (default "Engine-0" engine_id) None true None.
Definition yuv_server (engine_id : option string) : LocalEngine :=
  mkLocalEngine 60 ZEROMQ_PORT 2 (default "camera_yuv" engine_id) None true None.

(** [main] of the server of [one_way] *)
Definition one_way_server : ServerRunner :=
  mkServerRunner (Port 9099) (Port 5555) 2 60 None GRPC 8000 false false no_tls None.

(** The address of the engine of [one_way] *)
Definition one_way_engine_address (server_host : string) : string :=
  (server_host +:+ ":" +:+ pretty 5555)%string.

(** The endpoint of the clients *)
Definition zeromq_endpoint (server_host : option string) (port : Z) : string :=
  ("tcp://" +:+ default "localhost" server_host +:+ ":" +:+ pretty port)%string.

(** [main] of the clients; the engine they target. *)
Definition empty_messages_client (uuid : string) : ClientState + exn :=
  new_zeromq_client "tcp://localhost:9099" [new_input_producer ["empty"] (Some "empty") uuid] None.
Definition round_trip_client (engine_id server_host : option string) (uuid : string) : ClientState + exn :=
  new_zeromq_client (zeromq_endpoint server_host ZEROMQ_PORT)
    (get_producer_wrappers (default "Engine-0" engine_id) uuid) None.
Definition yuv_client (server_host : option string) (uuid : string) : ClientState + exn :=
  new_zeromq_client (zeromq_endpoint server_host ZEROMQ_PORT)
    [new_input_producer ["camera_yuv"] None uuid] None.
Definition one_way_client (server_host : option string) (uuids : list string) : ClientState + exn :=
  new_zeromq_client (zeromq_endpoint server_host 9099)
    (map (new_input_producer ["0"] None) uuids) None.

(** ** The command lines *)

(** [one_way/common.py] *)
Definition DEFAULT_ENGINE_ID : string := "0".
Definition DEFAULT_SERVER_HOST : string := "localhost".
Definition SERVER_FRONTEND_PORT : Z := 9099.
Definition SERVER_BACKEND_PORT : Z := 5555.

(** [parse_engine_id_server_host]: two optional positional arguments, none of
    them an option; argparse refuses a third. *)
Definition parse_engine_id_server_host (argv : list string) : string * string + exn :=
  match argv with
  | [] => inl (DEFAULT_ENGINE_ID, DEFAULT_SERVER_HOST)
  | [engine_id] => inl (engine_id, DEFAULT_SERVER_HOST)
  | [engine_id; server_host] => inl (engine_id, server_host)
  | _ => inr UsageError
  end.

(** ** The one-way example *)

(** [Source.get_input_producer] *)
Definition source_input_producer (producer_name : string) (target_engine_ids : list string) (uuid : string)
    : InputProducer := new_input_producer target_engine_ids (Some producer_name) uuid.

(** [main] of [push_client.py], up to [client.launch()] *)
Definition push_client (argv : list string) (uuid : string) : ClientState + exn :=
  match parse_engine_id_server_host argv with
  | inr x => inr x
  | inl (engine_id, server_host) =>
      new_zeromq_client (zeromq_endpoint (Some server_host) SERVER_FRONTEND_PORT)
        [source_input_producer engine_id [DEFAULT_ENGINE_ID] uuid] None
  end.

Section push.
Context `{!Codec InputFrame}.
(** [cv2.imencode(".jpg", ...)] with [tobytes()] *)
Variables (frame : Type) (imencode : frame -> bytes).

Definition jpeg_frame (f : frame) : InputFrame := mkInputFrame IMAGE (BytePayload (imencode f)).

(** [send_frames] of [push_client.py], for the frames that are captured. *)
Definition send_frames (captured : list frame) : psrc unit :=
  for_each captured (fun f => source_send (jpeg_frame f)).

(** [producer] of [producer_client.py]; [putText] writes the text on the
    picture. *)
Variable putText : frame -> string -> frame.

Definition gen_producer (n : Z) (f : frame) : InputFrame :=
  jpeg_frame (putText f ("client " +:+ pretty n)%string).
End push.

(** [consumer] of [empty_messages/client.py]: what it prints. *)
Definition empty_messages_consumer (result : Result) : string + exn :=
  match StatusCode_Name (code (status result)) with
  | Some name => inl ("Received a result with status: " +:+ name)%string
  | None => inr (ValueError "Enum has no name defined for value")
  end.

(** [main] of [one_way/engine.py]: the identifier and the address that the
    engine runner is given. *)
Definition one_way_engine (argv : list string) : string * string + exn :=
  match parse_engine_id_server_host argv with
  | inr x => inr x
  | inl (engine_id, server_host) => inl (engine_id, one_way_engine_address server_host)
  end.

(** ** The test engine of the Go client *)

(** The options of [echo_engine.py], with their defaults. *)
Record echo_args := mkEchoArgs {
  ea_engine_id : string;
  ea_server_address : string;
  ea_tls_ca_cert : option string;
  ea_tls_client_cert : option string;
  ea_tls_client_key : option string;
}.

Definition default_echo_args : echo_args := mkEchoArgs "0" "localhost:5555" None None None.

(** [main] of [echo_engine.py], up to [runner.run()]: the identifier and the
    address that the engine runner is given, and the runner. *)
Definition echo_engine (read_file : string -> bytes + exn) (args : echo_args)
    : (string * string * (option ChannelCredentials * RunnerState)) + exn :=
  match new_engine_runner read_file (ea_tls_ca_cert args) (ea_tls_client_cert args) (ea_tls_client_key args) with
  | inl runner => inl (ea_engine_id args, ea_server_address args, runner)
  | inr x => inr x
  end.

(** ** Properties *)

(** The engine of the tests of the Go client: started without options it finds a
    server that was started without options, on a channel without credentials; it
    answers every input of a client with the same text, whichever runner it is
    given to; and a client certificate without its key is refused. *)
Theorem echo_engine_answers (read_file : string -> bytes + exn) eid f info frame ca cert :
  echo_engine read_file default_echo_args =
    inl (DEFAULT_ENGINE_ID, ("localhost:" +:+ pretty DEFAULT_ENGINE_PORT)%string,
         (None, mkRunnerState false false [])) /\
  run_engine_result eid frame (echo_handle f info) = mkResult success (StringResult "hello") eid frame /\
  (cert <> ""%string ->
   echo_engine read_file (mkEchoArgs eid "localhost:5555" ca (Some cert) None) =
     inr (ValueError "cert_path and key_path must be provided together")).
Proof.
  split_and!; [by vm_compute|done|]. intros Hc. unfold echo_engine, new_engine_runner. cbn.
  unfold build_channel_credentials. destruct cert as [|a cert]; [done|]. cbn. by rewrite andb_false_r.
Qed.

(** The frames of a push client arrive: of several that are sent before the next
    one is asked for, the last is the one the engine gets, as the JPEG of the
    picture. *)
Theorem pushed_frames_arrive `{!Codec InputFrame} {frame} (imencode : frame -> bytes)
    (env : history source_sig -> forall e : psev, unit + exn) fs f h :
  let n := length (fs ++ [f]) in
  run env (send_frames frame imencode (fs ++ [f]) ;; repeat_prog n reader_callback ;; collect n)
    (mkSource 0 None [] true) h =
  (inl (repeat (Some (jpeg_frame frame imencode f)) n),
   mkSource 0 (Some (jpeg_frame frame imencode f)) [] true, h) /\
  byte_payload (jpeg_frame frame imencode f) = imencode f.
Proof.
  intros n. split; [|done].
  assert (send_frames frame imencode (fs ++ [f]) =
          for_each (map (jpeg_frame frame imencode) fs ++ [jpeg_frame frame imencode f]) source_send) as ->.
  { unfold send_frames. induction fs as [|g fs IH]; [done|]. cbn [app for_each map]. by rewrite IH. }
  pose proof (last_frame_is_returned_per_send env (map (jpeg_frame frame imencode) fs)
    (jpeg_frame frame imencode f) None h) as Hl. cbn zeta in Hl.
  rewrite length_app, length_map in Hl. unfold n. rewrite length_app. exact Hl.
Qed.

(** Every client of the one-way example targets the engine that is started
    without arguments, and engine and server agree on the port. *)
Theorem one_way_parts_fit uuid :
  (exists s, push_client [] uuid = inl s /\
     exists p, c_producers s = [p] /\ ip_target_engine_ids p = {[DEFAULT_ENGINE_ID]}) /\
  one_way_engine [] = inl (DEFAULT_ENGINE_ID, "localhost:5555"%string) /\
  sr_engine_endpoint one_way_server = Port SERVER_BACKEND_PORT /\
  sr_client_endpoint one_way_server = Port SERVER_FRONTEND_PORT.
Proof.
  split_and!; [|done..].
  unfold push_client. cbn [parse_engine_id_server_host]. eexists. split; [reflexivity|].
  eexists. split; [reflexivity|]. unfold source_input_producer, new_input_producer. simpl. set_solver.
Qed.

Section round_trip.
Context `{!Codec FromClient, !Codec Any, !Codec Result}.
Variables (frame shown : Type) (preprocess : frame -> frame) (imencode : frame -> bytes)
  (imdecode_and_consume : bytes -> shown).

(** The round-trip example shows what it captured: the frame that the OpenCV
    adapter encodes goes through the pipe to the engine of the example and back,
    and what the adapter decodes and shows is exactly the encoding of the frame,
    under the frame id it was sent with; whatever the client registered with. *)
Theorem opencv_round_trip engine_id f input_frame fid pid targets (info : Any) :
  opencv_producer frame preprocess imencode (Some f) = Some input_frame ->
  exists b r,
    run_engine_iter engine_id round_trip_handle
      (serialize (FromClient_input (mkInput fid pid targets input_frame))) (serialize info) = inl b /\
    parse b = Some r /\ frame_id r = fid /\
    opencv_consumer shown imdecode_and_consume r
      = inl (imdecode_and_consume (imencode (preprocess f))).
Proof.
  intros [= <-]. unfold run_engine_iter. rewrite parse_serialize.
  assert (exists i, (if truthy_str (Some (serialize info)) then parse (serialize info)
                     else Some default_Any) = Some i) as [i ->].
  { rewrite (parse_serialize info). destruct (truthy_str (Some (serialize info))); by eexists. }
  eexists _, _. split; [reflexivity|]. split; [apply parse_serialize|]. done.
Qed.
End round_trip.

(** A client that targets one engine. *)
Definition targets_only (engine_id : string) (s : ClientState) : Prop :=
  exists p, c_producers s = [p] /\ ip_target_engine_ids p = {[engine_id]}.

Lemma zeromq_endpoint_accepted host port ps info :
  exists s, new_zeromq_client (zeromq_endpoint host port) ps info = inl s /\ c_producers s = ps.
Proof. unfold new_zeromq_client. cbn. by eexists. Qed.

Lemma singleton_targets eid name uuid :
  ip_target_engine_ids (new_input_producer [eid] name uuid) = {[eid]}.
Proof. unfold new_input_producer. simpl. set_solver. Qed.

(** The client and the server of an example fit together, whatever host the
    client is told: the client is constructed, it speaks ZeroMQ to the port the
    server listens on, and its producer targets the engine of the server; except
    in the one-way example, whose clients speak ZeroMQ to a server that runs with
    its default transport, gRPC. *)
Theorem examples_fit_together host uuid :
  (exists s, empty_messages_client uuid = inl s /\
     targets_only (le_engine_id empty_messages_server) s) /\
  (forall eid, exists s, round_trip_client eid host uuid = inl s /\
     targets_only (le_engine_id (round_trip_server eid)) s) /\
  (exists s, yuv_client host uuid = inl s /\ targets_only (le_engine_id (yuv_server None)) s) /\
  Forall (fun l => le_use_zeromq l = true /\ le_port l = 9099)
    [empty_messages_server; round_trip_server None; yuv_server None] /\
  (exists s, one_way_client host [uuid] = inl s /\ sr_client_transport one_way_server <> ZEROMQ).
Proof.
  split_and!.
  - destruct (zeromq_endpoint_accepted None 9099 [new_input_producer ["empty"] (Some "empty") uuid] None)
      as (s & Hs & Hp).
    exists s. split; [exact Hs|]. eexists. split; [exact Hp|]. apply singleton_targets.
  - intros eid. destruct (zeromq_endpoint_accepted host ZEROMQ_PORT
      (get_producer_wrappers (default "Engine-0" eid) uuid) None) as (s & Hs & Hp).
    exists s. split; [exact Hs|]. eexists. split; [exact Hp|]. apply singleton_targets.
  - destruct (zeromq_endpoint_accepted host ZEROMQ_PORT [new_input_producer ["camera_yuv"] None uuid] None)
      as (s & Hs & Hp).
    exists s. split; [exact Hs|]. eexists. split; [exact Hp|]. apply singleton_targets.
  - repeat constructor.
  - destruct (zeromq_endpoint_accepted host 9099 (map (new_input_producer ["0"] None) [uuid]) None)
      as (s & Hs & _). exists s. by split.
Qed.

Section witness.
Import Concrete.

Lemma opencv_round_trip_witness :
  exists b r,
    run_engine_iter "Engine-0" round_trip_handle
      (serialize (FromClient_input (mkInput 1 "p" ["Engine-0"] (mkInputFrame IMAGE (BytePayload "jpg")))))
      (serialize default_Any) = inl b /\
    parse b = Some r /\ frame_id r = 1 /\ opencv_consumer string id r = inl "jpg".
Proof.
  apply (opencv_round_trip string string id id id "Engine-0" "jpg").
  reflexivity.
Defined.
End witness.
