(* ===== verification/Messages.v ===== *)
(** * The messages on the wire

    The messages of [gabriel.proto], encoded as [Wire] says with the field
    numbers of [Descriptor].  That a message which the sources can build survives
    the way through the wire is what they rely on ([Codec]); the encoding also
    shows that no message of a client or of the server can be taken for one of
    the control messages of the ZeroMQ transport.  The embedded messages that the
    sources set in every message they send are always written, also when they have
    their default value; only for the [client_info] of a registration, which a
    client may leave unset, the records of [Protocol] do not tell an empty message
    from none, and neither is written here. *)

From S2P Require Import Prelude Protocol Wire Descriptor ServerState ZeroMQServer ClientState ZeroMQClient.

(** ** Enums *)

Definition PayloadType_number (t : PayloadType) : Z :=
  match t with
  | PAYLOAD_TYPE_UNSPECIFIED => 0 | TEXT => 1 | IMAGE => 2 | AUDIO => 3 | VIDEO => 4 | OTHER => 100
  | PAYLOAD_TYPE_UNRECOGNIZED n => n
  end.

Definition PayloadType_of (n : Z) : PayloadType :=
  if n =? 0 then PAYLOAD_TYPE_UNSPECIFIED else if n =? 1 then TEXT else if n =? 2 then IMAGE
  else if n =? 3 then AUDIO else if n =? 4 then VIDEO else if n =? 100 then OTHER
  else PAYLOAD_TYPE_UNRECOGNIZED n.

Definition StatusCode_number (c : StatusCode) : Z :=
  match c with
  | STATUS_CODE_UNSPECIFIED => 0 | SUCCESS => 1 | UNSPECIFIED_ERROR => 2 | ENGINE_ERROR => 3
  | WRONG_INPUT_FORMAT => 4 | NO_ENGINE_FOR_INPUT => 5 | NO_TOKENS => 6 | SERVER_DROPPED_FRAME => 7
  | UNRECOGNIZED n => n
  end.

Definition StatusCode_of (n : Z) : StatusCode :=
  if n =? 0 then STATUS_CODE_UNSPECIFIED else if n =? 1 then SUCCESS else if n =? 2 then UNSPECIFIED_ERROR
  else if n =? 3 then ENGINE_ERROR else if n =? 4 then WRONG_INPUT_FORMAT
  else if n =? 5 then NO_ENGINE_FOR_INPUT else if n =? 6 then NO_TOKENS
  else if n =? 7 then SERVER_DROPPED_FRAME else UNRECOGNIZED n.

(** ** Messages *)

Definition Any_codec : fields Any :=
  seen_as (both (optional "type_url" 1 text "") (optional "value" 2 blob ""))
    (fun '(t, v) => mkAny t v) (fun a => (any_type_url a, any_value a)).

Definition any_message : scalar Any := embedded any_name Any_codec.

(** The oneof of an [InputFrame]. *)
Definition InputPayload_codec : fields InputPayload :=
  seen_as
    (oneof (either (alone "payload" "string_payload" 2 text)
           (either (alone "payload" "byte_payload" 3 blob) (alone "payload" "any_payload" 4 any_message))))
    (fun x => match x with
              | None => NoInputPayload
              | Some (inl s) => StringPayload s
              | Some (inr (inl b)) => BytePayload b
              | Some (inr (inr a)) => AnyPayload a
              end)
    (fun p => match p with
              | NoInputPayload => None
              | StringPayload s => Some (inl s)
              | BytePayload b => Some (inr (inl b))
              | AnyPayload a => Some (inr (inr a))
              end).

Definition InputFrame_codec : fields InputFrame :=
  seen_as
    (both (optional "payload_type" 1 (enum (gabriel "PayloadType") PayloadType_number PayloadType_of)
             PAYLOAD_TYPE_UNSPECIFIED)
       InputPayload_codec)
    (fun '(t, p) => mkInputFrame t p) (fun f => (payload_type f, input_payload f)).

Definition Input_codec : fields Input :=
  seen_as
    (both (optional "frame_id" 1 int64 0) (both (optional "producer_id" 2 text "")
    (both (repeated "target_engine_ids" 3 text)
          (always_set "input_frame" 4 (embedded (gabriel "InputFrame") InputFrame_codec) default_InputFrame))))
    (fun '(f, (p, (t, i))) => mkInput f p t i)
    (fun i => (in_frame_id i, (in_producer_id i, (in_target_engine_ids i, in_input_frame i)))).

Definition Registration_codec : fields Any := optional "client_info" 1 any_message default_Any.

Definition FromClient_codec : fields FromClient :=
  seen_as
    (oneof (either (alone "message_type" "input" 1 (embedded (gabriel "FromClient.Input") Input_codec))
                   (alone "message_type" "registration" 2
                      (embedded (gabriel "FromClient.Registration") Registration_codec))))
    (fun x => match x with
              | None => FromClient_unset
              | Some (inl i) => FromClient_input i
              | Some (inr a) => FromClient_registration a
              end)
    (fun m => match m with
              | FromClient_unset => None
              | FromClient_input i => Some (inl i)
              | FromClient_registration a => Some (inr a)
              end).

Definition Status_codec : fields Status :=
  seen_as
    (both (optional "code" 1 (enum (gabriel "StatusCode") StatusCode_number StatusCode_of)
             STATUS_CODE_UNSPECIFIED)
       (optional "message" 2 text ""))
    (fun '(c, m) => mkStatus c m) (fun s => (code s, message s)).

(** The oneof of a [Result]. *)
Definition ResultPayload_codec : fields ResultPayload :=
  seen_as
    (oneof (either (alone "payload" "string_result" 2 text)
           (either (alone "payload" "bytes_result" 3 blob) (alone "payload" "any_result" 4 any_message))))
    (fun x => match x with
              | None => NoResult
              | Some (inl s) => StringResult s
              | Some (inr (inl b)) => BytesResult b
              | Some (inr (inr a)) => AnyResult a
              end)
    (fun p => match p with
              | NoResult => None
              | StringResult s => Some (inl s)
              | BytesResult b => Some (inr (inl b))
              | AnyResult a => Some (inr (inr a))
              end).

Definition Result_codec : fields Result :=
  seen_as
    (both (always_set "status" 1 (embedded (gabriel "Status") Status_codec) default_Status)
    (both ResultPayload_codec
    (both (optional "target_engine_id" 5 text "") (optional "frame_id" 6 int64 0))))
    (fun '(s, (p, (t, f))) => mkResult s p t f)
    (fun r => (status r, (payload r, (target_engine_id r, frame_id r)))).

Definition Registered_codec : fields Registered :=
  seen_as (both (optional "num_tokens_per_producer" 1 int32 0) (repeated "engine_ids" 2 text))
    (fun '(n, e) => mkRegistered n e) (fun r => (num_tokens_per_producer r, registered_engine_ids r)).

Definition EngineIdsUpdate_codec : fields (list string) := repeated "engine_ids" 1 text.

Definition ResultWrapper_codec : fields ResultWrapper :=
  seen_as
    (both (optional "producer_id" 1 text "") (both (optional "return_token" 2 boolean false)
       (always_set "result" 3 (embedded (gabriel "Result") Result_codec) default_Result)))
    (fun '(p, (t, r)) => mkResultWrapper p t r)
    (fun w => (rw_producer_id w, (rw_return_token w, rw_result w))).

Definition ToClient_codec : fields ToClient :=
  seen_as
    (oneof (either (alone "message_type" "registered" 1 (embedded (gabriel "ToClient.Registered") Registered_codec))
           (either (alone "message_type" "result_wrapper" 2
                      (embedded (gabriel "ToClient.ResultWrapper") ResultWrapper_codec))
                   (alone "message_type" "engine_ids_update" 3
                      (embedded (gabriel "ToClient.EngineIdsUpdate") EngineIdsUpdate_codec)))))
    (fun x => match x with
              | None => ToClient_unset
              | Some (inl r) => ToClient_registered r
              | Some (inr (inl w)) => ToClient_result_wrapper w
              | Some (inr (inr ids)) => ToClient_engine_ids_update ids
              end)
    (fun m => match m with
              | ToClient_unset => None
              | ToClient_registered r => Some (inl r)
              | ToClient_result_wrapper w => Some (inr (inl w))
              | ToClient_engine_ids_update ids => Some (inr (inr ids))
              end).

Definition Register_codec : fields Register :=
  seen_as (both (optional "engine_id" 1 text "") (optional "all_responses_required" 2 boolean false))
    (fun '(e, a) => mkRegister e a) (fun r => (reg_engine_id r, reg_all_responses_required r)).

Definition FromEngine_codec : fields FromEngine :=
  seen_as
    (oneof (either (alone "message_type" "register" 1 (embedded (gabriel "FromEngine.Register") Register_codec))
                   (alone "message_type" "result" 2 (embedded (gabriel "Result") Result_codec))))
    (fun x => match x with
              | None => FromEngine_unset
              | Some (inl r) => FromEngine_register r
              | Some (inr r) => FromEngine_result r
              end)
    (fun m => match m with
              | FromEngine_unset => None
              | FromEngine_register r => Some (inl r)
              | FromEngine_result r => Some (inr r)
              end).

Definition ToEngine_codec : fields ToEngine :=
  seen_as
    (both (oneof (alone "message_type" "input_frame" 1 (embedded (gabriel "InputFrame") InputFrame_codec)))
          (always_set "client_info" 2 any_message default_Any))
    (fun '(i, c) => mkToEngine i c) (fun m => (te_input_frame m, te_client_info m)).

#[export] Instance Any_ok : FieldsOk Any_codec.
Proof. unfold Any_codec. parts_ok. Qed.
#[export] Instance InputPayload_ok : FieldsOk InputPayload_codec.
Proof. unfold InputPayload_codec, any_message. parts_ok. Qed.
#[export] Instance InputFrame_ok : FieldsOk InputFrame_codec.
Proof. unfold InputFrame_codec. parts_ok. Qed.
#[export] Instance Input_ok : FieldsOk Input_codec.
Proof. unfold Input_codec. parts_ok. Qed.
#[export] Instance Registration_ok : FieldsOk Registration_codec.
Proof. unfold Registration_codec, any_message. parts_ok. Qed.
#[export] Instance FromClient_ok : FieldsOk FromClient_codec.
Proof. unfold FromClient_codec. parts_ok. Qed.
#[export] Instance Status_ok : FieldsOk Status_codec.
Proof. unfold Status_codec. parts_ok. Qed.
#[export] Instance ResultPayload_ok : FieldsOk ResultPayload_codec.
Proof. unfold ResultPayload_codec, any_message. parts_ok. Qed.
#[export] Instance Result_ok : FieldsOk Result_codec.
Proof. unfold Result_codec. parts_ok. Qed.
#[export] Instance Registered_ok : FieldsOk Registered_codec.
Proof. unfold Registered_codec. parts_ok. Qed.
#[export] Instance EngineIdsUpdate_ok : FieldsOk EngineIdsUpdate_codec.
Proof. unfold EngineIdsUpdate_codec. parts_ok. Qed.
#[export] Instance ResultWrapper_ok : FieldsOk ResultWrapper_codec.
Proof. unfold ResultWrapper_codec. parts_ok. Qed.
#[export] Instance ToClient_ok : FieldsOk ToClient_codec.
Proof. unfold ToClient_codec. parts_ok. Qed.
#[export] Instance Register_ok : FieldsOk Register_codec.
Proof. unfold Register_codec. parts_ok. Qed.
#[export] Instance FromEngine_ok : FieldsOk FromEngine_codec.
Proof. unfold FromEngine_codec. parts_ok. Qed.
#[export] Instance ToEngine_ok : FieldsOk ToEngine_codec.
Proof. unfold ToEngine_codec, any_message. parts_ok. Qed.

(** The declared values of an enum, by name. *)
Definition PayloadType_Name (t : PayloadType) : option string :=
  match t with
  | PAYLOAD_TYPE_UNSPECIFIED => Some "PAYLOAD_TYPE_UNSPECIFIED"
  | TEXT => Some "TEXT" | IMAGE => Some "IMAGE" | AUDIO => Some "AUDIO" | VIDEO => Some "VIDEO"
  | OTHER => Some "OTHER"
  | PAYLOAD_TYPE_UNRECOGNIZED _ => None
  end%string.

(** ** What is on the wire *)

(** The codecs cover the fields of the declarations, with their names, numbers,
    types and oneofs, and the enums have the declared numbers. *)
Definition codecs_as_declared : Prop :=
  d_fields InputFrame_codec = m_fields (m_shape InputFrame_decl) /\
  d_fields Input_codec = m_fields FromClient_Input_decl /\
  d_fields Registration_codec = m_fields FromClient_Registration_decl /\
  d_fields FromClient_codec = m_fields (m_shape FromClient_decl) /\
  d_fields Status_codec = m_fields (m_shape Status_decl) /\
  d_fields Result_codec = m_fields (m_shape Result_decl) /\
  d_fields Registered_codec = m_fields ToClient_Registered_decl /\
  d_fields EngineIdsUpdate_codec = m_fields ToClient_EngineIdsUpdate_decl /\
  d_fields ResultWrapper_codec = m_fields ToClient_ResultWrapper_decl /\
  d_fields ToClient_codec = m_fields (m_shape ToClient_decl) /\
  d_fields Register_codec = m_fields FromEngine_Register_decl /\
  d_fields FromEngine_codec = m_fields (m_shape FromEngine_decl) /\
  d_fields ToEngine_codec = m_fields (m_shape ToEngine_decl) /\
  Forall (fun '(s, n) => PayloadType_Name (PayloadType_of n) = Some s) (e_values PayloadType_decl) /\
  Forall (fun '(s, n) => StatusCode_Name (StatusCode_of n) = Some s) (e_values StatusCode_decl).

Lemma codecs_are_as_declared : codecs_as_declared.
Proof. repeat split; repeat constructor. Qed.

(** The codecs of the messages on the wire: what is serialized is parsed back. *)
Lemma FromClient_wire m :
  d_fits FromClient_codec m = true -> unmarshal FromClient_codec (marshal FromClient_codec m) = Some m.
Proof. by apply unmarshal_marshal, _. Qed.
Lemma ToClient_wire m :
  d_fits ToClient_codec m = true -> unmarshal ToClient_codec (marshal ToClient_codec m) = Some m.
Proof. by apply unmarshal_marshal, _. Qed.
Lemma FromEngine_wire m :
  d_fits FromEngine_codec m = true -> unmarshal FromEngine_codec (marshal FromEngine_codec m) = Some m.
Proof. by apply unmarshal_marshal, _. Qed.
Lemma ToEngine_wire m :
  d_fits ToEngine_codec m = true -> unmarshal ToEngine_codec (marshal ToEngine_codec m) = Some m.
Proof. by apply unmarshal_marshal, _. Qed.

(** The first byte of an encoded message is the key of its first record. *)
Lemma first_byte n v l :
  0 <= n * 8 + wire_code (wire_of v) < 128 ->
  exists s, put_records ((n, v) :: l) = String (byte_of (n * 8 + wire_code (wire_of v))) s.
Proof.
  intros Hn. eexists. unfold put_records. cbn [foldr]. unfold put_record at 1, varint. cbn [fst snd put_varint].
  rewrite (proj2 (Z.ltb_lt _ _)) by lia. rewrite !string_app_assoc. reflexivity.
Qed.

(** C34. On the socket of the ZeroMQ transport no message is taken for a control
    message: the encoding of a message of a client, or of the server, is a
    heartbeat exactly if the message is empty, and never the hello of a client. *)
Theorem messages_are_not_control_messages :
  (forall m, marshal FromClient_codec m = Zmq.HEARTBEAT <-> m = FromClient_unset) /\
  (forall m, marshal FromClient_codec m <> Zmq.HELLO_MSG) /\
  (forall m, marshal ToClient_codec m = ZmqC.HEARTBEAT <-> m = ToClient_unset).
Proof.
  assert (forall n b, n = 1 \/ n = 2 \/ n = 3 -> exists s, put_records [(n, Len b)] = String (byte_of (n * 8 + 2)) s)
    as Hfirst.
  { intros n b Hn. destruct (first_byte n (Len b) []) as [s Hs]; [simpl; lia|]. by exists s. }
  split_and!.
  - intros [|i|a]; [done|..]; (split; [|done]); unfold marshal; cbn [d_put FromClient_codec seen_as oneof either alone o_put s_put embedded];
      (edestruct Hfirst as [s ->]; [|done]); auto.
  - intros [|i|a]; [done|..]; unfold marshal; cbn [d_put FromClient_codec seen_as oneof either alone o_put s_put embedded];
      (edestruct Hfirst as [s ->]; [|done]); auto.
  - intros [|r|w|ids]; [done|..]; (split; [|done]); unfold marshal; cbn [d_put ToClient_codec seen_as oneof either alone o_put s_put embedded];
      (edestruct Hfirst as [s ->]; [|done]); auto.
Qed.

(** A negative frame id, an empty list, an embedded message and a oneof. *)
Definition sample_input : FromClient :=
  FromClient_input (mkInput (-2) "p" ["e"; ""]
    (mkInputFrame TEXT (AnyPayload (mkAny "type.googleapis.com/x" "payload")))).

Definition sample_response : ToClient :=
  ToClient_result_wrapper (mkResultWrapper "p" true
    (mkResult (mkStatus NO_TOKENS "none left") (StringResult "") "e" (2 ^ 63 - 1))).

Example samples_survive_the_wire :
  unmarshal FromClient_codec (marshal FromClient_codec sample_input) = Some sample_input /\
  unmarshal ToClient_codec (marshal ToClient_codec sample_response) = Some sample_response.
Proof. split; [apply FromClient_wire|apply ToClient_wire]; vm_compute; reflexivity. Qed.

(** The empty registration, two bytes, and an input whose only field is its
    empty frame. *)
Example empty_registration_on_the_wire :
  marshal FromClient_codec (FromClient_registration default_Any) = py_bytes "\x12\x00" /\
  marshal FromClient_codec (FromClient_input (mkInput 0 "" [] default_InputFrame)) =
    py_bytes "\x0a\x02\x22\x00".
Proof. split; reflexivity. Qed.

Example numbers_on_the_wire :
  varint 150 = py_bytes "\x96\x01" /\
  marshal Registered_codec (mkRegistered (-1) []) = py_bytes "\x08\xff\xff\xff\xff\xff\xff\xff\xff\xff\x01".
Proof. split; vm_compute; reflexivity. Qed.
