(* ===== verification/Scripts.v ===== *)
(** * The scripts of the repository

    [scripts/check_python_compiles.py], which continuous integration runs on the
    Python files. *)

From S2P Require Import Prelude.

(** What [py_compile.compile(path, doraise=True)] does with a file: it compiles,
    is refused, or cannot be read. *)
Inductive compiled : Type :=
| Compiled
| PyCompileError (msg : string)
| Raises (x : exn).

Section check.
Variable compile : string -> compiled.

(** The loop of [main]: what is printed on the standard error, and [failed]. *)
Fixpoint check_loop (paths : list string) (failed : bool) : list string * (bool + exn) :=
  match paths with
  | [] => ([], inl failed)
  | path :: paths' =>
      match compile path with
      | Compiled => check_loop paths' failed
      | PyCompileError e => let '(printed, r) := check_loop paths' true in (e :: printed, r)
      | Raises x => ([], inr x)
      end
  end.

(** [main] of [check_python_compiles.py]: the exit status. *)
Definition check_python_compiles (paths : list string) : list string * (Z + exn) :=
  let '(printed, r) := check_loop paths false in
  (printed, match r with inl failed => inl (if failed : bool then 1 else 0) | inr x => inr x end).

(** The message for a file that is refused. *)
Definition error_of (path : string) : option string :=
  match compile path with PyCompileError e => Some e | _ => None end.

Lemma errors_cons p paths :
  omap error_of (p :: paths) =
  match compile p with PyCompileError e => [e] | _ => [] end ++ omap error_of paths.
Proof. cbn. unfold error_of at 1. by destruct (compile p). Qed.

Lemma check_loop_readable paths failed :
  Forall (fun p => forall x, compile p <> Raises x) paths ->
  check_loop paths failed = (omap error_of paths, inl (failed || bool_decide (omap error_of paths <> []))).
Proof.
  intros Hp. revert failed. induction Hp as [|p paths Hp _ IH]; intros failed.
  - simpl. by rewrite orb_false_r.
  - rewrite errors_cons. cbn [check_loop].
    destruct (compile p) as [|e|x] eqn:Hc; [apply IH| |by destruct (Hp x)].
    rewrite IH, (bool_decide_true ([e] ++ _ <> [])) by done. by rewrite orb_true_r.
Qed.

(** When every file can be read, the messages of those that do not compile are
    printed, in order, and the script succeeds exactly if there is none. *)
Theorem check_reports_every_error paths :
  Forall (fun p => forall x, compile p <> Raises x) paths ->
  exists status, check_python_compiles paths = (omap error_of paths, inl status) /\
    (status = 0 <-> Forall (fun p => compile p = Compiled) paths).
Proof.
  intros Hp. unfold check_python_compiles. rewrite (check_loop_readable paths false Hp). simpl.
  eexists. split; [reflexivity|]. induction Hp as [|p paths Hp _ IH]; [by split|].
  rewrite errors_cons. destruct (compile p) as [|e|x] eqn:Hc; [| |by destruct (Hp x)].
  - rewrite Forall_cons. tauto.
  - rewrite bool_decide_true by done. split; [done|]. intros [Hno _]%Forall_cons. congruence.
Qed.

(** A file that cannot be read ends the check. *)
Theorem check_stops_at_unreadable_file paths p x rest :
  Forall (fun p => compile p = Compiled) paths -> compile p = Raises x ->
  check_python_compiles (paths ++ p :: rest) = ([], inr x).
Proof.
  intros Hp Hx. unfold check_python_compiles. generalize false.
  induction Hp as [|q paths Hq _ IH]; intros failed; simpl; [by rewrite Hx|]. by rewrite Hq.
Qed.
End check.
